(* ===== verification/_CoqProject ===== *)
-Q . S2P
Prelude.v
CString.v
Enums.v
Wire.v
LLParse.v
ExtRsp.v
Pdu.v
SmsText.v
Timers.v
State.v
Queue.v
Events.v
OpCache.v
SmsCb.v
Unsolicited.v
Vendor.v
UsockCb.v
Main.v
AtCmd.v
Engine.v
Response.v
Usock.v
Requests.v
Codes.v
Daemon.v
Wakeup.v
ClientLib.v
ClientReq.v
EndToEnd.v
TextRequests.v
Delivery.v
EnvVar.v
EnvParse.v
EnvFile.v
FpdTsort.v
FpdNum.v
FpdExpr.v
FpdParse.v
FpdUnparse.v
FpdDelete.v
FpdUndo.v
FpdLists.v
FpdExact.v
FpdFrame.v
FpdMove.v
OpkgVersion.v
OpkgHash.v
OpkgDepends.v
OpkgParse.v
