(* ===== verification/Prelude.v ===== *)
(** * A verification library for OpenMoko: the GSM daemon, its client library, envedit, fped and opkg

    gsmd (src/target/gsm) owns the serial line of a phone's GSM modem.  Programs
    connect to its socket and send requests; it turns them into AT commands, sends
    one at a time, gathers the modem's response and answers the client; what the
    modem reports on its own it turns into events for the clients that subscribed.
    It is one process with one loop over its file descriptors and one signal for
    its timers.  Programs do not write to the socket themselves but call libgsmd,
    which makes messages of requests and gives the messages that arrive to the
    program's handlers.

    envedit (src/host/envedit) is a program of its own: it reads the environment of
    the boot loader, a block of NUL-terminated variables behind a checksum, changes
    it as a file of edits and the command line ask, and prints it or writes a block
    again.

    fped (eda/fped) is an editor for the footprints of electronic components: a
    footprint is made of frames, which hold tables of values, loops, vectors and
    objects whose places are expressions with units.  Modelled are its expressions,
    the sort that orders what is written to a file, the deletion of items with
    what depends on them, and the moving of vectors.

    opkg (src/target/opkg) installs packages on the phone.  Modelled is how it decides
    what to install: the order of versions, the text of dependencies, the search for
    the packages that a package needs, and the hash tables in which packages are kept.

    ** The files, and the code they model

    Foundations
    - [Prelude]: the state-and-failure monad, its logic ([wp], [wpe], [keeps]), machine
      integers, tactics.
    - [CString]: the C library's string functions the daemon calls, and strl.c.
    - [Enums], [Wire]: include/gsmd/usock.h and event.h: the numbers and the
      structures on the client's socket, as blocks of memory.

    Parts without the daemon's state
    - [LLParse]: the llparse functions of atcmd.c, which cut the UART's bytes into
      lines.
    - [ExtRsp]: ext_response.c, the parameters of a "+XYZ:" line.
    - [Pdu]: sms_pdu.c, short messages and cell broadcast pages as octets.
    - [SmsText]: 7-bit text as octets, and numbers as addresses (libgsmd_sms.c).
    - [Timers]: timer.c.

    The daemon
    - [State]: struct gsmd and what hangs off it (gsmd.h, state.h).
    - [Queue]: making and submitting commands (atcmd.c, machine_gta01.c).
    - [Events]: messages to clients (usock.c, unsolicited.c).
    - [OpCache]: operator_cache.c.
    - [SmsCb]: sms_cb.c.
    - [Unsolicited]: unsolicited.c.
    - [Vendor]: vendor.c and the five vendor plugins, and the dispatch of every
      unsolicited result code.
    - [UsockCb]: the callbacks of usock.c that answer clients.
    - [Main]: the commands of gsmd.c, machine.c and the machine plugins.
    - [AtCmd]: the engine of atcmd.c: lines, final results, time-outs, writing.
    - [Usock]: the request handlers of usock.c and the client's socket.
    - [Daemon]: select.c, the start, and the whole process as a step relation.

    The client library
    - [ClientLib]: messages out and in, handlers, events, and commands passed
      through as they are (libgsmd.c, libgsmd_event.c, libgsmd_passthrough.c).
    - [ClientReq]: a function for each request (libgsmd_phone.c, libgsmd_modem.c,
      libgsmd_voicecall.c, libgsmd_network.c, libgsmd_sms.c, libgsmd_phonebook.c,
      libgsmd_pin.c).

    Theorems over several components
    - [Engine], [Response]: a command's way to the modem and back.
    - [Requests]: what becomes of a request, and of the replies.
    - [Codes]: whose parser an unsolicited result code reaches.
    - [Wakeup]: whether a queued command is ever sent.
    - [EndToEnd], [TextRequests]: a call of the library, through the daemon's
      handler for it, to the AT command in the queue: constant commands and
      those with numbers, then those with texts.
    - [Delivery]: short messages from their text to the PDU in the command, the
      daemon's messages to the handlers of the application, and the calls that
      are lost or do harm.

    envedit
    - [EnvVar]: var.c, and the state of the whole program.
    - [EnvParse]: parse.c, the state machine that reads a file of edits.
    - [EnvFile]: env.c, cpp.c and envedit.c: the block, the printed form, the
      preprocessor and [main].

    fped
    - [FpdTsort]: tsort.c, a stable topological sort with priorities.
    - [FpdNum], [FpdExpr]: the numbers of expr.h and coord.h, and the evaluation of
      expressions (expr.c).
    - [FpdParse]: the scanner of fpd.l with its start conditions, and how fpd.y reads an
      expression.
    - [FpdUnparse]: unparse.c, expressions as text.
    - [FpdDelete]: delete.c on pointers in memory; [FpdLists], chains of pointers;
      [FpdExact], [FpdFrame], what a deletion takes along; [FpdUndo], that deletions
      are undone.
    - [FpdMove]: the part of inst.c that moves a vector and keeps the list of vectors in
      order.

    opkg
    - [OpkgVersion]: versions (pkg.c, pkg_parse.c) and constraints (pkg_depends.c).
    - [OpkgHash]: hash_table.c.
    - [OpkgDepends]: the search for unsatisfied dependencies (pkg_depends.c) and the
      best candidate for one (pkg_hash.c).
    - [OpkgParse]: parseDepends and what is built from it (pkg_depends.c).

    ** State and operations

    A C function that touches the daemon's state is a function in [M gsmd]: it
    returns a value and a new state, or it stops, with [Undefined] (a NULL or
    dangling pointer, an access outside an object, a value that was never
    assigned) or [Exited].  A function that checks nothing in C checks
    nothing here: where the C code would go outside an array the model is
    [Undefined], and theorems that a part is safe say that it is not.

    Function pointers are enumerated types ([atcmd_cb], [unsol_parser],
    [timer_cb], [umh]); [run_cb], [run_parser] and [run_timer] call what they name.
    Objects that C refers to by address (commands, timers, clients) have an address
    that is never used again, so a pointer that outlives its object is seen as one.
    Messages are blocks of bytes, in which a byte may be indeterminate.

    The parts of the world the code reads are fields of the state: the clock, the
    interval timer of the kernel, the answers of the allocator (a list; when it is
    used up allocations succeed), and the bytes written to the UART.  The results
    of [read], [write] and [select] are arguments of the operations that get them.

    The library has a state of its own, [lgsm]: struct lgsm_handle, the counter of
    messages, the tables of handlers, what [send] will answer (a list; when it is
    used up everything is accepted), the bytes sent, and the application's state, of
    any type.  The application's handlers are arguments ([app_msg], [app_evt]),
    which may change all of it, the tables too.

    envedit has a third state, [envedit], with its static variables and the files it
    reads and writes.  The parts of fped have each the state they need: the nodes to
    sort ([FpdTsort.tsort]); the flags of the variables under evaluation and the
    reports made ([FpdExpr.fped]), where the reporter either ends the program or
    records; and for deletion the memory itself, a map from places ([FpdDelete.loc])
    to the pointers in them.  A double is a binary64 of the standard library's
    [SpecFloat]; [sin], [cos] and [pow] are functions the model is given.  In opkg the
    packages are a constant database during a search, whose state is the set of marked
    abstract packages; a hash table is a state of its own, and so is the version that
    is being read; [qsort] is a function that returns a permutation of what it is given.

    ** Interfaces

    A component that calls back into the daemon is proved against a class.
    [LineSink] is what the line parser asks of its callback, with [LineSinkLaws];
    [TimerHost] what the timers ask of the program, with [TimerHostLaws].  The
    daemon is an instance of both (Engine.v).  [Effects] (Queue.v) and the classes
    that extend it ([TimerEffects], [LineEffects], [RearmEffects],
    [EngineEffects], [HandlerEffects]) list the changes of the state that
    the operations of a component make; whoever shows that a relation [R] on states
    allows these changes has [keeps R op] for every operation of that component.
    The invariants of the whole daemon are obtained that way.

    ** What the theorems show

    - Lines and commands: a stream of framed lines is delivered line by line
      whatever the chunks it is read in; commands end in the order they were sent,
      exactly at a final result code; a command's callback gets the text of its
      response; cancelling, time-outs, short writes.
    - The process: every reachable state is well formed (commands name clients
      that are connected, the queue's timers are registered, the buffers are
      within bounds); the loop over the descriptors that the callbacks change
      serves each ready descriptor once; the timers' check ends.
    - The queue does not stall, through rounds of the loop, alarms with their time-outs
      and the passing of time, while each write takes a byte, and of a last line not
      all but one, or fails ([no_lost_wakeup], which exempts a command that awaits
      the modem's prompt); two situations are shown in which it does, or sends
      text too early.
    - Codecs: round trips of SUBMIT PDUs and of packed text, what comes back of a
      parameter list, and which come back unchanged ([extrsp_roundtrip]), and the
      bounds of each decoder, with the inputs that break them.
    - Requests and replies: which requests are refused, what command the others
      queue, that replies and events reach the clients whole and in order.
    - Library and daemon together: what the application asks for is what the modem
      is told ([requests_reach_modem], [texts_reach_modem], [text_message]); what
      the daemon sends is what the handlers get ([replies_reach_handlers],
      [event_reaches_application]); bytes that are no messages do no harm.  Shown
      too: a failed [send] that is reported as success, numbers that are refused,
      and requests that crash the daemon.
    - envedit: its array with holes is a finite map ([var_table_refines]); its
      character-wise parser does what a line-wise reading does, and no input makes
      it fail otherwise than by a syntax error; a block or a printed form that it
      writes is read back to the same variables; a whole run writes the variables it
      read with the edits made ([main_edits]).  These theorems also say when the
      program exits ([wpe]).
    - fped: the sort gives the order asked for or finds the cycle
      ([tsort_items_sorts]); evaluation keeps to the units that an expression has
      ([eval_num_units]); the parser decides the grammar ([parser_decides_grammar])
      and reads back what is printed, where digits, signs and the keywords of the
      start condition allow it, with sums and products grouped from the left
      ([unparse_parse]); a deletion takes along exactly what depends on the item and
      leaves nothing that refers to what is gone ([delete_vec_exact],
      [delete_frame_exact]); deletions are undone, but for the active reference
      ([undelete_restores]); a vector can
      be moved to any other that does not depend on it, and then the list has the
      bases first again ([move_keeps_order]).
    - opkg: versions are totally preordered, by words and numbers as the theorem says
      ([compare_versions_total_preorder]), and read as they are printed
      ([version_roundtrip]); a hash table is a finite map ([hash_table_refines_map]);
      the text of a dependency is read as what it was written from
      ([depends_roundtrip]); the search lists what is needed, and reports what cannot
      be had, of the packages that earlier searches have not marked
      ([unsatisfied_dependencies_exact]).  The examples show what goes wrong
      otherwise: marks that are left, second versions that are not looked at,
      reverse links that are lost.

    ** Bounds and fuel

    Integers are [Z] with wrap-around written out at the width of the C type
    ([u8], [u16], [u32], [s32]); the target is ARM: [int], [long] and pointers of
    32 bits, little endian, unsigned [char].  These definitions have fuel: the
    carry of [tv_sub] ([tv_fuel]); the check of the timers, whose fuel a theorem
    shows to be enough in every reachable state; [cbm_loop], whose bound is the
    loop's own; the digits of a number ([dec_digits]: ten are enough for 32 bits);
    [packet_loop], whose fuel is one more than the bytes received, each round
    taking at least a header, so that it never ends for want of it
    ([handle_packet_safe]); and in envedit [parse_entries], with one more than the
    bytes of the block ([read_any_file]), and [var_loop], with one more than the
    entries of the array ([var_table_refines]); in fped the rounds of the sort, one
    more than the nodes ([tsort_items_sorts]); [eval_var], whose need the theorem
    [eval_num_units] states; the parser, five times the tokens and five more
    ([parser_decides_grammar]); the scanner, the length of the text, as each token
    takes a character; the digits of [FpdNum.lg], at most 400; and the loops over
    lists of [FpdDelete] and [FpdMove], one more than the pointers in memory
    ([places_bound]), with
    the nesting of deletions, one more than the vectors, and of [destroy], which a
    frame, its tables and their rows bound; in opkg the loops of the comparison, one
    more than the characters, and the search, one more than the abstract packages, as
    each call marks one ([unsatisfied_dependencies_exact]).  Everything else recurses
    on data.

    ** What is not modelled, and why

    - Log output, [talloc]'s bookkeeping (a copied library) and memory leaks.
    - A signal that arrives in the middle of another operation: the timers run
      between two rounds of the loop.
    - The options, [fork], the socket's and the serial line's creation: calls
      into the system without logic of their own.  [dlopen] is a look-up of the
      plugins in the source tree.
    - The creation of the library's socket, and the command line tools of src/util
      on top of the library.
    - zlib's [crc32] and the preprocessor envedit runs are functions the model is
      given; [fork], pipes and signals around the preprocessor are left out, and so
      are the two functions of cpp.c that nothing calls.
    - The debugging commands of fped but %tsort, the rules of fpd.y other than those of
      expressions, and the line numbers that the scanner counts.
    - fped's instantiation (geometry in floating point with [hypot] and [atan2]), the
      formats it writes, its user interface, [expand], and the allocation and freeing
      of expressions; an allocation that fails ends the program in util.h.
    - The rest of opkg: control files, feeds and configuration, downloads, scripts and
      the file system; conflicts, replacements and what packages provide.
    - The rest of the repository: copies of other projects (QEMU, the AR6000 SDK),
      graphical applications, and tools around USB and boot loaders.
*)

From stdpp Require Export base tactics list numbers option strings.
From Stdlib Require Export ZArith Lia.
#[export] Set Default Goal Selector "!".

Open Scope Z_scope.

(** ** Outcomes: values, crashes and process exits

    A C function that threads the daemon's state is a function from a state to
    an [outcome]: it returns a value and a new state, or it stops the process,
    either through undefined behaviour (a NULL or dangling pointer, an access
    outside an object, an indeterminate value used) or through [exit]. *)

Inductive stop : Type :=
  | Undefined (why : string)
  | Exited (code : Z).

Inductive outcome (S A : Type) : Type :=
  | Ret (a : A) (s : S)
  | Stop (w : stop).
Arguments Ret {S A} a s.
Arguments Stop {S A} w.

Definition M (S A : Type) : Type := S → outcome S A.

#[export] Instance M_ret S : MRet (M S) := λ A a s, Ret a s.
#[export] Instance M_bind S : MBind (M S) := λ A B k m s,
  match m s with
  | Ret a s' => k a s'
  | Stop w => Stop w
  end.

Section monad_ops.
Context {S : Type}.

Definition get : M S S := λ s, Ret s s.
Definition modify (f : S → S) : M S unit := λ s, Ret tt (f s).
Definition halt {A} (w : stop) : M S A := λ _, Stop w.
Definition undefined {A} (why : string) : M S A := halt (Undefined why).

(** A guarded access: undefined unless the test holds. *)
Definition must (c : bool) (why : string) : M S unit :=
  if c then mret tt else undefined why.

(** A pointer that must not be NULL. *)
Definition deref {A} (o : option A) (why : string) : M S A :=
  match o with Some a => mret a | None => undefined why end.
End monad_ops.

(** ** Program logic

    [wp m s Q]: run from [s], [m] returns (it neither crashes nor exits) and the
    result satisfies [Q].  [wlp m s Q]: if [m] returns, the result satisfies [Q].
    [keeps R m]: whenever [m] returns, the states before and after are related
    by [R]; with a preorder [R] this composes along the control flow. *)

Definition wp {S A} (m : M S A) (s : S) (Q : A → S → Prop) : Prop :=
  match m s with Ret a s' => Q a s' | Stop _ => False end.

Definition wlp {S A} (m : M S A) (s : S) (Q : A → S → Prop) : Prop :=
  match m s with Ret a s' => Q a s' | Stop _ => True end.

Definition keeps {S A} (R : S → S → Prop) (m : M S A) : Prop :=
  ∀ s a s', m s = Ret a s' → R s s'.

(** [wpe m s Q E]: [m] returns and [Q] holds, or the process exits with a code that
    [E] allows; it does not crash. *)
Definition wpe {S A} (m : M S A) (s : S) (Q : A → S → Prop) (E : Z → Prop) : Prop :=
  match m s with Ret a s' => Q a s' | Stop (Exited c) => E c | Stop (Undefined _) => False end.

(** The results an operation can return. *)
Definition returns {S A} (m : M S A) (a : A) : Prop := ∃ s s', m s = Ret a s'.

Section logic.
Context {S : Type}.
Implicit Types (s : S).

Lemma wp_bind {A B} (m : M S A) (k : A → M S B) s Q :
  wp m s (λ a s', wp (k a) s' Q) → wp (m ≫= k) s Q.
Proof. unfold wp, mbind, M_bind. by destruct (m s). Qed.

Lemma wp_mono {A} (m : M S A) s (P Q : A → S → Prop) :
  wp m s P → (∀ a s', P a s' → Q a s') → wp m s Q.
Proof. unfold wp. destruct (m s); auto. Qed.

Lemma wp_wlp {A} (m : M S A) s Q : wp m s Q → wlp m s Q.
Proof. unfold wp, wlp. by destruct (m s). Qed.

Lemma wpe_bind {A B} (m : M S A) (k : A → M S B) s Q E :
  wpe m s (λ a s', wpe (k a) s' Q E) E → wpe (m ≫= k) s Q E.
Proof. unfold wpe, mbind, M_bind. by destruct (m s) as [|[]]. Qed.

Lemma wpe_run {A B} (m : M S A) (k : A → M S B) s a s' Q E :
  m s = Ret a s' → wpe (k a) s' Q E → wpe (m ≫= k) s Q E.
Proof. unfold wpe, mbind, M_bind. by intros ->. Qed.

Lemma wpe_assoc {A B C} (m : M S A) (k : A → M S B) (k' : B → M S C) s Q E :
  wpe ((m ≫= k) ≫= k') s Q E → wpe (m ≫= λ a, k a ≫= k') s Q E.
Proof. unfold wpe, mbind, M_bind. by destruct (m s) as [|[]]. Qed.

Lemma wpe_mono {A} (m : M S A) s (P Q : A → S → Prop) (E F : Z → Prop) :
  wpe m s P E → (∀ a s', P a s' → Q a s') → (∀ c, E c → F c) → wpe m s Q F.
Proof. unfold wpe. destruct (m s) as [|[]]; auto. Qed.

Lemma wpe_conseq {A} (m : M S A) s (P Q : A → S → Prop) (E : Z → Prop) :
  wpe m s P E → (∀ a s', P a s' → Q a s') → wpe m s Q E.
Proof. intros H HQ. by eapply wpe_mono. Qed.

Lemma wpe_deref {A} (o : option A) why a s (Q : A → S → Prop) E :
  o = Some a → Q a s → wpe (deref o why) s Q E.
Proof. by intros ->. Qed.

Lemma wpe_ret {A} (a : A) s (Q : A → S → Prop) E : Q a s → wpe (mret a) s Q E.
Proof. done. Qed.
Lemma wpe_get s (Q : S → S → Prop) E : Q s s → wpe get s Q E.
Proof. done. Qed.
Lemma wpe_modify f s (Q : unit → S → Prop) E : Q tt (f s) → wpe (modify f) s Q E.
Proof. done. Qed.
Lemma wpe_exit {A} c s (Q : A → S → Prop) (E : Z → Prop) : E c → wpe (halt (Exited c)) s Q E.
Proof. done. Qed.

Lemma bind_Ret {A B} (m : M S A) (k : A → M S B) s b s' :
  (m ≫= k) s = Ret b s' ↔ ∃ a t, m s = Ret a t ∧ k a t = Ret b s'.
Proof.
  unfold mbind, M_bind. destruct (m s) as [a t|w]; split.
  - eauto.
  - intros (a' & t' & [= <- <-] & H). done.
  - done.
  - intros (a' & t' & H & _). done.
Qed.

Lemma returns_bind {A B} (m : M S A) (k : A → M S B) b :
  returns (m ≫= k) b → ∃ a, returns m a ∧ returns (k a) b.
Proof.
  intros (s & s' & (a & t & H1 & H2)%bind_Ret). exists a. split; [by exists s, t | by exists t, s'].
Qed.
Lemma returns_mret {A} (a b : A) : returns (mret a : M S A) b → a = b.
Proof. by intros (s & s' & [= -> _]). Qed.
Lemma returns_deref {A} (o : option A) why a : returns (deref o why : M S A) a → o = Some a.
Proof. intros (s & s' & H). destruct o; [by injection H as -> _ | done]. Qed.

(** Equations that execute the first operation of a sequence. *)
Lemma bind_get {B} (k : S → M S B) s : (get ≫= k) s = k s s.
Proof. done. Qed.
Lemma bind_modify {B} f (k : unit → M S B) s : (modify f ≫= k) s = k tt (f s).
Proof. done. Qed.
Lemma bind_mret {A B} (a : A) (k : A → M S B) s : (mret a ≫= k) s = k a s.
Proof. done. Qed.
Lemma bind_must_true {B} why (k : unit → M S B) s : (must true why ≫= k) s = k tt s.
Proof. done. Qed.
Lemma bind_deref_Some {A B} (a : A) why (k : A → M S B) s :
  (deref (Some a) why ≫= k) s = k a s.
Proof. done. Qed.
Lemma bind_assoc {A B C} (m : M S A) (k : A → M S B) (k' : B → M S C) s :
  ((m ≫= k) ≫= k') s = (m ≫= λ a, k a ≫= k') s.
Proof. unfold mbind, M_bind. by destruct (m s). Qed.
Lemma bind_step {A B} (m : M S A) (k : A → M S B) s a s' :
  m s = Ret a s' → (m ≫= k) s = k a s'.
Proof. unfold mbind, M_bind. by intros ->. Qed.

Lemma bind_stop {A B} (m : M S A) (k : A → M S B) s w : m s = Stop w → (m ≫= k) s = Stop w.
Proof. unfold mbind, M_bind. by intros ->. Qed.

Lemma bind_ext {A B} (m : M S A) (k1 k2 : A → M S B) s :
  (∀ a s', m s = Ret a s' → k1 a s' = k2 a s') → (m ≫= k1) s = (m ≫= k2) s.
Proof. unfold mbind, M_bind. destruct (m s); auto. Qed.

Lemma bind_cong {A B} (m1 m2 : M S A) (k : A → M S B) s : m1 s = m2 s → (m1 ≫= k) s = (m2 ≫= k) s.
Proof. unfold mbind, M_bind. by intros ->. Qed.

Context (R : S → S → Prop) `{!PreOrder R}.

Lemma keeps_ret {A} (a : A) : keeps R (mret a : M S A).
Proof. intros s a' s' [= _ <-]. reflexivity. Qed.

Lemma keeps_bind {A B} (m : M S A) (k : A → M S B) :
  keeps R m → (∀ a, keeps R (k a)) → keeps R (m ≫= k).
Proof.
  intros Hm Hk s b s' (a & t & H1 & H2)%bind_Ret.
  transitivity t; [by eapply Hm | by eapply Hk].
Qed.

(** A continuation only gets the results the first operation can return. *)
Lemma keeps_bind_returns {A B} (m : M S A) (k : A → M S B) :
  keeps R m → (∀ a, returns m a → keeps R (k a)) → keeps R (m ≫= k).
Proof.
  intros Hm Hk s b s' (a & t & H1 & H2)%bind_Ret.
  transitivity t; [by eapply Hm | eapply Hk; [by exists s, t|done]].
Qed.

Lemma keeps_get : keeps R (get : M S S).
Proof. intros s a s' [= _ <-]. reflexivity. Qed.

Lemma keeps_modify (f : S → S) : (∀ s, R s (f s)) → keeps R (modify f).
Proof. intros Hf s a s' [= _ <-]. apply Hf. Qed.

Lemma keeps_halt {A} w : keeps R (halt w : M S A).
Proof. intros s a s' [=]. Qed.

Lemma keeps_undefined {A} why : keeps R (undefined why : M S A).
Proof. apply keeps_halt. Qed.

Lemma keeps_must c why : keeps R (must c why).
Proof. destruct c; [apply keeps_ret | apply keeps_undefined]. Qed.

Lemma keeps_deref {A} (o : option A) why : keeps R (deref o why).
Proof. destruct o; [apply keeps_ret | apply keeps_undefined]. Qed.
End logic.

(** [run] executes the operations at the head of a sequence; [run_all] unfolds
    the monad altogether. *)
Create Rewrite HintDb run.
#[export] Hint Rewrite @bind_get @bind_modify @bind_mret @bind_must_true
  @bind_deref_Some @bind_assoc Z.ltb_irrefl : run.
Ltac run := repeat (autorewrite with run; cbn beta iota zeta).
Ltac run_all :=
  cbv beta iota zeta delta [mbind M_bind mret M_ret get modify halt undefined must deref].

(** [wpe_step] takes a [wpe] goal one operation further. *)
Ltac wpe_step :=
  lazymatch goal with
  | |- wpe (_ ≫= _) _ _ _ => apply wpe_bind
  | |- wpe get _ _ _ => apply wpe_get
  | |- wpe (modify _) _ _ _ => apply wpe_modify
  | |- wpe (mret _) _ _ _ => apply wpe_ret
  | |- wpe (halt (Exited _)) _ _ _ => apply wpe_exit
  end; cbv beta.
Ltac wpe_steps := repeat wpe_step.

Create HintDb keeps discriminated.
#[export] Hint Constants Opaque : keeps.
#[export] Hint Resolve keeps_ret keeps_get keeps_halt keeps_undefined keeps_must
  keeps_deref : keeps.
#[export] Hint Extern 1 (PreOrder _) => typeclasses eauto : keeps.

(** [solve_keeps] walks a handler's control flow, using the [keeps] facts of the
    operations it calls. *)
Ltac keeps_step :=
  lazymatch goal with
  | |- keeps _ (_ ≫= _) => apply keeps_bind_returns; [try typeclasses eauto| |intros ? ?]
  | |- keeps _ (if ?b then _ else _) => destruct b
  | |- keeps _ (match ?x with _ => _ end) => first [is_var x; destruct x | destruct x eqn:?]
  | |- keeps _ (let _ := _ in _) => intros ?
  | |- keeps _ _ => solve [eauto 6 with keeps nocore]
  end.
Ltac solve_keeps := repeat (cbv zeta; keeps_step).

(** Linear arithmetic with division and modulo by constants. *)
Ltac zdiv := Z.to_euclidean_division_equations; lia.

(** Induction two elements at a time. *)
Lemma list_pair_ind {A} (P : list A → Prop) :
  P [] → (∀ x, P [x]) → (∀ x y l, P l → P (x :: y :: l)) → ∀ l, P l.
Proof.
  intros P0 P1 P2. fix F 1. intros [|x [|y l]]; [exact P0 | apply P1 | apply P2, F].
Qed.

(** ** Machine integers: wrap-around at a width *)

Definition wrapu (w x : Z) : Z := x mod 2 ^ w.
Definition wraps (w x : Z) : Z := (x + 2 ^ (w - 1)) mod 2 ^ w - 2 ^ (w - 1).
Abbreviation u8 := (wrapu 8).
Abbreviation u16 := (wrapu 16).
Abbreviation u32 := (wrapu 32).
Abbreviation s8 := (wraps 8).
Abbreviation s32 := (wraps 32).

Lemma wrapu_range w x : 0 ≤ w → 0 ≤ wrapu w x < 2 ^ w.
Proof. intros. apply Z.mod_pos_bound. by apply Z.pow_pos_nonneg. Qed.

Lemma wrapu_small w x : 0 ≤ x < 2 ^ w → wrapu w x = x.
Proof. intros. by apply Z.mod_small. Qed.

Lemma wraps_small w x : 0 < w → - 2 ^ (w - 1) ≤ x < 2 ^ (w - 1) → wraps w x = x.
Proof.
  intros Hw Hx. unfold wraps. rewrite Z.mod_small; [lia|].
  replace (2 ^ w) with (2 * 2 ^ (w - 1)); [lia|].
  rewrite <- Z.pow_succ_r by lia. f_equal. lia.
Qed.

(** ** errno values (the daemon runs on Linux) *)

Definition ENOENT : Z := 2.
Definition EIO : Z := 5.
Definition EAGAIN : Z := 11.
Definition ENOMEM : Z := 12.
Definition EEXIST : Z := 17.
Definition EINVAL : Z := 22.
Definition EFBIG : Z := 27.
Definition ENOSYS : Z := 38.
Definition ESHUTDOWN : Z := 108.

Lemma Ret_inj {S A} (a b : A) (s t : S) : Ret a s = Ret b t → a = b ∧ s = t.
Proof. by intros [= -> ->]. Qed.
