(* ===== verification/CString.v ===== *)
(** * C strings and the standard library calls the daemon relies on

    A C string is the list of its bytes before the NUL; [char] is unsigned, as
    on the ARM target, so a byte is a [Z] in [0, 255].  The functions of this
    file model the C library ([strcmp], [strchr], [strtol], [printf], [sscanf]
    directives) at 32-bit [int]/[long]; [strlcpy] and [strlcat] are the
    daemon's own (src/target/gsm/src/gsmd/strl.c). *)

From S2P Require Import Prelude.

Definition byte_of_ascii (a : Ascii.ascii) : Z := Z.of_N (Ascii.N_of_ascii a).

(** The bytes of a string literal. *)
Definition b (s : string) : list Z := byte_of_ascii <$> String.list_ascii_of_string s.

(** The byte of a character literal. *)
Definition ch (s : string) : Z := default 0 (head (b s)).
Arguments ch s%_string : simpl never.
Arguments b s%_string : simpl never.

Definition NUL : Z := 0.
Definition LF : Z := 10.
Definition CR : Z := 13.
Definition CTRL_Z : Z := 26.
Definition SPC : Z := 32.
Definition DQ : Z := 34.

Definition is_byte (c : Z) : Prop := 0 ≤ c < 256.

(** A C string: bytes, none of them NUL. *)
Definition cstring (s : list Z) : Prop := Forall (λ c, 0 < c < 256) s.

Lemma cstring_app s t : cstring (s ++ t) ↔ cstring s ∧ cstring t.
Proof. apply Forall_app. Qed.

(** The C string stored in a memory block: the bytes before the first NUL. *)
Fixpoint until0 (m : list Z) : list Z :=
  match m with
  | [] => []
  | c :: m' => if c =? 0 then [] else c :: until0 m'
  end.

Lemma until0_cstring s rest : cstring s → until0 (s ++ 0 :: rest) = s.
Proof.
  induction 1 as [|c s Hc _ IH]; [done|]. cbn.
  destruct (Z.eqb_spec c 0); [lia|]. by rewrite IH.
Qed.

Lemma until0_id s : cstring s → until0 s = s.
Proof.
  induction 1 as [|c s Hc _ IH]; [done|]. cbn.
  destruct (Z.eqb_spec c 0); [lia|]. by rewrite IH.
Qed.

Lemma until0_no_nul m : Forall (λ c, c ≠ 0) (until0 m).
Proof.
  induction m as [|c m IH]; cbn; [constructor|].
  destruct (Z.eqb_spec c 0); [constructor|]. by constructor.
Qed.

(** [!strcmp(x, y)] and [!strncmp(x, y, n)]. *)
Definition str_eq (x y : list Z) : bool := bool_decide (x = y).
Definition strn_eq (n : nat) (x y : list Z) : bool :=
  bool_decide (take n (x ++ [0]) = take n (y ++ [0])).

Lemma str_eq_true x y : str_eq x y = true ↔ x = y.
Proof. apply bool_decide_eq_true. Qed.

(** [strcmp(x, y)]: its sign. *)
Fixpoint strcmp (x y : list Z) : Z :=
  match x, y with
  | [], [] => 0
  | [], _ :: _ => -1
  | _ :: _, [] => 1
  | c :: x', d :: y' => if c <? d then -1 else if d <? c then 1 else strcmp x' y'
  end.

Lemma strcmp_eq x y : strcmp x y = 0 ↔ x = y.
Proof.
  revert y; induction x as [|c x IH]; intros [|d y]; cbn; [done..|].
  destruct (Z.ltb_spec c d), (Z.ltb_spec d c); [lia|split; [lia|intros [= -> _]; lia]..|].
  rewrite IH. split; [intros ->; f_equal; lia|by intros [= _ ->]].
Qed.

Lemma strcmp_opp x y : strcmp x y = - strcmp y x.
Proof.
  revert y; induction x as [|c x IH]; intros [|d y]; cbn; [done..|].
  destruct (Z.ltb_spec c d), (Z.ltb_spec d c); [lia|done|done|apply IH].
Qed.

Lemma strcmp_le_trans x y z : strcmp x y ≤ 0 → strcmp y z ≤ 0 → strcmp x z ≤ 0.
Proof.
  revert y z; induction x as [|c x IH]; intros [|d y] [|e z]; cbn; try lia.
  destruct (Z.ltb_spec c d), (Z.ltb_spec d c), (Z.ltb_spec d e), (Z.ltb_spec e d),
    (Z.ltb_spec c e), (Z.ltb_spec e c); try lia; intros ? ?; eapply IH; eassumption.
Qed.

(** [!strncmp(x, p, strlen(p))] holds exactly when [p] is a prefix of [x]. *)
Lemma strn_eq_prefix x p : cstring p →
  strn_eq (length p) x p = true ↔ ∃ y, x = p ++ y.
Proof.
  intros Hp. unfold strn_eq. rewrite bool_decide_eq_true.
  rewrite (take_app_length p [0]).
  split.
  - revert x; induction Hp as [|c p Hc _ IH]; intros x; [by exists x|].
    destruct x as [|d x]; cbn; [intros [= <- _]; lia|].
    intros [= -> H]. destruct (IH x H) as [y ->]. by exists y.
  - intros [y ->]. by rewrite <- app_assoc, take_app_length.
Qed.

(** [strchr(s, c)]: the suffix that starts at the first [c] ([c] not NUL). *)
Fixpoint strchr (s : list Z) (c : Z) : option (list Z) :=
  match s with
  | [] => None
  | d :: s' => if d =? c then Some s else strchr s' c
  end.

(** [strpbrk(s, accept)]. *)
Fixpoint strpbrk (s accept : list Z) : option (list Z) :=
  match s with
  | [] => None
  | d :: s' => if bool_decide (d ∈ accept) then Some s else strpbrk s' accept
  end.

(** [strrchr(s, c)]. *)
Fixpoint strrchr (s : list Z) (c : Z) : option (list Z) :=
  match s with
  | [] => None
  | d :: s' =>
      match strrchr s' c with
      | Some r => Some r
      | None => if d =? c then Some s else None
      end
  end.

(** The part of [s] before the first occurrence of [c] (all of it if none). *)
Fixpoint before (s : list Z) (c : Z) : list Z :=
  match s with
  | [] => []
  | d :: s' => if d =? c then [] else d :: before s' c
  end.

Lemma strchr_split s c r : strchr s c = Some r → s = before s c ++ r ∧ ∃ t, r = c :: t.
Proof.
  induction s as [|d s IH]; cbn; [done|].
  destruct (Z.eqb_spec d c) as [->|]; [intros [= <-]; eauto|].
  intros H. destruct (IH H) as [E ?]. split; [|done]. cbn. by f_equal.
Qed.

Lemma strchr_None s c : strchr s c = None ↔ c ∉ s.
Proof.
  induction s as [|d s IH]; cbn.
  - split; [intros _; apply not_elem_of_nil | done].
  - destruct (Z.eqb_spec d c) as [->|Hne].
    + split; [done|]. intros H. destruct H. by left.
    + rewrite IH, not_elem_of_cons. intuition congruence.
Qed.

(** ** ctype *)

Definition isdigit (c : Z) : bool := (48 <=? c) && (c <=? 57).
Definition isblank (c : Z) : bool := (c =? 32) || (c =? 9).
Definition isspace (c : Z) : bool := (c =? 32) || ((9 <=? c) && (c <=? 13)).
Definition isupper (c : Z) : bool := (65 <=? c) && (c <=? 90).

Definition hexval (c : Z) : option Z :=
  if isdigit c then Some (c - 48)
  else if (65 <=? c) && (c <=? 70) then Some (c - 55)
  else if (97 <=? c) && (c <=? 102) then Some (c - 87)
  else None.

(** ** Numbers in text *)

(** The digits at the head of [s], accumulated in base [base]; the rest. *)
Fixpoint digits (base acc : Z) (s : list Z) : Z * list Z :=
  match s with
  | [] => (acc, [])
  | c :: s' =>
      match hexval c with
      | Some d => if d <? base then digits base (acc * base + d) s' else (acc, s)
      | None => (acc, s)
      end
  end.

Fixpoint skip_space (s : list Z) : list Z :=
  match s with
  | c :: s' => if isspace c then skip_space s' else s
  | [] => []
  end.

Definition sign (s : list Z) : Z * list Z :=
  match s with
  | c :: s' => if c =? ch "-" then (-1, s') else if c =? ch "+" then (1, s') else (1, s)
  | [] => (1, s)
  end.

Definition starts_digit (base : Z) (s : list Z) : bool :=
  match s with
  | c :: _ => match hexval c with Some d => d <? base | None => false end
  | [] => false
  end.

(** The [0x] prefix [strtoul] accepts in base 16 when a digit follows it. *)
Definition skip_0x (base : Z) (s : list Z) : list Z :=
  match s with
  | z :: x :: s' =>
      if (base =? 16) && (z =? ch "0") && ((x =? ch "x") || (x =? ch "X"))
           && starts_digit 16 s'
      then s' else s
  | _ => s
  end.

Definition INT_MAX : Z := 2 ^ 31 - 1.
Definition INT_MIN : Z := - 2 ^ 31.
Definition UINT_MAX : Z := 2 ^ 32 - 1.

Definition clamp (lo hi x : Z) : Z := Z.max lo (Z.min hi x).

(** [strtol(s, &end, 10)]: the value and, unless no digit was found, the rest
    after the number. *)
Definition strtol (s : list Z) : Z * option (list Z) :=
  let '(sg, t) := sign (skip_space s) in
  if starts_digit 10 t
  then let '(v, r) := digits 10 0 t in (clamp INT_MIN INT_MAX (sg * v), Some r)
  else (0, None).

Definition atoi (s : list Z) : Z := fst (strtol s).

(** [strtoul(s, &end, base)]; a minus sign negates in [unsigned long]; out of
    range gives [ULONG_MAX]. *)
Definition strtoul (base : Z) (s : list Z) : Z * option (list Z) :=
  let '(sg, t0) := sign (skip_space s) in
  let t := skip_0x base t0 in
  if starts_digit base t
  then
    let '(v, r) := digits base 0 t in
    (if UINT_MAX <? v then UINT_MAX else u32 (sg * v), Some r)
  else (0, None).

(** Decimal digits of a non-negative number; [fuel] bounds their count. *)
Fixpoint dec_digits (fuel : nat) (n : Z) (acc : list Z) : list Z :=
  match fuel with
  | O => acc
  | S f =>
      let acc' := (48 + n mod 10) :: acc in
      if n <? 10 then acc' else dec_digits f (n / 10) acc'
  end.

(** [%d], [%i], [%u] of an [int]: ten digits suffice below 2^32. *)
Definition dec (n : Z) : list Z :=
  if n <? 0 then ch "-" :: dec_digits 10 (- n) [] else dec_digits 10 n [].

Definition hexdigit (d : Z) : Z := if d <? 10 then 48 + d else 55 + d.

(** [%02X] of a byte. *)
Definition hex2 (x : Z) : list Z := [hexdigit (x / 16); hexdigit (x mod 16)].

(** ** strl.c: bounded copy and append

    [strlcpy dest src size] and [strlcat dest src count] return the destination
    memory after the call and the C return value.  [strlcat] on a destination
    that already fills its buffer does nothing and returns 0. *)

Definition strlcpy (dest src : list Z) (size : nat) : list Z * Z :=
  let ret := length src in
  (match size with
   | O => dest
   | S _ =>
       let len := if (size <=? ret)%nat then (size - 1)%nat else ret in
       take len src ++ 0 :: drop (S len) dest
   end, Z.of_nat ret).

Definition strlcat (dest src : list Z) (count : nat) : list Z * Z :=
  let d := until0 dest in
  let dsize := length d in
  let len := length src in
  if (count <=? dsize)%nat then (dest, 0)
  else
    let room := (count - dsize)%nat in
    let len' := if (room <=? len)%nat then (room - 1)%nat else len in
    (d ++ take len' src ++ 0 :: drop (dsize + S len') dest, Z.of_nat (dsize + len)).

(** ** sscanf

    The formats the daemon uses, as a list of directives. [scan] returns the
    values stored, in order; their number (not counting [%n]) is what [sscanf]
    returns, up to the -1/0 distinction at end of input, which no caller
    observes. *)

Inductive dir : Type :=
  | D_lit (c : Z)                                (* an ordinary character *)
  | D_ws                                         (* white space: any amount *)
  | D_int (assign : bool)                        (* %i, %hi, %hhi, %*i *)
  | D_set (p : Z → bool) (max : option nat) (assign : bool)  (* %31[..], %*[..] *)
  | D_chr                                        (* %c *)
  | D_cnt.                                       (* %n *)

Inductive sval : Type := VI (z : Z) | VS (s : list Z) | VN (n : nat).

(** The integer at the head of [s], with C's base detection. *)
Definition scan_int (s : list Z) : option (Z * list Z) :=
  let '(sg, t) := sign (skip_space s) in
  let base := match t with
              | z :: x :: _ =>
                  if z =? ch "0" then
                    if (x =? ch "x") || (x =? ch "X") then 16 else 8
                  else 10
              | _ => 10
              end in
  let t' := skip_0x base t in
  if starts_digit base t'
  then let '(v, r) := digits base 0 t' in Some (clamp INT_MIN INT_MAX (sg * v), r)
  else None.

Fixpoint span (p : Z → bool) (max : option nat) (s : list Z) : list Z * list Z :=
  match s with
  | [] => ([], [])
  | c :: s' =>
      match max with
      | Some O => ([], s)
      | _ => if p c
             then let '(m, r) := span p (Nat.pred <$> max) s' in (c :: m, r)
             else ([], s)
      end
  end.

Fixpoint scan (total : nat) (fmt : list dir) (s : list Z) : list sval :=
  match fmt with
  | [] => []
  | D_lit c :: fmt' =>
      match s with
      | d :: s' => if d =? c then scan total fmt' s' else []
      | [] => []
      end
  | D_ws :: fmt' => scan total fmt' (skip_space s)
  | D_int a :: fmt' =>
      match scan_int s with
      | Some (v, r) => if a then VI v :: scan total fmt' r else scan total fmt' r
      | None => []
      end
  | D_set p max a :: fmt' =>
      match span p max s with
      | ([], _) => []
      | (m, r) => if a then VS m :: scan total fmt' r else scan total fmt' r
      end
  | D_chr :: fmt' =>
      match s with c :: s' => VI c :: scan total fmt' s' | [] => [] end
  | D_cnt :: fmt' => VN (total - length s) :: scan total fmt' s
  end.

Definition sscanf (s : list Z) (fmt : list dir) : list sval := scan (length s) fmt s.

(** Directives that match a literal text ([' '] in a format is white space). *)
Definition lits (t : list Z) : list dir :=
  (λ c, if isspace c then D_ws else D_lit c) <$> t.

Definition notquote (c : Z) : bool := negb (c =? DQ).

(** [sscanf(s, "%2hhX", &x)] where the first two characters are [c0] and [c1]. *)
Definition scan_hex2 (c0 c1 : Z) : option Z :=
  match hexval c0 with
  | None => None
  | Some h =>
      if (c0 =? ch "0") && ((c1 =? ch "x") || (c1 =? ch "X")) then Some 0
      else match hexval c1 with
           | Some l => Some (16 * h + l)
           | None => Some h
           end
  end.

(** ** Facts *)

Lemma strlcpy_string dest src size : cstring src → (0 < size)%nat →
  until0 (strlcpy dest src size).1 = take (size - 1) src.
Proof.
  intros Hs Hz. unfold strlcpy. destruct size as [|n]; [lia|].
  cbn [fst]. rewrite until0_cstring by (by apply Forall_take).
  destruct (Nat.leb_spec (S n) (length src)); [done|].
  by rewrite !take_ge by lia.
Qed.

Lemma strlcat_string dest src count : cstring (until0 dest) → cstring src →
  (length (until0 dest) < count)%nat →
  until0 (strlcat dest src count).1 = take (count - 1) (until0 dest ++ src).
Proof.
  intros Hd Hs Hc. unfold strlcat. set (d := until0 dest) in *.
  destruct (Nat.leb_spec count (length d)); [lia|]. cbn -[take drop].
  rewrite app_assoc, until0_cstring
    by (apply cstring_app; split; [done | by apply Forall_take]).
  rewrite take_app, (take_ge d) by lia. f_equal.
  destruct (Nat.leb_spec (count - length d) (length src)); [f_equal; lia|].
  by rewrite !take_ge by lia.
Qed.

Lemma hexdigit_val d : 0 ≤ d < 16 → hexval (hexdigit d) = Some d.
Proof.
  intros H. assert (d ∈ (seqZ 0 16)) as Hin by (apply elem_of_seqZ; lia).
  clear H. revert d Hin. apply Forall_forall. vm_compute. by repeat constructor.
Qed.

Lemma hexdigit_range d : 0 ≤ d < 16 → 48 ≤ hexdigit d ≤ 70.
Proof. intros H. unfold hexdigit. destruct (Z.ltb_spec d 10); lia. Qed.

Lemma scan_hex2_hex2 x : is_byte x →
  scan_hex2 (hexdigit (x / 16)) (hexdigit (x mod 16)) = Some x.
Proof.
  intros Hx. unfold scan_hex2, is_byte in *.
  pose proof (Z.div_mod x 16 ltac:(lia)).
  pose proof (Z.mod_pos_bound x 16 ltac:(lia)).
  assert (0 ≤ x / 16 < 16) by lia.
  rewrite !hexdigit_val by lia.
  pose proof (hexdigit_range (x mod 16) ltac:(lia)).
  replace (hexdigit (x mod 16) =? ch "x") with false by (symmetry; apply Z.eqb_neq; change (ch "x") with 120; lia).
  replace (hexdigit (x mod 16) =? ch "X") with false by (symmetry; apply Z.eqb_neq; change (ch "X") with 88; lia).
  rewrite andb_false_r. f_equal. lia.
Qed.

(** A run of decimal digits reads back as the number it prints. *)
Definition digits_value (acc : Z) (s : list Z) : Z :=
  foldl (λ a c, a * 10 + (c - 48)) acc s.

Lemma hexval_digit c : 48 ≤ c ≤ 57 → hexval c = Some (c - 48).
Proof.
  intros H. unfold hexval, isdigit.
  destruct (Z.leb_spec 48 c), (Z.leb_spec c 57); by try lia.
Qed.

Lemma digits_run s r acc : Forall (λ c, 48 ≤ c ≤ 57) s → starts_digit 10 r = false →
  digits 10 acc (s ++ r) = (digits_value acc s, r).
Proof.
  intros Hs Hr. revert acc. induction Hs as [|c s Hc _ IH]; intros acc; cbn.
  - destruct r as [|c r]; [done|]. cbn in *. destruct (hexval c); [|done].
    by rewrite Hr.
  - rewrite hexval_digit by done. destruct (Z.ltb_spec (c - 48) 10); [|lia]. by rewrite IH.
Qed.

Lemma dec_digits_spec fuel n acc : 0 ≤ n < 10 ^ Z.of_nat fuel → (0 < fuel)%nat →
  ∃ s, dec_digits fuel n acc = s ++ acc ∧ Forall (λ c, 48 ≤ c ≤ 57) s ∧ s ≠ [] ∧
       (length s ≤ fuel)%nat ∧
       (∀ a, digits_value a s = a * 10 ^ Z.of_nat (length s) + n).
Proof.
  revert n acc. induction fuel as [|fuel IH]; intros n acc Hn Hf; [lia|]. cbn -[Z.pow].
  pose proof (Z.mod_pos_bound n 10 ltac:(lia)) as Hm.
  assert (48 ≤ 48 + n mod 10 ≤ 57) as Hd by lia.
  destruct (Z.ltb_spec n 10) as [Hlt|Hge].
  - exists [48 + n mod 10]. rewrite Z.mod_small by lia.
    repeat split; [by repeat constructor; lia | done | cbn; lia | intros a; cbn; lia].
  - destruct fuel as [|fuel']; [cbn in Hn; lia|].
    rewrite Nat2Z.inj_succ, Z.pow_succ_r in Hn by lia.
    destruct (IH (n / 10) ((48 + n mod 10) :: acc)) as (s & E & Hs & Hne & Hl & Hv).
    { split; [apply Z.div_pos; lia | apply Z.div_lt_upper_bound; lia]. }
    { lia. }
    exists (s ++ [48 + n mod 10]). rewrite E, <- app_assoc. repeat split.
    + apply Forall_app. split; [done | by repeat constructor; lia].
    + by destruct s.
    + rewrite length_app; cbn; lia.
    + intros a. unfold digits_value in *. rewrite foldl_app. cbn -[Z.mul Z.add].
      rewrite Hv, length_app. cbn [length].
      replace (Z.of_nat (length s + 1)) with (Z.succ (Z.of_nat (length s))) by lia.
      rewrite Z.pow_succ_r by lia. pose proof (Z.div_mod n 10). lia.
Qed.

(** A run of digits reads as its value, up to [INT_MAX]. *)
Lemma strtol_digits s r : Forall (λ c, 48 ≤ c ≤ 57) s → s ≠ [] → starts_digit 10 r = false →
  0 ≤ digits_value 0 s ≤ INT_MAX → strtol (s ++ r) = (digits_value 0 s, Some r).
Proof.
  intros Hs Hne Hr Hv. destruct s as [|c s]; [done|]. inversion Hs as [|? ? Hc Hs']; subst.
  unfold strtol. cbn [app skip_space]. unfold isspace.
  destruct (Z.eqb_spec c 32); [lia|]. destruct (Z.leb_spec 9 c), (Z.leb_spec c 13); try lia; cbn [andb orb].
  all: unfold sign; change (ch "-") with 45; change (ch "+") with 43;
       destruct (Z.eqb_spec c 45); [lia|]; destruct (Z.eqb_spec c 43); [lia|].
  all: assert (starts_digit 10 (c :: s ++ r) = true) as -> by
    (unfold starts_digit; rewrite hexval_digit by done; apply Z.ltb_lt; lia).
  all: change (c :: s ++ r) with ((c :: s) ++ r); rewrite digits_run by done.
  all: f_equal; unfold clamp, INT_MIN, INT_MAX in *; lia.
Qed.

(** The digits of a printed number, and what they add to a value read so far. *)
Lemma dec_run n : 0 ≤ n ≤ INT_MAX →
  Forall (λ c, 48 ≤ c ≤ 57) (dec n) ∧ dec n ≠ [] ∧
  (∀ a, digits_value a (dec n) = a * 10 ^ Z.of_nat (length (dec n)) + n).
Proof.
  unfold INT_MAX. intros Hn. unfold dec. destruct (Z.ltb_spec n 0); [lia|].
  destruct (dec_digits_spec 10 n []) as (s & -> & Hs & Hne & _ & Hv); [cbn; lia | lia |].
  by rewrite app_nil_r.
Qed.

(** [atoi] reads back what [%d] prints. *)
Lemma strtol_dec n r : 0 ≤ n ≤ INT_MAX → starts_digit 10 r = false →
  strtol (dec n ++ r) = (n, Some r).
Proof.
  intros Hn Hr. destruct (dec_run n Hn) as (Hs & Hne & Hv).
  rewrite strtol_digits by (first [done | rewrite Hv; lia]). by rewrite Hv.
Qed.

Lemma atoi_dec n : 0 ≤ n ≤ INT_MAX → atoi (dec n) = n.
Proof. intros H. unfold atoi. rewrite <- (app_nil_r (dec n)), strtol_dec by done. done. Qed.

(** A property of all bytes, or of all pairs of bytes below given bounds, by
    evaluation. *)
Definition below (n : Z) (f : Z → bool) : bool := forallb f (seqZ 0 n).

Lemma below_spec n f x : below n f = true → 0 ≤ x < n → f x = true.
Proof.
  unfold below. rewrite forallb_forall. intros H Hx. apply H.
  apply list_elem_of_In, elem_of_seqZ. lia.
Qed.

Ltac by_bytes x n f :=
  let H := fresh in
  assert (below n f = true) as H by (vm_compute; reflexivity);
  apply (below_spec n f x) in H; [|unfold is_byte in *; lia].
