(* ===== verification/Enums.v ===== *)
(** * Protocol constants (include/gsmd/usock.h and include/gsmd/event.h)

    The enumerators the daemon and its clients exchange, as the integers that
    appear in messages. *)

From S2P Require Import Prelude.

(** enum gsmd_msg_type *)

Definition GSMD_MSG_NONE : Z := 0.
Definition GSMD_MSG_EVENT : Z := 1.
Definition GSMD_MSG_PASSTHROUGH : Z := 2.
Definition GSMD_MSG_VOICECALL : Z := 3.
Definition GSMD_MSG_DATACALL : Z := 4.
Definition GSMD_MSG_PHONEBOOK : Z := 5.
Definition GSMD_MSG_NETWORK : Z := 6.
Definition GSMD_MSG_PHONE : Z := 7.
Definition GSMD_MSG_PIN : Z := 8.
Definition GSMD_MSG_SMS : Z := 9.
Definition GSMD_MSG_CB : Z := 10.
Definition GSMD_MSG_MODEM : Z := 11.
Definition NUM_GSMD_MSGS : Z := 12.

(** enum gsmd_passthrough_type *)

Definition GSMD_PASSTHROUGH_NONE : Z := 0.
Definition GSMD_PASSTHROUGH_REQ : Z := 1.
Definition GSMD_PASSTHROUGH_RESP : Z := 2.

(** enum gsmd_msg_voicecall_type *)

Definition GSMD_VOICECALL_DIAL : Z := 1.
Definition GSMD_VOICECALL_HANGUP : Z := 2.
Definition GSMD_VOICECALL_ANSWER : Z := 3.
Definition GSMD_VOICECALL_DTMF : Z := 4.
Definition GSMD_VOICECALL_VOL_SET : Z := 5.
Definition GSMD_VOICECALL_VOL_GET : Z := 6.
Definition GSMD_VOICECALL_GET_STAT : Z := 7.
Definition GSMD_VOICECALL_CTRL : Z := 8.
Definition GSMD_VOICECALL_FWD_DIS : Z := 9.
Definition GSMD_VOICECALL_FWD_EN : Z := 10.
Definition GSMD_VOICECALL_FWD_STAT : Z := 11.
Definition GSMD_VOICECALL_FWD_REG : Z := 12.
Definition GSMD_VOICECALL_FWD_ERAS : Z := 13.

(** enum gsmd_call_ctrl_proc *)

Definition GSMD_CALL_CTRL_R_HLDS : Z := 0.
Definition GSMD_CALL_CTRL_UDUB : Z := 1.
Definition GSMD_CALL_CTRL_R_ACTS_A_HLD_WAIT : Z := 2.
Definition GSMD_CALL_CTRL_R_ACT_X : Z := 3.
Definition GSMD_CALL_CTRL_H_ACTS_A_HLD_WAIT : Z := 4.
Definition GSMD_CALL_CTRL_H_ACTS_EXCEPT_X : Z := 5.
Definition GSMD_CALL_CTRL_M_HELD : Z := 6.

(** enum gsmd_call_fwd_reason *)

Definition GSMD_CALL_FWD_REASON_UNCOND : Z := 0.
Definition GSMD_CALL_FWD_REASON_BUSY : Z := 1.
Definition GSMD_CALL_FWD_REASON_NO_REPLY : Z := 2.
Definition GSMD_CALL_FWD_REASON_NOT_REACHABLE : Z := 3.
Definition GSMD_CALL_FWD_REASON_ALL_FORWARD : Z := 4.
Definition GSMD_CALL_FWD_REASON_ALL_COND_FORWARD : Z := 5.

(** enum gsmd_msg_pin_type *)

Definition GSMD_PIN_INPUT : Z := 1.
Definition GSMD_PIN_GET_STATUS : Z := 2.

(** enum gsmd_msg_phone *)

Definition GSMD_PHONE_POWERUP : Z := 1.
Definition GSMD_PHONE_POWERDOWN : Z := 2.
Definition GSMD_PHONE_GET_IMSI : Z := 3.
Definition GSMD_PHONE_GET_MANUF : Z := 4.
Definition GSMD_PHONE_GET_MODEL : Z := 5.
Definition GSMD_PHONE_GET_REVISION : Z := 6.
Definition GSMD_PHONE_GET_SERIAL : Z := 7.
Definition GSMD_PHONE_GET_BATTERY : Z := 8.
Definition GSMD_PHONE_VIB_ENABLE : Z := 9.
Definition GSMD_PHONE_VIB_DISABLE : Z := 10.
Definition GSMD_PHONE_POWER_STATUS : Z := 11.

(** enum gsmd_msg_modem *)

Definition GSMD_MODEM_POWERUP : Z := 1.
Definition GSMD_MODEM_POWERDOWN : Z := 2.

(** enum gsmd_msg_cb *)

Definition GSMD_CB_SUBSCRIBE : Z := 1.
Definition GSMD_CB_UNSUBSCRIBE : Z := 2.

(** enum gsmd_msg_network *)

Definition GSMD_NETWORK_REGISTER : Z := 1.
Definition GSMD_NETWORK_SIGQ_GET : Z := 2.
Definition GSMD_NETWORK_VMAIL_GET : Z := 3.
Definition GSMD_NETWORK_VMAIL_SET : Z := 4.
Definition GSMD_NETWORK_OPER_GET : Z := 5.
Definition GSMD_NETWORK_OPER_N_GET : Z := 6.
Definition GSMD_NETWORK_OPER_LIST : Z := 7.
Definition GSMD_NETWORK_CIND_GET : Z := 8.
Definition GSMD_NETWORK_DEREGISTER : Z := 9.
Definition GSMD_NETWORK_GET_NUMBER : Z := 10.
Definition GSMD_NETWORK_PREF_LIST : Z := 11.
Definition GSMD_NETWORK_PREF_DEL : Z := 12.
Definition GSMD_NETWORK_PREF_ADD : Z := 13.
Definition GSMD_NETWORK_PREF_SPACE : Z := 14.
Definition GSMD_NETWORK_QUERY_REG : Z := 15.

(** enum gsmd_msg_sms *)

Definition GSMD_SMS_LIST : Z := 1.
Definition GSMD_SMS_READ : Z := 2.
Definition GSMD_SMS_SEND : Z := 3.
Definition GSMD_SMS_WRITE : Z := 4.
Definition GSMD_SMS_DELETE : Z := 5.
Definition GSMD_SMS_GET_MSG_STORAGE : Z := 6.
Definition GSMD_SMS_SET_MSG_STORAGE : Z := 7.
Definition GSMD_SMS_GET_SERVICE_CENTRE : Z := 8.
Definition GSMD_SMS_SET_SERVICE_CENTRE : Z := 9.

(** enum gsmd_sms_alphabet *)

Definition ALPHABET_DEFAULT : Z := 0.
Definition ALPHABET_8BIT : Z := 4.
Definition ALPHABET_UCS2 : Z := 8.
Definition ALPHABET_RESERVED : Z := 12.

(** enum gsmd_sms_msg_class *)

Definition MSG_CLASS_CLASS0 : Z := 0.
Definition MSG_CLASS_CLASS1 : Z := 1.
Definition MSG_CLASS_CLASS2 : Z := 2.
Definition MSG_CLASS_CLASS3 : Z := 3.
Definition MSG_CLASS_NONE : Z := 4.

(** enum gsmd_sms_alphabet_type *)

Definition SMS_ALPHABET_7_BIT_DEFAULT : Z := 0.
Definition SMS_ALPHABET_8_BIT : Z := 1.
Definition SMS_ALPHABET_UCS2 : Z := 2.
Definition SMS_ALPHABET_RESESRVED : Z := 3.

(** enum gsmd_sms_msg_compressed *)

Definition NOT_COMPRESSED : Z := 0.
Definition COMPRESSED : Z := 1.

(** enum gsmd_sms_msg_waiting_group *)

Definition MESSAGE_WAITING_NONE : Z := 0.
Definition MESSAGE_WAITING_DISCARD : Z := 1.
Definition MESSAGE_WAITING_STORE : Z := 2.
Definition MESSAGE_WAITING_NONE_1111 : Z := 3.

(** enum gsmd_sms_msg_waiting_type *)

Definition MESSAGE_WAITING_VOICEMAIL : Z := 0.
Definition MESSAGE_WAITING_FAX : Z := 1.
Definition MESSAGE_WAITING_EMAIL : Z := 2.
Definition MESSAGE_WAITING_OTHER : Z := 3.

(** enum gsmd_sms_msg_waiting_active *)

Definition NOT_ACTIVE : Z := 0.
Definition ACTIVE : Z := 1.

(** enum gsmd_sms_tp_mti *)

Definition GSMD_SMS_TP_MTI_DELIVER : Z := 0.
Definition GSMD_SMS_TP_MTI_DELIVER_REPORT : Z := 0.
Definition GSMD_SMS_TP_MTI_STATUS_REPORT : Z := 2.
Definition GSMD_SMS_TP_MTI_COMMAND : Z := 2.
Definition GSMD_SMS_TP_MTI_SUBMIT : Z := 1.
Definition GSMD_SMS_TP_MTI_SUBMIT_REPORT : Z := 1.
Definition GSMD_SMS_TP_MTI_RESERVED : Z := 3.

(** enum gsmd_sms_tp_vpf *)

Definition GSMD_SMS_TP_VPF_NOT_PRESENT : Z := 0.
Definition GSMD_SMS_TP_VPF_RESERVED : Z := 8.
Definition GSMD_SMS_TP_VPF_RELATIVE : Z := 16.
Definition GSMD_SMS_TP_VPF_ABSOLUTE : Z := 24.

(** enum gsmd_sms_tp_srr *)

Definition GSMD_SMS_TP_SRR_NOT_REQUEST : Z := 0.
Definition GSMD_SMS_TP_SRR_STATUS_REQUEST : Z := 32.

(** enum gsmd_sms_tp_rp *)

Definition GSMD_SMS_TP_RP_NOT_SET : Z := 0.
Definition GSMD_SMS_TP_RP_SET : Z := 128.

(** enum gsmd_sms_tp_udhi *)

Definition GSMD_SMS_TP_UDHI_NO_HEADER : Z := 0.
Definition GSMD_SMS_TP_UDHI_WITH_HEADER : Z := 64.

(** enum gsmd_msg_phonebook *)

Definition GSMD_PHONEBOOK_FIND : Z := 1.
Definition GSMD_PHONEBOOK_READ : Z := 2.
Definition GSMD_PHONEBOOK_READRG : Z := 3.
Definition GSMD_PHONEBOOK_WRITE : Z := 4.
Definition GSMD_PHONEBOOK_DELETE : Z := 5.
Definition GSMD_PHONEBOOK_GET_SUPPORT : Z := 6.
Definition GSMD_PHONEBOOK_LIST_STORAGE : Z := 7.
Definition GSMD_PHONEBOOK_SET_STORAGE : Z := 8.

(** enum gsmd_toa_ton *)

Definition GSMD_TOA_TON_UNKNOWN : Z := 0.
Definition GSMD_TOA_TON_INTERNATIONAL : Z := 16.
Definition GSMD_TOA_TON_NATIONAL : Z := 32.
Definition GSMD_TOA_TON_NETWORK : Z := 48.
Definition GSMD_TOA_TON_SUBSCRIBER : Z := 64.
Definition GSMD_TOA_TON_ALPHANUMERIC : Z := 80.
Definition GSMD_TOA_TON_ABBREVIATED : Z := 96.
Definition GSMD_TOA_TON_MASK : Z := 112.

(** enum ts0705_mem_type *)

Definition GSM0705_MEMTYPE_NONE : Z := 0.
Definition GSM0705_MEMTYPE_BROADCAST : Z := 1.
Definition GSM0705_MEMTYPE_ME_MESSAGE : Z := 2.
Definition GSM0705_MEMTYPE_MT : Z := 3.
Definition GSM0705_MEMTYPE_SIM : Z := 4.
Definition GSM0705_MEMTYPE_TA : Z := 5.
Definition GSM0705_MEMTYPE_SR : Z := 6.

(** enum gsmd_oper_status *)

Definition GSMD_OPER_UNKNOWN : Z := 0.
Definition GSMD_OPER_AVAILABLE : Z := 1.
Definition GSMD_OPER_CURRENT : Z := 2.
Definition GSMD_OPER_FORBIDDEN : Z := 3.

(** enum gsmd_subscriber_service *)

Definition GSMD_SERVICE_UNKNOWN : Z := (-1).
Definition GSMD_SERVICE_ASYNC_MODEM : Z := 0.
Definition GSMD_SERVICE_SYNC_MODEM : Z := 1.
Definition GSMD_SERVICE_PAD_ACCESS : Z := 2.
Definition GSMD_SERVICE_PACKET_ACCESS : Z := 3.
Definition GSMD_SERVICE_VOICE : Z := 4.
Definition GSMD_SERVICE_FAX : Z := 5.

(** enum gsmd_events *)

Definition GSMD_EVT_NONE : Z := 0.
Definition GSMD_EVT_IN_CALL : Z := 1.
Definition GSMD_EVT_IN_SMS : Z := 2.
Definition GSMD_EVT_IN_GPRS : Z := 3.
Definition GSMD_EVT_IN_CLIP : Z := 4.
Definition GSMD_EVT_NETREG : Z := 5.
Definition GSMD_EVT_SIGNAL : Z := 6.
Definition GSMD_EVT_PIN : Z := 7.
Definition GSMD_EVT_OUT_STATUS : Z := 8.
Definition GSMD_EVT_OUT_COLP : Z := 9.
Definition GSMD_EVT_CALL_WAIT : Z := 10.
Definition GSMD_EVT_TIMEZONE : Z := 11.
Definition GSMD_EVT_SUBSCRIPTIONS : Z := 12.
Definition GSMD_EVT_CIPHER : Z := 13.
Definition GSMD_EVT_IN_CBM : Z := 14.
Definition GSMD_EVT_IN_DS : Z := 15.
Definition GSMD_EVT_IN_ERROR : Z := 16.
Definition NUM_GSMD_EVT : Z := 17.

(** enum gsmd_pin_type *)

Definition GSMD_PIN_READY : Z := 0.
Definition GSMD_PIN_SIM_PIN : Z := 1.
Definition GSMD_PIN_SIM_PUK : Z := 2.
Definition GSMD_PIN_PH_SIM_PIN : Z := 3.
Definition GSMD_PIN_PH_FSIM_PIN : Z := 4.
Definition GSMD_PIN_PH_FSIM_PUK : Z := 5.
Definition GSMD_PIN_SIM_PIN2 : Z := 6.
Definition GSMD_PIN_SIM_PUK2 : Z := 7.
Definition GSMD_PIN_PH_NET_PIN : Z := 8.
Definition GSMD_PIN_PH_NET_PUK : Z := 9.
Definition GSMD_PIN_PH_NETSUB_PIN : Z := 10.
Definition GSMD_PIN_PH_NETSUB_PUK : Z := 11.
Definition GSMD_PIN_PH_SP_PIN : Z := 12.
Definition GSMD_PIN_PH_SP_PUK : Z := 13.
Definition GSMD_PIN_PH_CORP_PIN : Z := 14.
Definition GSMD_PIN_PH_CORP_PUK : Z := 15.
Definition NUM_GSMD_PIN : Z := 16.

(** enum gsmd_call_type *)

Definition GSMD_CALL_NONE : Z := 0.
Definition GSMD_CALL_UNSPEC : Z := 1.
Definition GSMD_CALL_VOICE : Z := 2.
Definition GSMD_CALL_FAX : Z := 4.
Definition GSMD_CALL_DATA_SYNC : Z := 5.
Definition GSMD_CALL_DATA_REL_ASYNC : Z := 6.
Definition GSMD_CALL_DATA_REL_SYNC : Z := 7.
Definition GSMD_CALL_TIMEOUT : Z := 8.
Definition NUM_GSMD_CALL : Z := 9.

(** enum gsmd_netreg_state *)

Definition GSMD_NETREG_UNREG : Z := 0.
Definition GSMD_NETREG_REG_HOME : Z := 1.
Definition GSMD_NETREG_UNREG_BUSY : Z := 2.
Definition GSMD_NETREG_DENIED : Z := 3.
Definition GSMD_NETREG_UNKNOWN : Z := 4.
Definition GSMD_NETREG_REG_ROAMING : Z := 5.
Definition NUM_GSMD_NETREG : Z := 6.

(** enum gsmd_call_progress *)

Definition GSMD_CALLPROG_SETUP : Z := 0.
Definition GSMD_CALLPROG_DISCONNECT : Z := 1.
Definition GSMD_CALLPROG_ALERT : Z := 2.
Definition GSMD_CALLPROG_CALL_PROCEED : Z := 3.
Definition GSMD_CALLPROG_SYNC : Z := 4.
Definition GSMD_CALLPROG_PROGRESS : Z := 5.
Definition GSMD_CALLPROG_CONNECTED : Z := 6.
Definition GSMD_CALLPROG_RELEASE : Z := 7.
Definition GSMD_CALLPROG_REJECT : Z := 8.
Definition GSMD_CALLPROG_UNKNOWN : Z := 9.
Definition NUM_GSMD_CALLPROG : Z := 10.

(** enum gsmd_call_direction *)

Definition GSMD_CALL_DIR_MO : Z := 0.
Definition GSMD_CALL_DIR_MT : Z := 1.
Definition GSMD_CALL_DIR_CCBS : Z := 2.
Definition GSMD_CALL_DIR_MO_REDIAL : Z := 3.
