(* ===== verification/Wire.v ===== *)
(** * Messages as memory (include/gsmd/usock.h)

    The daemon and its clients exchange C structures byte for byte.  A block of
    memory is a list of bytes, a byte being [None] while it is indeterminate
    (allocated and not yet written).  Each structure is a record with its layout
    on the target (32-bit little-endian ARM); the padding of the structures that
    are not packed is written out. *)

From S2P Require Import Prelude CString Enums.

(** ** Memory *)

Definition mem : Type := list (option Z).

Definition undef (n : nat) : mem := replicate n None.
Definition known (l : list Z) : mem := Some <$> l.

Definition le16 (x : Z) : list Z := [x mod 256; (x / 256) mod 256].
Definition le32 (x : Z) : list Z :=
  [x mod 256; (x / 256) mod 256; (x / 65536) mod 256; (x / 16777216) mod 256].

(** A field of a structure that may not have been assigned. *)
Definition f8 (o : option Z) : mem := match o with Some x => [Some (u8 x)] | None => undef 1 end.
Definition f16 (o : option Z) : mem := match o with Some x => known (le16 x) | None => undef 2 end.
Definition f32 (o : option Z) : mem := match o with Some x => known (le32 x) | None => undef 4 end.

(** Reading a message: [None] when the field lies outside the bytes received. *)
Definition rd8 (l : list Z) (off : nat) : option Z := l !! off.
Definition rd16 (l : list Z) (off : nat) : option Z :=
  match drop off l with
  | b0 :: b1 :: _ => Some (b0 + 256 * b1)
  | _ => None
  end.
Definition rd32 (l : list Z) (off : nat) : option Z :=
  match drop off l with
  | b0 :: b1 :: b2 :: b3 :: _ => Some (s32 (b0 + 256 * b1 + 65536 * b2 + 16777216 * b3))
  | _ => None
  end.

(** The C string at an offset, if it ends inside the bytes received. *)
Definition cstr_at (l : list Z) (off : nat) : option (list Z) :=
  let m := drop off l in
  if bool_decide (0 ∈ m) then Some (until0 m) else None.

(** [strcpy] of a string into a block of memory that holds it and its NUL, and
    [None] when it does not fit. *)
Definition strcpy (dst : mem) (src : list Z) : option mem :=
  if (length src <? length dst)%nat
  then Some (known src ++ Some 0 :: drop (S (length src)) dst)
  else None.

(** [strlcpy] into a field of [size] bytes that is not yet initialised. *)
Definition strlcpy_field (size : nat) (src : list Z) : mem :=
  let t := take (size - 1) src in known (t ++ [0]) ++ undef (size - 1 - length t).

(** Writing [l] at the start of a block large enough. *)
Definition overwrite (dst : mem) (l : list Z) : option mem :=
  if (length l <=? length dst)%nat then Some (known l ++ drop (length l) dst) else None.

(** Storing a field at an offset of a block that contains it. *)
Definition put (off : nat) (field : mem) (m : mem) : mem :=
  take off m ++ field ++ drop (off + length field) m.

Lemma length_put off field m : (off + length field ≤ length m)%nat →
  length (put off field m) = length m.
Proof. intros H. unfold put. rewrite !length_app, length_take, length_drop. lia. Qed.

Lemma length_known l : length (known l) = length l.
Proof. apply length_fmap. Qed.
Lemma length_undef n : length (undef n) = n.
Proof. apply length_replicate. Qed.
Lemma length_f8 o : length (f8 o) = 1%nat.
Proof. by destruct o. Qed.
Lemma length_f16 o : length (f16 o) = 2%nat.
Proof. by destruct o. Qed.
Lemma length_f32 o : length (f32 o) = 4%nat.
Proof. by destruct o. Qed.

Create Rewrite HintDb len.
#[export] Hint Rewrite @length_app @length_cons length_known length_undef length_f8
  length_f16 length_f32 @length_replicate @length_drop @length_take @length_fmap : len.

Lemma overwrite_length dst l m : overwrite dst l = Some m → length m = length dst.
Proof.
  unfold overwrite. destruct (Nat.leb_spec (length l) (length dst)); [|done].
  intros [= <-]. autorewrite with len. lia.
Qed.

Lemma strcpy_length dst s m : strcpy dst s = Some m → length m = length dst.
Proof.
  unfold strcpy. destruct (Nat.ltb_spec (length s) (length dst)); [|done].
  intros [= <-]. autorewrite with len. lia.
Qed.

Lemma rd16_le16 x rest : 0 ≤ x < 2 ^ 16 → rd16 (le16 x ++ rest) 0 = Some x.
Proof.
  intros Hx. unfold rd16, le16. cbn [drop app]. f_equal.
  change (2 ^ 16) with 65536 in Hx. zdiv.
Qed.

Lemma le32_value x :
  x mod 256 + 256 * ((x / 256) mod 256) + 65536 * ((x / 65536) mod 256)
    + 16777216 * ((x / 16777216) mod 256) = x mod 2 ^ 32.
Proof. change (2 ^ 32) with 4294967296. zdiv. Qed.

Lemma rd32_le32 x rest : INT_MIN ≤ x ≤ INT_MAX → rd32 (le32 x ++ rest) 0 = Some x.
Proof.
  unfold INT_MIN, INT_MAX. intros Hx. unfold rd32, le32. cbn [drop app].
  rewrite le32_value. f_equal. unfold wraps. rewrite Zplus_mod_idemp_l.
  change (2 ^ (32 - 1)) with 2147483648. change (2 ^ 32) with 4294967296.
  rewrite Z.mod_small; lia.
Qed.

(** ** The structures *)

Definition GSMD_ADDR_MAXLEN : nat := 32.
Definition GSMD_ALPHA_MAXLEN : nat := 20.
Definition GSMD_SMS_DATA_MAXLEN : nat := 164.
Definition GSMD_PIN_MAXLEN : nat := 8.
Definition GSMD_PROTO_VERSION : Z := 1.
Definition GSMD_MSGSIZE_MAX : nat := 4096.

Record gsmd_addr : Type := Addr {
  addr_type : option Z;
  addr_number : mem }.          (* GSMD_ADDR_MAXLEN + 1 bytes *)

Definition addr_undef : gsmd_addr := Addr None (undef (GSMD_ADDR_MAXLEN + 1)).
Definition enc_addr (a : gsmd_addr) : mem := f8 (addr_type a) ++ addr_number a.

Record gsmd_sms_datacodingscheme : Type := Dcs {
  msg_class : Z; alphabet : Z; is_compressed : Z;
  mwi_group : Z; mwi_active : Z; mwi_kind : Z; raw_dcs_data : Z }.

Definition enc_dcs (o : option gsmd_sms_datacodingscheme) : mem :=
  match o with
  | Some d =>
      known (le32 (msg_class d) ++ le32 (alphabet d) ++ le32 (is_compressed d) ++
             le32 (mwi_group d) ++ le32 (mwi_active d) ++ le32 (mwi_kind d) ++
             [u8 (raw_dcs_data d)])
  | None => undef 25
  end.

Record gsmd_sms : Type := Sms {
  sms_length : option Z;
  sms_coding_scheme : option Z;
  sms_has_header : option Z;
  sms_is_voicemail : option Z;
  sms_dcs : option gsmd_sms_datacodingscheme;
  sms_tp_mti : option Z;
  sms_data : mem }.             (* GSMD_SMS_DATA_MAXLEN + 1 bytes *)

Definition sms_undef : gsmd_sms :=
  Sms None None None None None None (undef (GSMD_SMS_DATA_MAXLEN + 1)).
Definition enc_sms (p : gsmd_sms) : mem :=
  f8 (sms_length p) ++ f8 (sms_coding_scheme p) ++ f32 (sms_has_header p) ++
  f32 (sms_is_voicemail p) ++ enc_dcs (sms_dcs p) ++ f32 (sms_tp_mti p) ++ sms_data p.

Record gsmd_sms_list : Type := SmsList {
  sl_index : option Z;
  sl_stat : option Z;
  sl_time_stamp : mem;          (* 7 bytes *)
  sl_addr : gsmd_addr;
  sl_payload : gsmd_sms;
  sl_is_last : option Z }.

Definition sms_list_undef : gsmd_sms_list :=
  SmsList None None (undef 7) addr_undef sms_undef None.
Definition enc_sms_list (m : gsmd_sms_list) : mem :=
  f8 (sl_index m) ++ undef 3 ++ f32 (sl_stat m) ++ sl_time_stamp m ++
  enc_addr (sl_addr m) ++ enc_sms (sl_payload m) ++ undef 3 ++ f32 (sl_is_last m).

(** What [sms_pdu_make_smssubmit] reads of a [struct gsmd_sms_submit] that lies
    in a client's message: the number up to its NUL, and the bytes from [data]
    to the end of the message. *)
Record gsmd_sms_submit : Type := Submit {
  sub_type : Z;
  sub_number : list Z;
  sub_length : Z;
  sub_coding_scheme : Z;
  sub_has_header : Z;
  sub_data : list Z;
  sub_ask_ds : Z }.

(** The layout: 34 bytes of address, 204 of payload, 2 of padding, 4. *)
Definition dec_sms_submit (l : list Z) : option gsmd_sms_submit :=
  ty ← rd8 l 0; nu ← cstr_at l 1;
  len ← rd8 l 34; cs ← rd8 l 35; hdr ← rd32 l 36; ds ← rd32 l 240;
  Some (Submit ty nu len cs hdr (drop 73 l) ds).

Record gsmd_cbm : Type := Cbm {
  cbm_scope : Z; cbm_msg_code : Z; cbm_update_num : Z; cbm_msg_id : Z;
  cbm_language : Z; cbm_coding_scheme : Z; cbm_pages : Z; cbm_page : Z;
  cbm_data : list Z }.          (* 82 bytes *)

Definition enc_cbm (c : gsmd_cbm) : mem :=
  known (le32 (cbm_scope c) ++ le32 (cbm_msg_code c) ++ le32 (cbm_update_num c) ++
         le16 (cbm_msg_id c)) ++ undef 2 ++
  known (le32 (cbm_language c) ++ [u8 (cbm_coding_scheme c)]) ++ undef 3 ++
  known (le32 (cbm_pages c) ++ le32 (cbm_page c) ++ cbm_data c) ++ undef 2.

(** [struct gsmd_msg_hdr]: 8 bytes, then [len] bytes of data. *)
Record gsmd_msg_hdr : Type := Hdr {
  h_version : Z; h_msg_type : Z; h_msg_subtype : Z; h_pad : option Z; h_id : option Z;
  h_len : Z }.

Definition enc_hdr (h : gsmd_msg_hdr) : mem :=
  known [u8 (h_version h); u8 (h_msg_type h); u8 (h_msg_subtype h)] ++ f8 (h_pad h) ++
  f16 (h_id h) ++ known (le16 (h_len h)).

Definition dec_hdr (l : list Z) : option gsmd_msg_hdr :=
  v ← rd8 l 0; t ← rd8 l 1; st ← rd8 l 2; p ← rd8 l 3; i ← rd16 l 4; n ← rd16 l 6;
  Some (Hdr v t st (Some p) (Some i) n).

Definition sizeof_hdr : nat := 8.
Definition sizeof_addr : nat := 34.
Definition sizeof_sms : nat := 204.
Definition sizeof_sms_submit : nat := 244.
Definition sizeof_sms_list : nat := 260.
Definition sizeof_evt_auxdata : nat := 60.
Definition sizeof_call_status : nat := 64.
