(* ===== verification/LLParse.v ===== *)
(** * The low-level line parser (src/target/gsm/src/gsmd/atcmd.c, the llparse functions)

    A byte-driven state machine that splits the UART stream into V1 result lines
    ([<CR><LF>text<CR><LF>]) and SMS-style ["> "] prompts. Each completed line
    and each prompt is handed to a callback; what the parser asks of its client
    is the class [LineSink], and its theorems are proved against that class. *)

From S2P Require Import Prelude CString.

(** ** Data (include/gsmd/gsmd.h) *)

Definition LGSM_ATCMD_F_EXTENDED : Z := 1.
Definition LGSM_ATCMD_F_LFCR : Z := 4.
Definition LLPARSE_BUF_SIZE : nat := 1024.

Inductive llparse_state : Type :=
  | LLPARSE_STATE_IDLE
  | LLPARSE_STATE_IDLE_CR
  | LLPARSE_STATE_IDLE_LF
  | LLPARSE_STATE_RESULT
  | LLPARSE_STATE_RESULT_CR
  | LLPARSE_STATE_RESULT_LF
  | LLPARSE_STATE_PROMPT
  | LLPARSE_STATE_PROMPT_SPC
  | LLPARSE_STATE_ERROR.

#[export] Instance llparse_state_eq_dec : EqDecision llparse_state.
Proof. solve_decision. Defined.

(** [lp_buf] is what [buf] holds up to [cur]; the rest of the buffer is zero. *)
Record llparser : Type := LLP {
  lp_state : llparse_state;
  lp_flags : Z;
  lp_buf : list Z }.

Definition lp_extended (p : llparser) : bool := Z.testbit (lp_flags p) 0.
Definition lp_lfcr (p : llparser) : bool := Z.testbit (lp_flags p) 2.

Definition lp_goto (st : llparse_state) (p : llparser) : llparser :=
  LLP st (lp_flags p) (lp_buf p).

(** ** Operations *)

Definition llparse_append (p : llparser) (byte : Z) : llparser * Z :=
  if (length (lp_buf p) <? LLPARSE_BUF_SIZE)%nat
  then (LLP (lp_state p) (lp_flags p) (lp_buf p ++ [byte]), 0)
  else (p, - EFBIG).

Definition llparse_endline (p : llparser) : llparser :=
  LLP LLPARSE_STATE_IDLE (lp_flags p) [].

(** The daemon is built without STRICT. *)
Definition llparse_byte (p : llparser) (byte : Z) : llparser * Z :=
  match lp_state p with
  | LLPARSE_STATE_IDLE | LLPARSE_STATE_PROMPT_SPC =>
      if lp_extended p then
        if byte =? CR then (lp_goto LLPARSE_STATE_IDLE_CR p, 0)
        else if byte =? ch ">" then (lp_goto LLPARSE_STATE_PROMPT p, 0)
        else llparse_append (lp_goto LLPARSE_STATE_RESULT p) byte
      else llparse_append (lp_goto LLPARSE_STATE_RESULT p) byte
  | LLPARSE_STATE_IDLE_CR =>
      if byte =? LF then (lp_goto LLPARSE_STATE_IDLE_LF p, 0)
      else if negb (byte =? CR) then (lp_goto LLPARSE_STATE_ERROR p, 0)
      else (p, 0)
  | LLPARSE_STATE_IDLE_LF =>
      if byte =? CR then (lp_goto LLPARSE_STATE_RESULT_CR p, 0)
      else if byte =? ch ">" then (lp_goto LLPARSE_STATE_PROMPT p, 0)
      else llparse_append (lp_goto LLPARSE_STATE_RESULT p) byte
  | LLPARSE_STATE_RESULT =>
      if byte =? CR then (lp_goto LLPARSE_STATE_RESULT_CR p, 0)
      else if lp_lfcr p && (byte =? LF) then (lp_goto LLPARSE_STATE_RESULT_LF p, 0)
      else llparse_append p byte
  | LLPARSE_STATE_RESULT_CR =>
      if byte =? LF then (llparse_endline p, 0) else (p, 0)
  | LLPARSE_STATE_RESULT_LF =>
      if byte =? CR then (llparse_endline p, 0) else (p, 0)
  | LLPARSE_STATE_PROMPT =>
      if byte =? SPC then (lp_goto LLPARSE_STATE_PROMPT_SPC p, 0)
      else
        let '(p1, _) := llparse_append p (ch ">") in
        let '(p2, ret) := llparse_append p1 byte in
        (lp_goto LLPARSE_STATE_RESULT p2, ret)
  | LLPARSE_STATE_ERROR => (p, 0)
  end.

Definition llparse_init (p : llparser) : llparser := lp_goto LLPARSE_STATE_IDLE p.

(** ** The client interface *)

Class LineSink (S : Type) := {
  llp_of : S → llparser;
  llp_put : llparser → S → S;
  line_cb : list Z → M S Z;       (* llp->cb(llp->buf, llp->cur - llp->buf, ctx) *)
  prompt_cb : M S Z               (* llp->prompt_cb(ctx) *)
}.

(** What the parser relies on: its own record is a field of the client's state,
    and the callbacks neither move the parser nor leave V1 mode. *)
Definition llp_kept (p q : llparser) : Prop :=
  lp_state q = lp_state p ∧ lp_buf q = lp_buf p ∧ lp_extended q = lp_extended p.

#[export] Instance llp_kept_preorder : PreOrder llp_kept.
Proof.
  split; [done|]. intros p q r (?&?&?) (?&?&?). unfold llp_kept. by intuition congruence.
Qed.

Class LineSinkLaws (S : Type) `{LineSink S} : Prop := {
  llp_of_put p s : llp_of (llp_put p s) = p;
  llp_put_put p q s : llp_put p (llp_put q s) = llp_put p s;
  llp_put_of s : llp_put (llp_of s) s = s;
  line_cb_keeps l : keeps (λ s s', llp_kept (llp_of s) (llp_of s')) (line_cb l);
  prompt_cb_keeps : keeps (λ s s', llp_kept (llp_of s) (llp_of s')) prompt_cb
}.

Section string.
Context {S : Type} `{LineSink S}.

Definition in_state (st : llparse_state) (s : S) : bool :=
  bool_decide (lp_state (llp_of s) = st).

(** One iteration of the loop of [llparse_string]; the return values of the
    callbacks are ignored. *)
Definition llparse_step (byte : Z) : M S Z :=
  s ← get;
  let '(p, rc) := llparse_byte (llp_of s) byte in
  modify (llp_put p);;
  if rc <? 0 then mret rc
  else
    s1 ← get;
    (if in_state LLPARSE_STATE_RESULT_CR s1
     then line_cb (lp_buf (llp_of s1)) else mret 0);;
    s2 ← get;
    (if in_state LLPARSE_STATE_PROMPT_SPC s2 then prompt_cb else mret 0);;
    mret 0.

Fixpoint llparse_string (buf : list Z) : M S Z :=
  match buf with
  | [] => mret 0
  | byte :: rest =>
      rc ← llparse_step byte;
      if rc <? 0 then mret rc else llparse_string rest
  end.
End string.

(** ** Abstract specification: a sequence of lines

    [deliver ls] runs the callback on each line in order, with the parser at the
    end of that line, and leaves it idle with an empty buffer. *)

Section spec.
Context {S : Type} `{LineSink S}.

Definition at_line (l : list Z) (s : S) : S :=
  llp_put (LLP LLPARSE_STATE_RESULT_CR (lp_flags (llp_of s)) l) s.
Definition line_done (s : S) : S :=
  llp_put (LLP LLPARSE_STATE_IDLE (lp_flags (llp_of s)) []) s.

Fixpoint deliver (ls : list (list Z)) : M S Z :=
  match ls with
  | [] => mret 0
  | l :: ls' =>
      modify (at_line l);;
      line_cb l;;
      modify line_done;;
      deliver ls'
  end.
End spec.

(** A V1 response line as the modem sends it. *)
Definition frame (l : list Z) : list Z := [CR; LF] ++ l ++ [CR; LF].

(** A text the framing is transparent to. *)
Definition line_text (l : list Z) : Prop :=
  (0 < length l ≤ LLPARSE_BUF_SIZE)%nat ∧ head l ≠ Some (ch ">") ∧
  Forall (λ c, c ≠ CR ∧ c ≠ LF) l.

Definition llp_idle (p : llparser) : Prop :=
  lp_state p = LLPARSE_STATE_IDLE ∧ lp_buf p = [] ∧ lp_extended p = true.

(** The well-formedness invariant of a parser: the cursor stays in its buffer,
    and outside a line the buffer is empty. *)
Definition in_line (st : llparse_state) : bool :=
  match st with
  | LLPARSE_STATE_RESULT | LLPARSE_STATE_RESULT_CR | LLPARSE_STATE_RESULT_LF => true
  | _ => false
  end.

Definition llp_wf (p : llparser) : Prop :=
  (length (lp_buf p) ≤ LLPARSE_BUF_SIZE)%nat ∧
  (in_line (lp_state p) = false → lp_buf p = []).

(** ** Facts about one byte *)

Lemma llparse_append_room p c : (length (lp_buf p) < LLPARSE_BUF_SIZE)%nat →
  llparse_append p c = (LLP (lp_state p) (lp_flags p) (lp_buf p ++ [c]), 0).
Proof. intros H. unfold llparse_append. by destruct (Nat.ltb_spec (length (lp_buf p)) LLPARSE_BUF_SIZE); [|lia]. Qed.

Lemma llparse_append_full p c : (LLPARSE_BUF_SIZE ≤ length (lp_buf p))%nat →
  llparse_append p c = (p, - EFBIG).
Proof. intros H. unfold llparse_append. by destruct (Nat.ltb_spec (length (lp_buf p)) LLPARSE_BUF_SIZE); [lia|]. Qed.

Lemma llparse_append_cases p c p' rc : llparse_append p c = (p', rc) →
  (rc = 0 ∧ p' = LLP (lp_state p) (lp_flags p) (lp_buf p ++ [c]) ∧
     (length (lp_buf p) < LLPARSE_BUF_SIZE)%nat) ∨
  (rc = - EFBIG ∧ p' = p ∧ (LLPARSE_BUF_SIZE ≤ length (lp_buf p))%nat).
Proof.
  unfold llparse_append. destruct (Nat.ltb_spec (length (lp_buf p)) LLPARSE_BUF_SIZE);
    intros [= <- <-]; [by left | by right].
Qed.

(** What a byte does to a well-formed parser. *)
Definition byte_ok (p p' : llparser) (rc : Z) : Prop :=
  llp_wf p' ∧ lp_flags p' = lp_flags p ∧
  (rc = 0 ∨ rc = - EFBIG ∧ p' = p ∧ length (lp_buf p) = LLPARSE_BUF_SIZE).

Lemma byte_ok_goto p st : (length (lp_buf p) ≤ LLPARSE_BUF_SIZE)%nat →
  (in_line st = false → lp_buf p = []) → byte_ok p (lp_goto st p) 0.
Proof. intros H1 H2. split; [done|]. split; [done|by left]. Qed.

Lemma byte_ok_endline p : byte_ok p (llparse_endline p) 0.
Proof. split; [|split; [done|by left]]. split; [apply Nat.le_0_l | done]. Qed.

Lemma byte_ok_append p c p' rc : (length (lp_buf p) ≤ LLPARSE_BUF_SIZE)%nat →
  in_line (lp_state p) = true → llparse_append p c = (p', rc) → byte_ok p p' rc.
Proof.
  intros Hl Hst [(-> & -> & Hr)|(-> & -> & Hr)]%llparse_append_cases.
  - split; [|split; [done|by left]]. split; cbn [lp_buf lp_state]; [|congruence].
    rewrite length_app. cbn [length]. lia.
  - split; [|split; [done|right; split_and!; [done|done|lia]]]. split; [lia|congruence].
Qed.

(** The first bytes of a line, from a state with an empty buffer. *)
Lemma byte_ok_start p c p' rc : lp_buf p = [] →
  llparse_append (lp_goto LLPARSE_STATE_RESULT p) c = (p', rc) → byte_ok p p' rc.
Proof.
  intros Hb [(-> & -> & _)|(_ & _ & Hr)]%llparse_append_cases; cbn [lp_goto lp_buf] in *; rewrite Hb in *.
  - split; [|split; [done|by left]]. split; [|done]. cbn [lp_buf app length]. unfold LLPARSE_BUF_SIZE. lia.
  - exfalso. cbn [length] in Hr. unfold LLPARSE_BUF_SIZE in Hr. lia.
Qed.

Lemma byte_ok_prompt p c p1 p2 rc1 rc2 : lp_buf p = [] →
  llparse_append p (ch ">") = (p1, rc1) → llparse_append p1 c = (p2, rc2) →
  byte_ok p (lp_goto LLPARSE_STATE_RESULT p2) rc2.
Proof.
  intros Hb [(-> & -> & _)|(_ & _ & Hr)]%llparse_append_cases;
    [|exfalso; rewrite Hb in Hr; cbn [length] in Hr; unfold LLPARSE_BUF_SIZE in Hr; lia].
  intros [(-> & -> & _)|(_ & _ & Hr)]%llparse_append_cases; cbn [lp_buf] in *; rewrite Hb in *.
  - split; [|split; [done|by left]]. split; [|done]. cbn [lp_goto lp_buf app length].
    unfold LLPARSE_BUF_SIZE. lia.
  - exfalso. cbn [app length] in Hr. unfold LLPARSE_BUF_SIZE in Hr. lia.
Qed.

Lemma llparse_byte_wf p c p' rc : llp_wf p → llparse_byte p c = (p', rc) → byte_ok p p' rc.
Proof.
  intros [Hlen Hidle]. unfold llparse_byte.
  destruct (lp_state p) eqn:Est; cbn [in_line] in Hidle;
    repeat match goal with
    | |- context [if ?x then _ else _] => destruct x
    | |- context [let '(_, _) := ?x in _] => destruct x eqn:?
    end; intros E;
    first [ by eapply byte_ok_start; eauto
          | by eapply byte_ok_append; [done| |exact E]; rewrite Est
          | injection E as <- <- ];
    first [ by apply byte_ok_goto; auto | apply byte_ok_endline
          | by eapply byte_ok_prompt; eauto
          | split; [by split; rewrite ?Est | split; [done | by left]] ].
Qed.

(** The states from which no callback is due. *)
Definition silent (st : llparse_state) : bool :=
  match st with
  | LLPARSE_STATE_RESULT_CR | LLPARSE_STATE_PROMPT_SPC => false
  | _ => true
  end.

Arguments llparse_append : simpl never.
Arguments llparse_byte : simpl never.
Arguments llparse_step : simpl never.

Section theory.
Context {S : Type} `{LineSinkLaws S}.
Implicit Types (s : S) (l r : list Z).

Lemma llparse_string_cons c r s :
  llparse_string (c :: r) s =
  (rc ← llparse_step c; if rc <? 0 then mret rc else llparse_string r) s.
Proof. done. Qed.

Lemma llparse_step_silent c s p : llparse_byte (llp_of s) c = (p, 0) →
  silent (lp_state p) = true → llparse_step c s = Ret 0 (llp_put p s).
Proof.
  intros E Hp. unfold llparse_step. rewrite bind_get, E. run.
  unfold in_state. rewrite llp_of_put.
  rewrite bool_decide_false by (by destruct p as [? ? ?]; intros E'; cbn in *; subst). run.
  rewrite llp_of_put, bool_decide_false
    by (by destruct p as [? ? ?]; intros E'; cbn in *; subst). done.
Qed.

Lemma llparse_string_silent c r s p : llparse_byte (llp_of s) c = (p, 0) →
  silent (lp_state p) = true → llparse_string (c :: r) s = llparse_string r (llp_put p s).
Proof.
  intros E Hp. cbn [llparse_string].
  by rewrite (bind_step _ _ _ _ _ (llparse_step_silent _ _ _ E Hp)).
Qed.

(** The text of a line goes to the buffer. *)
Lemma llparse_string_text t r fl bf s :
  llp_of s = LLP LLPARSE_STATE_RESULT fl bf → Forall (λ c, c ≠ CR ∧ c ≠ LF) t →
  (length bf + length t ≤ LLPARSE_BUF_SIZE)%nat →
  llparse_string (t ++ r) s =
  llparse_string r (llp_put (LLP LLPARSE_STATE_RESULT fl (bf ++ t)) s).
Proof.
  intros Hs Ht. revert bf s Hs. induction Ht as [|c t [Hcr Hlf] _ IH]; intros bf s Hs Hl.
  - rewrite app_nil_r, <- Hs, llp_put_of. done.
  - cbn [app length] in *.
    rewrite (llparse_string_silent _ _ _ (LLP LLPARSE_STATE_RESULT fl (bf ++ [c]))); [|rewrite Hs|done].
    + rewrite (IH (bf ++ [c])); [|by rewrite llp_of_put | rewrite length_app; cbn; lia].
      by rewrite llp_put_put, <- app_assoc.
    + unfold llparse_byte; cbn. destruct (Z.eqb_spec c CR), (Z.eqb_spec c LF); try done.
      rewrite andb_false_r. apply llparse_append_room. cbn. lia.
Qed.

(** A CR in a line delivers what the buffer holds. *)
Lemma llparse_string_cr r fl bf s :
  llp_of s = LLP LLPARSE_STATE_RESULT fl bf →
  llparse_string (CR :: r) s =
  (modify (at_line bf);; line_cb bf;; llparse_string r) s.
Proof.
  intros Hs. cbn [llparse_string]. unfold llparse_step, at_line, in_state. run.
  rewrite Hs. change (llparse_byte _ CR) with (LLP LLPARSE_STATE_RESULT_CR fl bf, 0). run.
  rewrite llp_of_put, bool_decide_true by done. cbn [lp_flags lp_buf lp_state].
  apply bind_ext. intros a s1 E.
  destruct (line_cb_keeps _ _ _ _ E) as (Hst & _). rewrite llp_of_put in Hst.
  run. rewrite Hst, bool_decide_false by done. done.
Qed.

Lemma llparse_string_endline r s : lp_state (llp_of s) = LLPARSE_STATE_RESULT_CR →
  llparse_string (LF :: r) s = llparse_string r (line_done s).
Proof.
  intros Hs. rewrite (llparse_string_silent _ _ _ (LLP LLPARSE_STATE_IDLE (lp_flags (llp_of s)) []));
    [done| |done].
  unfold llparse_byte. rewrite Hs. done.
Qed.

(** The head of a framed line, from idle. *)
Lemma llparse_string_body l r s : line_text l → llp_idle (llp_of s) →
  llparse_string ([CR; LF] ++ l ++ r) s =
  llparse_string r (llp_put (LLP LLPARSE_STATE_RESULT (lp_flags (llp_of s)) l) s).
Proof.
  intros ((Hpos & Hlen) & Hhd & Hl) (Hst & Hbf & Hex).
  destruct (llp_of s) as [st fl bf] eqn:Hs; cbn in Hst, Hbf, Hex; subst st bf.
  destruct l as [|c l]; [cbn in Hpos; lia|]. inversion Hl as [|? ? [Hc1 Hc2] Hl']; subst.
  cbn [app].
  rewrite (llparse_string_silent _ _ _ (LLP LLPARSE_STATE_IDLE_CR fl [])); [|rewrite Hs|done];
    [|unfold llparse_byte; cbn; by rewrite Hex].
  rewrite (llparse_string_silent _ _ _ (LLP LLPARSE_STATE_IDLE_LF fl [])); [|by rewrite llp_of_put|done].
  rewrite (llparse_string_silent _ _ _ (LLP LLPARSE_STATE_RESULT fl [c]));
    [|rewrite llp_of_put; unfold llparse_byte; cbn|done].
  2:{ destruct (Z.eqb_spec c CR); [done|]. destruct (Z.eqb_spec c (ch ">")); [by subst|].
      apply llparse_append_room. cbn. unfold LLPARSE_BUF_SIZE. lia. }
  rewrite !llp_put_put, (llparse_string_text l _ fl [c])
    by (first [by rewrite llp_of_put | done | cbn in *; lia]).
  by rewrite llp_put_put.
Qed.

(** One framed line, from idle to idle. *)
Lemma llparse_string_frame l r s : line_text l → llp_idle (llp_of s) →
  llparse_string (frame l ++ r) s =
  (modify (at_line l);; line_cb l;; modify line_done;; llparse_string r) s.
Proof.
  intros Hl Hs. unfold frame. rewrite <- !app_assoc.
  rewrite llparse_string_body by done. cbn [app].
  rewrite (llparse_string_cr _ (lp_flags (llp_of s)) l) by by rewrite llp_of_put.
  unfold at_line. run. rewrite !llp_of_put, llp_put_put. apply bind_ext. intros a s1 E.
  destruct (line_cb_keeps _ _ _ _ E) as (Hst' & _). rewrite llp_of_put in Hst'. run.
  by rewrite llparse_string_endline.
Qed.
End theory.

(** ** A reference client: the list of lines seen, and the number of prompts *)

Module Recorder.
Record t : Type := Rec { r_llp : llparser; r_lines : list (list Z); r_prompts : nat }.

#[export] Instance sink : LineSink t := {
  llp_of := r_llp;
  llp_put p s := Rec p (r_lines s) (r_prompts s);
  line_cb l := λ s, Ret 0 (Rec (r_llp s) (r_lines s ++ [l]) (r_prompts s));
  prompt_cb := λ s, Ret 0 (Rec (r_llp s) (r_lines s) (S (r_prompts s)))
}.

#[export] Instance sink_laws : LineSinkLaws t.
Proof.
  split; try done; [by intros [? ? ?] | intros l | ]; intros s a s' [= _ <-]; reflexivity.
Qed.

Definition init (flags : Z) : t := Rec (LLP LLPARSE_STATE_IDLE flags []) [] 0.
End Recorder.

Section properties.
Context {S : Type} `{LineSinkLaws S}.
Implicit Types (s : S) (l r : list Z).

Lemma llp_idle_line_done s : lp_extended (llp_of s) = true → llp_idle (llp_of (line_done s)).
Proof. intros Hx. unfold line_done. rewrite llp_of_put. done. Qed.

Lemma line_done_idle s : llp_idle (llp_of s) → line_done s = s.
Proof.
  intros (E1 & E2 & _). unfold line_done.
  destruct (llp_of s) as [st fl bf] eqn:E; cbn in *; subst. rewrite <- E. apply llp_put_of.
Qed.

Lemma llparse_step_keeps_wf c s rc s' : llp_wf (llp_of s) →
  llparse_step c s = Ret rc s' → llp_wf (llp_of s').
Proof.
  intros Hwf. unfold llparse_step. rewrite bind_get.
  destruct (llparse_byte (llp_of s) c) as [p rc0] eqn:E. run.
  destruct (llparse_byte_wf _ _ _ _ Hwf E) as (Hp & _ & _).
  assert (∀ t t', llp_kept (llp_of t) (llp_of t') → llp_wf (llp_of t) → llp_wf (llp_of t')) as Hk.
  { intros t t' (E1 & E2 & _). unfold llp_wf. by rewrite E1, E2. }
  destruct (rc0 <? 0); [intros [= _ <-]; by rewrite llp_of_put|]. run.
  intros (a & s1 & H1 & H2)%bind_Ret. rewrite bind_get in H2.
  apply bind_Ret in H2 as (a2 & s2 & H2 & [= _ <-]).
  assert (llp_wf (llp_of s1)) as Hs1.
  { destruct (in_state LLPARSE_STATE_RESULT_CR _); [|by apply Ret_inj in H1 as [_ <-]; rewrite llp_of_put].
    eapply Hk; [eapply line_cb_keeps, H1|]. by rewrite llp_of_put. }
  destruct (in_state LLPARSE_STATE_PROMPT_SPC _); [|by apply Ret_inj in H2 as [_ <-]].
  eapply Hk; [eapply prompt_cb_keeps, H2|done].
Qed.

Lemma frames_deliver ls s : Forall line_text ls → llp_idle (llp_of s) →
  llparse_string (concat (frame <$> ls)) s = deliver ls s.
Proof.
  intros Hls. revert s. induction Hls as [|l ls Hl _ IH]; intros s Hs; [done|].
  cbn [fmap list_fmap concat deliver]. rewrite llparse_string_frame by done. run.
  apply bind_ext. intros a s1 E. run. apply IH, llp_idle_line_done.
  destruct (line_cb_keeps _ _ _ _ E) as (_ & _ & ->).
  unfold at_line. rewrite llp_of_put. apply Hs.
Qed.

Lemma deliver_app (l1 l2 : list (list Z)) s : deliver (l1 ++ l2) s = (deliver l1;; deliver l2) s.
Proof.
  revert s. induction l1 as [|l l1 IH]; intros s; [done|]. cbn [app deliver]. run.
  apply bind_ext. intros rc s1 _. run. apply IH.
Qed.

(** [C1] A stream of framed lines is delivered line by line: the parser runs the
    callback on exactly the texts sent, in order, and is idle after the last.
    Refinement of [llparse_string] to the specification [deliver]. *)
Theorem llparse_frames ls s : Forall line_text ls → llp_idle (llp_of s) →
  llparse_string (concat (frame <$> ls)) s = deliver ls s.
Proof. apply frames_deliver. Qed.

Lemma string_app x y s :
  llparse_string (x ++ y) s =
  (rc ← llparse_string x; if rc <? 0 then mret rc else llparse_string y) s.
Proof.
  revert s. induction x as [|c x IH]; intros s; [done|]. cbn [app llparse_string].
  run. apply bind_ext. intros rc s1 _. destruct (rc <? 0) eqn:E; [|apply IH].
  run. by rewrite E.
Qed.

(** The size of the [read]s on the UART does not matter: parsing two chunks is
    parsing their concatenation, unless the first one fails. *)
Theorem llparse_string_app x y s :
  llparse_string (x ++ y) s =
  (rc ← llparse_string x; if rc <? 0 then mret rc else llparse_string y) s.
Proof. apply string_app. Qed.

Lemma llparse_string_keeps_wf bs s rc s' : llp_wf (llp_of s) →
  llparse_string bs s = Ret rc s' → llp_wf (llp_of s').
Proof.
  revert s. induction bs as [|c bs IH]; intros s Hwf; cbn [llparse_string].
  - by intros [= _ <-].
  - intros (rc1 & s1 & H1 & H2)%bind_Ret.
    apply (llparse_step_keeps_wf _ _ _ _ Hwf) in H1.
    destruct (rc1 <? 0); [by apply Ret_inj in H2 as [_ <-]|]. by eapply IH.
Qed.

(** Whatever the modem sends, the cursor stays inside the 1024-byte buffer, and
    between lines the buffer is empty. *)
Theorem llparse_string_wf bs s rc s' : llp_wf (llp_of s) →
  llparse_string bs s = Ret rc s' → llp_wf (llp_of s').
Proof. apply llparse_string_keeps_wf. Qed.

(** The error state is a trap: no later byte produces a line or a prompt, or
    leaves the state. *)
Theorem llparse_error_stuck bs s : lp_state (llp_of s) = LLPARSE_STATE_ERROR →
  llparse_string bs s = Ret 0 s.
Proof.
  intros Hs. induction bs as [|c bs IH]; [done|].
  rewrite (llparse_string_silent _ _ _ (llp_of s)); [by rewrite llp_put_of| |by rewrite Hs].
  unfold llparse_byte. by rewrite Hs.
Qed.

(** A line ended by CR CR LF is delivered twice. *)
Theorem llparse_cr_cr_twice l s : line_text l → llp_idle (llp_of s) →
  llparse_string ([CR; LF] ++ l ++ [CR; CR; LF]) s =
  (modify (at_line l);; line_cb l;; line_cb l;; modify line_done;; mret 0) s.
Proof.
  intros Hl Hs.
  assert (∀ t, lp_state (llp_of t) = LLPARSE_STATE_RESULT_CR →
    llparse_string [CR; LF] t =
    (line_cb (lp_buf (llp_of t));; modify line_done;; mret 0) t) as Hcr.
  { intros t Ht. rewrite llparse_string_cons. unfold llparse_step. run.
    assert (llparse_byte (llp_of t) CR = (llp_of t, 0)) as -> by (unfold llparse_byte; by rewrite Ht).
    run. rewrite llp_put_of. unfold in_state. rewrite bool_decide_true by done.
    apply bind_ext. intros a t1 E. destruct (line_cb_keeps _ _ _ _ E) as (Hst & _).
    run. rewrite Hst, Ht, bool_decide_false by done. run.
    change (llparse_string [LF] t1 = Ret 0 (line_done t1)).
    rewrite llparse_string_endline by congruence. done. }
  rewrite llparse_string_body, (llparse_string_cr _ (lp_flags (llp_of s)) l)
    by (done || by rewrite llp_of_put).
  unfold at_line. run. rewrite !llp_of_put, llp_put_put. apply bind_ext. intros a s1 E.
  destruct (line_cb_keeps _ _ _ _ E) as (Hst & Hbf & _). rewrite llp_of_put in Hst, Hbf.
  rewrite Hcr by done. by rewrite Hbf.
Qed.

(** With LFCR accepted as a terminator, a line ended by LF CR is read and then
    thrown away: no callback runs for it. *)
Theorem llparse_lfcr_dropped l s : line_text l → llp_idle (llp_of s) →
  lp_lfcr (llp_of s) = true →
  llparse_string ([CR; LF] ++ l ++ [LF; CR]) s = Ret 0 s.
Proof.
  intros Hl Hs Hlf. set (fl := lp_flags (llp_of s)).
  rewrite llparse_string_body by done.
  rewrite (llparse_string_silent _ _ _ (LLP LLPARSE_STATE_RESULT_LF fl l)); [| |done].
  - rewrite (llparse_string_silent _ _ _ (LLP LLPARSE_STATE_IDLE fl [])); [| |done].
    + rewrite !llp_put_put. cbn [llparse_string]. change (llp_put (LLP LLPARSE_STATE_IDLE fl []) s) with (line_done s).
      by rewrite line_done_idle.
    + by rewrite llp_of_put.
  - rewrite llp_of_put. unfold llparse_byte. cbn [lp_state].
    assert (∀ st, lp_lfcr (LLP st fl l) = true) as -> by (intros; exact Hlf). done.
Qed.

(** An SMS prompt reports once, without producing a line. *)
Theorem llparse_prompt s : llp_idle (llp_of s) →
  llparse_string [CR; LF; ch ">"; SPC] s =
  (modify (llp_put (LLP LLPARSE_STATE_PROMPT_SPC (lp_flags (llp_of s)) []));;
   prompt_cb;; mret 0) s.
Proof.
  intros (Hst & Hbf & Hex).
  destruct (llp_of s) as [st fl bf] eqn:Hs; cbn in Hst, Hbf, Hex; subst st bf.
  rewrite (llparse_string_silent _ _ _ (LLP LLPARSE_STATE_IDLE_CR fl [])); [|rewrite Hs|done];
    [|unfold llparse_byte; cbn; by rewrite Hex].
  rewrite (llparse_string_silent _ _ _ (LLP LLPARSE_STATE_IDLE_LF fl [])); [|by rewrite llp_of_put|done].
  rewrite (llparse_string_silent _ _ _ (LLP LLPARSE_STATE_PROMPT fl [])); [|by rewrite llp_of_put|done].
  rewrite !llp_put_put. cbn [llparse_string]. unfold llparse_step. run.
  rewrite llp_of_put. change (llparse_byte _ SPC) with (LLP LLPARSE_STATE_PROMPT_SPC fl [], 0). run.
  rewrite llp_put_put. unfold in_state. rewrite !llp_of_put, bool_decide_false by done. run.
  rewrite !llp_of_put, bool_decide_true by done. apply bind_ext. intros a s1 _. done.
Qed.
End properties.

(** ** The theorems at work, on the reference client *)

Module Examples.
Import Recorder.
Definition rec0 : Recorder.t := Recorder.init (LGSM_ATCMD_F_EXTENDED + LGSM_ATCMD_F_LFCR).

Lemma line_text_OK : line_text (b "OK").
Proof. split_and!; [cbv; lia | apply Nat.leb_le; reflexivity | done | by repeat constructor]. Qed.

Lemma line_text_RING : line_text (b "RING").
Proof. split_and!; [cbv; lia | apply Nat.leb_le; reflexivity | done | by repeat constructor]. Qed.

Lemma llparse_frames_witness :
  Forall line_text [b "RING"; b "OK"] ∧
  llparse_string (concat (frame <$> [b "RING"; b "OK"])) rec0 =
  Ret 0 (Recorder.Rec (Recorder.r_llp rec0) [b "RING"; b "OK"] 0).
Proof.
  assert (Forall line_text [b "RING"; b "OK"]) as Hl
    by (apply Forall_cons; split; [apply line_text_RING|];
        apply Forall_cons; split; [apply line_text_OK | constructor]).
  split; [exact Hl|]. rewrite (llparse_frames _ rec0 Hl); [reflexivity | done].
Defined.

Lemma llparse_string_app_witness :
  llparse_string ([CR; LF; 79] ++ [75; CR; LF]) rec0 =
  Ret 0 (Recorder.Rec (Recorder.r_llp rec0) [b "OK"] 0).
Proof. rewrite (llparse_string_app [CR; LF; 79] [75; CR; LF] rec0). reflexivity. Defined.

Lemma llparse_string_wf_witness :
  ∃ s', llparse_string [CR; LF; 79] rec0 = Ret 0 s' ∧ llp_wf (llp_of s').
Proof.
  eexists. split; [reflexivity|].
  refine (llparse_string_wf [CR; LF; 79] rec0 0 _ _ _); [|reflexivity].
  split; [cbn; lia | done].
Defined.

Lemma llparse_error_stuck_witness :
  let s := Recorder.Rec (LLP LLPARSE_STATE_ERROR 5 []) [] 0 in
  llparse_string (frame (b "OK")) s = Ret 0 s.
Proof. apply llparse_error_stuck. reflexivity. Defined.

Lemma llparse_cr_cr_twice_witness :
  llparse_string ([CR; LF] ++ b "RING" ++ [CR; CR; LF]) rec0 =
  Ret 0 (Recorder.Rec (Recorder.r_llp rec0) [b "RING"; b "RING"] 0).
Proof. rewrite (llparse_cr_cr_twice _ rec0 line_text_RING); [reflexivity | done]. Defined.

Lemma llparse_lfcr_dropped_witness :
  llparse_string ([CR; LF] ++ b "RING" ++ [LF; CR]) rec0 = Ret 0 rec0.
Proof. apply llparse_lfcr_dropped; [apply line_text_RING | done | done]. Defined.

Lemma llparse_prompt_witness :
  llparse_string [CR; LF; ch ">"; SPC] rec0 =
  Ret 0 (Recorder.Rec (LLP LLPARSE_STATE_PROMPT_SPC 5 []) [] 1).
Proof. rewrite (llparse_prompt rec0); [reflexivity | done]. Defined.
End Examples.
