(* ===== verification/ExtRsp.v ===== *)
(** * The extended response parser (src/target/gsm/src/gsmd/ext_response.c)

    Splits the parameters of a ["+XYZ: ..."] response into tokens: numbers,
    quoted strings, empty parameters and parenthesised ranges.  The C function
    works in fixed storage (a 512-byte scratch buffer, 16 tokens, 16 items per
    range, 64-byte strings); a step that would write or
    read outside it has no result. *)

From S2P Require Import Prelude CString.

(** ** Data (include/gsmd/extrsp.h) *)

Definition GSM_EXTRSP_MAX_TOKENS : nat := 16.
Definition GSM_EXTRSP_MAX_RANGES : nat := 16.
Definition GSM_EXTRSP_MAX_STRBUF : nat := 64.
Definition EXTRSP_BUF : nat := 512.

Record gsm_extrsp_range_item : Type := RangeItem { ri_min : Z; ri_max : Z }.

(** A completed token, with the member of the union its type selects. *)
Inductive gsm_extrsp_tok : Type :=
  | GSMD_ECMD_RTT_EMPTY
  | GSMD_ECMD_RTT_NUMERIC (numeric : Z)
  | GSMD_ECMD_RTT_STRING (string : list Z)
  | GSMD_ECMD_RTT_RANGE (item : list gsm_extrsp_range_item).

#[export] Instance gsm_extrsp_range_item_eq_dec : EqDecision gsm_extrsp_range_item.
Proof. solve_decision. Defined.
#[export] Instance gsm_extrsp_tok_eq_dec : EqDecision gsm_extrsp_tok.
Proof. solve_decision. Defined.

(** A [struct gsm_extrsp] is its completed tokens: [num_tokens] is the length. *)
Definition gsm_extrsp : Type := list gsm_extrsp_tok.

Inductive parser_state : Type :=
  | IDLE | TOKEN_STRING | TOKEN_STRING_LASTQUOTE | TOKEN_NUMERIC | TOKEN_RANGE.

(** The locals of [extrsp_parse]: the tokens completed so far, the state, what
    [buf] holds, and for a range under construction its completed items and the
    [min] already stored in the next one (0 after the initial [memset]). *)
Record extrsp_st : Type := EX {
  ex_tokens : gsm_extrsp;
  ex_state : parser_state;
  ex_buf : list Z;
  ex_items : list gsm_extrsp_range_item;
  ex_min : Z }.

(** ** Operations *)

(** A step that leaves the fixed storage has no result. *)
Definition tok_slot (e : extrsp_st) : option unit :=
  if (length (ex_tokens e) <? GSM_EXTRSP_MAX_TOKENS)%nat then Some tt else None.
Definition item_slot (e : extrsp_st) : option unit :=
  if (length (ex_items e) <? GSM_EXTRSP_MAX_RANGES)%nat then Some tt else None.
Definition buf_string (e : extrsp_st) : option (list Z) :=
  if (length (ex_buf e) <? EXTRSP_BUF)%nat then Some (until0 (ex_buf e)) else None.

(** [*cur_buf = c; cur_buf++]. *)
Definition buf_put (c : Z) (e : extrsp_st) : option extrsp_st :=
  if (length (ex_buf e) <? EXTRSP_BUF)%nat
  then Some (EX (ex_tokens e) (ex_state e) (ex_buf e ++ [c]) (ex_items e) (ex_min e))
  else None.

Definition ex_goto (st : parser_state) (e : extrsp_st) : extrsp_st :=
  EX (ex_tokens e) st (ex_buf e) (ex_items e) (ex_min e).

(** [cur_token] gets its value and [num_tokens++]. *)
Definition ex_emit (t : gsm_extrsp_tok) (st : parser_state) (e : extrsp_st) : extrsp_st :=
  EX (ex_tokens e ++ [t]) st (ex_buf e) [] 0.

Definition extrsp_step (c : Z) (e : extrsp_st) : option extrsp_st :=
  match ex_state e with
  | IDLE =>
      let e := EX (ex_tokens e) IDLE [] (ex_items e) (ex_min e) in
      if isblank c then Some e
      else if c =? DQ then _ ← tok_slot e; Some (ex_goto TOKEN_STRING e)
      else if c =? ch "(" then _ ← tok_slot e; Some (ex_goto TOKEN_RANGE e)
      else if isdigit c then
        _ ← tok_slot e; e ← buf_put c e; Some (ex_goto TOKEN_NUMERIC e)
      else if c =? ch "," then
        _ ← tok_slot e; Some (ex_emit GSMD_ECMD_RTT_EMPTY IDLE e)
      else Some e
  | TOKEN_NUMERIC =>
      if c =? ch "," then
        s ← buf_string e; Some (ex_emit (GSMD_ECMD_RTT_NUMERIC (atoi s)) IDLE e)
      else if isdigit c then buf_put c e
      else Some e
  | TOKEN_STRING =>
      if c =? DQ then
        s ← buf_string e;
        Some (ex_emit (GSMD_ECMD_RTT_STRING (take (GSM_EXTRSP_MAX_STRBUF - 1) s))
                      TOKEN_STRING_LASTQUOTE e)
      else buf_put c e
  | TOKEN_STRING_LASTQUOTE =>
      if c =? ch "," then Some (ex_goto IDLE e) else Some e
  | TOKEN_RANGE =>
      if isdigit c then buf_put c e
      else if c =? ch "-" then
        s ← buf_string e; _ ← item_slot e;
        Some (EX (ex_tokens e) TOKEN_RANGE [] (ex_items e) (atoi s))
      else if c =? ch "," then
        s ← buf_string e; _ ← item_slot e;
        Some (EX (ex_tokens e) TOKEN_RANGE (ex_buf e)
                 (ex_items e ++ [RangeItem (ex_min e) (atoi s)]) 0)
      else if c =? ch ")" then
        s ← buf_string e; _ ← item_slot e;
        let items := ex_items e ++ [RangeItem (ex_min e) (atoi s)] in
        Some (ex_emit (GSMD_ECMD_RTT_RANGE items) TOKEN_STRING_LASTQUOTE e)
      else Some e
  end.

Fixpoint extrsp_loop (cur : list Z) (e : extrsp_st) : option extrsp_st :=
  match cur with
  | [] => Some e
  | c :: cur' => e' ← extrsp_step c e; extrsp_loop cur' e'
  end.

Definition extrsp_init : extrsp_st := EX [] IDLE [] [] 0.

Definition extrsp_finish (e : extrsp_st) : option gsm_extrsp :=
  match ex_state e with
  | TOKEN_NUMERIC =>
      s ← buf_string e; Some (ex_tokens e ++ [GSMD_ECMD_RTT_NUMERIC (atoi s)])
  | _ => Some (ex_tokens e)
  end.

(** The parse of a non-empty string once the result is allocated. *)
Definition extrsp_run (input : list Z) : option gsm_extrsp :=
  e ← extrsp_loop input extrsp_init; extrsp_finish e.

(** [extrsp_supports(er, index, value)]. *)
Definition in_item (value : Z) (ri : gsm_extrsp_range_item) : bool :=
  (ri_min ri <=? value) && (value <=? ri_max ri).

Definition extrsp_supports (er : gsm_extrsp) (index : nat) (value : Z) : Z :=
  match er !! index with
  | None => - EINVAL
  | Some (GSMD_ECMD_RTT_RANGE item) =>
      if existsb (in_item value) item then 1 else 0
  | Some _ => - EINVAL
  end.

(** The types of the tokens, as the callers test them. *)
Definition is_numeric (o : option gsm_extrsp_tok) : option Z :=
  match o with Some (GSMD_ECMD_RTT_NUMERIC n) => Some n | _ => None end.
Definition is_string (o : option gsm_extrsp_tok) : option (list Z) :=
  match o with Some (GSMD_ECMD_RTT_STRING s) => Some s | _ => None end.
Definition is_empty_tok (o : option gsm_extrsp_tok) : option unit :=
  match o with Some GSMD_ECMD_RTT_EMPTY => Some tt | _ => None end.

Example extrsp_run_ex1 :
  extrsp_run (b "1,2," ++ [DQ] ++ b "ab" ++ [DQ] ++ b ",, 5") =
  Some [GSMD_ECMD_RTT_NUMERIC 1; GSMD_ECMD_RTT_NUMERIC 2; GSMD_ECMD_RTT_STRING (b "ab");
        GSMD_ECMD_RTT_EMPTY; GSMD_ECMD_RTT_NUMERIC 5].
Proof. vm_compute. reflexivity. Qed.
Example extrsp_run_ex2 :
  extrsp_run (b "(0-3),(1,2)") =
  Some [GSMD_ECMD_RTT_RANGE [RangeItem 0 3]; GSMD_ECMD_RTT_RANGE [RangeItem 0 1; RangeItem 0 12]].
Proof. vm_compute. reflexivity. Qed.

(** ** Specification: the textual form of a token list, and what comes back *)

Definition render_item (ri : gsm_extrsp_range_item) : list Z :=
  dec (ri_min ri) ++ [ch "-"] ++ dec (ri_max ri).

Fixpoint render_items (items : list gsm_extrsp_range_item) : list Z :=
  match items with
  | [] => []
  | [ri] => render_item ri
  | ri :: items' => render_item ri ++ [ch ","] ++ render_items items'
  end.

Definition render_tok (t : gsm_extrsp_tok) : list Z :=
  match t with
  | GSMD_ECMD_RTT_EMPTY => []
  | GSMD_ECMD_RTT_NUMERIC n => dec n
  | GSMD_ECMD_RTT_STRING s => [DQ] ++ s ++ [DQ]
  | GSMD_ECMD_RTT_RANGE items => [ch "("] ++ render_items items ++ [ch ")"]
  end.

Fixpoint render (ts : gsm_extrsp) : list Z :=
  match ts with
  | [] => []
  | [t] => render_tok t
  | t :: ts' => render_tok t ++ [ch ","] ++ render ts'
  end.

(** The digits of [lo] behind those of [carried]: the scratch buffer keeps the
    maximum of an item when the next item begins. *)
Definition glued (carried lo : Z) : Z := carried * 10 ^ Z.of_nat (length (dec lo)) + lo.

Fixpoint reread_items (carried : Z) (items : list gsm_extrsp_range_item) :
    list gsm_extrsp_range_item :=
  match items with
  | [] => []
  | RangeItem lo hi :: items' => RangeItem (glued carried lo) hi :: reread_items hi items'
  end.

Definition reread_tok (t : gsm_extrsp_tok) : gsm_extrsp_tok :=
  match t with
  | GSMD_ECMD_RTT_STRING s => GSMD_ECMD_RTT_STRING (take (GSM_EXTRSP_MAX_STRBUF - 1) s)
  | GSMD_ECMD_RTT_RANGE items => GSMD_ECMD_RTT_RANGE (reread_items 0 items)
  | _ => t
  end.

(** An empty parameter at the end leaves no token. *)
Fixpoint reread (ts : gsm_extrsp) : gsm_extrsp :=
  match ts with
  | [] => []
  | [GSMD_ECMD_RTT_EMPTY] => []
  | t :: ts' => reread_tok t :: reread ts'
  end.

(** Numbers that [int] holds, also the glued ones. *)
Fixpoint items_ok (carried : Z) (items : list gsm_extrsp_range_item) : Prop :=
  match items with
  | [] => True
  | RangeItem lo hi :: items' =>
      0 ≤ lo ∧ glued carried lo ≤ INT_MAX ∧ 0 ≤ hi ≤ INT_MAX ∧ items_ok hi items'
  end.

Definition tok_ok (t : gsm_extrsp_tok) : Prop :=
  match t with
  | GSMD_ECMD_RTT_EMPTY => True
  | GSMD_ECMD_RTT_NUMERIC n => 0 ≤ n ≤ INT_MAX
  | GSMD_ECMD_RTT_STRING s =>
      Forall (λ c, 0 < c < 256 ∧ c ≠ DQ) s ∧ (length s < EXTRSP_BUF)%nat
  | GSMD_ECMD_RTT_RANGE items =>
      items ≠ [] ∧ (length items ≤ GSM_EXTRSP_MAX_RANGES)%nat ∧ items_ok 0 items
  end.

(** What the parser gives back unchanged: no empty parameter at the end, no string
    longer than its storage, and no range with an item after one whose maximum is
    not 0. *)
Fixpoint unglued (items : list gsm_extrsp_range_item) : bool :=
  match items with
  | ri :: (_ :: _) as items' => (ri_max ri =? 0) && unglued items'
  | _ => true
  end.

Definition tok_returns (t : gsm_extrsp_tok) : bool :=
  match t with
  | GSMD_ECMD_RTT_STRING s => (length s <? GSM_EXTRSP_MAX_STRBUF)%nat
  | GSMD_ECMD_RTT_RANGE items => unglued items
  | _ => true
  end.

Definition comes_back (ts : gsm_extrsp) : bool :=
  forallb tok_returns ts &&
  match last ts with Some GSMD_ECMD_RTT_EMPTY => false | _ => true end.

Arguments extrsp_step : simpl never.

(** ** Running the loop *)

Lemma extrsp_loop_app x y e : extrsp_loop (x ++ y) e = extrsp_loop x e ≫= extrsp_loop y.
Proof.
  revert e. induction x as [|c x IH]; intros e; [done|]. cbn.
  destruct (extrsp_step c e); cbn; [apply IH | done].
Qed.

Lemma extrsp_loop_cons c y e e' : extrsp_step c e = Some e' →
  extrsp_loop (c :: y) e = extrsp_loop y e'.
Proof. intros E. cbn. by rewrite E. Qed.

Lemma buf_put_room c ts st bf it mn : (length bf < EXTRSP_BUF)%nat →
  buf_put c (EX ts st bf it mn) = Some (EX ts st (bf ++ [c]) it mn).
Proof. intros H. unfold buf_put. cbn [ex_buf]. by destruct (Nat.ltb_spec (length bf) EXTRSP_BUF); [|lia]. Qed.

Lemma tok_slot_room e : (length (ex_tokens e) < GSM_EXTRSP_MAX_TOKENS)%nat → tok_slot e = Some tt.
Proof. intros H. unfold tok_slot. by destruct (Nat.ltb_spec (length (ex_tokens e)) GSM_EXTRSP_MAX_TOKENS); [|lia]. Qed.

Lemma buf_string_room e : (length (ex_buf e) < EXTRSP_BUF)%nat → cstring (ex_buf e) →
  buf_string e = Some (ex_buf e).
Proof.
  intros H Hs. unfold buf_string. rewrite until0_id by done.
  by destruct (Nat.ltb_spec (length (ex_buf e)) EXTRSP_BUF); [|lia].
Qed.

Definition is_dig (c : Z) : Prop := 48 ≤ c ≤ 57.

Lemma isdigit_dig c : is_dig c → isdigit c = true.
Proof. unfold is_dig, isdigit. intros. destruct (Z.leb_spec 48 c), (Z.leb_spec c 57); by try lia. Qed.

Lemma dig_cstring s : Forall is_dig s → cstring s.
Proof. intros H. eapply Forall_impl; [exact H|]. unfold is_dig. cbn. lia. Qed.

(** Bytes with a fixed effect in every state of interest. *)
Lemma dig_not_special c : is_dig c →
  isblank c = false ∧ (c =? DQ) = false ∧ (c =? ch "(") = false ∧ (c =? ch ",") = false.
Proof.
  unfold is_dig, isblank, DQ. intros. change (ch "(") with 40. change (ch ",") with 44.
  split_and!; [apply orb_false_iff; split|..]; apply Z.eqb_neq; lia.
Qed.

(** A run of digits in a state that collects them. *)
Lemma loop_digits s r ts st bf it mn :
  Forall is_dig s → (st = TOKEN_NUMERIC ∨ st = TOKEN_RANGE) →
  (length bf + length s < EXTRSP_BUF)%nat →
  extrsp_loop (s ++ r) (EX ts st bf it mn) = extrsp_loop r (EX ts st (bf ++ s) it mn).
Proof.
  intros Hs Hst. revert bf. induction Hs as [|c s Hc _ IH]; intros bf Hl.
  - by rewrite app_nil_r.
  - cbn [app length] in *. rewrite (extrsp_loop_cons _ _ _ (EX ts st (bf ++ [c]) it mn)).
    + rewrite IH by (rewrite length_app; cbn; lia). by rewrite <- app_assoc.
    + destruct (dig_not_special c Hc) as (_ & _ & _ & E). unfold extrsp_step.
      destruct Hst as [-> | ->]; cbn [ex_state]; rewrite ?E, (isdigit_dig c Hc);
        apply buf_put_room; lia.
Qed.

Lemma loop_text s r ts bf it mn :
  Forall (λ c, 0 < c < 256 ∧ c ≠ DQ) s → (length bf + length s < EXTRSP_BUF)%nat →
  extrsp_loop (s ++ r) (EX ts TOKEN_STRING bf it mn) =
  extrsp_loop r (EX ts TOKEN_STRING (bf ++ s) it mn).
Proof.
  intros Hs. revert bf. induction Hs as [|c s [_ Hc] _ IH]; intros bf Hl.
  - by rewrite app_nil_r.
  - cbn [app length] in *. rewrite (extrsp_loop_cons _ _ _ (EX ts TOKEN_STRING (bf ++ [c]) it mn)).
    + rewrite IH by (rewrite length_app; cbn; lia). by rewrite <- app_assoc.
    + unfold extrsp_step. cbn [ex_state]. destruct (Z.eqb_spec c DQ); [done|]. apply buf_put_room; lia.
Qed.

Lemma dec_spec n : 0 ≤ n ≤ INT_MAX →
  ∃ c s, dec n = c :: s ∧ is_dig c ∧ Forall is_dig s ∧ (length s < 10)%nat.
Proof.
  unfold INT_MAX. intros Hn. unfold dec. destruct (Z.ltb_spec n 0); [lia|].
  destruct (dec_digits_spec 10 n []) as (s & -> & Hs & Hne & Hl & _); [cbn; lia | lia |].
  rewrite app_nil_r. destruct s as [|c s]; [done|]. inversion Hs; subst.
  exists c, s. cbn in Hl. split_and!; [done|done|done|lia].
Qed.

Lemma dec_digs n : 0 ≤ n ≤ INT_MAX → Forall is_dig (dec n) ∧ (length (dec n) ≤ 10)%nat.
Proof. intros Hn. destruct (dec_spec n Hn) as (c & s & -> & ? & ? & ?). split; [by constructor | cbn; lia]. Qed.

(** What one token does to the parser, from idle: it is complete at a comma, and,
    unless it is empty, at the end of the input. *)
Definition tok_done (t : gsm_extrsp_tok) (ts : gsm_extrsp) (e : extrsp_st) : Prop :=
  (∃ bf, extrsp_step (ch ",") e = Some (EX (ts ++ [reread_tok t]) IDLE bf [] 0)) ∧
  extrsp_finish e = Some (ts ++ reread [t]).

Lemma loop_tok_numeric n r ts bf : 0 ≤ n ≤ INT_MAX → (length ts < GSM_EXTRSP_MAX_TOKENS)%nat →
  ∃ e, extrsp_loop (dec n ++ r) (EX ts IDLE bf [] 0) = extrsp_loop r e ∧
       tok_done (GSMD_ECMD_RTT_NUMERIC n) ts e.
Proof.
  intros Hn Hts. exists (EX ts TOKEN_NUMERIC (dec n) [] 0). split.
  - destruct (dec_spec n Hn) as (c & s & -> & Hc & Hs & Hl). cbn [app].
    destruct (dig_not_special c Hc) as (E1 & E2 & E3 & _).
    rewrite (extrsp_loop_cons _ _ _ (EX ts TOKEN_NUMERIC [c] [] 0)).
    + rewrite loop_digits by (first [by left | done | cbn; unfold EXTRSP_BUF; lia]). done.
    + unfold extrsp_step. cbn [ex_state ex_tokens ex_items ex_min].
      by rewrite E1, E2, E3, isdigit_dig, tok_slot_room.
  - destruct (dec_digs n Hn) as [Hd Hl]. pose proof (dig_cstring _ Hd).
    assert (buf_string (EX ts TOKEN_NUMERIC (dec n) [] 0) = Some (dec n)) as E
      by (apply buf_string_room; [cbn; unfold EXTRSP_BUF; lia | done]).
    split; [eexists; unfold extrsp_step | unfold extrsp_finish]; cbn [ex_state];
      rewrite ?Z.eqb_refl, E; cbn; by rewrite atoi_dec.
Qed.

Lemma loop_tok_string s r ts bf : tok_ok (GSMD_ECMD_RTT_STRING s) →
  (length ts < GSM_EXTRSP_MAX_TOKENS)%nat →
  ∃ e, extrsp_loop (render_tok (GSMD_ECMD_RTT_STRING s) ++ r) (EX ts IDLE bf [] 0) = extrsp_loop r e ∧
       tok_done (GSMD_ECMD_RTT_STRING s) ts e.
Proof.
  intros [Hs Hl] Hts.
  exists (EX (ts ++ [reread_tok (GSMD_ECMD_RTT_STRING s)]) TOKEN_STRING_LASTQUOTE s [] 0).
  split; [|split; [by eexists|done]].
  cbn [render_tok]. rewrite <- !app_assoc. cbn [app].
  rewrite (extrsp_loop_cons _ _ _ (EX ts TOKEN_STRING [] [] 0)).
  - rewrite loop_text by (first [done | cbn; lia]). apply extrsp_loop_cons.
    unfold extrsp_step. cbn [ex_state app]. rewrite Z.eqb_refl, buf_string_room.
    + done.
    + cbn. lia.
    + eapply Forall_impl; [exact Hs|]. by intros ? [? _].
  - unfold extrsp_step. cbn. by rewrite tok_slot_room.
Qed.

(** *** Ranges *)

(** A scratch buffer that holds the digits of [n], or nothing for 0. *)
Definition carries (bf : list Z) (n : Z) : Prop :=
  Forall is_dig bf ∧ (length bf ≤ 10)%nat ∧ digits_value 0 bf = n ∧ 0 ≤ n.

Lemma carries_nil : carries [] 0.
Proof. repeat split; [constructor | cbn; lia | lia]. Qed.

Lemma carries_dec n : 0 ≤ n ≤ INT_MAX → carries (dec n) n.
Proof.
  intros Hn. destruct (dec_digs n Hn) as [Hd Hl], (dec_run n Hn) as (_ & _ & Hv).
  repeat split; [done | done | by rewrite Hv | lia].
Qed.

Lemma glued_bound c lo : 0 ≤ c → 0 ≤ lo → lo ≤ glued c lo.
Proof. intros. unfold glued. pose proof (Z.pow_nonneg 10 (Z.of_nat (length (dec lo)))). nia. Qed.

Lemma glued_zero lo : glued 0 lo = lo.
Proof. unfold glued. lia. Qed.

Lemma glued_fix c lo : 0 ≤ c → glued c lo = lo ↔ c = 0.
Proof.
  intros Hc. unfold glued. pose proof (Z.pow_pos_nonneg 10 (Z.of_nat (length (dec lo)))).
  split; [nia | intros ->; lia].
Qed.

(** The two numbers of an item, with what the buffer carries before the first. *)
Lemma loop_item lo hi r ts bf it c : carries bf c → 0 ≤ lo → glued c lo ≤ INT_MAX → 0 ≤ hi ≤ INT_MAX →
  (length it < GSM_EXTRSP_MAX_RANGES)%nat →
  extrsp_loop (render_item (RangeItem lo hi) ++ r) (EX ts TOKEN_RANGE bf it 0) =
  extrsp_loop r (EX ts TOKEN_RANGE (dec hi) it (glued c lo)).
Proof.
  intros (Hbf & Hbl & Hbv & Hc) Hlo Hg Hhi Hit. pose proof (glued_bound c lo Hc Hlo).
  assert (0 ≤ lo ≤ INT_MAX) as Hlo' by lia.
  destruct (dec_digs lo Hlo') as [Hdl Hll], (dec_digs hi Hhi) as [Hdh Hlh].
  destruct (dec_run lo Hlo') as (_ & Hne & Hv).
  unfold render_item. cbn [ri_min ri_max]. rewrite <- !app_assoc. cbn [app].
  rewrite loop_digits by (first [by right | done | unfold EXTRSP_BUF; lia]).
  rewrite (extrsp_loop_cons _ _ _ (EX ts TOKEN_RANGE [] it (glued c lo))).
  - by rewrite loop_digits by (first [by right | done | cbn; unfold EXTRSP_BUF; lia]).
  - assert (Forall is_dig (bf ++ dec lo)) as Hd by by apply Forall_app.
    assert (digits_value 0 (bf ++ dec lo) = glued c lo) as E.
    { unfold digits_value in *. by rewrite foldl_app, Hbv, Hv. }
    unfold extrsp_step. cbn [ex_state]. change (isdigit (ch "-")) with false. rewrite Z.eqb_refl. cbn iota.
    rewrite buf_string_room by
      (first [by apply dig_cstring | cbn; rewrite length_app; unfold EXTRSP_BUF; lia]).
    cbn -[Nat.ltb]. unfold item_slot. cbn [ex_items].
    destruct (Nat.ltb_spec (length it) GSM_EXTRSP_MAX_RANGES); [|lia]. cbn. do 2 f_equal.
    unfold atoi. rewrite <- (app_nil_r (bf ++ _)), strtol_digits; [done|done| |done|lia].
    by destruct bf; cbn; [|done].
Qed.

(** What the bytes [","] and [")"] do after an item. *)
Lemma step_item_end c ts hi it mn : 0 ≤ hi ≤ INT_MAX → (length it < GSM_EXTRSP_MAX_RANGES)%nat →
  c = ch "," ∨ c = ch ")" →
  extrsp_step c (EX ts TOKEN_RANGE (dec hi) it mn) =
  Some (if c =? ch "," then EX ts TOKEN_RANGE (dec hi) (it ++ [RangeItem mn hi]) 0
        else EX (ts ++ [GSMD_ECMD_RTT_RANGE (it ++ [RangeItem mn hi])])
                TOKEN_STRING_LASTQUOTE (dec hi) [] 0).
Proof.
  intros Hhi Hit Hc. destruct (dec_digs hi Hhi) as [Hd Hl].
  assert (buf_string (EX ts TOKEN_RANGE (dec hi) it mn) = Some (dec hi)) as E
    by (apply buf_string_room; [cbn; unfold EXTRSP_BUF; lia | by apply dig_cstring]).
  assert (item_slot (EX ts TOKEN_RANGE (dec hi) it mn) = Some tt) as E'.
  { unfold item_slot. cbn [ex_items]. by destruct (Nat.ltb_spec (length it) GSM_EXTRSP_MAX_RANGES); [|lia]. }
  unfold extrsp_step. cbn [ex_state].
  destruct Hc as [-> | ->]; cbn -[buf_string item_slot]; rewrite E; cbn -[item_slot]; rewrite E'; cbn;
    by rewrite atoi_dec.
Qed.

Lemma loop_items items r ts bf it c : items ≠ [] → items_ok c items → carries bf c →
  (length it + length items ≤ GSM_EXTRSP_MAX_RANGES)%nat →
  ∃ bf', extrsp_loop (render_items items ++ [ch ")"] ++ r) (EX ts TOKEN_RANGE bf it 0) =
  extrsp_loop r (EX (ts ++ [GSMD_ECMD_RTT_RANGE (it ++ reread_items c items)])
                    TOKEN_STRING_LASTQUOTE bf' [] 0).
Proof.
  revert bf it c. induction items as [|[lo hi] items IH]; intros bf it c Hne Hok Hbf Hl; [done|].
  destruct Hok as (Hlo & Hg & Hhi & Hok). cbn [length] in Hl.
  destruct items as [|ri2 items].
  - exists (dec hi). cbn [render_items]. rewrite (loop_item lo hi _ ts bf it c) by (first [done | lia]).
    cbn [app]. erewrite extrsp_loop_cons; [reflexivity|]. apply step_item_end; [done | lia | by right].
  - destruct (IH (dec hi) (it ++ [RangeItem (glued c lo) hi]) hi) as (bf' & E);
      [done | done | by apply carries_dec | rewrite length_app; cbn in *; lia |].
    exists bf'. cbn [render_items]. change (match items with [] => _ | _ => _ end) with (render_items (ri2 :: items)).
    rewrite <- !app_assoc. rewrite (loop_item lo hi _ ts bf it c) by (first [done | lia]).
    cbn [app] in *. erewrite extrsp_loop_cons by (apply step_item_end; [done | lia | by left]).
    change (ch "," =? ch ",") with true. cbn iota. rewrite E.
    cbn [reread_items]. by rewrite <- app_assoc.
Qed.

Lemma loop_tok_range items r ts bf : tok_ok (GSMD_ECMD_RTT_RANGE items) →
  (length ts < GSM_EXTRSP_MAX_TOKENS)%nat →
  let t := GSMD_ECMD_RTT_RANGE items in
  ∃ e, extrsp_loop (render_tok t ++ r) (EX ts IDLE bf [] 0) = extrsp_loop r e ∧ tok_done t ts e.
Proof.
  intros (Hne & Hl & Hok) Hts t.
  destruct (loop_items items r ts [] [] 0 Hne Hok carries_nil) as (bf' & E); [done|].
  exists (EX (ts ++ [reread_tok t]) TOKEN_STRING_LASTQUOTE bf' [] 0).
  split; [|split; [by eexists|done]].
  cbn [render_tok t]. rewrite <- !app_assoc. cbn [app] in *.
  rewrite (extrsp_loop_cons _ _ _ (EX ts TOKEN_RANGE [] [] 0))
    by (unfold extrsp_step; cbn [ex_state]; by rewrite tok_slot_room).
  exact E.
Qed.

Lemma loop_tok t r ts bf : tok_ok t → (length ts < GSM_EXTRSP_MAX_TOKENS)%nat →
  ∃ e, extrsp_loop (render_tok t ++ r) (EX ts IDLE bf [] 0) = extrsp_loop r e ∧ tok_done t ts e.
Proof.
  intros Ht Hts. destruct t as [|n|s|items].
  - exists (EX ts IDLE bf [] 0). split; [done|]. split; [eexists|].
    + unfold extrsp_step. cbn [ex_state]. by rewrite tok_slot_room.
    + cbn. by rewrite app_nil_r.
  - by apply loop_tok_numeric.
  - by apply loop_tok_string.
  - by apply loop_tok_range.
Qed.

Lemma extrsp_run_render ts ts0 bf :
  Forall tok_ok ts → (length ts0 + length ts ≤ GSM_EXTRSP_MAX_TOKENS)%nat →
  (extrsp_loop (render ts) (EX ts0 IDLE bf [] 0) ≫= extrsp_finish) = Some (ts0 ++ reread ts).
Proof.
  intros Hok. revert ts0 bf. induction Hok as [|t ts Ht Hts IH]; intros ts0 bf Hl.
  { cbn. by rewrite app_nil_r. }
  cbn [length] in Hl. destruct ts as [|t2 ts'].
  - cbn [render]. destruct (loop_tok t [] ts0 bf) as (e & E & _ & Hf); [done|lia|].
    rewrite app_nil_r in E. rewrite E. exact Hf.
  - cbn [render]. change (match ts' with [] => _ | _ => _ end) with (render (t2 :: ts')).
    destruct (loop_tok t ([ch ","] ++ render (t2 :: ts')) ts0 bf) as (e & -> & (bf' & Hc) & _); [done|lia|].
    cbn [app]. rewrite (extrsp_loop_cons _ _ _ _ Hc), IH by (rewrite length_app; cbn in *; lia).
    rewrite <- app_assoc. by destruct t.
Qed.

(** *** What comes back unchanged *)

Lemma reread_items_fix items c : items_ok c items → 0 ≤ c →
  reread_items c items = items ↔ (items = [] ∨ c = 0) ∧ unglued items = true.
Proof.
  revert c. induction items as [|[lo hi] items IH]; intros c Hok Hc; [cbn; naive_solver|].
  destruct Hok as (Hlo & Hg & Hhi & Hok). cbn [reread_items]. specialize (IH hi Hok ltac:(lia)).
  pose proof (glued_fix c lo Hc) as Hf. destruct items as [|ri2 items].
  - cbn. destruct Hf as [Hf1 Hf2]. split; [intros [= E]; auto | intros [[|] _]; [done|]; by rewrite Hf2].
  - change (unglued (RangeItem lo hi :: ri2 :: items))
      with ((hi =? 0) && unglued (ri2 :: items)).
    rewrite andb_true_iff, Z.eqb_eq. split.
    + intros [= E1 E2]. destruct IH as [IH _]. destruct (IH E2) as [[|] ?]; [done|].
      split_and!; [right; tauto | done | done].
    + intros ([|] & -> & Hu); [done|]. subst c. rewrite glued_zero. f_equal. apply IH. split; [by right | done].
Qed.

Lemma reread_tok_fix t : tok_ok t → reread_tok t = t ↔ tok_returns t = true.
Proof.
  destruct t as [|n|s|items]; cbn [reread_tok tok_returns tok_ok]; [done|done| |].
  - intros _. unfold GSM_EXTRSP_MAX_STRBUF. rewrite Nat.ltb_lt. split.
    + intros [= E]. apply (f_equal length) in E. rewrite length_take in E. lia.
    + intros Hl. by rewrite take_ge by lia.
  - intros (Hne & _ & Hok). pose proof (reread_items_fix items 0 Hok ltac:(lia)) as [H1 H2].
    split; [intros [= E]; by apply H1 | intros Hu; f_equal; by auto].
Qed.

Lemma reread_fix ts : Forall tok_ok ts → reread ts = ts ↔ comes_back ts = true.
Proof.
  intros Hok. induction Hok as [|t ts Ht Hts IH]; [done|]. apply reread_tok_fix in Ht.
  unfold comes_back in *. cbn [forallb]. destruct ts as [|t2 ts'].
  - destruct Ht as [H1 H2]. destruct t; [by split | | |]; cbn [last reread forallb];
      rewrite !andb_true_r; (split; [intros E; apply H1; congruence|]);
      intros E; by rewrite H2.
  - change (last (t :: t2 :: ts')) with (last (t2 :: ts')).
    assert (reread (t :: t2 :: ts') = reread_tok t :: reread (t2 :: ts')) as -> by by destruct t.
    rewrite <- andb_assoc, andb_true_iff, <- IH, <- Ht.
    split; [intros E; by injection E | by intros [-> ->]].
Qed.

(** ** Safety: how far the fixed storage reaches *)

Definition commas (s : list Z) : nat := length (filter (λ c, c = ch ",") s).

Lemma commas_cons c s :
  commas (c :: s) = ((if decide (c = ch ",") then 1 else 0) + commas s)%nat.
Proof. unfold commas. cbn. by case_decide. Qed.

(** After [n] bytes with [k] commas among them. *)
Definition extrsp_inv (k n : nat) (e : extrsp_st) : Prop :=
  (length (ex_buf e) ≤ n)%nat ∧
  match ex_state e with
  | TOKEN_RANGE => (length (ex_tokens e) + length (ex_items e) ≤ k)%nat
  | TOKEN_STRING_LASTQUOTE => (length (ex_tokens e) ≤ S k)%nat ∧ ex_items e = []
  | _ => (length (ex_tokens e) ≤ k)%nat ∧ ex_items e = []
  end.

Lemma extrsp_step_inv c k n e : extrsp_inv k n e → (k < GSM_EXTRSP_MAX_TOKENS)%nat →
  (n < EXTRSP_BUF)%nat →
  ∃ e', extrsp_step c e = Some e' ∧
        extrsp_inv (k + (if decide (c = ch ",") then 1 else 0)) (S n) e'.
Proof.
  unfold extrsp_inv, extrsp_step, tok_slot, item_slot, buf_string, buf_put,
    GSM_EXTRSP_MAX_TOKENS, GSM_EXTRSP_MAX_RANGES.
  intros [Hb He] Hk Hn. destruct e as [ts st bf it mn]. cbn [ex_buf ex_tokens ex_items ex_state] in *.
  assert ((length bf <? EXTRSP_BUF)%nat = true) as Eb by (apply Nat.ltb_lt; lia).
  assert ((length (@nil Z) <? EXTRSP_BUF)%nat = true) as Eb0 by done.
  assert (st ≠ TOKEN_STRING_LASTQUOTE → (length ts <? 16)%nat = true ∧ (length it <? 16)%nat = true) as Es.
  { intros. destruct st; try done; rewrite !Nat.ltb_lt; destruct_and?; subst; cbn; lia. }
  destruct (decide (c = ch ",")) as [->|Hc].
  - change (isblank (ch ",")) with false. change (isdigit (ch ",")) with false.
    change (ch "," =? DQ) with false. change (ch "," =? ch "(") with false.
    change (ch "," =? ch "-") with false. rewrite Z.eqb_refl.
    destruct st; try (destruct Es as [E1 E2]; [done|]); rewrite ?E1, ?E2, ?Eb;
      eexists; (split; [reflexivity|]); cbn; rewrite ?length_app; cbn; destruct_and?; subst; cbn in *;
      split_and?; try done; lia.
  - assert ((c =? ch ",") = false) as Ec by by apply Z.eqb_neq.
    destruct st; try (destruct Es as [E1 E2]; [done|]);
      cbn [ex_buf ex_tokens ex_items ex_state]; rewrite ?Ec, ?Eb, ?E1, ?E2, ?Eb0;
      repeat case_match; eexists; (split; [reflexivity|]); cbn; rewrite ?length_app; cbn;
      destruct_and?; subst; cbn in *; split_and?; try done; lia.
Qed.

Lemma extrsp_loop_inv s k n e : extrsp_inv k n e →
  (k + commas s < GSM_EXTRSP_MAX_TOKENS)%nat → (n + length s < EXTRSP_BUF)%nat →
  ∃ e', extrsp_loop s e = Some e' ∧ extrsp_inv (k + commas s) (n + length s) e'.
Proof.
  revert k n e. induction s as [|c s IH]; intros k n e Hi Hk Hn.
  - exists e. by rewrite !Nat.add_0_r.
  - rewrite commas_cons in *. cbn [length] in *.
    destruct (extrsp_step_inv c k n e) as (e1 & E1 & H1); [done | lia | lia |].
    destruct (IH _ _ _ H1) as (e2 & E2 & H2); [lia | lia |].
    exists e2. cbn. rewrite E1. split; [done|].
    by rewrite <- Nat.add_succ_comm, Nat.add_assoc.
Qed.

(** ** Properties *)


(** Memory safety: a parameter string shorter than the scratch buffer with at
    most 15 commas is parsed inside the fixed storage, into at most one token more
    than it has commas. *)
Theorem extrsp_safe s : (length s < EXTRSP_BUF)%nat → (commas s < GSM_EXTRSP_MAX_TOKENS)%nat →
  ∃ ts, extrsp_run s = Some ts ∧ (length ts ≤ S (commas s))%nat.
Proof.
  intros Hl Hc. destruct (extrsp_loop_inv s 0 0 extrsp_init) as (e & E & [Hb He]); [done|lia|lia|].
  unfold extrsp_run. rewrite E. cbn in *. unfold extrsp_finish, buf_string.
  assert ((length (ex_buf e) <? EXTRSP_BUF)%nat = true) as -> by (apply Nat.ltb_lt; lia).
  destruct (ex_state e); eexists; (split; [reflexivity|]); rewrite ?length_app; cbn; lia.
Qed.

(** The bound is tight for empty parameters: the 17th one is written past the end
    of the token array. *)
Theorem extrsp_overflow n :
  extrsp_run (replicate n (ch ",")) = None ↔ (GSM_EXTRSP_MAX_TOKENS < n)%nat.
Proof.
  assert (∀ n k, (k ≤ 16)%nat →
    extrsp_loop (replicate n (ch ",")) (EX (replicate k GSMD_ECMD_RTT_EMPTY) IDLE [] [] 0) =
    if (n + k <=? 16)%nat then Some (EX (replicate (n + k) GSMD_ECMD_RTT_EMPTY) IDLE [] [] 0) else None) as H.
  { clear n. induction n as [|n IH]; intros k Hk; cbn [replicate extrsp_loop].
    - by destruct (Nat.leb_spec (0 + k) 16); [|lia].
    - unfold extrsp_step. cbn [ex_state ex_tokens ex_items ex_min].
      change (isblank (ch ",")) with false. change (isdigit (ch ",")) with false.
      change (ch "," =? DQ) with false. change (ch "," =? ch "(") with false. rewrite Z.eqb_refl.
      unfold tok_slot. cbn [ex_tokens]. rewrite length_replicate.
      unfold GSM_EXTRSP_MAX_TOKENS. destruct (Nat.ltb_spec k 16).
      + cbn -[Nat.leb]. unfold ex_emit. cbn [ex_tokens ex_buf].
        change [GSMD_ECMD_RTT_EMPTY] with (replicate 1 GSMD_ECMD_RTT_EMPTY).
        rewrite <- replicate_add, IH by lia. by replace (n + (k + 1))%nat with (S n + k)%nat by lia.
      + cbn -[Nat.leb Nat.add]. by destruct (Nat.leb_spec (S n + k) 16); [lia|]. }
  unfold extrsp_run. change extrsp_init with (EX (replicate 0 GSMD_ECMD_RTT_EMPTY) IDLE [] [] 0).
  rewrite H by lia.
  unfold GSM_EXTRSP_MAX_TOKENS. destruct (Nat.leb_spec (n + 0) 16); cbn; split; try done; lia.
Qed.

(** A list of single values is misread: the scratch buffer is not cleared at the
    comma, so the second item covers everything up to the two numbers glued
    together, and both items start at 0. *)
Theorem extrsp_range_list_glued x y : 0 ≤ x ≤ 9 → 0 ≤ y ≤ 9 →
  extrsp_run ([ch "("] ++ dec x ++ [ch ","] ++ dec y ++ [ch ")"]) =
  Some [GSMD_ECMD_RTT_RANGE [RangeItem 0 x; RangeItem 0 (10 * x + y)]].
Proof.
  intros Hx Hy.
  pose (f x y := bool_decide (extrsp_run ([ch "("] ++ dec x ++ [ch ","] ++ dec y ++ [ch ")"]) =
    Some [GSMD_ECMD_RTT_RANGE [RangeItem 0 x; RangeItem 0 (10 * x + y)]])).
  assert (forallb (λ x, forallb (f x) (seqZ 0 10)) (seqZ 0 10) = true) as H by (vm_compute; reflexivity).
  rewrite forallb_forall in H. specialize (H x). rewrite forallb_forall in H.
  apply (bool_decide_eq_true_1 _). apply H; apply list_elem_of_In, elem_of_seqZ; lia.
Qed.

(** [extrsp_supports] answers 1 exactly for the values in an item of a range
    token; on any other token, or past the last one, it returns an error. *)
Theorem extrsp_supports_spec er i v :
  (extrsp_supports er i v = 1 ↔ ∃ items, er !! i = Some (GSMD_ECMD_RTT_RANGE items) ∧
     ∃ ri, ri ∈ items ∧ ri_min ri ≤ v ≤ ri_max ri) ∧
  (extrsp_supports er i v < 0 ↔ ¬ ∃ items, er !! i = Some (GSMD_ECMD_RTT_RANGE items)).
Proof.
  unfold extrsp_supports. destruct (er !! i) as [[]|] eqn:E.
  all: try (split; split;
    [ intros Hc; vm_compute in Hc; done | by intros (? & [=] & _)
    | intros _; by intros (? & [=]) | intros _; unfold EINVAL; lia ]).
  destruct (existsb (in_item v) item) eqn:Ex.
  - split; split; try done; try lia.
    + intros _. apply existsb_exists in Ex as (ri & Hin & H). exists item. split; [done|].
      exists ri. unfold in_item in H. rewrite list_elem_of_In. split; [done|]. lia.
    + intros H. destruct H. eauto.
  - split; split; try done; try lia.
    + intros (items & [= ->] & ri & Hin & Hv). apply not_true_iff_false in Ex. destruct Ex.
      apply existsb_exists. exists ri. rewrite <- list_elem_of_In. split; [done|].
      unfold in_item. apply andb_true_iff. split; apply Z.leb_le; lia.
    + intros H. destruct H. eauto.
Qed.

(** ** The theorems at work *)


Lemma extrsp_safe_witness :
  ∃ ts, extrsp_run (b "1,,3") = Some ts ∧ (length ts ≤ 3)%nat.
Proof. apply (extrsp_safe (b "1,,3")); apply Nat.ltb_lt; reflexivity. Defined.

Lemma extrsp_range_list_glued_witness :
  extrsp_run (b "(1,2)") = Some [GSMD_ECMD_RTT_RANGE [RangeItem 0 1; RangeItem 0 12]].
Proof. apply (extrsp_range_list_glued 1 2); lia. Defined.
