(* ===== verification/Pdu.v ===== *)
(** * SMS and cell broadcast PDUs (src/target/gsm/src/gsmd/sms_pdu.c)

    Decoding of a received PDU into [gsmd_sms_list] or [gsmd_cbm], of the TP-DCS
    octet, and encoding of an SMS-SUBMIT as the hexadecimal text of [AT+CMGS].

    The decoder walks a buffer of which the first [len] bytes were read from the
    modem; a read outside those bytes is an [Over] (read beyond the input), and a
    [return 1] a [Bad]. The callers never look at [dst] after a [return 1]. *)

From S2P Require Import Prelude CString Enums Wire.

Inductive pdu_res (A : Type) : Type :=
  | Ok (a : A)
  | Bad
  | Over.
Arguments Ok {A} a.
Arguments Bad {A}.
Arguments Over {A}.

#[export] Instance pdu_ret : MRet pdu_res := λ A a, Ok a.
#[export] Instance pdu_bind : MBind pdu_res := λ A B k m,
  match m with Ok a => k a | Bad => Bad | Over => Over end.

Definition check (bad : bool) : pdu_res unit := if bad then Bad else Ok tt.

(** [src[i]], and the [n] bytes a [memcpy] reads at [src + i]. *)
Definition src_at (src : list Z) (i : nat) : pdu_res Z :=
  match src !! i with Some x => Ok x | None => Over end.
Definition src_take (src : list Z) (i n : nat) : pdu_res (list Z) :=
  if (i + n <=? length src)%nat then Ok (take n (drop i src)) else Over.

(** A write into a fixed array of the destination. *)
Definition into (dst : mem) (l : list Z) : pdu_res mem :=
  match overwrite dst l with Some m => Ok m | None => Over end.

(** ** Lengths and addresses *)

Definition sms_number_bytelen (type len : Z) : Z :=
  if Z.land type GSMD_TOA_TON_MASK =? GSMD_TOA_TON_ALPHANUMERIC
  then Z.shiftr (len + 1) 1 else Z.shiftr (len + 1) 1.

Definition sms_data_bytelen (data_coding_scheme len : Z) : Z :=
  if data_coding_scheme =? ALPHABET_DEFAULT then Z.shiftr (len * 7 + 7) 3
  else if data_coding_scheme =? ALPHABET_8BIT then len
  else if data_coding_scheme =? ALPHABET_UCS2 then len
  else 0.

(** Septet [i] of an alphanumeric address, and digit [i] of a number. *)
Definition addr_septet (src : list Z) (i : Z) : pdu_res Z :=
  hi ← src_at src (Z.to_nat (2 + Z.shiftr (i * 7 + 7) 3));
  lo ← src_at src (Z.to_nat (2 + Z.shiftr (i * 7) 3));
  Ok (Z.land (Z.lor (Z.shiftl hi (7 - Z.land (i * 7 + 7) 7))
                    (Z.shiftr lo (Z.land (i * 7) 7))) 127).

Definition addr_digit (src : list Z) (i : Z) : pdu_res Z :=
  x ← src_at src (Z.to_nat (2 + Z.shiftr i 1));
  Ok (ch "0" + Z.land (Z.shiftr x (Z.land (Z.shiftl i 2) 4)) 15).

Fixpoint pdu_mapM (f : Z → pdu_res Z) (l : list Z) : pdu_res (list Z) :=
  match l with
  | [] => Ok []
  | x :: l' => y ← f x; r ← pdu_mapM f l'; Ok (y :: r)
  end.

(** The values [i] takes in the two loops. *)
Definition septet_indices (n : Z) : list Z :=
  filter (λ i, Z.shiftr (i * 7 + 3) 2 < n) (seqZ 0 256).
Definition digit_indices (n : Z) : list Z := seqZ 0 n.

Definition sms_address2ascii (dst : gsmd_addr) (src : list Z) : pdu_res gsmd_addr :=
  n ← src_at src 0;
  check (Z.of_nat GSMD_ADDR_MAXLEN <? n);;
  type ← src_at src 1;
  number ← (if Z.land type GSMD_TOA_TON_MASK =? GSMD_TOA_TON_ALPHANUMERIC
            then pdu_mapM (addr_septet src) (septet_indices n)
            else pdu_mapM (addr_digit src) (digit_indices n));
  m ← into (addr_number dst) (number ++ [0]);
  Ok (Addr (Some type) m).

(** ** TP-DCS *)

Definition clip_alphabet (a : Z) : Z :=
  if SMS_ALPHABET_UCS2 <? a then SMS_ALPHABET_7_BIT_DEFAULT else a.

Definition sms_pdu_decode_dcs (data : Z) : gsmd_sms_datacodingscheme :=
  let i := Z.shiftr (Z.land data 192) 6 in
  if i =? 0 then
    Dcs (if Z.testbit data 4 then Z.land data 3 else MSG_CLASS_NONE)
        (clip_alphabet (Z.shiftr (Z.land data 12) 2))
        (Z.land data 32)
        MESSAGE_WAITING_NONE NOT_ACTIVE MESSAGE_WAITING_OTHER data
  else if i =? 3 then
    if Z.land data 48 =? 48 then
      Dcs (Z.land data 3)
          (if Z.testbit data 2 then SMS_ALPHABET_8_BIT else SMS_ALPHABET_7_BIT_DEFAULT)
          NOT_COMPRESSED MESSAGE_WAITING_NONE_1111 NOT_ACTIVE MESSAGE_WAITING_OTHER data
    else
      let '(group, alpha) :=
        if Z.land data 48 =? 0 then (MESSAGE_WAITING_DISCARD, SMS_ALPHABET_7_BIT_DEFAULT)
        else if Z.land data 48 =? 16 then (MESSAGE_WAITING_STORE, SMS_ALPHABET_7_BIT_DEFAULT)
        else (MESSAGE_WAITING_STORE, SMS_ALPHABET_UCS2) in
      Dcs MSG_CLASS_NONE alpha NOT_COMPRESSED group
          (if Z.testbit data 3 then ACTIVE else NOT_ACTIVE) (Z.land data 3) data
  else
    Dcs MSG_CLASS_NONE SMS_ALPHABET_7_BIT_DEFAULT NOT_COMPRESSED
        MESSAGE_WAITING_NONE NOT_ACTIVE MESSAGE_WAITING_OTHER data.

(** The coding scheme both message types derive from the TP-DCS octet. *)
Definition dcs_coding_scheme (x : Z) : pdu_res Z :=
  let hi := Z.shiftr x 4 in
  if (hi <=? 3) || (hi =? 12) then Ok (Z.land x 12)
  else if hi =? 13 then Ok ALPHABET_DEFAULT
  else if hi =? 14 then Ok ALPHABET_UCS2
  else if hi =? 15 then Ok (if Z.testbit x 2 then ALPHABET_8BIT else ALPHABET_DEFAULT)
  else Bad.

(** TP-UDL and TP-UD: the length octet, and the data with a NUL after it. *)
Definition user_data (p : gsmd_sms) (cs : Z) (src : list Z) (len : Z) : pdu_res gsmd_sms :=
  udl ← src_at src 0;
  let i := sms_data_bytelen cs udl in
  check ((len <? 1 + i) || (Z.of_nat GSMD_SMS_DATA_MAXLEN <? i));;
  d ← src_take src 1 (Z.to_nat i);
  m ← into (sms_data p) (d ++ [0]);
  Ok (Sms (Some udl) (Some cs) (sms_has_header p) (sms_is_voicemail p)
          (sms_dcs p) (sms_tp_mti p) m).

(** ** SMS *)

(** The three message types, from the TP-MTI octet on. *)
Definition sms_deliver (dst : gsmd_sms_list) (src : list Z) (len : Z) : pdu_res gsmd_sms_list :=
  check (len <? 3);;
  ty ← src_at src 2; al ← src_at src 1;
  let i := sms_number_bytelen ty al in
  check (len <? 13 + i);;
  addr ← sms_address2ascii (sl_addr dst) (drop 1 src);
  let len := len - (3 + i) in
  let src := drop (Z.to_nat (3 + i)) src in
  pid ← src_at src 0;
  dcs_octet ← src_at src 1;
  let dcs := sms_pdu_decode_dcs dcs_octet in
  let voicemail :=
    (pid =? 95) ||
    ((mwi_kind dcs =? MESSAGE_WAITING_VOICEMAIL) &&
     ((mwi_group dcs =? MESSAGE_WAITING_DISCARD) ||
      (mwi_group dcs =? MESSAGE_WAITING_STORE))) in
  cs ← dcs_coding_scheme dcs_octet;
  ts ← src_take src 2 7;
  let len := len - 9 in
  let src := drop 9 src in
  p ← user_data (Sms (sms_length (sl_payload dst)) (Some cs) (sms_has_header (sl_payload dst))
                     (Some (if voicemail then 1 else 0)) (Some dcs)
                     (Some GSMD_SMS_TP_MTI_DELIVER) (sms_data (sl_payload dst))) cs src len;
  Ok (SmsList (sl_index dst) (sl_stat dst) (known ts) addr p (sl_is_last dst)).

Definition sms_submit (dst : gsmd_sms_list) (vpf : Z) (src : list Z) (len : Z) : pdu_res gsmd_sms_list :=
  check (len <? 4);;
  ty ← src_at src 3; al ← src_at src 2;
  let i := sms_number_bytelen ty al in
  check (len <? 8 + i);;
  addr ← sms_address2ascii (sl_addr dst) (drop 2 src);
  let len := len - (4 + i) in
  let src := drop (Z.to_nat (4 + i)) src in
  dcs_octet ← src_at src 1;
  cs ← dcs_coding_scheme dcs_octet;
  let skip := if vpf =? 0 then 2 else 3 in
  let len := len - skip in
  let src := drop (Z.to_nat skip) src in
  p ← user_data (Sms (sms_length (sl_payload dst)) (Some cs) (sms_has_header (sl_payload dst))
                     (sms_is_voicemail (sl_payload dst)) (sms_dcs (sl_payload dst))
                     (Some GSMD_SMS_TP_MTI_SUBMIT) (sms_data (sl_payload dst))) cs src len;
  Ok (SmsList (sl_index dst) (sl_stat dst) (known (replicate 7 0)) addr p (sl_is_last dst)).

Definition sms_status_report (dst : gsmd_sms_list) (src : list Z) (len : Z) : pdu_res gsmd_sms_list :=
  check (len <? 3);;
  mr ← src_at src 1;
  st ← src_at src (Z.to_nat (len - 1));
  ty ← src_at src 3; al ← src_at src 2;
  let i := sms_number_bytelen ty al in
  check (len <? 13 + i);;
  addr ← sms_address2ascii (sl_addr dst) (drop 2 src);
  let src := drop (Z.to_nat (4 + i)) src in
  ts ← src_take src 0 7;
  m ← into (sms_data (sl_payload dst)) [0];
  let p := sl_payload dst in
  Ok (SmsList (Some mr) (sl_stat dst) (known ts) addr
       (Sms (Some 0) (Some st) (sms_has_header p) (sms_is_voicemail p) (sms_dcs p)
            (Some GSMD_SMS_TP_MTI_STATUS_REPORT) m) (sl_is_last dst)).

(** [1 + src[0] + pdulen] is a signed sum; above INT_MAX it is undefined. *)
Definition sms_pdu_to_msg (dst : gsmd_sms_list) (src : list Z) (pdulen len : Z)
    : pdu_res gsmd_sms_list :=
  check (len <? 1);;
  smsc ← src_at src 0;
  (if INT_MAX <? 1 + smsc + pdulen then Over else Ok tt);;
  check ((len <? 1 + smsc + pdulen) || (pdulen <? 1));;
  let len := len - (1 + smsc) in
  let src := drop (Z.to_nat (1 + smsc)) src in
  first ← src_at src 0;
  let p := sl_payload dst in
  let dst := SmsList (sl_index dst) (sl_stat dst) (sl_time_stamp dst) (sl_addr dst)
               (Sms (sms_length p) (sms_coding_scheme p)
                    (Some (if Z.testbit first 6 then 1 else 0)) (Some 0)
                    (sms_dcs p) (sms_tp_mti p) (sms_data p)) (sl_is_last dst) in
  let vpf := Z.land (Z.shiftr first 3) 3 in
  let mti := Z.land first 3 in
  if mti =? GSMD_SMS_TP_MTI_DELIVER then sms_deliver dst src len
  else if mti =? GSMD_SMS_TP_MTI_SUBMIT then sms_submit dst vpf src len
  else if mti =? GSMD_SMS_TP_MTI_STATUS_REPORT then sms_status_report dst src len
  else Bad.

(** ** SMS-SUBMIT *)

(** Two semi-octets per byte, [0xf] filling the last one of an odd number. *)
Fixpoint bcd_number (number : list Z) : list Z :=
  match number with
  | [] => []
  | [d] => [Z.lor (u8 (d - ch "0")) 240]
  | d :: e :: rest => u8 (Z.lor (u8 (d - ch "0")) (Z.shiftl (e - ch "0") 4)) :: bcd_number rest
  end.

Definition submit_flags (s : gsmd_sms_submit) : Z :=
  Z.lor (Z.lor (Z.lor (Z.lor GSMD_SMS_TP_MTI_SUBMIT GSMD_SMS_TP_VPF_NOT_PRESENT)
    (if sub_ask_ds s =? 0 then GSMD_SMS_TP_SRR_NOT_REQUEST else GSMD_SMS_TP_SRR_STATUS_REQUEST))
    (if sub_has_header s =? 0 then GSMD_SMS_TP_UDHI_NO_HEADER else GSMD_SMS_TP_UDHI_WITH_HEADER))
    GSMD_SMS_TP_RP_NOT_SET.

Definition submit_header (s : gsmd_sms_submit) : list Z :=
  [0; submit_flags s; 0; u8 (Z.of_nat (length (sub_number s))); sub_type s] ++
  bcd_number (sub_number s) ++
  [0; sub_coding_scheme s; sub_length s].

Definition SUBMIT_HEADER_SIZE : nat := 15 + GSMD_ADDR_MAXLEN.

(** The octets of the PDU: [None] when the header overruns its array or the
    data its message. *)
Definition smssubmit_octets (s : gsmd_sms_submit) : option (list Z) :=
  let n := Z.to_nat (sms_data_bytelen (sub_coding_scheme s) (sub_length s)) in
  if (length (submit_header s) <=? SUBMIT_HEADER_SIZE)%nat then
    if (n <=? length (sub_data s))%nat
    then Some (submit_header s ++ take n (sub_data s))
    else None
  else None.

(** With [dest] NULL the octets are counted; otherwise the text is written. *)
Definition sms_pdu_make_smssubmit_len (s : gsmd_sms_submit) : option Z :=
  if (length (submit_header s) <=? SUBMIT_HEADER_SIZE)%nat then
    Some (Z.of_nat (length (submit_header s)) +
          sms_data_bytelen (sub_coding_scheme s) (sub_length s))
  else None.

Definition sms_pdu_make_smssubmit (s : gsmd_sms_submit) : option (list Z) :=
  octets ← smssubmit_octets s; Some (octets ≫= hex2).

(** ** Cell broadcast *)

Definition CBM_MAX_PDU_SIZE : Z := 88.
Definition SMS_MAX_PDU_SIZE : nat := 180.

Definition cbs_pdu_to_msg (src : list Z) (pdulen len : Z) : pdu_res gsmd_cbm :=
  check (negb (len =? pdulen) || negb (len =? CBM_MAX_PDU_SIZE));;
  s0 ← src_at src 0; s1 ← src_at src 1; s2 ← src_at src 2;
  s3 ← src_at src 3; s4 ← src_at src 4; s5 ← src_at src 5;
  d ← src_take src 6 (Z.to_nat (len - 6));
  Ok (Cbm (Z.land (Z.shiftr s0 6) 3)
          (Z.land (Z.lor (Z.shiftl s0 4) (Z.shiftr s1 4)) 1023)
          (Z.land s1 15)
          (Z.lor (Z.shiftl s2 8) s3)
          (Z.land s4 15)
          (Z.shiftl (Z.land (Z.shiftr s4 4) 3) 2)
          (Z.land s5 15) (Z.shiftr s5 4) d).

(** ** Memory safety of the decoder *)

(** [m] stays inside its buffers, and a result satisfies [P]. *)
Definition safe {A} (m : pdu_res A) (P : A → Prop) : Prop :=
  match m with Ok a => P a | Bad => True | Over => False end.

Lemma safe_bind {A B} (m : pdu_res A) (k : A → pdu_res B) P Q :
  safe m P → (∀ a, P a → safe (k a) Q) → safe (m ≫= k) Q.
Proof. destruct m; cbn; auto. Qed.

Lemma safe_mono {A} (m : pdu_res A) (P Q : A → Prop) :
  safe m P → (∀ a, P a → Q a) → safe m Q.
Proof. destruct m; cbn; auto. Qed.

Lemma safe_check {B} c (k : pdu_res B) Q :
  (c = false → safe k Q) → safe (check c;; k) Q.
Proof. destruct c; cbn; auto. Qed.

Lemma safe_src_at {B} src i (k : Z → pdu_res B) Q :
  (i < length src)%nat → (∀ x, src !! i = Some x → safe (k x) Q) → safe (src_at src i ≫= k) Q.
Proof.
  intros [x Hx]%lookup_lt_is_Some Hk. unfold src_at. rewrite Hx. cbn. auto.
Qed.

Lemma safe_src_take {B} src i n (k : list Z → pdu_res B) Q :
  (i + n ≤ length src)%nat → (∀ l, length l = n → safe (k l) Q) → safe (src_take src i n ≫= k) Q.
Proof.
  intros H Hk. unfold src_take. rewrite (proj2 (Nat.leb_le _ _) H). cbn. apply Hk.
  rewrite length_take, length_drop. lia.
Qed.

Lemma safe_into {B} dst l (k : mem → pdu_res B) Q :
  (length l ≤ length dst)%nat → (∀ m, length m = length dst → safe (k m) Q) →
  safe (into dst l ≫= k) Q.
Proof.
  intros H Hk. unfold into. destruct (overwrite dst l) as [m|] eqn:E.
  - cbn. apply Hk. by eapply overwrite_length.
  - unfold overwrite in E. by rewrite (proj2 (Nat.leb_le _ _) H) in E.
Qed.

Lemma safe_mapM f l : (∀ x, x ∈ l → safe (f x) (λ _, True)) →
  safe (pdu_mapM f l) (λ r, length r = length l).
Proof.
  induction l as [|x l IH]; intros H; [done|]. cbn [pdu_mapM].
  eapply safe_bind; [apply H; by left|]. intros y _.
  eapply safe_bind; [apply IH; intros; apply H; by right|].
  intros r Hr. cbn. by rewrite Hr.
Qed.

Definition bytes (l : list Z) : Prop := Forall is_byte l.

Lemma bytes_lookup l i x : bytes l → l !! i = Some x → is_byte x.
Proof. intros Hl. by apply Forall_lookup_1. Qed.

Lemma bytes_drop n l : bytes l → bytes (drop n l).
Proof. apply Forall_drop. Qed.

Lemma number_bytelen ty n : sms_number_bytelen ty n = (n + 1) / 2.
Proof. unfold sms_number_bytelen. rewrite Z.shiftr_div_pow2 by lia. by case_match. Qed.

Lemma data_bytelen_range cs n : 0 ≤ n → 0 ≤ sms_data_bytelen cs n.
Proof.
  intros. unfold sms_data_bytelen. rewrite Z.shiftr_div_pow2 by lia.
  repeat case_match; try lia. change (2 ^ 3) with 8. zdiv.
Qed.

Lemma septet_count n : 0 ≤ n ≤ 32 → (length (septet_indices n) ≤ 32)%nat.
Proof.
  intros. by_bytes n 33 (λ n, (length (septet_indices n) <=? 32)%nat). by apply Nat.leb_le.
Qed.

Lemma septet_index n i : i ∈ septet_indices n →
  0 ≤ i ∧ Z.shiftr (i * 7) 3 ≤ Z.shiftr (i * 7 + 7) 3 ∧ 2 * Z.shiftr (i * 7 + 7) 3 ≤ n.
Proof.
  unfold septet_indices. intros [H Hi%elem_of_seqZ]%list_elem_of_filter.
  rewrite !Z.shiftr_div_pow2 in * by lia. change (2 ^ 2) with 4 in *. change (2 ^ 3) with 8.
  zdiv.
Qed.

(** The address: [n] semi-octets in [(n + 1) / 2] bytes after length and type. *)
Lemma safe_address dst src n : bytes src → src !! 0%nat = Some n →
  2 + (n + 1) / 2 < Z.of_nat (length src) →
  length (addr_number dst) = (GSMD_ADDR_MAXLEN + 1)%nat →
  safe (sms_address2ascii dst src)
       (λ a, length (addr_number a) = (GSMD_ADDR_MAXLEN + 1)%nat ∧ n ≤ 32).
Proof.
  intros Hb Hn Hl Hd. unfold sms_address2ascii.
  assert (is_byte n) as Hbn by (by eapply bytes_lookup). unfold is_byte in Hbn.
  apply safe_src_at; [by apply lookup_lt_is_Some; eauto|]. rewrite Hn. intros ? [= <-].
  apply safe_check. intros Hc%Z.ltb_ge. unfold GSMD_ADDR_MAXLEN in Hc.
  apply safe_src_at; [zdiv|]. intros ty _.
  apply (safe_bind _ _ (λ r, (length r ≤ 32)%nat)).
  - case_match.
    + eapply safe_mono; [apply safe_mapM|intros r ->; apply septet_count; lia].
      intros i Hi%septet_index. unfold addr_septet.
      apply safe_src_at; [zdiv|]. intros hi _. apply safe_src_at; [zdiv|]. done.
    + eapply safe_mono; [apply safe_mapM|intros r ->; unfold digit_indices; rewrite length_seqZ; lia].
      intros i Hi%elem_of_seqZ. unfold addr_digit.
      rewrite Z.shiftr_div_pow2 by lia. change (2 ^ 1) with 2.
      apply safe_src_at; [zdiv|]. done.
  - intros r Hr. apply safe_into; [rewrite length_app, Hd; cbn; unfold GSMD_ADDR_MAXLEN; lia|].
    intros m Hm. cbn. by rewrite Hm.
Qed.

(** The destination's arrays have their declared sizes. *)
Definition dst_ok (dst : gsmd_sms_list) : Prop :=
  length (addr_number (sl_addr dst)) = (GSMD_ADDR_MAXLEN + 1)%nat ∧
  length (sms_data (sl_payload dst)) = (GSMD_SMS_DATA_MAXLEN + 1)%nat ∧
  length (sl_time_stamp dst) = 7%nat.

Lemma safe_user_data p cs src len : bytes src → len = Z.of_nat (length src) → 1 ≤ len →
  length (sms_data p) = (GSMD_SMS_DATA_MAXLEN + 1)%nat →
  safe (user_data p cs src len)
       (λ p', length (sms_data p') = (GSMD_SMS_DATA_MAXLEN + 1)%nat).
Proof.
  intros Hb -> Hlen Hd. unfold user_data. apply safe_src_at; [lia|]. intros udl Hu.
  assert (is_byte udl) as Hudl by (by eapply bytes_lookup).
  pose proof (data_bytelen_range cs udl ltac:(unfold is_byte in *; lia)).
  apply safe_check. intros [H1%Z.ltb_ge H2%Z.ltb_ge]%orb_false_iff.
  apply safe_src_take; [lia|]. intros d Hdl.
  apply safe_into; [rewrite length_app, Hd; cbn [length]; lia|]. intros m Hm.
  change (length m = (GSMD_SMS_DATA_MAXLEN + 1)%nat). congruence.
Qed.

Lemma safe_deliver dst src : bytes src → dst_ok dst →
  safe (sms_deliver dst src (Z.of_nat (length src))) dst_ok.
Proof.
  intros Hb (Ha & Hd & Ht). unfold sms_deliver.
  apply safe_check. intros H3%Z.ltb_ge.
  apply safe_src_at; [lia|]. intros ty _. apply safe_src_at; [lia|]. intros al Hal.
  cbv zeta. rewrite number_bytelen. assert (is_byte al) as Hbal by (by eapply bytes_lookup).
  unfold is_byte in Hbal. assert (0 ≤ (al + 1) / 2) by zdiv.
  apply safe_check. intros H13%Z.ltb_ge.
  eapply safe_bind; [apply (safe_address _ _ al); [by apply bytes_drop| |rewrite length_drop; lia|done]|].
  { by rewrite lookup_drop. }
  intros addr (Haddr & _).
  apply safe_src_at; [rewrite length_drop; lia|]. intros pid _.
  apply safe_src_at; [rewrite length_drop; lia|]. intros dcs _.
  eapply (safe_bind _ _ (λ _, True)); [unfold dcs_coding_scheme; cbv zeta; repeat case_match; done|].
  intros cs _. apply safe_src_take; [rewrite length_drop; lia|]. intros ts Hts.
  eapply safe_bind.
  - apply safe_user_data; [by repeat apply bytes_drop|rewrite !length_drop; lia|lia|done].
  - intros p Hp. split_and!; [done|done|]. change (length (known ts) = 7%nat). by rewrite length_known.
Qed.

Lemma safe_submit dst vpf src : bytes src → dst_ok dst →
  safe (sms_submit dst vpf src (Z.of_nat (length src))) dst_ok.
Proof.
  intros Hb (Ha & Hd & Ht). unfold sms_submit.
  apply safe_check. intros H3%Z.ltb_ge.
  apply safe_src_at; [lia|]. intros ty _. apply safe_src_at; [lia|]. intros al Hal.
  cbv zeta. rewrite number_bytelen. assert (is_byte al) as Hbal by (by eapply bytes_lookup).
  unfold is_byte in Hbal. assert (0 ≤ (al + 1) / 2) by zdiv.
  apply safe_check. intros H13%Z.ltb_ge.
  eapply safe_bind; [apply (safe_address _ _ al); [by apply bytes_drop| |rewrite length_drop; lia|done]|].
  { by rewrite lookup_drop. }
  intros addr (Haddr & _).
  apply safe_src_at; [rewrite length_drop; lia|]. intros dcs _.
  eapply (safe_bind _ _ (λ _, True)); [unfold dcs_coding_scheme; cbv zeta; repeat case_match; done|].
  intros cs _. eapply safe_bind.
  - apply safe_user_data; [by repeat apply bytes_drop|rewrite !length_drop; case_match; lia|case_match; lia|done].
  - intros p Hp. split_and!; done.
Qed.

Lemma safe_status_report dst src : bytes src → dst_ok dst → length src ≠ 3%nat →
  safe (sms_status_report dst src (Z.of_nat (length src))) dst_ok.
Proof.
  intros Hb (Ha & Hd & Ht) Hne. unfold sms_status_report.
  apply safe_check. intros H3%Z.ltb_ge.
  apply safe_src_at; [lia|]. intros mr _. apply safe_src_at; [lia|]. intros st _.
  apply safe_src_at; [lia|]. intros ty _. apply safe_src_at; [lia|]. intros al Hal.
  cbv zeta. rewrite number_bytelen. assert (is_byte al) as Hbal by (by eapply bytes_lookup).
  unfold is_byte in Hbal. assert (0 ≤ (al + 1) / 2) by zdiv.
  apply safe_check. intros H13%Z.ltb_ge.
  eapply safe_bind; [apply (safe_address _ _ al); [by apply bytes_drop| |rewrite length_drop; lia|done]|].
  { by rewrite lookup_drop. }
  intros addr (Haddr & _).
  apply safe_src_take; [rewrite length_drop; lia|]. intros ts Hts.
  apply safe_into; [rewrite Hd; cbn; unfold GSMD_SMS_DATA_MAXLEN; lia|]. intros m Hm.
  split_and!; [done | change (length m = (GSMD_SMS_DATA_MAXLEN + 1)%nat); congruence |].
  change (length (known ts) = 7%nat). by rewrite length_known.
Qed.

(** A status report cut after three octets. *)
Definition short_report (src : list Z) : bool :=
  match src with
  | smsc :: rest =>
      match drop (Z.to_nat smsc) rest with
      | [x; _; _] => Z.land x 3 =? GSMD_SMS_TP_MTI_STATUS_REPORT
      | _ => false
      end
  | [] => false
  end.

Lemma safe_pdu_to_msg dst src pdulen : bytes src → dst_ok dst →
  pdulen ≤ INT_MAX - 256 → short_report src = false →
  safe (sms_pdu_to_msg dst src pdulen (Z.of_nat (length src))) dst_ok.
Proof.
  intros Hb Hd Hp Hns. unfold sms_pdu_to_msg.
  apply safe_check. intros H1%Z.ltb_ge. apply safe_src_at; [lia|]. intros smsc Hs.
  assert (is_byte smsc) as Hbs by (by eapply bytes_lookup). unfold is_byte in Hbs.
  destruct (Z.ltb_spec INT_MAX (1 + smsc + pdulen)); [lia|].
  eapply (safe_bind (Ok tt) _ (λ _, True)); [done|]. intros _ _.
  apply safe_check. intros [H2%Z.ltb_ge H3%Z.ltb_ge]%orb_false_iff. cbv zeta.
  set (rest := drop (Z.to_nat (1 + smsc)) src).
  assert (Z.of_nat (length src) - (1 + smsc) = Z.of_nat (length rest)) as Hlen
    by (unfold rest; rewrite length_drop; lia).
  rewrite Hlen. apply safe_src_at; [lia|]. intros first Hf.
  assert (bytes rest) as Hbr by by apply bytes_drop.
  case_match; [by apply safe_deliver|].
  case_match; [by apply safe_submit|].
  case_match eqn:E; [|done]. apply Z.eqb_eq in E.
  apply safe_status_report; [done..|]. intros Hl.
  destruct src as [|c src]; [done|]. injection Hs as ->. unfold short_report in Hns.
  replace (drop (Z.to_nat smsc) src) with rest in Hns
    by (unfold rest; by replace (Z.to_nat (1 + smsc)) with (S (Z.to_nat smsc)) by lia).
  destruct rest as [|x [|y [|z [|? ?]]]]; try done. injection Hf as ->. by rewrite E in Hns.
Qed.

(** ** The SUBMIT round trip *)

Lemma pdu_mapM_Ok f l r : Forall2 (λ x y, f x = Ok y) l r → pdu_mapM f l = Ok r.
Proof. induction 1 as [|x y l r E _ IH]; [done|]. cbn. by rewrite E, IH. Qed.

Definition digit (c : Z) : Prop := 48 ≤ c < 58.

Lemma length_bcd s : Z.of_nat (length (bcd_number s)) = (Z.of_nat (length s) + 1) / 2.
Proof.
  induction s as [|d|d e s IH] using list_pair_ind; [done..|].
  cbn [bcd_number length]. zdiv.
Qed.

Lemma bcd_pair d e : digit d → digit e →
  let x := u8 (Z.lor (u8 (d - ch "0")) (Z.shiftl (e - ch "0") 4)) in
  48 + Z.land (Z.shiftr x 0) 15 = d ∧ 48 + Z.land (Z.shiftr x 4) 15 = e.
Proof.
  unfold digit. intros Hd He.
  by_bytes (d - 48) 10 (λ d, below 10 (λ e,
    let x := u8 (Z.lor (u8 d) (Z.shiftl e 4)) in
    (Z.land (Z.shiftr x 0) 15 =? d) && (Z.land (Z.shiftr x 4) 15 =? e))).
  apply (below_spec _ _ (e - 48)) in H; [|lia].
  apply andb_true_iff in H as [H1%Z.eqb_eq H2%Z.eqb_eq].
  change (ch "0") with 48. split; lia.
Qed.

Lemma bcd_last d : digit d →
  let x := Z.lor (u8 (d - ch "0")) 240 in 48 + Z.land (Z.shiftr x 0) 15 = d.
Proof.
  unfold digit. intros Hd.
  by_bytes (d - 48) 10 (λ d, Z.land (Z.shiftr (Z.lor (u8 d) 240) 0) 15 =? d).
  apply Z.eqb_eq in H. change (ch "0") with 48. lia.
Qed.

(** Two semi-octets further is one byte further. *)
Lemma addr_digit_shift a c x l i : 0 ≤ i < 200 →
  addr_digit (a :: c :: x :: l) (2 + i) = addr_digit (c :: x :: l) i.
Proof.
  intros Hi. unfold addr_digit, src_at.
  by_bytes i 200 (λ i, (Z.land (Z.shiftl (2 + i) 2) 4 =? Z.land (Z.shiftl i 2) 4) &&
    (Z.to_nat (2 + Z.shiftr (2 + i) 1) =? S (Z.to_nat (2 + Z.shiftr i 1)))%nat).
  apply andb_true_iff in H as [-> % Z.eqb_eq -> % Nat.eqb_eq]. done.
Qed.

Lemma addr_digit_bcd a c s tail i d : Forall digit s → (length s < 200)%nat → s !! i = Some d →
  addr_digit (a :: c :: bcd_number s ++ tail) (Z.of_nat i) = Ok d.
Proof.
  intros Hs. revert a c i. induction s as [|x|x y s IH] using list_pair_ind;
    intros a c i Hl Hi.
  - by rewrite lookup_nil in Hi.
  - destruct i as [|i]; [|done]. injection Hi as ->. apply Forall_cons in Hs as [Hx _].
    exact (f_equal Ok (bcd_last d Hx)).
  - apply Forall_cons in Hs as [Hx Hs]. apply Forall_cons in Hs as [Hy Hs].
    destruct (bcd_pair x y Hx Hy) as [E1 E2].
    destruct i as [|[|i]].
    + injection Hi as ->. exact (f_equal Ok E1).
    + injection Hi as ->. exact (f_equal Ok E2).
    + cbn in Hl, Hi. cbn [bcd_number app]. apply lookup_lt_Some in Hi as Hlt.
      replace (Z.of_nat (S (S i))) with (2 + Z.of_nat i) by lia.
      rewrite addr_digit_shift by lia. apply IH; [done|lia|done].
Qed.

(** What a client may put into a submit message. *)
Record submit_ok (s : gsmd_sms_submit) : Prop := {
  so_number : Forall digit (sub_number s);
  so_number_len : (length (sub_number s) ≤ GSMD_ADDR_MAXLEN)%nat;
  so_type : Z.land (sub_type s) GSMD_TOA_TON_MASK ≠ GSMD_TOA_TON_ALPHANUMERIC;
  so_coding : sub_coding_scheme s ∈ [ALPHABET_DEFAULT; ALPHABET_8BIT; ALPHABET_UCS2];
  so_length : 0 < sub_length s;
  so_fits : sms_data_bytelen (sub_coding_scheme s) (sub_length s) ≤ Z.of_nat GSMD_SMS_DATA_MAXLEN;
  so_data : sms_data_bytelen (sub_coding_scheme s) (sub_length s) ≤ Z.of_nat (length (sub_data s)) }.

(** The data octets of a submit message, and the message as a receiver sees it. *)
Definition submit_data (s : gsmd_sms_submit) : list Z :=
  take (Z.to_nat (sms_data_bytelen (sub_coding_scheme s) (sub_length s))) (sub_data s).

Definition stored (dst : mem) (l : list Z) : mem :=
  known (l ++ [0]) ++ drop (length (l ++ [0])) dst.

Definition submit_msg (dst : gsmd_sms_list) (s : gsmd_sms_submit) : gsmd_sms_list :=
  SmsList (sl_index dst) (sl_stat dst) (known (replicate 7 0))
    (Addr (Some (sub_type s)) (stored (addr_number (sl_addr dst)) (sub_number s)))
    (Sms (Some (sub_length s)) (Some (sub_coding_scheme s))
         (Some (if sub_has_header s =? 0 then 0 else 1)) (Some 0) (sms_dcs (sl_payload dst))
         (Some GSMD_SMS_TP_MTI_SUBMIT) (stored (sms_data (sl_payload dst)) (submit_data s)))
    (sl_is_last dst).

Lemma src_at_Ok {B} src i x (k : Z → pdu_res B) : src !! i = Some x → (src_at src i ≫= k) = k x.
Proof. unfold src_at. by intros ->. Qed.

Lemma src_take_Ok {B} src i n (k : list Z → pdu_res B) : (i + n ≤ length src)%nat →
  (src_take src i n ≫= k) = k (take n (drop i src)).
Proof. intros H. unfold src_take. by rewrite (proj2 (Nat.leb_le (i + n) (length src)) H). Qed.

Lemma check_Ok {B} c (k : pdu_res B) : c = false → (check c;; k) = k.
Proof. by intros ->. Qed.

Lemma into_stored dst l : (length l < length dst)%nat → into dst (l ++ [0]) = Ok (stored dst l).
Proof.
  intros H. unfold into, overwrite, stored.
  destruct (Nat.leb_spec (length (l ++ [0])) (length dst)) as [|Hn]; [done|].
  rewrite length_app in Hn. cbn in Hn. lia.
Qed.

Lemma address_bcd dst ty s tail : Forall digit s → (length s ≤ GSMD_ADDR_MAXLEN)%nat →
  Z.land ty GSMD_TOA_TON_MASK ≠ GSMD_TOA_TON_ALPHANUMERIC →
  length (addr_number dst) = (GSMD_ADDR_MAXLEN + 1)%nat →
  sms_address2ascii dst (Z.of_nat (length s) :: ty :: bcd_number s ++ tail) =
  Ok (Addr (Some ty) (stored (addr_number dst) s)).
Proof.
  intros Hs Hl Hty Hd. unfold sms_address2ascii. rewrite (src_at_Ok _ _ (Z.of_nat (length s))) by done.
  rewrite check_Ok by (apply Z.ltb_ge; lia). rewrite (src_at_Ok _ _ ty) by done.
  apply Z.eqb_neq in Hty as ->. rewrite (pdu_mapM_Ok _ _ s).
  - cbn [mbind pdu_bind]. by rewrite into_stored by (rewrite Hd; lia).
  - unfold digit_indices. apply Forall2_same_length_lookup. split; [rewrite length_seqZ; lia|].
    intros i x y [-> Hi]%lookup_seqZ Hy. rewrite Z.add_0_l.
    apply addr_digit_bcd; [done|unfold GSMD_ADDR_MAXLEN in Hl; lia|done].
Qed.

Lemma length_submit_header s : (length (sub_number s) ≤ GSMD_ADDR_MAXLEN)%nat →
  (length (submit_header s) ≤ SUBMIT_HEADER_SIZE)%nat.
Proof.
  intros H. unfold submit_header, SUBMIT_HEADER_SIZE. autorewrite with len. cbn [length].
  pose proof (length_bcd (sub_number s)). unfold GSMD_ADDR_MAXLEN in *. zdiv.
Qed.

Lemma smssubmit_octets_ok s : submit_ok s →
  smssubmit_octets s = Some (submit_header s ++ submit_data s).
Proof.
  intros []. unfold smssubmit_octets, submit_data.
  rewrite (proj2 (Nat.leb_le _ _)) by (by apply length_submit_header).
  by rewrite (proj2 (Nat.leb_le _ _)) by lia.
Qed.

Lemma user_data_submit p s : submit_ok s →
  length (sms_data p) = (GSMD_SMS_DATA_MAXLEN + 1)%nat →
  user_data p (sub_coding_scheme s) (sub_length s :: submit_data s)
    (1 + Z.of_nat (length (submit_data s))) =
  Ok (Sms (Some (sub_length s)) (Some (sub_coding_scheme s)) (sms_has_header p)
          (sms_is_voicemail p) (sms_dcs p) (sms_tp_mti p) (stored (sms_data p) (submit_data s))).
Proof.
  intros [] Hd. unfold user_data. rewrite (src_at_Ok _ _ (sub_length s)) by done.
  pose proof (data_bytelen_range (sub_coding_scheme s) (sub_length s) ltac:(lia)) as Hpos.
  assert (Z.of_nat (length (submit_data s)) =
    sms_data_bytelen (sub_coding_scheme s) (sub_length s)) as Hlen
    by (unfold submit_data; rewrite length_take; lia).
  rewrite check_Ok by (apply orb_false_iff; split; apply Z.ltb_ge; lia).
  rewrite src_take_Ok by (cbn [length]; lia).
  rewrite skipn_cons, drop_0, take_ge by lia.
  by rewrite into_stored by (rewrite Hd; lia).
Qed.

Lemma coding_cases cs : cs ∈ [ALPHABET_DEFAULT; ALPHABET_8BIT; ALPHABET_UCS2] →
  dcs_coding_scheme cs = Ok cs.
Proof. rewrite !elem_of_cons. intros [-> | [-> | [-> | H]]]; try done. by apply not_elem_of_nil in H. Qed.

Lemma submit_flags_bits s :
  Z.testbit (submit_flags s) 6 = negb (sub_has_header s =? 0) ∧
  Z.land (submit_flags s) 3 = GSMD_SMS_TP_MTI_SUBMIT ∧
  Z.land (Z.shiftr (submit_flags s) 3) 3 = 0.
Proof.
  unfold submit_flags. by destruct (sub_ask_ds s =? 0), (sub_has_header s =? 0).
Qed.

Lemma submit_data_length s : submit_ok s →
  (0 < length (submit_data s))%nat ∧
  Z.of_nat (length (submit_data s)) = sms_data_bytelen (sub_coding_scheme s) (sub_length s).
Proof.
  intros [].
  assert (0 < sms_data_bytelen (sub_coding_scheme s) (sub_length s)).
  { rewrite !elem_of_cons in so_coding0. unfold sms_data_bytelen.
    rewrite Z.shiftr_div_pow2 by lia. change (2 ^ 3) with 8.
    destruct so_coding0 as [-> | [-> | [-> | H]]];
      [cbn; zdiv | cbn; lia | cbn; lia | by apply not_elem_of_nil in H]. }
  unfold submit_data. rewrite length_take. lia.
Qed.

Lemma sms_submit_octets dst s flags : submit_ok s → dst_ok dst →
  let src := [flags; 0; Z.of_nat (length (sub_number s)); sub_type s] ++
             bcd_number (sub_number s) ++
             [0; sub_coding_scheme s; sub_length s] ++ submit_data s in
  sms_submit dst 0 src (Z.of_nat (length src)) =
  Ok (SmsList (sl_index dst) (sl_stat dst) (known (replicate 7 0))
    (Addr (Some (sub_type s)) (stored (addr_number (sl_addr dst)) (sub_number s)))
    (Sms (Some (sub_length s)) (Some (sub_coding_scheme s)) (sms_has_header (sl_payload dst))
         (sms_is_voicemail (sl_payload dst)) (sms_dcs (sl_payload dst))
         (Some GSMD_SMS_TP_MTI_SUBMIT) (stored (sms_data (sl_payload dst)) (submit_data s)))
    (sl_is_last dst)).
Proof.
  intros Hs (Ha & Hd & _). cbv zeta. cbn [app].
  set (tail := 0 :: sub_coding_scheme s :: sub_length s :: submit_data s).
  unfold sms_submit. pose proof (length_bcd (sub_number s)) as Hbcd.
  destruct (submit_data_length s Hs) as [Hpos _].
  match goal with |- context [check (?l <? 4)] => set (len := l) end.
  assert (len = 7 + Z.of_nat (length (bcd_number (sub_number s))) + Z.of_nat (length (submit_data s))) as Hlen
    by (unfold len, tail; autorewrite with len; cbn [length]; lia).
  rewrite check_Ok by (apply Z.ltb_ge; lia).
  rewrite (src_at_Ok _ 3 (sub_type s)), (src_at_Ok _ 2 (Z.of_nat (length (sub_number s)))) by done.
  cbv zeta. rewrite number_bytelen, <- Hbcd.
  rewrite check_Ok by (apply Z.ltb_ge; lia).
  rewrite !skipn_cons, drop_0.
  rewrite address_bcd by apply Hs || done. cbn [mbind pdu_bind].
  replace (Z.to_nat (4 + Z.of_nat (length (bcd_number (sub_number s)))))
    with (S (S (S (S (length (bcd_number (sub_number s))))))) by lia.
  rewrite !skipn_cons, drop_app_length.
  rewrite (src_at_Ok _ 1 (sub_coding_scheme s)) by done.
  rewrite coding_cases by apply Hs. cbn [mbind pdu_bind].
  change (drop _ tail) with (sub_length s :: submit_data s).
  replace (len - _ - _) with (1 + Z.of_nat (length (submit_data s))) by (cbn; lia).
  by rewrite user_data_submit.
Qed.

(** ** Properties *)

Lemma submit_decodes dst s : submit_ok s → dst_ok dst →
  let octets := submit_header s ++ submit_data s in
  8 < Z.of_nat (length octets) < 300 ∧
  sms_pdu_to_msg dst octets (Z.of_nat (length octets) - 1) (Z.of_nat (length octets)) =
  Ok (submit_msg dst s).
Proof.
  intros Hs Hd. cbv zeta.
  destruct (submit_data_length s Hs) as [Hpos Hlen].
  pose proof (so_number_len s Hs) as Hn. pose proof (so_fits s Hs) as Hfit.
  unfold submit_header. rewrite <- !app_assoc. cbn [app].
  assert (u8 (Z.of_nat (length (sub_number s))) = Z.of_nat (length (sub_number s))) as ->
    by (apply wrapu_small; unfold GSMD_ADDR_MAXLEN in Hn; lia).
  match goal with |- context [check (?l <? 1)] => idtac | |- context [sms_pdu_to_msg _ ?o _ ?l] => set (src := o) end.
  assert (8 < Z.of_nat (length src) < 300) as Hsrc.
  { unfold src. autorewrite with len. cbn [length].
    pose proof (length_bcd (sub_number s)). unfold GSMD_ADDR_MAXLEN, GSMD_SMS_DATA_MAXLEN in *.
    autorewrite with len. zdiv. }
  split; [exact Hsrc|].
  unfold sms_pdu_to_msg. rewrite check_Ok by (apply Z.ltb_ge; lia).
  rewrite (src_at_Ok src 0 0) by done.
  destruct (Z.ltb_spec INT_MAX (1 + 0 + (Z.of_nat (length src) - 1))); [unfold INT_MAX in *; lia|].
  cbn [mbind pdu_bind].
  rewrite check_Ok by (apply orb_false_iff; split; apply Z.ltb_ge; lia). cbv zeta.
  rewrite (src_at_Ok _ 0 (submit_flags s)) by done.
  destruct (submit_flags_bits s) as (-> & -> & ->). cbn -[sms_submit length].
  change (drop _ src) with (drop 1 src).
  replace (Z.of_nat (length src) - (1 + 0)) with (Z.of_nat (length (drop 1 src)))
    by (rewrite length_drop; lia).
  unfold src. rewrite skipn_cons, drop_0.
  match goal with |- context [sms_submit ?d _ _ _] =>
    pose proof (sms_submit_octets d s (submit_flags s) Hs Hd) as E end.
  cbv zeta in E. cbn [app] in E. rewrite E. unfold submit_msg. cbn.
  by destruct (sub_has_header s =? 0).
Qed.

(** [C24] Round trip: the PDU made for a submit message is accepted by the decoder,
    which finds in it the type, the digits, the coding scheme, the length and the
    data of the message. *)
Theorem smssubmit_roundtrip dst s : submit_ok s → dst_ok dst →
  ∃ octets, smssubmit_octets s = Some octets ∧
    sms_pdu_to_msg dst octets (Z.of_nat (length octets) - 1) (Z.of_nat (length octets)) =
    Ok (submit_msg dst s).
Proof.
  intros Hs Hd. eexists. split; [by apply smssubmit_octets_ok|]. by apply submit_decodes.
Qed.

(** A SUBMIT without data and without a validity period is well formed, but is
    rejected: the length test asks for one octet more than the header has. *)
Theorem smssubmit_empty_rejected dst s : sub_length s = 0 → dst_ok dst →
  Forall digit (sub_number s) → (length (sub_number s) ≤ GSMD_ADDR_MAXLEN)%nat →
  smssubmit_octets s = Some (submit_header s) ∧
  sms_pdu_to_msg dst (submit_header s) (Z.of_nat (length (submit_header s)) - 1)
    (Z.of_nat (length (submit_header s))) = Bad.
Proof.
  intros H0 Hd Hs Hn. pose proof (length_submit_header s Hn) as Hh. split.
  { unfold smssubmit_octets. rewrite H0, (proj2 (Nat.leb_le _ _) Hh).
    assert (sms_data_bytelen (sub_coding_scheme s) 0 = 0) as -> by (unfold sms_data_bytelen; repeat case_match; done).
    rewrite (proj2 (Nat.leb_le _ _)) by (cbn; lia). cbn [Z.to_nat take].
    by rewrite app_nil_r. }
  unfold submit_header in *. cbn [app] in *.
  assert (u8 (Z.of_nat (length (sub_number s))) = Z.of_nat (length (sub_number s))) as ->
    by (apply wrapu_small; unfold GSMD_ADDR_MAXLEN in Hn; lia).
  match goal with |- context [sms_pdu_to_msg _ ?o _ ?l] => set (src := o) end.
  pose proof (length_bcd (sub_number s)) as Hbcd.
  assert (Z.of_nat (length src) = 8 + (Z.of_nat (length (sub_number s)) + 1) / 2) as Hl
    by (unfold src; autorewrite with len; cbn [length]; lia).
  assert (8 ≤ Z.of_nat (length src) < 300) by (unfold GSMD_ADDR_MAXLEN in *; zdiv).
  unfold sms_pdu_to_msg. rewrite check_Ok by (apply Z.ltb_ge; lia).
  rewrite (src_at_Ok src 0 0) by done.
  destruct (Z.ltb_spec INT_MAX (1 + 0 + (Z.of_nat (length src) - 1))); [unfold INT_MAX in *; lia|].
  cbn [mbind pdu_bind].
  rewrite check_Ok by (apply orb_false_iff; split; apply Z.ltb_ge; lia). cbv zeta.
  rewrite (src_at_Ok _ 0 (submit_flags s)) by done.
  destruct (submit_flags_bits s) as (-> & -> & ->). cbn -[sms_submit length].
  unfold sms_submit. rewrite check_Ok by (apply Z.ltb_ge; lia).
  rewrite (src_at_Ok _ 3 (sub_type s)), (src_at_Ok _ 2 (Z.of_nat (length (sub_number s)))) by done.
  cbv zeta. rewrite number_bytelen.
  replace (_ <? _) with true by (symmetry; apply Z.ltb_lt; lia). done.
Qed.

Lemma short_report_result dst src pdulen : bytes src → short_report src = true →
  pdulen ≤ INT_MAX - 256 →
  sms_pdu_to_msg dst src pdulen (Z.of_nat (length src)) =
  if (1 <=? pdulen) && (pdulen <=? 3) then Over else Bad.
Proof.
  intros Hb Hs Hp. destruct src as [|smsc src]; [done|]. unfold short_report in Hs.
  apply Forall_cons in Hb as [Hsm _]. unfold is_byte in Hsm.
  destruct (drop (Z.to_nat smsc) src) as [|x [|y [|z [|? ?]]]] eqn:E; try done.
  assert (Z.of_nat (length src) = smsc + 3) as Hl.
  { apply (f_equal length) in E. rewrite length_drop in E. cbn in E. lia. }
  unfold sms_pdu_to_msg. cbn [length].
  rewrite check_Ok by (apply Z.ltb_ge; lia). rewrite (src_at_Ok _ 0 smsc) by done.
  destruct (Z.ltb_spec INT_MAX (1 + smsc + pdulen)); [lia|]. cbn [mbind pdu_bind].
  destruct (Z.leb_spec 1 pdulen); [|by rewrite (proj2 (Z.ltb_lt pdulen 1)), orb_true_r by lia].
  destruct (Z.leb_spec pdulen 3); [|by rewrite (proj2 (Z.ltb_lt _ (1 + smsc + pdulen))) by lia].
  rewrite check_Ok by (apply orb_false_iff; split; apply Z.ltb_ge; lia). cbv zeta.
  replace (Z.to_nat (1 + smsc)) with (S (Z.to_nat smsc)) by lia.
  rewrite skipn_cons, E. rewrite (src_at_Ok _ 0 x) by done.
  apply Z.eqb_eq in Hs. rewrite Hs.
  change (GSMD_SMS_TP_MTI_STATUS_REPORT =? GSMD_SMS_TP_MTI_DELIVER) with false.
  change (GSMD_SMS_TP_MTI_STATUS_REPORT =? GSMD_SMS_TP_MTI_SUBMIT) with false.
  rewrite Z.eqb_refl. unfold sms_status_report.
  replace (Z.of_nat (S (length src)) - (1 + smsc)) with 3 by lia. done.
Qed.

(** [C33] Memory safety: whatever octets arrive, the decoder reads only octets that
    were received and writes only inside the message, except for a status report
    cut after its third octet, of which it reads a fourth. *)
Theorem sms_pdu_to_msg_safe dst src pdulen : bytes src → dst_ok dst →
  pdulen ≤ INT_MAX - 256 →
  (sms_pdu_to_msg dst src pdulen (Z.of_nat (length src)) = Over ↔
     short_report src = true ∧ 1 ≤ pdulen ≤ 3) ∧
  (∀ m, sms_pdu_to_msg dst src pdulen (Z.of_nat (length src)) = Ok m → dst_ok m).
Proof.
  intros Hb Hd Hp. destruct (short_report src) eqn:E.
  - rewrite short_report_result by done.
    destruct (Z.leb_spec 1 pdulen), (Z.leb_spec pdulen 3); (split; [split; [|intros [_ ?]] |]); try done; lia.
  - pose proof (safe_pdu_to_msg dst src pdulen Hb Hd Hp E) as H.
    destruct (sms_pdu_to_msg dst src pdulen _); (split; [split; [done | by intros []] |]); try done.
    by intros ? [= <-].
Qed.

(** What the two readings of the TP-DCS octet promise. *)
Definition dcs_ranges (d : gsmd_sms_datacodingscheme) : bool :=
  (0 <=? msg_class d) && (msg_class d <=? MSG_CLASS_NONE) &&
  (0 <=? alphabet d) && (alphabet d <=? SMS_ALPHABET_UCS2) &&
  ((is_compressed d =? NOT_COMPRESSED) || (is_compressed d =? 32)) &&
  (0 <=? mwi_group d) && (mwi_group d <=? MESSAGE_WAITING_NONE_1111) &&
  ((mwi_active d =? NOT_ACTIVE) || (mwi_active d =? ACTIVE)) &&
  (0 <=? mwi_kind d) && (mwi_kind d <=? MESSAGE_WAITING_OTHER).

(** The octets for which [coding_scheme] and [dcs.alphabet] name different
    alphabets: the reserved alphabet of the general groups, and every "discard"
    message-waiting indication with bit 3 (active) or the reserved bit 2 set. *)
Definition dcs_disagree (x : Z) : bool :=
  ((Z.shiftr x 4 <=? 3) && (Z.land x 12 =? ALPHABET_RESERVED)) ||
  ((Z.shiftr x 4 =? 12) && negb (Z.land x 12 =? 0)).

(** Every octet decodes to enumerators in range, except that a compressed message
    is reported as 32 and not as [COMPRESSED]; the coding groups 4 to 11 are the
    rejected ones; the coding scheme is the alphabet decoded from the same octet
    except where [dcs_disagree] says so. *)
Theorem sms_dcs_spec x : is_byte x →
  dcs_ranges (sms_pdu_decode_dcs x) = true ∧
  (is_compressed (sms_pdu_decode_dcs x) = 32 ↔ x < 64 ∧ Z.testbit x 5 = true) ∧
  (dcs_coding_scheme x = Bad ↔ 64 ≤ x < 192) ∧
  (∀ cs, dcs_coding_scheme x = Ok cs →
     (cs = Z.shiftl (alphabet (sms_pdu_decode_dcs x)) 2 ↔ dcs_disagree x = false)).
Proof.
  intros Hx.
  by_bytes x 256 (λ x,
    dcs_ranges (sms_pdu_decode_dcs x) &&
    eqb (is_compressed (sms_pdu_decode_dcs x) =? 32) ((x <? 64) && Z.testbit x 5) &&
    match dcs_coding_scheme x with
    | Bad => (64 <=? x) && (x <? 192)
    | Over => false
    | Ok cs => negb ((64 <=? x) && (x <? 192)) &&
        eqb (cs =? Z.shiftl (alphabet (sms_pdu_decode_dcs x)) 2) (negb (dcs_disagree x))
    end).
  apply andb_true_iff in H as [[H1 H2%eqb_prop]%andb_true_iff H3]. split; [done|]. split.
  - rewrite <- Z.eqb_eq, H2, andb_true_iff, Z.ltb_lt. done.
  - destruct (dcs_coding_scheme x) as [cs| |] eqn:E; [| |done].
    + apply andb_true_iff in H3 as [H3%negb_true_iff H4%eqb_prop]. split.
      * split; [done|]. intros []. destruct (Z.leb_spec 64 x), (Z.ltb_spec x 192); try done; lia.
      * intros ? [= <-]. rewrite <- Z.eqb_eq, H4, negb_true_iff. done.
    + apply andb_true_iff in H3 as [H3%Z.leb_le H4%Z.ltb_lt]. done.
Qed.

Lemma cbs_serial_bytes s0 s1 : is_byte s0 → is_byte s1 →
  let code := Z.land (Z.lor (Z.shiftl s0 4) (Z.shiftr s1 4)) 1023 in
  s0 = 64 * Z.land (Z.shiftr s0 6) 3 + code / 16 ∧
  s1 = 16 * (code mod 16) + Z.land s1 15.
Proof.
  intros H0 H1.
  by_bytes s0 256 (λ s0, below 256 (λ s1,
    let code := Z.land (Z.lor (Z.shiftl s0 4) (Z.shiftr s1 4)) 1023 in
    (s0 =? 64 * Z.land (Z.shiftr s0 6) 3 + code / 16) &&
    (s1 =? 16 * (code mod 16) + Z.land s1 15))).
  apply (below_spec _ _ s1) in H; [|done].
  by apply andb_true_iff in H as [?%Z.eqb_eq ?%Z.eqb_eq].
Qed.

Lemma cbs_id_bytes s2 s3 : is_byte s2 → is_byte s3 →
  let id := Z.lor (Z.shiftl s2 8) s3 in s2 = id / 256 ∧ s3 = id mod 256.
Proof.
  intros H2 H3.
  by_bytes s2 256 (λ s2, below 256 (λ s3,
    let id := Z.lor (Z.shiftl s2 8) s3 in (s2 =? id / 256) && (s3 =? id mod 256))).
  apply (below_spec _ _ s3) in H; [|done].
  by apply andb_true_iff in H as [?%Z.eqb_eq ?%Z.eqb_eq].
Qed.

Lemma cbs_low_bytes x : is_byte x →
  (x = 64 * (x / 64) + 4 * Z.shiftl (Z.land (Z.shiftr x 4) 3) 2 + Z.land x 15) ∧
  (x = 16 * Z.shiftr x 4 + Z.land x 15) ∧ 0 ≤ x / 64 < 4.
Proof.
  intros Hx.
  by_bytes x 256 (λ x,
    (x =? 64 * (x / 64) + 4 * Z.shiftl (Z.land (Z.shiftr x 4) 3) 2 + Z.land x 15) &&
    (x =? 16 * Z.shiftr x 4 + Z.land x 15)).
  apply andb_true_iff in H as [?%Z.eqb_eq ?%Z.eqb_eq]. split; [done | split; [done|]].
  unfold is_byte in Hx. zdiv.
Qed.

(** A cell broadcast page is decoded exactly when it has the 88 octets it
    announces; its fields are in range, and they give back the six header octets
    up to the coding group (bits 6 and 7 of the fifth), which is not kept. *)
Theorem cbs_pdu_to_msg_spec src pdulen : bytes src →
  (cbs_pdu_to_msg src pdulen (Z.of_nat (length src)) = Bad ↔
     ¬ (Z.of_nat (length src) = pdulen ∧ pdulen = CBM_MAX_PDU_SIZE)) ∧
  (Z.of_nat (length src) = pdulen → pdulen = CBM_MAX_PDU_SIZE → ∃ c hi,
     cbs_pdu_to_msg src pdulen (Z.of_nat (length src)) = Ok c ∧ 0 ≤ hi < 4 ∧
     src = [64 * cbm_scope c + cbm_msg_code c / 16;
            16 * (cbm_msg_code c mod 16) + cbm_update_num c;
            cbm_msg_id c / 256; cbm_msg_id c mod 256;
            64 * hi + 4 * cbm_coding_scheme c + cbm_language c;
            16 * cbm_page c + cbm_pages c] ++ cbm_data c ∧
     length (cbm_data c) = 82%nat).
Proof.
  intros Hb. unfold cbs_pdu_to_msg, CBM_MAX_PDU_SIZE. split.
  - destruct (Z.eqb_spec (Z.of_nat (length src)) pdulen) as [E1|E1];
      [|split; [intros _; by intros [] | done]].
    destruct (Z.eqb_spec (Z.of_nat (length src)) 88) as [E2|E2];
      [|split; [intros _ [? ?]; lia | done]].
    split; [|intros H; destruct H; lia].
    destruct src as [|s0 [|s1 [|s2 [|s3 [|s4 [|s5 d]]]]]]; cbn [length] in E2; try lia.
    cbn -[Z.of_nat length src_take]. rewrite src_take_Ok by (cbn [length]; lia). done.
  - intros E1 E2. rewrite check_Ok by (rewrite E1, E2, !Z.eqb_refl; done).
    rewrite E1, E2. rewrite E2 in E1. clear E2 pdulen.
    destruct src as [|s0 [|s1 [|s2 [|s3 [|s4 [|s5 d]]]]]]; cbn [length] in E1; try lia.
    assert (is_byte s0 ∧ is_byte s1 ∧ is_byte s2 ∧ is_byte s3 ∧ is_byte s4 ∧ is_byte s5)
      as (B0 & B1 & B2 & B3 & B4 & B5) by (repeat (apply Forall_cons in Hb as [? Hb]; split; [done|]); by apply Forall_cons in Hb as [? _]).
    do 2 eexists. split; [|split; [|split]].
    + rewrite (src_at_Ok _ 0 s0), (src_at_Ok _ 1 s1), (src_at_Ok _ 2 s2), (src_at_Ok _ 3 s3),
        (src_at_Ok _ 4 s4), (src_at_Ok _ 5 s5) by done.
      rewrite src_take_Ok by (cbn [length]; lia). reflexivity.
    + apply (cbs_low_bytes s4 B4).
    + cbn [cbm_scope cbm_msg_code cbm_update_num cbm_msg_id cbm_language cbm_coding_scheme
        cbm_pages cbm_page cbm_data].
      destruct (cbs_serial_bytes s0 s1 B0 B1) as [<- <-], (cbs_id_bytes s2 s3 B2 B3) as [<- <-],
        (cbs_low_bytes s4 B4) as [<- _], (cbs_low_bytes s5 B5) as (_ & <- & _).
      rewrite !skipn_cons, drop_0, take_ge by lia. done.
    + cbn [cbm_data]. rewrite !skipn_cons, drop_0, length_take. lia.
Qed.

(** ** The theorems at work *)

Definition submit_ex : gsmd_sms_submit :=
  Submit 145 (b "4915112345") 5 ALPHABET_DEFAULT 0 [200; 50; 155; 253; 6; 0; 0] 1.

Lemma submit_ex_ok : submit_ok submit_ex.
Proof.
  split.
  - by repeat constructor.
  - apply Nat.leb_le. reflexivity.
  - discriminate.
  - by left.
  - reflexivity.
  - discriminate.
  - discriminate.
Qed.

Lemma sms_list_undef_ok : dst_ok sms_list_undef.
Proof. done. Qed.


Lemma smssubmit_roundtrip_witness : ∃ octets,
  smssubmit_octets submit_ex = Some octets ∧
  sms_pdu_to_msg sms_list_undef octets (Z.of_nat (length octets) - 1) (Z.of_nat (length octets)) =
  Ok (submit_msg sms_list_undef submit_ex).
Proof. apply smssubmit_roundtrip; [exact submit_ex_ok | exact sms_list_undef_ok]. Defined.

Lemma smssubmit_empty_rejected_witness :
  let s := Submit 145 (b "49") 0 ALPHABET_DEFAULT 0 [] 0 in
  smssubmit_octets s = Some (submit_header s) ∧
  sms_pdu_to_msg sms_list_undef (submit_header s) (Z.of_nat (length (submit_header s)) - 1)
    (Z.of_nat (length (submit_header s))) = Bad.
Proof.
  apply smssubmit_empty_rejected; [reflexivity | exact sms_list_undef_ok | by repeat constructor |].
  apply Nat.leb_le. reflexivity.
Defined.

Lemma sms_pdu_to_msg_safe_witness :
  sms_pdu_to_msg sms_list_undef [0; 2; 1; 2] 1 4 = Over ∧
  ¬ sms_pdu_to_msg sms_list_undef [0; 2; 1; 2; 145] 1 5 = Over.
Proof.
  split.
  - apply (sms_pdu_to_msg_safe sms_list_undef [0; 2; 1; 2] 1);
      [by repeat constructor | exact sms_list_undef_ok | done | done].
  - intros H.
    apply (sms_pdu_to_msg_safe sms_list_undef [0; 2; 1; 2; 145] 1) in H as [H _];
      [discriminate H | by repeat constructor | exact sms_list_undef_ok | done].
Defined.

Lemma sms_dcs_spec_witness :
  dcs_coding_scheme 200 = Ok ALPHABET_UCS2 ∧
  alphabet (sms_pdu_decode_dcs 200) = SMS_ALPHABET_7_BIT_DEFAULT ∧
  dcs_ranges (sms_pdu_decode_dcs 200) = true.
Proof. split; [reflexivity|]. split; [reflexivity|]. apply (sms_dcs_spec 200). by split. Defined.

Lemma cbs_pdu_to_msg_spec_witness :
  cbs_pdu_to_msg (replicate 87 0) 88 87 = Bad.
Proof.
  apply (cbs_pdu_to_msg_spec (replicate 87 0) 88); [|by intros [H _]].
  apply Forall_replicate. by split.
Defined.
