(* ===== verification/SmsText.v ===== *)
(** * SMS text and addresses on the client side (src/target/gsm/src/libgsmd/libgsmd_sms.c)

    Packing of text into septets and back, and the conversion of a dialled
    number into an address. *)

From S2P Require Import Prelude CString Enums Wire.

Definition LGSM_SMS_DATA_MAXLEN : nat := 140.
Definition LGSM_DATA_SIZE : nat := LGSM_SMS_DATA_MAXLEN + 1.

(** ** Packing

    [pack_loop src i shift out] is the loop from index [i] on, with [src] the
    rest of the string from there (the character after the last one is NUL) and
    [out] the octets written.  The test [j > sizeof(dest->data)] admits one octet
    more than the array has. *)

Definition pack_octet (shift c1 c2 : Z) : Z :=
  u8 (Z.lor (Z.shiftr (Z.land c1 127) shift) (u8 (Z.shiftl (Z.land c2 127) (7 - shift)))).

Definition next_char (src : list Z) : Z := default 0 (head src).

Fixpoint pack_loop (src : list Z) (i shift : Z) (out : list Z) : list Z * Z :=
  match src with
  | [] => (out, i)
  | c :: rest =>
      if (LGSM_DATA_SIZE <? length out)%nat then (out, i)
      else
        let out := out ++ [pack_octet shift c (next_char rest)] in
        if shift + 1 =? 7 then
          match rest with
          | [] => (out, i + 2)
          | _ :: rest' => pack_loop rest' (i + 2) 0 out
          end
        else pack_loop rest (i + 1) (shift + 1) out
  end.

(** The data written and [dest->length]; the number of octets is returned. *)
Definition packing_7bit_character (src : list Z) : list Z * Z := pack_loop src 0 0 [].

(** ** Unpacking *)

(** Septet [i] of packed data; [None] past the end of the array. *)
Definition septet (data : list Z) (i : Z) : option Z :=
  hi ← data !! Z.to_nat (Z.shiftr (i * 7 + 7) 3);
  lo ← data !! Z.to_nat (Z.shiftr (i * 7) 3);
  Some (Z.land (Z.lor (Z.shiftl hi (7 - Z.land (i * 7 + 7) 7))
                      (Z.shiftr lo (Z.land (i * 7) 7))) 127).

(** [data] is the whole array of the message; the result is the characters
    stored, of which the return value is the number. *)
Definition unpacking_7bit_character (has_header : bool) (length : Z) (data : list Z)
    : option (list Z) :=
  l ← (if has_header then udhl ← data !! 0%nat; Some (Z.quot (Z.shiftl udhl 3 + 14) 7)
       else Some 0);
  mapM (septet data) (seqZ l (length - l)).

(** Cell broadcast: up to 93 characters, stopping after a NUL. *)
Fixpoint cbm_loop (fuel : nat) (src : list Z) (i : Z) : option (list Z) :=
  match fuel with
  | O => Some []
  | S f =>
      c ← septet src i;
      if c =? 0 then Some [c] else r ← cbm_loop f src (i + 1); Some (c :: r)
  end.

Definition cbm_unpacking_7bit_character (src : list Z) : option (list Z) := cbm_loop 93 src 0.

(** ** Addresses *)

Definition GSMD_TOA_NPI_ISDN : Z := 1.
Definition GSMD_TOA_RESERVED : Z := 128.

(** The address after the call (the C string in [number]) and the result: 0, or
    1 for a number that is too long or has a character that is not a digit. *)
Definition lgsm_number2addr (dst : gsmd_addr) (src : list Z) (skipplus : bool)
    : option (gsmd_addr * Z) :=
  if (GSMD_ADDR_MAXLEN + 1 <? length src + 1)%nat then Some (dst, 1)
  else
    let plus := bool_decide (head src = Some (ch "+")) in
    let ton := if plus then GSMD_TOA_TON_INTERNATIONAL else GSMD_TOA_TON_UNKNOWN in
    let number := if plus && skipplus then drop 1 src else src in
    m ← strcpy (addr_number dst) number;
    Some (Addr (Some (Z.lor (Z.lor GSMD_TOA_NPI_ISDN ton) GSMD_TOA_RESERVED)) m,
          if forallb isdigit number then 0 else 1).

Example pack_ex1 : packing_7bit_character (b "hello") = ([232; 50; 155; 253; 6], 5).
Proof. vm_compute. reflexivity. Qed.

(** ** Facts about septets *)

Definition char7 (c : Z) : Prop := 0 ≤ c < 128.

Lemma char7_mask c : char7 c → Z.land c 127 = c.
Proof. unfold char7. intros H. change 127 with (Z.ones 7). rewrite Z.land_ones by lia. by apply Z.mod_small. Qed.

(** An octet holds the high bits of one character and the low bits of the next. *)
Lemma pack_octet_hi r c d : 0 ≤ r < 7 → char7 c → char7 d →
  Z.land (Z.shiftl (pack_octet r c d) r) 127 = Z.shiftl (Z.shiftr c r) r.
Proof.
  intros Hr Hc Hd.
  by_bytes r 7 (λ r, below 128 (λ c, below 128 (λ d,
    Z.land (Z.shiftl (pack_octet r c d) r) 127 =? Z.shiftl (Z.shiftr c r) r))).
  apply (below_spec _ _ c) in H; [|done]. apply (below_spec _ _ d) in H; [|done].
  by apply Z.eqb_eq.
Qed.

Lemma pack_octet_lo r c d : 0 ≤ r < 7 → char7 c → char7 d →
  Z.shiftr (pack_octet r c d) (7 - r) = d mod 2 ^ (r + 1).
Proof.
  intros Hr Hc Hd.
  by_bytes r 7 (λ r, below 128 (λ c, below 128 (λ d,
    Z.shiftr (pack_octet r c d) (7 - r) =? d mod 2 ^ (r + 1)))).
  apply (below_spec _ _ c) in H; [|done]. apply (below_spec _ _ d) in H; [|done].
  by apply Z.eqb_eq.
Qed.

Lemma char7_halves r c : 0 ≤ r ≤ 7 → char7 c →
  Z.lor (Z.shiftl (Z.shiftr c r) r) (Z.land (c mod 2 ^ r) 127) = c.
Proof.
  intros Hr Hc.
  by_bytes r 8 (λ r, below 128 (λ c,
    Z.lor (Z.shiftl (Z.shiftr c r) r) (Z.land (c mod 2 ^ r) 127) =? c)).
  apply (below_spec _ _ c) in H; [|done]. by apply Z.eqb_eq.
Qed.

(** Eight characters on, seven octets on. *)
Lemma septet_shift g data i : length g = 7%nat → 0 ≤ i →
  septet (g ++ data) (8 + i) = septet data i.
Proof.
  intros Hg Hi. unfold septet.
  assert (∀ k, 0 ≤ k → (g ++ data) !! Z.to_nat (7 + k) = data !! Z.to_nat k) as Hl.
  { intros k Hk. rewrite lookup_app_r by lia. f_equal. lia. }
  rewrite !Z.shiftr_div_pow2 by lia. change (2 ^ 3) with 8.
  replace (((8 + i) * 7 + 7) / 8) with (7 + (i * 7 + 7) / 8) by zdiv.
  replace (((8 + i) * 7) / 8) with (7 + (i * 7) / 8) by zdiv.
  rewrite !Hl by zdiv.
  assert (∀ x, Z.land (x + 56) 7 = Z.land x 7) as Hm.
  { intros x. change 7 with (Z.ones 3). rewrite !Z.land_ones by lia. change (2 ^ 3) with 8. zdiv. }
  replace ((8 + i) * 7 + 7) with (i * 7 + 7 + 56) by lia.
  replace ((8 + i) * 7) with (i * 7 + 56) by lia. by rewrite !Hm.
Qed.

(** Septet [r] of a group from the octets on its two sides. *)
Lemma septet_inside data r p c d : 0 < r < 7 → char7 p → char7 c → char7 d →
  data !! Z.to_nat (r - 1) = Some (pack_octet (r - 1) p c) →
  data !! Z.to_nat r = Some (pack_octet r c d) → septet data r = Some c.
Proof.
  intros Hr Hp Hc Hd E1 E2. unfold septet.
  assert (Z.shiftr (r * 7 + 7) 3 = r ∧ Z.shiftr (r * 7) 3 = r - 1) as [-> ->]
    by (rewrite !Z.shiftr_div_pow2 by lia; change (2 ^ 3) with 8; zdiv).
  assert (Z.land (r * 7 + 7) 7 = 7 - r ∧ Z.land (r * 7) 7 = 8 - r) as [-> ->].
  { change 7 with (Z.ones 3) at 3 6. rewrite !Z.land_ones by lia. change (2 ^ 3) with 8. zdiv. }
  rewrite E1, E2. cbn [mbind option_bind]. f_equal.
  rewrite Z.land_lor_distr_l. replace (7 - (7 - r)) with r by lia.
  rewrite pack_octet_hi by (done || lia).
  replace (8 - r) with (7 - (r - 1)) by lia. rewrite pack_octet_lo by (done || lia).
  replace (r - 1 + 1) with r by lia.
  by apply char7_halves; [lia|].
Qed.

Lemma septet_first data c d : char7 c → char7 d →
  data !! 0%nat = Some (pack_octet 0 c d) → septet data 0 = Some c.
Proof.
  intros Hc Hd E. unfold septet. change (Z.to_nat (Z.shiftr (0 * 7 + 7) 3)) with 0%nat.
  change (Z.to_nat (Z.shiftr (0 * 7) 3)) with 0%nat. rewrite E. cbn [mbind option_bind]. f_equal.
  unfold char7 in *.
  by_bytes c 128 (λ c, below 128 (λ d,
    let o := pack_octet 0 c d in
    Z.land (Z.lor (Z.shiftl o (7 - Z.land (0 * 7 + 7) 7)) (Z.shiftr o (Z.land (0 * 7) 7))) 127 =? c)).
  apply (below_spec _ _ d) in H; [|done]. by apply Z.eqb_eq.
Qed.

Lemma septet_last data b0 c d : char7 b0 → char7 c →
  data !! 6%nat = Some (pack_octet 6 b0 c) → data !! 7%nat = Some d → septet data 7 = Some c.
Proof.
  intros Hb Hc E1 E2. unfold septet. change (Z.to_nat (Z.shiftr (7 * 7 + 7) 3)) with 7%nat.
  change (Z.to_nat (Z.shiftr (7 * 7) 3)) with 6%nat. rewrite E1, E2. cbn [mbind option_bind]. f_equal.
  change (7 - Z.land (7 * 7 + 7) 7) with 7. change (Z.land (7 * 7) 7) with (7 - 6).
  rewrite Z.land_lor_distr_l, pack_octet_lo by (done || lia).
  change 127 with (Z.ones 7) at 1. rewrite Z.land_ones, Z.shiftl_mul_pow2 by lia.
  rewrite Z.mod_mul by lia. unfold char7 in Hc. rewrite (Z.mod_small c) by (cbn; lia).
  by apply char7_mask.
Qed.

(** ** The octets of a packed string *)

Fixpoint octets (shift : Z) (src : list Z) : list Z :=
  match src with
  | [] => []
  | c :: rest =>
      pack_octet shift c (next_char rest) ::
      (if shift + 1 =? 7 then match rest with [] => [] | _ :: rest' => octets 0 rest' end
       else octets (shift + 1) rest)
  end.

(** What is really packed: a text whose length is 7 modulo 8 gets a NUL. *)
Definition padded (src : list Z) : list Z :=
  if Z.of_nat (length src) mod 8 =? 7 then src ++ [0] else src.

(** Seven octets hold eight characters. *)
Lemma octets_size shift src : 0 ≤ shift < 7 →
  Z.of_nat (length (octets shift src)) = (7 * Z.of_nat (length src) + 7 - shift) / 8.
Proof.
  revert shift. induction src as [src IH] using (induction_ltof1 _ length); intros shift Hs.
  destruct src as [|c rest]; cbn [octets length]; [zdiv|]. unfold ltof in IH.
  destruct (Z.eqb_spec (shift + 1) 7).
  - destruct rest as [|d rest']; cbn [length]; [zdiv|].
    specialize (IH rest' ltac:(cbn; lia) 0). zdiv.
  - specialize (IH rest ltac:(cbn; lia) (shift + 1)). zdiv.
Qed.

Lemma pack_loop_octets src i shift out :
  (length out + length (octets shift src) ≤ LGSM_DATA_SIZE + 1)%nat →
  (pack_loop src i shift out).1 = out ++ octets shift src.
Proof.
  revert i shift out. induction src as [src IH] using (induction_ltof1 _ length); intros i shift out Hl.
  destruct src as [|c rest]; cbn [pack_loop octets]; [by rewrite app_nil_r|].
  cbn [octets length] in Hl. destruct (Nat.ltb_spec LGSM_DATA_SIZE (length out)); [lia|].
  unfold ltof in IH. destruct (shift + 1 =? 7).
  - destruct rest as [|d rest']; [done|].
    rewrite IH by (rewrite ?length_app; cbn in *; lia). by rewrite <- app_assoc.
  - rewrite IH by (rewrite ?length_app; cbn in *; lia). by rewrite <- app_assoc.
Qed.

(** The octet a character starts in. *)
Lemma octets_at shift src k c : 0 ≤ shift → shift + Z.of_nat k < 7 → src !! k = Some c →
  octets shift src !! k = Some (pack_octet (shift + Z.of_nat k) c (next_char (drop (S k) src))).
Proof.
  revert shift src. induction k as [|k IH]; intros shift src H0 Hk Hc;
    destruct src as [|x rest]; try done.
  - injection Hc as ->. cbn [octets]. rewrite Z.add_0_r. rewrite skipn_cons, drop_0. done.
  - cbn [octets]. destruct (Z.eqb_spec (shift + 1) 7); [lia|].
    change ((?y :: ?l) !! S k) with (l !! k). rewrite (IH (shift + 1) rest) by (done || lia).
    rewrite skipn_cons. do 2 f_equal. lia.
Qed.

Lemma octets_group src : (8 ≤ length src)%nat →
  ∃ g, octets 0 src = g ++ octets 0 (drop 8 src) ∧ length g = 7%nat.
Proof.
  intros H. destruct src as [|c0 [|c1 [|c2 [|c3 [|c4 [|c5 [|c6 [|c7 rest]]]]]]]]; cbn in H; try lia.
  by exists (take 7 (octets 0 [c0; c1; c2; c3; c4; c5; c6; c7])).
Qed.

Lemma next_char7 k src : Forall char7 src → char7 (next_char (drop k src)).
Proof.
  intros Hs. apply (Forall_drop _ k) in Hs. unfold next_char.
  destruct (drop k src); cbn; [by split|]. by apply Forall_cons in Hs as [].
Qed.

Lemma next_char_lookup k src c : src !! k = Some c → next_char (drop k src) = c.
Proof. intros H. unfold next_char. by rewrite (drop_S _ _ _ H). Qed.

Lemma septet_octets src tail i c : Forall char7 src → tail ≠ [] → src !! i = Some c →
  septet (octets 0 src ++ tail) (Z.of_nat i) = Some c.
Proof.
  intros Hs Ht. revert src Hs. induction i as [i IH] using lt_wf_ind; intros src Hs Hi.
  assert (char7 c) as Hc by (by eapply Forall_lookup_1).
  pose proof (lookup_lt_Some _ _ _ Hi) as Hlt.
  destruct (decide (i < 8)%nat) as [Hi8|Hi8].
  - assert (∀ k x, (k < 7)%nat → src !! k = Some x → (octets 0 src ++ tail) !! k =
      Some (pack_octet (Z.of_nat k) x (next_char (drop (S k) src)))) as Hat.
    { intros k x Hk Hx. apply lookup_app_l_Some. by apply octets_at; [lia..|]. }
    destruct (decide (i = 0)%nat) as [->|].
    { eapply septet_first; [done| |by apply Hat; [lia|]]. by apply next_char7. }
    destruct (lookup_lt_is_Some_2 src (i - 1)) as [p Hp]; [lia|].
    pose proof (Hat (i - 1)%nat p ltac:(lia) Hp) as Hprev. replace (S (i - 1)) with i in Hprev by lia.
    rewrite (next_char_lookup _ _ _ Hi) in Hprev.
    assert (char7 p) by (by eapply Forall_lookup_1).
    destruct (decide (i = 7)%nat) as [->|].
    + destruct (octets_group src) as (g & E & Hg); [lia|]. rewrite E in *.
      destruct (lookup_lt_is_Some_2 ((g ++ octets 0 (drop 8 src)) ++ tail) 7) as [d Hd].
      { rewrite !length_app. destruct tail; [done|]. cbn. lia. }
      by eapply septet_last.
    + apply (septet_inside _ _ p c (next_char (drop (S i) src)));
        [lia|done|done|by apply next_char7| |].
      * replace (Z.of_nat i - 1) with (Z.of_nat (i - 1)) by lia. by rewrite Nat2Z.id.
      * rewrite Nat2Z.id. apply Hat; [lia|done].
  - destruct (octets_group src) as (g & -> & Hg); [lia|]. rewrite <- app_assoc.
    replace (Z.of_nat i) with (8 + Z.of_nat (i - 8)) by lia.
    rewrite septet_shift by (done || lia).
    apply IH; [lia|by apply Forall_drop|]. rewrite lookup_drop, <- Hi. f_equal. lia.
Qed.

Lemma pack_loop_length src i shift out : 0 ≤ shift < 7 →
  (length out + length (octets shift src) ≤ LGSM_DATA_SIZE + 1)%nat →
  (pack_loop src i shift out).2 =
  i + Z.of_nat (length src) + (if (Z.of_nat (length src) + shift) mod 8 =? 7 then 1 else 0).
Proof.
  revert i shift out. induction src as [src IH] using (induction_ltof1 _ length); intros i shift out Hs Hl.
  destruct src as [|c rest]; cbn [pack_loop].
  { cbn [length snd]. rewrite (Z.mod_small (Z.of_nat 0 + shift)) by lia.
    destruct (Z.eqb_spec (Z.of_nat 0 + shift) 7); lia. }
  cbn [octets length] in *. destruct (Nat.ltb_spec LGSM_DATA_SIZE (length out)); [lia|].
  unfold ltof in IH. destruct (Z.eqb_spec (shift + 1) 7).
  - replace shift with 6 by lia. destruct rest as [|d rest'].
    + cbn [snd length]. change ((Z.of_nat 1 + 6) mod 8 =? 7) with true. cbn iota. lia.
    + cbn [length] in *. rewrite IH by (rewrite ?length_app; cbn [length]; lia).
      replace (Z.of_nat (S (S (length rest'))) + 6) with (Z.of_nat (length rest') + 0 + 1 * 8) by lia.
      rewrite Z_mod_plus by lia. lia.
  - rewrite IH by (rewrite ?length_app; cbn [length]; lia).
    replace (Z.of_nat (S (length rest)) + shift) with (Z.of_nat (length rest) + (shift + 1)) by lia. lia.
Qed.

Lemma octets_nul shift src : 0 ≤ shift < 7 →
  (Z.of_nat (length src) + shift) mod 8 = 7 → octets shift (src ++ [0]) = octets shift src.
Proof.
  revert shift. induction src as [src IH] using (induction_ltof1 _ length); intros shift Hs Hm.
  destruct src as [|c rest]; [cbn [length] in Hm; zdiv|]. unfold ltof in IH. cbn [app octets].
  assert (next_char (rest ++ [0]) = next_char rest) as -> by by destruct rest.
  f_equal. destruct (Z.eqb_spec (shift + 1) 7).
  - destruct rest as [|d rest']; [done|]. cbn [app]. apply IH; [cbn; lia|lia|].
    cbn [length] in Hm. zdiv.
  - apply IH; [cbn; lia|lia|]. cbn [length] in Hm. rewrite <- Hm. f_equal. lia.
Qed.

Lemma octets_padded src : octets 0 (padded src) = octets 0 src.
Proof.
  unfold padded. destruct (Z.eqb_spec (Z.of_nat (length src) mod 8) 7); [|done].
  apply octets_nul; [lia|]. by rewrite Z.add_0_r.
Qed.

Lemma mapM_lookup {A} (f : Z → option A) l (r : list A) :
  Forall2 (λ x y, f x = Some y) l r → mapM f l = Some r.
Proof. intros H. apply mapM_Some. done. Qed.

Lemma packing_run src : (length src ≤ 160)%nat →
  packing_7bit_character src = (octets 0 src, Z.of_nat (length (padded src))) ∧
  (length (octets 0 src) ≤ LGSM_SMS_DATA_MAXLEN)%nat.
Proof.
  intros Hl. pose proof (octets_size 0 src ltac:(lia)) as Hsize. unfold packing_7bit_character.
  assert (length (octets 0 src) ≤ LGSM_SMS_DATA_MAXLEN)%nat as Hmax by (unfold LGSM_SMS_DATA_MAXLEN; zdiv).
  split; [|done].
  pose proof (pack_loop_octets src 0 0 [] ltac:(cbn [length]; unfold LGSM_DATA_SIZE; lia)) as E1.
  pose proof (pack_loop_length src 0 0 [] ltac:(lia) ltac:(cbn [length]; unfold LGSM_DATA_SIZE; lia)) as E2.
  destruct (pack_loop src 0 0 []) as [data len]. cbn [fst snd app] in E1, E2. subst data len. f_equal.
  unfold padded. rewrite Z.add_0_r. destruct (_ =? 7); [rewrite length_app; cbn [length]|]; lia.
Qed.

Lemma unpacking_octets src tail : Forall char7 src → tail ≠ [] →
  unpacking_7bit_character false (Z.of_nat (length (padded src))) (octets 0 src ++ tail) = Some (padded src).
Proof.
  intros Hs Ht. unfold unpacking_7bit_character. cbn [mbind option_bind].
  apply mapM_lookup, Forall2_same_length_lookup. split; [rewrite length_seqZ; lia|].
  intros i x c [-> Hi]%lookup_seqZ Hc. rewrite <- octets_padded, Z.add_0_l.
  apply septet_octets; [|done|done]. unfold padded.
  destruct (Z.of_nat (length src) mod 8 =? 7); [|exact Hs].
  apply Forall_app. split; [done|]. by repeat constructor.
Qed.

(** ** Properties *)

(** Round trip: a text of at most 160 seven-bit characters, as a short message
    holds, is packed into at most 140 octets, and read back from an array with room
    to spare it unpacks to itself, except that a text whose length is 7 modulo 8 is
    sent with one NUL (an at sign in the GSM alphabet) after it. *)
Theorem pack_unpack_roundtrip src tail : Forall char7 src → tail ≠ [] →
  (length src ≤ 160)%nat →
  let '(data, len) := packing_7bit_character src in
  len = Z.of_nat (length (padded src)) ∧ (length data ≤ LGSM_SMS_DATA_MAXLEN)%nat ∧
  unpacking_7bit_character false len (data ++ tail) = Some (padded src).
Proof.
  intros Hs Ht Hl. destruct (packing_run src Hl) as [-> Hmax]. split_and!; [done|done|].
  by apply unpacking_octets.
Qed.

(** The address of a number: accepted exactly when it fits and, after the plus
    sign the caller skips, has only digits; an international number is accepted
    only by a caller that skips the plus sign. *)
Theorem lgsm_number2addr_spec dst src skipplus :
  length (addr_number dst) = (GSMD_ADDR_MAXLEN + 1)%nat →
  ∃ dst' rc, lgsm_number2addr dst src skipplus = Some (dst', rc) ∧
    (rc = 0 ↔ (length src ≤ GSMD_ADDR_MAXLEN)%nat ∧
       if bool_decide (head src = Some (ch "+"))
       then skipplus = true ∧ forallb isdigit (drop 1 src) = true
       else forallb isdigit src = true).
Proof.
  intros Hd. unfold lgsm_number2addr.
  destruct (Nat.ltb_spec (GSMD_ADDR_MAXLEN + 1) (length src + 1)).
  { do 2 eexists. split; [done|]. split; [done|lia]. }
  assert (∀ t, (length t ≤ length src)%nat → ∃ m, strcpy (addr_number dst) t = Some m) as Hcpy.
  { intros t Ht. unfold strcpy. rewrite Hd. destruct (Nat.ltb_spec (length t) (GSMD_ADDR_MAXLEN + 1)); [eauto|lia]. }
  set (number := if _ && _ then _ else _).
  destruct (Hcpy number) as [m Em].
  { unfold number. case_match; [rewrite length_drop; lia | lia]. }
  rewrite Em. do 2 eexists. split; [done|].
  unfold number. destruct (bool_decide_reflect (head src = Some (ch "+"))) as [Hh|Hh]; cbn [andb].
  - destruct skipplus.
    + destruct (forallb isdigit (drop 1 src)).
      * split; [intros _; split; [lia|done] | done].
      * split; [done | by intros (_ & _ & [=])].
    + destruct src as [|c src]; [done|]. injection Hh as ->.
      split; [intros [=] | by intros (_ & [=] & _)].
  - destruct (forallb isdigit src).
    + split; [intros _; split; [lia|done] | done].
    + split; [done | by intros [_ [=]]].
Qed.

(** ** The theorems at work *)

Lemma pack_unpack_roundtrip_witness :
  unpacking_7bit_character false 5 ([232; 50; 155; 253; 6] ++ [0]) = Some (b "hello").
Proof.
  apply (pack_unpack_roundtrip (b "hello") [0]);
    [by repeat constructor | done | apply Nat.leb_le; reflexivity].
Defined.

Lemma lgsm_number2addr_spec_witness :
  ∃ dst' rc, lgsm_number2addr addr_undef (b "+4930") false = Some (dst', rc) ∧
    (rc = 0 ↔ (5 ≤ 32)%nat ∧ false = true ∧ forallb isdigit (b "4930") = true).
Proof. apply (lgsm_number2addr_spec addr_undef (b "+4930") false). reflexivity. Defined.
