(* ===== verification/Timers.v ===== *)
(** * Timers (src/target/gsm/src/gsmd/timer.c)

    One list of timers with absolute expiry times, and one interval timer of the
    kernel that is set to the earliest of them.  The program whose timers these
    are is a state type with the class [TimerHost]. *)

From S2P Require Import Prelude.

(** ** Times *)

Record timeval : Type := TV { tv_sec : Z; tv_usec : Z }.

#[export] Instance timeval_eq_dec : EqDecision timeval.
Proof. solve_decision. Defined.

(** The loop that carries a negative [tv_usec]; one round per second borrowed. *)
Fixpoint tv_carry (fuel : nat) (t : timeval) : timeval :=
  match fuel with
  | O => t
  | S f =>
      if tv_usec t <? 0 then tv_carry f (TV (tv_sec t - 1) (tv_usec t + 1000000)) else t
  end.

Definition tv_fuel (usec : Z) : nat := Z.to_nat (1 + Z.max 0 (- usec)).

Definition tv_sub (from sub : timeval) : timeval :=
  let t := TV (tv_sec from - tv_sec sub) (tv_usec from - tv_usec sub) in
  tv_carry (tv_fuel (tv_usec t)) t.

Definition tv_later (expires now : timeval) : bool :=
  if tv_sec expires <? tv_sec now then false
  else if tv_sec now <? tv_sec expires then true
  else tv_usec now <=? tv_usec expires.

Definition tv_smaller (t1 t2 : timeval) : bool := tv_later t2 t1.

(** A time in microseconds, and the times the kernel gives and accepts. *)
Definition usecs (t : timeval) : Z := tv_sec t * 1000000 + tv_usec t.
Definition tv_normal (t : timeval) : Prop := 0 ≤ tv_usec t < 1000000.

(** ** Timers *)

Record gsmd_timer (C : Type) : Type := Timer {
  tmr_ref : Z;                (* its address *)
  tmr_expires : timeval;
  tmr_cb : C }.
Arguments Timer {C} tmr_ref tmr_expires tmr_cb.
Arguments tmr_ref {C} g.
Arguments tmr_expires {C} g.
Arguments tmr_cb {C} g.

(** The kernel's interval timer: armed with the time it will go off, or not.  A
    value of zero disarms it; a value out of range is refused. *)
Definition setitimer (now value : timeval) (it : option timeval) : option timeval * Z :=
  if (tv_sec value <? 0) || (tv_usec value <? 0) || (1000000 <=? tv_usec value)
  then (it, -1)
  else if (tv_sec value =? 0) && (tv_usec value =? 0) then (None, 0)
  else (Some (TV (tv_sec now + tv_sec value) (tv_usec now + tv_usec value)), 0).

Class TimerStore (W C : Type) := {
  timers : W → list (gsmd_timer C);
  set_timers : list (gsmd_timer C) → W → W;
  itimer : W → option timeval;
  set_itimer : option timeval → W → W;
  now : W → timeval;
  fresh : M W Z;                               (* an address talloc returns *)
  talloc_ok : M W bool                         (* does the next talloc succeed *)
}.

(** The callbacks of the timers. *)
Class TimerHost (W C : Type) `{TimerStore W C} :=
  run_timer : gsmd_timer C → M W unit.         (* (cur->cb)(cur, cur->data) *)

Section ops.
Context {W C : Type} `{TimerStore W C}.
Implicit Types (s : W).

(** The minimum, taken over the list from its first entry on. *)
Definition min_expiry (l : list (gsmd_timer C)) : option timeval :=
  match l with
  | [] => None
  | t :: l' =>
      Some (foldl (λ m u, if tv_smaller (tmr_expires u) m then tmr_expires u else m)
                  (tmr_expires t) l')
  end.

(** [tv_sub] never returns a negative number, so the retry is never taken. *)
Definition calc_next_expiration : M W Z :=
  s ← get;
  match min_expiry (timers s) with
  | None => mret 0
  | Some m =>
      let diff := tv_sub m (now s) in
      let '(it, ret) := setitimer (now s) diff (itimer s) in
      modify (set_itimer it);;
      mret (if ret <? 0 then ret else 0)
  end.

Definition has_ref (r : Z) (t : gsmd_timer C) : bool := tmr_ref t =? r.

Definition gsmd_timer_register (t : gsmd_timer C) : M W Z :=
  s ← get;
  let e := TV (tv_sec (tmr_expires t) + tv_sec (now s)) (tv_usec (tmr_expires t) + tv_usec (now s)) in
  modify (set_timers (timers s ++ [Timer (tmr_ref t) e (tmr_cb t)]));;
  calc_next_expiration;;
  mret 0.

(** The address of the new timer, or NULL. *)
Definition gsmd_timer_create (expires : timeval) (cb : C) : M W (option Z) :=
  ok ← talloc_ok;
  if ok : bool then
    r ← fresh;
    rc ← gsmd_timer_register (Timer r expires cb);
    mret (if rc <? 0 then None else Some r)
  else mret None.

(** [llist_del] of an entry that is not in the list follows poisoned or freed
    pointers. *)
Definition unlink_timer (r : Z) : M W unit :=
  s ← get;
  must (existsb (has_ref r) (timers s)) "llist_del of a timer that is not registered";;
  modify (set_timers (filter (λ t, has_ref r t = false) (timers s))).

Definition gsmd_timer_unregister (r : Z) : M W unit :=
  unlink_timer r;;
  calc_next_expiration;;
  mret tt.

(** The entry after [r], as [llist_for_each_entry_safe] saves it before the body. *)
Fixpoint after (r : Z) (l : list (gsmd_timer C)) : option (gsmd_timer C) :=
  match l with
  | [] => None
  | t :: l' => if has_ref r t then head l' else after r l'
  end.

End ops.

Section run.
Context {W C : Type} `{TimerHost W C}.

(** The traversal from [cur] on.  A saved next entry that has left the list
    while the callback ran is a dangling pointer. *)
Fixpoint run_from (fuel : nat) (now0 : timeval) (cur : option Z) : M W unit :=
  match fuel, cur with
  | _, None => mret tt
  | O, Some _ => undefined "out of fuel"
  | S f, Some r =>
      s ← get;
      t ← deref (find (has_ref r) (timers s)) "the next timer was removed by a callback";
      let next := tmr_ref <$> after r (timers s) in
      (if tv_later now0 (tmr_expires t)
       then unlink_timer r;; run_timer t
       else mret tt);;
      run_from f now0 next
  end.

Definition gsmd_timer_check_n_run (fuel : nat) : M W unit :=
  s ← get;
  run_from fuel (now s) (tmr_ref <$> head (timers s));;
  calc_next_expiration;;
  mret tt.
End run.

(** ** Facts *)

Lemma tv_carry_usecs fuel t : usecs (tv_carry fuel t) = usecs t.
Proof.
  revert t. induction fuel as [|f IH]; intros t; [done|]. cbn [tv_carry].
  destruct (tv_usec t <? 0); [|done]. rewrite IH. unfold usecs. cbn. lia.
Qed.

Lemma tv_carry_usec fuel t : - tv_usec t < Z.of_nat fuel →
  0 ≤ tv_usec (tv_carry fuel t) ≤ Z.max 999999 (tv_usec t).
Proof.
  revert t. induction fuel as [|f IH]; intros t Hf; cbn [tv_carry]; [lia|].
  destruct (Z.ltb_spec (tv_usec t) 0); [|lia].
  specialize (IH (TV (tv_sec t - 1) (tv_usec t + 1000000))). cbn in IH. lia.
Qed.

Lemma tv_later_usecs a b : tv_normal a → tv_normal b → tv_later a b = true ↔ usecs b ≤ usecs a.
Proof.
  unfold tv_normal, tv_later, usecs. intros Ha Hb.
  destruct (Z.ltb_spec (tv_sec a) (tv_sec b)); [split; [done|lia]|].
  destruct (Z.ltb_spec (tv_sec b) (tv_sec a)); [split; [lia|done]|].
  rewrite Z.leb_le. lia.
Qed.

Lemma min_expiry_spec {C} (l : list (gsmd_timer C)) m :
  Forall (λ t, tv_normal (tmr_expires t)) l → min_expiry l = Some m →
  tv_normal m ∧ (∃ t, t ∈ l ∧ tmr_expires t = m) ∧ ∀ t, t ∈ l → usecs m ≤ usecs (tmr_expires t).
Proof.
  destruct l as [|t0 l]; [done|]. cbn [min_expiry]. intros [H0 Hl]%Forall_cons [= <-].
  cut (∀ (l : list (gsmd_timer C)) m0, Forall (λ t, tv_normal (tmr_expires t)) l → tv_normal m0 →
    let m := foldl (λ m u, if tv_smaller (tmr_expires u) m then tmr_expires u else m) m0 l in
    tv_normal m ∧ (m = m0 ∨ ∃ t, t ∈ l ∧ tmr_expires t = m) ∧ usecs m ≤ usecs m0 ∧
    ∀ t, t ∈ l → usecs m ≤ usecs (tmr_expires t)).
  { intros H. destruct (H l _ Hl H0) as (Hn & Hin & Hle & Hmin). split; [done|]. split.
    - destruct Hin as [E|(t & Ht & E)]; [exists t0 | exists t]; (split; [|congruence]); by constructor.
    - intros t [->|Ht]%elem_of_cons; [done|]. by apply Hmin. }
  clear. intros l. induction l as [|u l IH]; intros m0 Hl H0; cbn [foldl].
  { split; [done|]. split; [by left|]. split; [lia|]. intros t Ht. by apply not_elem_of_nil in Ht. }
  apply Forall_cons in Hl as [Hu Hl].
  destruct (tv_smaller (tmr_expires u) m0) eqn:E.
  - apply tv_later_usecs in E; [|done..].
    destruct (IH (tmr_expires u) Hl Hu) as (Hn & Hin & Hle & Hmin). split; [done|]. split; [|split; [lia|]].
    + right. destruct Hin as [E'|(t & Ht & E')]; [exists u|exists t]; (split; [|done]); by constructor.
    + intros t [->|Ht]%elem_of_cons; [done|by apply Hmin].
  - assert (¬ usecs (tmr_expires u) ≤ usecs m0) as Hnle
      by (intros Hc; apply (tv_later_usecs m0) in Hc; [unfold tv_smaller in E; congruence|done..]).
    destruct (IH m0 Hl H0) as (Hn & Hin & Hle & Hmin). split; [done|]. split; [|split; [lia|]].
    + destruct Hin as [?|(t & Ht & E')]; [by left|right; exists t; split; [by right|done]].
    + intros t [->|Ht]%elem_of_cons; [lia|by apply Hmin].
Qed.

(** ** What the timers rely on *)

Definition expired (now0 : timeval) {C} (t : gsmd_timer C) : bool := tv_later now0 (tmr_expires t).

Definition refs {W C} `{TimerStore W C} (s : W) : list Z := tmr_ref <$> timers s.

(** A callback, run when its timer has left the list, may add one timer, which is
    not due yet. *)
Definition cb_rel {W C} `{TimerStore W C} (s s' : W) : Prop :=
  ∃ l, timers s' = timers s ++ l ∧ (length l ≤ 1)%nat ∧
       Forall (λ t, expired (now s) t = false) l ∧ now s' = now s ∧
       (NoDup (refs s) → NoDup (refs s')).

Class TimerHostLaws (W C : Type) `{TimerHost W C} : Prop := {
  timers_set l s : timers (set_timers l s) = l;
  now_set l s : now (set_timers l s) = now s;
  set_timers_twice l l' s : set_timers l (set_timers l' s) = set_timers l s;
  run_timer_rel t s a s' : tmr_ref t ∉ refs s → run_timer t s = Ret a s' → cb_rel s s'
}.

Section theory.
Context {W C : Type} `{TimerHostLaws W C}.
Implicit Types (s : W) (t : gsmd_timer C).

(** Specification of a check: the callbacks of a list of timers, in order, each
    after its timer left the list. *)
Fixpoint fire_all (l : list (gsmd_timer C)) : M W unit :=
  match l with
  | [] => mret tt
  | t :: l' => unlink_timer (tmr_ref t);; run_timer t;; fire_all l'
  end.

Lemma has_ref_false r (l : list (gsmd_timer C)) : r ∉ (tmr_ref <$> l) →
  Forall (λ t, has_ref r t = false) l.
Proof.
  intros Hr. apply Forall_forall. intros t Ht. unfold has_ref. apply Z.eqb_neq.
  intros <-. apply Hr. by apply list_elem_of_fmap_2.
Qed.

Lemma find_skip r (l l' : list (gsmd_timer C)) : Forall (λ t, has_ref r t = false) l →
  find (has_ref r) (l ++ l') = find (has_ref r) l' ∧ after r (l ++ l') = after r l' ∧
  existsb (has_ref r) (l ++ l') = existsb (has_ref r) l' ∧
  filter (λ t, has_ref r t = false) (l ++ l') = l ++ filter (λ t, has_ref r t = false) l'.
Proof.
  induction 1 as [|t l Ht _ IH]; [done|]. destruct IH as (E1 & E2 & E3 & E4).
  rewrite <- app_comm_cons, filter_cons_True, E4 by done. cbn. by rewrite Ht.
Qed.

Lemma NoDup_split (l l' : list (gsmd_timer C)) t : NoDup (tmr_ref <$> (l ++ t :: l')) →
  Forall (λ u, has_ref (tmr_ref t) u = false) l ∧ Forall (λ u, has_ref (tmr_ref t) u = false) l' ∧
  NoDup (tmr_ref <$> (l ++ l')).
Proof.
  rewrite !fmap_app, fmap_cons. intros Hd.
  apply NoDup_app in Hd as (Hl & Hx & Hr). apply NoDup_cons in Hr as [Ht Hl'].
  split_and!.
  - apply has_ref_false. intros Hin. apply (Hx _ Hin). by left.
  - by apply has_ref_false.
  - apply NoDup_app. split_and!; [done| |done]. intros r Hr Hr'. apply (Hx _ Hr). by right.
Qed.

Lemma NoDup_entry (l l' : list (gsmd_timer C)) t : NoDup (tmr_ref <$> (l ++ t :: l')) →
  tmr_ref t ∉ (tmr_ref <$> (l ++ l')).
Proof.
  rewrite !fmap_app, fmap_cons. intros (_ & Hx & [Ht _]%NoDup_cons)%NoDup_app.
  intros [H'|?]%elem_of_app; [|done]. apply (Hx _ H'). by left.
Qed.

Lemma filter_all (P : gsmd_timer C → Prop) `{!∀ t, Decision (P t)} l : Forall P l → filter P l = l.
Proof. induction 1; [done|]. rewrite filter_cons_True by done. by f_equal. Qed.

Lemma at_entry pre t post : NoDup (tmr_ref <$> (pre ++ t :: post)) →
  find (has_ref (tmr_ref t)) (pre ++ t :: post) = Some t ∧
  after (tmr_ref t) (pre ++ t :: post) = head post ∧
  existsb (has_ref (tmr_ref t)) (pre ++ t :: post) = true ∧
  filter (λ u, has_ref (tmr_ref t) u = false) (pre ++ t :: post) = pre ++ post.
Proof.
  intros (Hpre & Hpost & _)%NoDup_split. destruct (find_skip _ pre (t :: post) Hpre) as (-> & -> & -> & ->).
  assert (has_ref (tmr_ref t) t = true) as Ht by apply Z.eqb_refl.
  rewrite filter_cons_False, filter_all by (done || congruence). cbn. by rewrite Ht.
Qed.

Lemma unlink_entry s pre t post : timers s = pre ++ t :: post →
  NoDup (tmr_ref <$> (pre ++ t :: post)) →
  unlink_timer (tmr_ref t) s = Ret tt (set_timers (pre ++ post) s).
Proof.
  intros E Hd. unfold unlink_timer. run. rewrite E.
  destruct (at_entry _ _ _ Hd) as (_ & _ & -> & ->). by run.
Qed.

Lemma expired_app_new now0 (l l' : list (gsmd_timer C)) :
  Forall (λ t, expired now0 t = false) l' →
  filter (λ t, expired now0 t = true) (l ++ l') = filter (λ t, expired now0 t = true) l.
Proof.
  intros Hf. rewrite filter_app. assert (filter (λ t, expired now0 t = true) l' = []) as ->.
  { induction Hf as [|t l' E _ IH]; [done|]. by rewrite filter_cons_False by congruence. }
  apply app_nil_r.
Qed.

Lemma run_from_fires fuel now0 s pre rest : timers s = pre ++ rest → now s = now0 →
  NoDup (refs s) →
  (length rest + length (filter (λ t, expired now0 t = true) rest) < fuel)%nat →
  run_from fuel now0 (tmr_ref <$> head rest) s =
  fire_all (filter (λ t, expired now0 t = true) rest) s.
Proof.
  revert s pre rest. induction fuel as [|f IH]; intros s pre rest Es En Hd Hf; [lia|].
  destruct rest as [|t rest]; [done|]. cbn [head fmap option_fmap option_map run_from].
  unfold refs in Hd. rewrite Es in Hd. destruct (at_entry _ _ _ Hd) as (Ef & Ea & _ & _).
  run. rewrite Es, Ef, Ea. run. change (tv_later now0 (tmr_expires t)) with (expired now0 t).
  destruct (expired now0 t) eqn:Et.
  - rewrite filter_cons_True by done. rewrite filter_cons_True in Hf by done.
    cbn [fire_all length] in *. run.
    rewrite (bind_step _ _ _ _ _ (unlink_entry s pre t rest Es Hd)).
    rewrite (bind_step _ _ _ _ _ (unlink_entry s pre t rest Es Hd)).
    apply bind_ext. intros [] s1 E1.
    destruct (run_timer_rel t _ _ _ ltac:(unfold refs; rewrite timers_set; by apply NoDup_entry) E1)
      as (l & El & Hl & Hex & Hn & Hnd).
    rewrite timers_set in El. rewrite now_set in Hex, Hn.
    assert (NoDup (refs s1)) as Hd1.
    { apply Hnd. unfold refs. rewrite timers_set. by apply NoDup_split in Hd as (_ & _ & ?). }
    destruct rest as [|t2 rest]; [by destruct f|].
    change (head (t2 :: rest)) with (head ((t2 :: rest) ++ l)).
    rewrite (IH s1 pre ((t2 :: rest) ++ l)).
    + by rewrite expired_app_new by (by rewrite <- En).
    + by rewrite El, <- app_assoc.
    + congruence.
    + done.
    + rewrite expired_app_new by (by rewrite <- En). rewrite length_app. lia.
  - rewrite filter_cons_False by congruence. rewrite filter_cons_False in Hf by congruence.
    cbn [length] in *. run.
    rewrite (IH s (pre ++ [t]) rest); [done| |done| |lia].
    + by rewrite <- app_assoc.
    + unfold refs. by rewrite Es.
Qed.

Lemma fire_all_clears_aux now0 rest : ∀ pre post s, timers s = pre ++ rest ++ post →
  now s = now0 → NoDup (refs s) → Forall (λ t, expired now0 t = false) (pre ++ post) → ∀ s',
  fire_all (filter (λ t, expired now0 t = true) rest) s = Ret tt s' →
  Forall (λ t, expired now0 t = false) (timers s').
Proof.
  induction rest as [|t rest IH]; intros pre post s Es En Hd Hp s'.
  { intros [= <-]. by rewrite Es. }
  unfold refs in Hd. rewrite Es in Hd. cbn [app] in *. destruct (expired now0 t) eqn:Et.
  - rewrite filter_cons_True by done. cbn [fire_all].
    rewrite (bind_step _ _ _ _ _ (unlink_entry s pre t (rest ++ post) Es Hd)).
    intros ([] & s1 & E1 & E2)%bind_Ret.
    destruct (run_timer_rel t _ _ _ ltac:(unfold refs; rewrite timers_set; by apply NoDup_entry) E1)
      as (l & El & _ & Hex & Hn & Hnd).
    rewrite timers_set in El. rewrite now_set in Hex, Hn. rewrite En in *.
    apply (IH pre (post ++ l) s1); [by rewrite El, <- !app_assoc|done| | |done].
    + apply Hnd. unfold refs. rewrite timers_set. by apply NoDup_split in Hd as (_ & _ & ?).
    + rewrite app_assoc. by apply Forall_app.
  - rewrite filter_cons_False by congruence.
    apply (IH (pre ++ [t]) post s); [by rewrite <- app_assoc|done| |].
    + unfold refs. by rewrite Es.
    + apply Forall_app in Hp as [Hp1 Hp2]. rewrite !Forall_app. repeat split; try done. by constructor.
Qed.

(** A check runs the callbacks of exactly the timers that have expired, in the
    order of the list, each after its timer left the list, and then sets the
    kernel timer; afterwards no expired timer is left. It terminates: two rounds
    per timer are enough. *)
Theorem check_n_run_fires fuel s : NoDup (refs s) → (2 * length (timers s) < fuel)%nat →
  gsmd_timer_check_n_run fuel s =
  (fire_all (filter (λ t, expired (now s) t = true) (timers s));;
   calc_next_expiration;; mret tt) s ∧
  ∀ s', fire_all (filter (λ t, expired (now s) t = true) (timers s)) s = Ret tt s' →
    Forall (λ t, expired (now s) t = false) (timers s').
Proof.
  intros Hd Hf. split.
  - unfold gsmd_timer_check_n_run. run.
    pose proof (length_filter (λ t, expired (now s) t = true) (timers s)).
    apply bind_cong. apply (run_from_fires _ _ _ []); [done..|lia].
  - apply (fire_all_clears_aux _ _ [] []); [by rewrite app_nil_r|done|done|constructor].
Qed.

(** [tv_sub] is the difference, with a normal [tv_usec] for normal arguments. *)
Theorem tv_sub_spec a c : tv_normal a → tv_normal c →
  usecs (tv_sub a c) = usecs a - usecs c ∧ tv_normal (tv_sub a c).
Proof.
  intros Ha Hc. unfold tv_sub. split.
  - rewrite tv_carry_usecs. unfold usecs. cbn. lia.
  - unfold tv_normal in *. cbn [tv_usec].
    pose proof (tv_carry_usec (tv_fuel (tv_usec a - tv_usec c))
      (TV (tv_sec a - tv_sec c) (tv_usec a - tv_usec c))) as H'. cbn in H'. unfold tv_fuel in *. lia.
Qed.
End theory.

(** After a recalculation, with all times normal: the kernel timer is set to go
    off at the earliest expiry if that is in the future; it is disarmed if that
    is now, and left as it was if it is past, although timers are waiting. *)
Theorem calc_next_expiration_spec {W C} `{TimerHostLaws W C} s m :
  tv_normal (now s) → Forall (λ t, tv_normal (tmr_expires t)) (timers s) →
  min_expiry (timers s) = Some m →
  (∀ t, t ∈ timers s → usecs m ≤ usecs (tmr_expires t)) ∧
  ∃ it rc, calc_next_expiration s = Ret rc (set_itimer it s) ∧
    if usecs (now s) <? usecs m then rc = 0 ∧ (usecs <$> it) = Some (usecs m)
    else if usecs (now s) =? usecs m then rc = 0 ∧ it = None
    else rc < 0 ∧ it = itimer s.
Proof.
  intros Hn Hl Hm. destruct (min_expiry_spec _ _ Hl Hm) as (Hnm & _ & Hmin). split; [done|].
  unfold calc_next_expiration. run. rewrite Hm.
  destruct (tv_sub_spec m (now s) Hnm Hn) as [Hu Hd]. unfold tv_normal in Hd.
  set (d := tv_sub m (now s)) in *. unfold setitimer.
  destruct (Z.ltb_spec (tv_sec d) 0), (Z.ltb_spec (tv_usec d) 0), (Z.leb_spec 1000000 (tv_usec d));
    try lia; cbn [orb].
  - do 2 eexists. split; [by run|]. unfold usecs in *.
    destruct (Z.ltb_spec (tv_sec (now s) * 1000000 + tv_usec (now s)) (tv_sec m * 1000000 + tv_usec m)); [lia|].
    destruct (Z.eqb_spec (tv_sec (now s) * 1000000 + tv_usec (now s)) (tv_sec m * 1000000 + tv_usec m)); [lia|].
    done.
  - destruct (Z.eqb_spec (tv_sec d) 0), (Z.eqb_spec (tv_usec d) 0); cbn [andb];
      do 2 eexists; (split; [by run|]); unfold usecs in *;
      destruct (Z.ltb_spec (tv_sec (now s) * 1000000 + tv_usec (now s)) (tv_sec m * 1000000 + tv_usec m));
      try lia; try (split; [done|]; cbn; f_equal; lia).
    destruct (Z.eqb_spec (tv_sec (now s) * 1000000 + tv_usec (now s)) (tv_sec m * 1000000 + tv_usec m)); [done|lia].
Qed.

(** ** A reference host: callbacks record the reference of their timer *)

Module TimerRecorder.
Record t : Type := Rec {
  r_timers : list (gsmd_timer unit); r_itimer : option timeval; r_now : timeval;
  r_next : Z; r_fired : list Z }.

#[export] Instance store : TimerStore t unit := {
  timers := r_timers;
  set_timers l s := Rec l (r_itimer s) (r_now s) (r_next s) (r_fired s);
  itimer := r_itimer;
  set_itimer i s := Rec (r_timers s) i (r_now s) (r_next s) (r_fired s);
  now := r_now;
  fresh := λ s, Ret (r_next s) (Rec (r_timers s) (r_itimer s) (r_now s) (r_next s + 1) (r_fired s));
  talloc_ok := mret true
}.

#[export] Instance host : TimerHost t unit := λ u s,
  Ret tt (Rec (r_timers s) (r_itimer s) (r_now s) (r_next s) (r_fired s ++ [tmr_ref u])).

#[export] Instance host_laws : TimerHostLaws t unit.
Proof.
  split; try done. intros u s a s' _ [= _ <-]. exists []. cbn. rewrite app_nil_r.
  split_and!; [done|lia|constructor|done|done].
Qed.

Definition ex : t :=
  Rec [Timer 1 (TV 5 0) tt; Timer 2 (TV 9 500000) tt; Timer 3 (TV 4 0) tt] None (TV 5 0) 4 [].

Lemma ex_nodup : NoDup (refs ex).
Proof.
  apply (bool_decide_eq_true_1 _). reflexivity.
Qed.

Lemma check_n_run_fires_witness :
  gsmd_timer_check_n_run 7 ex =
  Ret tt (Rec [Timer 2 (TV 9 500000) tt] (Some (TV 9 500000)) (TV 5 0) 4 [1; 3]).
Proof.
  rewrite (proj1 (check_n_run_fires 7 ex ex_nodup ltac:(cbn; lia))). reflexivity.
Defined.

Lemma calc_next_expiration_spec_witness : ∃ it rc,
  calc_next_expiration ex = Ret rc (set_itimer it ex) ∧ rc < 0 ∧ it = itimer ex.
Proof.
  destruct (calc_next_expiration_spec ex (TV 4 0)) as (_ & it & rc & E & R);
    [by split | by repeat constructor | reflexivity |].
  exists it, rc. split; [exact E | exact R].
Defined.

Lemma tv_sub_spec_witness : usecs (tv_sub (TV 9 100) (TV 5 200)) = 3999900.
Proof. apply (tv_sub_spec (TV 9 100) (TV 5 200)); by split. Defined.
End TimerRecorder.
