(* ===== verification/State.v ===== *)
(** * The daemon's state (include/gsmd/gsmd.h, include/gsmd/state.h)

    [struct gsmd] with everything reachable from it, together with the parts of
    the world the daemon reads: the clock, the kernel timer, the allocator, and
    what was written to the UART.

    Function pointers are enumerated ([atcmd_cb], [unsol_parser], [timer_cb]);
    the functions they stand for are defined in the files that follow.  Commands,
    timers and clients have an address ([..._ref]); a pointer kept elsewhere is
    such an address, and it dangles when the object is gone. *)

From S2P Require Import Prelude CString Wire LLParse Timers.

(** ** Function pointers *)

Inductive atcmd_cb : Type :=
  | CB_gsmd_alive_cb | CB_gsmd_test_atcb | CB_gsmd_get_imsi_cb | CB_firstcmd_atcb
  | CB_null_wakeup_cb | CB_cpi_detect_cb
  | CB_usock_cmd_cb | CB_usock_ringing_cb | CB_null_cmd_cb
  | CB_voicecall_get_stat_cb | CB_voicecall_ctrl_cb | CB_voicecall_fwd_stat_cb
  | CB_pin_cmd_cb | CB_get_cpin_cb
  | CB_phone_powerup_cb | CB_phone_powerdown_cb | CB_phone_power_status_cb
  | CB_phone_get_manuf_cb | CB_phone_get_model_cb | CB_phone_get_revision_cb
  | CB_phone_get_serial_cb | CB_phone_get_battery_cb
  | CB_phone_vibrator_enable_cb | CB_phone_vibrator_disable_cb
  | CB_network_query_reg_cb | CB_network_vmail_cb | CB_network_sigq_cb
  | CB_network_oper_cb | CB_network_oper_n_cb | CB_network_opers_cb
  | CB_network_pref_opers_cb | CB_network_pref_num_cb | CB_network_ownnumbers_cb
  | CB_phonebook_find_cb | CB_phonebook_read_cb | CB_phonebook_readrg_cb
  | CB_phonebook_write_cb | CB_phonebook_delete_cb | CB_phonebook_get_support_cb
  | CB_phonebook_list_storage_cb
  | CB_sms_list_cb | CB_sms_read_cb | CB_sms_send_cb | CB_sms_write_cb
  | CB_sms_delete_cb | CB_usock_cpms_cb | CB_usock_get_smsc_cb.

Inductive unsol_parser : Type :=
  | P_ring_parse | P_cring_parse | P_creg_parse | P_ccwa_parse | P_cusd_parse
  | P_cccm_parse | P_cgev_parse | P_cgreg_parse | P_clip_parse | P_colp_parse
  | P_ctzv_parse | P_copn_parse
  | P_cmti_parse | P_cmt_parse | P_cbmi_parse | P_cbm_parse | P_cdsi_parse | P_cds_parse
  | P_csq_parse | P_cpri_parse | P_ti_ctzv_parse | P_cpi_parse | P_htccsq_parse
  | P_mrdy_parse | P_mtsmenu_parse | P_wcdma_parse.

Inductive timer_cb : Type :=
  | T_discard_timeout | T_poweroff_timeout | T_wakeup_timeout
  | T_alive_tmr_cb | T_alive_interval_tmr_cb | T_state_ringing_timeout.

(** [create_timer_func] of a command. *)
Inductive create_timer : Type := discard_timer | poweroff_timer (secs : Z) | wakeup_timer | alive_timer.

(** The [void *ctx] of a command. *)
Inductive ctx : Type := CtxNull | CtxGsmd | CtxUser (gu : Z).

(** The plugins of the source tree. *)
Inductive machine : Type := machine_generic | machine_gta01 | machine_telit | machine_tihtc.
Inductive vendor : Type := vendor_ti | vendor_tihtc | vendor_qc | vendor_bcm | vendor_telit.

#[export] Instance atcmd_cb_eq_dec : EqDecision atcmd_cb.
Proof. solve_decision. Defined.
#[export] Instance unsol_parser_eq_dec : EqDecision unsol_parser.
Proof. solve_decision. Defined.
#[export] Instance ctx_eq_dec : EqDecision ctx.
Proof. solve_decision. Defined.
#[export] Instance create_timer_eq_dec : EqDecision create_timer.
Proof. solve_decision. Defined.

(** ** Objects *)

(** [ac_buf] is the whole allocated buffer; [ac_cur] the offset of [cur] in it and
    [ac_buflen] the number of bytes from there on. *)
Record gsmd_atcmd : Type := Atcmd {
  ac_ref : Z;
  ac_ctx : ctx;
  ac_cb : option atcmd_cb;
  ac_ret : Z;
  ac_buflen : Z;
  ac_id : Z;
  ac_timeout : option Z;
  ac_create_timer : create_timer;
  ac_cur : nat;
  ac_buf : list Z }.

(** A message for a client: header and payload as allocated. *)
Record gsmd_ucmd : Type := Ucmd { uc_hdr : gsmd_msg_hdr; uc_buf : mem }.

Record gsmd_user : Type := User {
  gu_ref : Z;
  gu_finished_ucmds : list gsmd_ucmd;
  gu_write : bool;                    (* GSMD_FD_WRITE in gfd.when *)
  gu_subscriptions : Z }.

Record opname : Type := Opname { op_mcc : Z; op_mnc : Z; op_alnum_long : list Z }.

Record gsmd_device_state : Type := DevState {
  ds_ciph_flags : Z;
  ds_vibrator : Z;
  ds_on : Z;
  ds_registered : bool;
  ds_ringing : bool;
  ds_ring_check : option Z }.

(** The multi-line buffer [mlbuf] is the bytes written since it was last zeroed;
    [mlbuf_zero] says whether it was ever zeroed, so that the bytes after them
    are NULs and not indeterminate. [oracle] answers the allocator's calls, [true]
    being success; an empty oracle always succeeds. *)
Record gsmd : Type := Gsmd {
  flags : Z;
  interpreter_ready : bool;
  uart_write : bool;
  llp : llparser;
  users : list gsmd_user;
  pending_atcmds : list gsmd_atcmd;
  busy_atcmds : list gsmd_atcmd;
  machinepl : option machine;
  vendorpl : option vendor;
  dev_state : gsmd_device_state;
  operators : list opname;
  mlbuf : list Z;
  mlbuf_zero : bool;
  mlbuf_len : Z;
  mlunsolicited : bool;
  alive_responded : bool;
  imsi : list Z;
  timer_list : list (gsmd_timer timer_cb);
  kernel_timer : option timeval;
  clock : timeval;
  unsolicit : list (list Z * unsol_parser);
  next_ref : Z;
  oracle : list bool;
  uart_out : list Z }.

Definition set_flags (v : Z) (s : gsmd) : gsmd :=
  Gsmd v (interpreter_ready s) (uart_write s) (llp s) (users s) (pending_atcmds s) (busy_atcmds
    s) (machinepl s) (vendorpl s) (dev_state s) (operators s) (mlbuf s) (mlbuf_zero s)
    (mlbuf_len s) (mlunsolicited s) (alive_responded s) (imsi s) (timer_list s) (kernel_timer s)
    (clock s) (unsolicit s) (next_ref s) (oracle s) (uart_out s).
Definition set_interpreter_ready (v : bool) (s : gsmd) : gsmd :=
  Gsmd (flags s) v (uart_write s) (llp s) (users s) (pending_atcmds s) (busy_atcmds s)
    (machinepl s) (vendorpl s) (dev_state s) (operators s) (mlbuf s) (mlbuf_zero s) (mlbuf_len
    s) (mlunsolicited s) (alive_responded s) (imsi s) (timer_list s) (kernel_timer s) (clock s)
    (unsolicit s) (next_ref s) (oracle s) (uart_out s).
Definition set_uart_write (v : bool) (s : gsmd) : gsmd :=
  Gsmd (flags s) (interpreter_ready s) v (llp s) (users s) (pending_atcmds s) (busy_atcmds s)
    (machinepl s) (vendorpl s) (dev_state s) (operators s) (mlbuf s) (mlbuf_zero s) (mlbuf_len
    s) (mlunsolicited s) (alive_responded s) (imsi s) (timer_list s) (kernel_timer s) (clock s)
    (unsolicit s) (next_ref s) (oracle s) (uart_out s).
Definition set_llp (v : llparser) (s : gsmd) : gsmd :=
  Gsmd (flags s) (interpreter_ready s) (uart_write s) v (users s) (pending_atcmds s)
    (busy_atcmds s) (machinepl s) (vendorpl s) (dev_state s) (operators s) (mlbuf s) (mlbuf_zero
    s) (mlbuf_len s) (mlunsolicited s) (alive_responded s) (imsi s) (timer_list s) (kernel_timer
    s) (clock s) (unsolicit s) (next_ref s) (oracle s) (uart_out s).
Definition set_users (v : list gsmd_user) (s : gsmd) : gsmd :=
  Gsmd (flags s) (interpreter_ready s) (uart_write s) (llp s) v (pending_atcmds s) (busy_atcmds
    s) (machinepl s) (vendorpl s) (dev_state s) (operators s) (mlbuf s) (mlbuf_zero s)
    (mlbuf_len s) (mlunsolicited s) (alive_responded s) (imsi s) (timer_list s) (kernel_timer s)
    (clock s) (unsolicit s) (next_ref s) (oracle s) (uart_out s).
Definition set_pending_atcmds (v : list gsmd_atcmd) (s : gsmd) : gsmd :=
  Gsmd (flags s) (interpreter_ready s) (uart_write s) (llp s) (users s) v (busy_atcmds s)
    (machinepl s) (vendorpl s) (dev_state s) (operators s) (mlbuf s) (mlbuf_zero s) (mlbuf_len
    s) (mlunsolicited s) (alive_responded s) (imsi s) (timer_list s) (kernel_timer s) (clock s)
    (unsolicit s) (next_ref s) (oracle s) (uart_out s).
Definition set_busy_atcmds (v : list gsmd_atcmd) (s : gsmd) : gsmd :=
  Gsmd (flags s) (interpreter_ready s) (uart_write s) (llp s) (users s) (pending_atcmds s) v
    (machinepl s) (vendorpl s) (dev_state s) (operators s) (mlbuf s) (mlbuf_zero s) (mlbuf_len
    s) (mlunsolicited s) (alive_responded s) (imsi s) (timer_list s) (kernel_timer s) (clock s)
    (unsolicit s) (next_ref s) (oracle s) (uart_out s).
Definition set_machinepl (v : option machine) (s : gsmd) : gsmd :=
  Gsmd (flags s) (interpreter_ready s) (uart_write s) (llp s) (users s) (pending_atcmds s)
    (busy_atcmds s) v (vendorpl s) (dev_state s) (operators s) (mlbuf s) (mlbuf_zero s)
    (mlbuf_len s) (mlunsolicited s) (alive_responded s) (imsi s) (timer_list s) (kernel_timer s)
    (clock s) (unsolicit s) (next_ref s) (oracle s) (uart_out s).
Definition set_vendorpl (v : option vendor) (s : gsmd) : gsmd :=
  Gsmd (flags s) (interpreter_ready s) (uart_write s) (llp s) (users s) (pending_atcmds s)
    (busy_atcmds s) (machinepl s) v (dev_state s) (operators s) (mlbuf s) (mlbuf_zero s)
    (mlbuf_len s) (mlunsolicited s) (alive_responded s) (imsi s) (timer_list s) (kernel_timer s)
    (clock s) (unsolicit s) (next_ref s) (oracle s) (uart_out s).
Definition set_dev_state (v : gsmd_device_state) (s : gsmd) : gsmd :=
  Gsmd (flags s) (interpreter_ready s) (uart_write s) (llp s) (users s) (pending_atcmds s)
    (busy_atcmds s) (machinepl s) (vendorpl s) v (operators s) (mlbuf s) (mlbuf_zero s)
    (mlbuf_len s) (mlunsolicited s) (alive_responded s) (imsi s) (timer_list s) (kernel_timer s)
    (clock s) (unsolicit s) (next_ref s) (oracle s) (uart_out s).
Definition set_operators (v : list opname) (s : gsmd) : gsmd :=
  Gsmd (flags s) (interpreter_ready s) (uart_write s) (llp s) (users s) (pending_atcmds s)
    (busy_atcmds s) (machinepl s) (vendorpl s) (dev_state s) v (mlbuf s) (mlbuf_zero s)
    (mlbuf_len s) (mlunsolicited s) (alive_responded s) (imsi s) (timer_list s) (kernel_timer s)
    (clock s) (unsolicit s) (next_ref s) (oracle s) (uart_out s).
Definition set_mlbuf (v : list Z) (s : gsmd) : gsmd :=
  Gsmd (flags s) (interpreter_ready s) (uart_write s) (llp s) (users s) (pending_atcmds s)
    (busy_atcmds s) (machinepl s) (vendorpl s) (dev_state s) (operators s) v (mlbuf_zero s)
    (mlbuf_len s) (mlunsolicited s) (alive_responded s) (imsi s) (timer_list s) (kernel_timer s)
    (clock s) (unsolicit s) (next_ref s) (oracle s) (uart_out s).
Definition set_mlbuf_zero (v : bool) (s : gsmd) : gsmd :=
  Gsmd (flags s) (interpreter_ready s) (uart_write s) (llp s) (users s) (pending_atcmds s)
    (busy_atcmds s) (machinepl s) (vendorpl s) (dev_state s) (operators s) (mlbuf s) v
    (mlbuf_len s) (mlunsolicited s) (alive_responded s) (imsi s) (timer_list s) (kernel_timer s)
    (clock s) (unsolicit s) (next_ref s) (oracle s) (uart_out s).
Definition set_mlbuf_len (v : Z) (s : gsmd) : gsmd :=
  Gsmd (flags s) (interpreter_ready s) (uart_write s) (llp s) (users s) (pending_atcmds s)
    (busy_atcmds s) (machinepl s) (vendorpl s) (dev_state s) (operators s) (mlbuf s) (mlbuf_zero
    s) v (mlunsolicited s) (alive_responded s) (imsi s) (timer_list s) (kernel_timer s) (clock
    s) (unsolicit s) (next_ref s) (oracle s) (uart_out s).
Definition set_mlunsolicited (v : bool) (s : gsmd) : gsmd :=
  Gsmd (flags s) (interpreter_ready s) (uart_write s) (llp s) (users s) (pending_atcmds s)
    (busy_atcmds s) (machinepl s) (vendorpl s) (dev_state s) (operators s) (mlbuf s) (mlbuf_zero
    s) (mlbuf_len s) v (alive_responded s) (imsi s) (timer_list s) (kernel_timer s) (clock s)
    (unsolicit s) (next_ref s) (oracle s) (uart_out s).
Definition set_alive_responded (v : bool) (s : gsmd) : gsmd :=
  Gsmd (flags s) (interpreter_ready s) (uart_write s) (llp s) (users s) (pending_atcmds s)
    (busy_atcmds s) (machinepl s) (vendorpl s) (dev_state s) (operators s) (mlbuf s) (mlbuf_zero
    s) (mlbuf_len s) (mlunsolicited s) v (imsi s) (timer_list s) (kernel_timer s) (clock s)
    (unsolicit s) (next_ref s) (oracle s) (uart_out s).
Definition set_imsi (v : list Z) (s : gsmd) : gsmd :=
  Gsmd (flags s) (interpreter_ready s) (uart_write s) (llp s) (users s) (pending_atcmds s)
    (busy_atcmds s) (machinepl s) (vendorpl s) (dev_state s) (operators s) (mlbuf s) (mlbuf_zero
    s) (mlbuf_len s) (mlunsolicited s) (alive_responded s) v (timer_list s) (kernel_timer s)
    (clock s) (unsolicit s) (next_ref s) (oracle s) (uart_out s).
Definition set_timer_list (v : list (gsmd_timer timer_cb)) (s : gsmd) : gsmd :=
  Gsmd (flags s) (interpreter_ready s) (uart_write s) (llp s) (users s) (pending_atcmds s)
    (busy_atcmds s) (machinepl s) (vendorpl s) (dev_state s) (operators s) (mlbuf s) (mlbuf_zero
    s) (mlbuf_len s) (mlunsolicited s) (alive_responded s) (imsi s) v (kernel_timer s) (clock s)
    (unsolicit s) (next_ref s) (oracle s) (uart_out s).
Definition set_kernel_timer (v : option timeval) (s : gsmd) : gsmd :=
  Gsmd (flags s) (interpreter_ready s) (uart_write s) (llp s) (users s) (pending_atcmds s)
    (busy_atcmds s) (machinepl s) (vendorpl s) (dev_state s) (operators s) (mlbuf s) (mlbuf_zero
    s) (mlbuf_len s) (mlunsolicited s) (alive_responded s) (imsi s) (timer_list s) v (clock s)
    (unsolicit s) (next_ref s) (oracle s) (uart_out s).
Definition set_clock (v : timeval) (s : gsmd) : gsmd :=
  Gsmd (flags s) (interpreter_ready s) (uart_write s) (llp s) (users s) (pending_atcmds s)
    (busy_atcmds s) (machinepl s) (vendorpl s) (dev_state s) (operators s) (mlbuf s) (mlbuf_zero
    s) (mlbuf_len s) (mlunsolicited s) (alive_responded s) (imsi s) (timer_list s) (kernel_timer
    s) v (unsolicit s) (next_ref s) (oracle s) (uart_out s).
Definition set_unsolicit (v : list (list Z * unsol_parser)) (s : gsmd) : gsmd :=
  Gsmd (flags s) (interpreter_ready s) (uart_write s) (llp s) (users s) (pending_atcmds s)
    (busy_atcmds s) (machinepl s) (vendorpl s) (dev_state s) (operators s) (mlbuf s) (mlbuf_zero
    s) (mlbuf_len s) (mlunsolicited s) (alive_responded s) (imsi s) (timer_list s) (kernel_timer
    s) (clock s) v (next_ref s) (oracle s) (uart_out s).
Definition set_next_ref (v : Z) (s : gsmd) : gsmd :=
  Gsmd (flags s) (interpreter_ready s) (uart_write s) (llp s) (users s) (pending_atcmds s)
    (busy_atcmds s) (machinepl s) (vendorpl s) (dev_state s) (operators s) (mlbuf s) (mlbuf_zero
    s) (mlbuf_len s) (mlunsolicited s) (alive_responded s) (imsi s) (timer_list s) (kernel_timer
    s) (clock s) (unsolicit s) v (oracle s) (uart_out s).
Definition set_oracle (v : list bool) (s : gsmd) : gsmd :=
  Gsmd (flags s) (interpreter_ready s) (uart_write s) (llp s) (users s) (pending_atcmds s)
    (busy_atcmds s) (machinepl s) (vendorpl s) (dev_state s) (operators s) (mlbuf s) (mlbuf_zero
    s) (mlbuf_len s) (mlunsolicited s) (alive_responded s) (imsi s) (timer_list s) (kernel_timer
    s) (clock s) (unsolicit s) (next_ref s) v (uart_out s).
Definition set_uart_out (v : list Z) (s : gsmd) : gsmd :=
  Gsmd (flags s) (interpreter_ready s) (uart_write s) (llp s) (users s) (pending_atcmds s)
    (busy_atcmds s) (machinepl s) (vendorpl s) (dev_state s) (operators s) (mlbuf s) (mlbuf_zero
    s) (mlbuf_len s) (mlunsolicited s) (alive_responded s) (imsi s) (timer_list s) (kernel_timer
    s) (clock s) (unsolicit s) (next_ref s) (oracle s) v.

(** ** The daemon as a monad *)

Abbreviation G := (M gsmd).

Definition talloc : G bool := λ s,
  match oracle s with
  | [] => Ret true s
  | ok :: r => Ret ok (set_oracle r s)
  end.

Definition fresh_ref : G Z := λ s, Ret (next_ref s) (set_next_ref (next_ref s + 1) s).

(** A client that is still connected; a pointer to one that is gone dangles. *)
Definition find_user (r : Z) (us : list gsmd_user) : option gsmd_user :=
  find (λ u, gu_ref u =? r) us.

Definition update_user (r : Z) (f : gsmd_user → gsmd_user) (us : list gsmd_user) : list gsmd_user :=
  (λ u, if gu_ref u =? r then f u else u) <$> us.

(** [ctx] used as a [struct gsmd_user *], and as a [struct gsmd *]. *)
Definition user_of (c : ctx) : G gsmd_user :=
  s ← get;
  match c with
  | CtxUser r => deref (find_user r (users s)) "use of a client that was freed"
  | _ => undefined "not a client"
  end.

Definition gsmd_of (c : ctx) : G unit :=
  match c with CtxGsmd => mret tt | _ => undefined "not the daemon" end.

Definition set_dev (f : gsmd_device_state → gsmd_device_state) : G unit :=
  modify (λ s, set_dev_state (f (dev_state s)) s).

Definition GSMD_FLAG_V0 : Z := 1.
Definition GSMD_FLAG_SMS_FMT_TEXT : Z := 2.

Definition flag_v0 (s : gsmd) : bool := Z.testbit (flags s) 0.
Definition flag_sms_text (s : gsmd) : bool := Z.testbit (flags s) 1.

Definition set_ciph_flags (v : Z) : G unit :=
  set_dev (λ d, DevState v (ds_vibrator d) (ds_on d) (ds_registered d) (ds_ringing d) (ds_ring_check d)).
Definition set_vibrator (v : Z) : G unit :=
  set_dev (λ d, DevState (ds_ciph_flags d) v (ds_on d) (ds_registered d) (ds_ringing d) (ds_ring_check d)).
Definition set_on (v : Z) : G unit :=
  set_dev (λ d, DevState (ds_ciph_flags d) (ds_vibrator d) v (ds_registered d) (ds_ringing d) (ds_ring_check d)).
Definition set_registered (v : bool) : G unit :=
  set_dev (λ d, DevState (ds_ciph_flags d) (ds_vibrator d) (ds_on d) v (ds_ringing d) (ds_ring_check d)).
Definition set_ringing (v : bool) : G unit :=
  set_dev (λ d, DevState (ds_ciph_flags d) (ds_vibrator d) (ds_on d) (ds_registered d) v (ds_ring_check d)).
Definition set_ring_check (v : option Z) : G unit :=
  set_dev (λ d, DevState (ds_ciph_flags d) (ds_vibrator d) (ds_on d) (ds_registered d) (ds_ringing d) v).
