(* ===== verification/Queue.v ===== *)
(** * The command queue (src/target/gsm/src/gsmd/atcmd.c, machine_gta01.c, gsmd.c)

    Making a command and submitting it; the part of atcmd.c that the rest of the
    daemon calls.  The part that talks to the modem is AtCmd.v. *)

From S2P Require Import Prelude CString Enums Wire LLParse Timers State.

(** ** Timers of the daemon *)

#[export] Instance gsmd_timers : TimerStore gsmd timer_cb := {
  timers := timer_list;
  set_timers := set_timer_list;
  itimer := kernel_timer;
  set_itimer := set_kernel_timer;
  now := clock;
  fresh := fresh_ref;
  talloc_ok := talloc
}.

(** ** Making a command *)

Definition NO_RESULT : Z := -255.

Definition fill_buf (cmd : list Z) (buflen : nat) : list Z :=
  take (buflen - 1) (cmd ++ replicate buflen 0) ++ [0].

(** A buffer of length 0 has no last byte to put the NUL in. *)
Definition atcmd_fill (cmd : list Z) (rlen : Z) (cb : option atcmd_cb) (c : ctx) (id : Z)
    (ct : option create_timer) : G (option gsmd_atcmd) :=
  let buflen := Z.max (Z.of_nat (length cmd)) rlen in
  ok ← talloc;
  if ok : bool then
    must (0 <? buflen) "the byte before an empty command buffer";;
    r ← fresh_ref;
    mret (Some (Atcmd r c cb NO_RESULT buflen (u16 id) None (default discard_timer ct) 0
                      (fill_buf cmd (Z.to_nat buflen))))
  else mret None.

(** [sprintf(cmd->buf, ...)] into the buffer of a command: it must fit. *)
Definition sprintf_buf (text : list Z) (c : gsmd_atcmd) : option gsmd_atcmd :=
  if (length text <? length (ac_buf c))%nat
  then Some (Atcmd (ac_ref c) (ac_ctx c) (ac_cb c) (ac_ret c) (ac_buflen c) (ac_id c)
               (ac_timeout c) (ac_create_timer c) (ac_cur c)
               (text ++ 0 :: drop (S (length text)) (ac_buf c)))
  else None.

(** What the daemon reads as a C string at [cmd->buf], and at [cmd->cur]. *)
Definition ac_text (c : gsmd_atcmd) : list Z := until0 (ac_buf c).
Definition ac_rest (c : gsmd_atcmd) : list Z := until0 (drop (ac_cur c) (ac_buf c)).

(** ** Submitting it *)

Definition atcmd_wake_pending_queue : G unit := modify (set_uart_write true).
Definition atcmd_wait_pending_queue : G unit := modify (set_uart_write false).

Definition is_empty {A} (l : list A) : bool := match l with [] => true | _ => false end.

(** [if (llist_empty(&g->busy_atcmds) && !llist_empty(&g->pending_atcmds)) wake] *)
Definition wake_if_idle : G unit :=
  s ← get;
  if is_empty (busy_atcmds s) && negb (is_empty (pending_atcmds s))
  then atcmd_wake_pending_queue else mret tt.

Definition append_pending (c : gsmd_atcmd) : G unit :=
  modify (λ s, set_pending_atcmds (pending_atcmds s ++ [c]) s);;
  wake_if_idle.

(** The GTA01 sends an empty line before every command; [atcmd_fill]'s result is
    not tested. *)
Definition atcmd_wakeup_modem : G Z :=
  c ← atcmd_fill (b " " ++ [CR]) 2 (Some CB_null_wakeup_cb) CtxGsmd 0 (Some wakeup_timer);
  c ← deref c "atcmd_wakeup_modem: no memory";
  append_pending c;;
  mret 0.

(** [machinepl->ex_submit]. *)
Definition has_ex_submit (m : machine) : bool :=
  match m with machine_gta01 => true | _ => false end.

Definition atcmd_submit (c : gsmd_atcmd) : G Z :=
  s ← get;
  m ← deref (machinepl s) "no machine plugin";
  (if has_ex_submit m then atcmd_wakeup_modem;; mret tt else mret tt);;
  append_pending c;;
  mret 0.

(** [if (!cmd) return -ENOMEM; return atcmd_submit(g, cmd);] *)
Definition submit_or_nomem (c : option gsmd_atcmd) : G Z :=
  match c with Some c => atcmd_submit c | None => mret (- ENOMEM) end.

Definition gsmd_simplecmd (cmdtxt : list Z) : G Z :=
  c ← atcmd_fill cmdtxt (Z.of_nat (length cmdtxt) + 1) (Some CB_gsmd_test_atcb) CtxNull 0 None;
  submit_or_nomem c.

(** [rc |= gsmd_simplecmd(...)] over a list of commands. *)
Fixpoint simplecmds (l : list (list Z)) : G Z :=
  match l with
  | [] => mret 0
  | t :: l' => rc ← gsmd_simplecmd t; rc' ← simplecmds l'; mret (Z.lor rc rc')
  end.

(** ** Powering the modem off (machine_gta01.c, machine_telit.c) *)


Definition power_off (text : list Z) (secs : Z) : G Z :=
  c ← atcmd_fill text 8 None CtxGsmd 0 (Some (poweroff_timer secs));
  match c with
  | None => mret (- ENOMEM)
  | Some c => append_pending c;; mret 0
  end.

Definition machine_power (text : list Z) (secs : Z) (power : Z) : G Z :=
  if power =? GSMD_MODEM_POWERUP then mret 0
  else if power =? GSMD_MODEM_POWERDOWN then power_off text secs
  else mret (- EINVAL).

Definition gta01_power : Z → G Z := machine_power (b "AT@POFF") 3.
Definition telit_power : Z → G Z := machine_power (b "AT#SHDN") 6.

Definition power_fn (m : machine) : option (Z → G Z) :=
  match m with
  | machine_gta01 => Some gta01_power
  | machine_telit => Some telit_power
  | _ => None
  end.

Lemma wake_if_idle_run s : wake_if_idle s =
  Ret tt (set_uart_write (uart_write s || (is_empty (busy_atcmds s) &&
                                          negb (is_empty (pending_atcmds s)))) s).
Proof.
  unfold wake_if_idle, atcmd_wake_pending_queue. run. destruct (_ && _); [by rewrite orb_true_r|].
  rewrite orb_false_r. by destruct s.
Qed.

Lemma append_pending_run c s : append_pending c s =
  Ret tt (set_uart_write (uart_write s || is_empty (busy_atcmds s))
            (set_pending_atcmds (pending_atcmds s ++ [c]) s)).
Proof.
  unfold append_pending. run. rewrite wake_if_idle_run.
  cbn [set_pending_atcmds uart_write busy_atcmds pending_atcmds].
  assert (is_empty (pending_atcmds s ++ [c]) = false) as -> by (by destruct (pending_atcmds s)).
  by rewrite andb_true_r.
Qed.

(** What they do when memory is not short. *)
Lemma talloc_run s : oracle s = [] → talloc s = Ret true s.
Proof. unfold talloc. by intros ->. Qed.

Lemma fill_buf_fits cmd n : (length cmd < n)%nat → fill_buf cmd n = cmd ++ replicate (n - length cmd) 0.
Proof.
  intros Hn. unfold fill_buf. rewrite take_app, take_ge, take_replicate, <- app_assoc by lia. f_equal.
  replace [0] with (replicate 1 0) by done. rewrite <- replicate_add. f_equal. lia.
Qed.

Definition filled (text : list Z) (rlen : Z) (cb : option atcmd_cb) (c : ctx) (id : Z)
    (ct : option create_timer) (s : gsmd) : gsmd_atcmd :=
  Atcmd (next_ref s) c cb NO_RESULT rlen (u16 id) None (default discard_timer ct) 0
    (text ++ replicate (Z.to_nat rlen - length text) 0).

Lemma atcmd_fill_run text rlen cb c id ct s : oracle s = [] → Z.of_nat (length text) < rlen →
  atcmd_fill text rlen cb c id ct s =
  Ret (Some (filled text rlen cb c id ct s)) (set_next_ref (next_ref s + 1) s).
Proof.
  intros Ho Hr. unfold atcmd_fill. rewrite (bind_step _ _ _ _ _ (talloc_run s Ho)), Z.max_r by lia.
  destruct (Z.ltb_spec 0 rlen); [|lia]. rewrite fill_buf_fits by lia. by run.
Qed.

Lemma atcmd_submit_run c pl s : machinepl s = Some pl → has_ex_submit pl = false →
  atcmd_submit c s = Ret 0 (set_uart_write (uart_write s || is_empty (busy_atcmds s))
                              (set_pending_atcmds (pending_atcmds s ++ [c]) s)).
Proof.
  intros Hm Hx. unfold atcmd_submit. run. rewrite Hm. run. rewrite Hx. run.
  by rewrite (bind_step _ _ _ _ _ (append_pending_run c s)).
Qed.

(** ** The effects of the rest of the daemon

    The callbacks, the parsers of unsolicited result codes and the handlers of
    requests change the daemon's state in a few ways only.  [Effects d R] says that
    the relation [R] holds across each of them, [d] being the client for which
    commands may be queued; so a handler keeps every such relation, whatever the
    property of the state it expresses. *)

Definition ctx_in (d c : ctx) : Prop := c = d ∨ c = CtxGsmd ∨ c = CtxNull.

Lemma ctx_in_refl d : ctx_in d d.
Proof. by left. Qed.
Lemma ctx_in_gsmd d : ctx_in d CtxGsmd.
Proof. right. by left. Qed.
Lemma ctx_in_null d : ctx_in d CtxNull.
Proof. right. by right. Qed.

(** What [append_pending] needs: a new command, of that client or the daemon. *)
Definition cmd_new (d : ctx) (c : gsmd_atcmd) : Prop := ctx_in d (ac_ctx c) ∧ ac_timeout c = None.

Class Effects (d : ctx) (R : gsmd → gsmd → Prop) : Prop := {
  eff_pre :: PreOrder R;
  eff_oracle l s : R s (set_oracle l s);
  eff_next_ref s : R s (set_next_ref (next_ref s + 1) s);
  eff_users r f s : (∀ u, gu_ref (f u) = gu_ref u) → R s (set_users (update_user r f (users s)) s);
  eff_append c : cmd_new d c → keeps R (append_pending c);
  eff_dev f s : R s (set_dev_state (f (dev_state s)) s);
  eff_alive v s : R s (set_alive_responded v s);
  eff_imsi v s : R s (set_imsi v s);
  eff_opname op s :
    R s (set_operators (filter (λ o, (op_mcc o, op_mnc o) ≠ (op_mcc op, op_mnc op)) (operators s) ++ [op]) s);
  eff_llp_flags v s : Z.testbit v 0 = lp_extended (llp s) →
    R s (set_llp (LLP (lp_state (llp s)) v (lp_buf (llp s))) s);
  eff_unsolicit arr s : (length arr + length (unsolicit s) < 256)%nat →
    R s (set_unsolicit (arr ++ unsolicit s) s)
}.

(** Timers too: one with a new address is added, one is removed, or one is
    registered again. *)
Definition unlinked (r : Z) (s : gsmd) : list (gsmd_timer timer_cb) :=
  filter (λ t, has_ref r t = false) (timer_list s).

Class TimerEffects (d : ctx) (R : gsmd → gsmd → Prop) : Prop := {
  teff :: Effects d R;
  eff_itimer it s : R s (set_kernel_timer it s);
  eff_unlink r s : R s (set_timer_list (unlinked r s) s);
  eff_create t s : tmr_ref t = next_ref s →
    R s (set_timer_list (timer_list s ++ [t]) (set_next_ref (next_ref s + 1) s));
  eff_move t s : existsb (has_ref (tmr_ref t)) (timer_list s) = true →
    R s (set_timer_list (unlinked (tmr_ref t) s ++ [t]) s)
}.

#[export] Hint Resolve ctx_in_refl ctx_in_gsmd ctx_in_null : keeps.
#[export] Hint Extern 1 (Effects _ _) => typeclasses eauto : keeps.
#[export] Hint Extern 1 (TimerEffects _ _) => typeclasses eauto : keeps.

Lemma keeps_talloc `{!Effects d R} : keeps R talloc.
Proof.
  intros s a s'. unfold talloc. destruct (oracle s); intros [= _ <-]; [reflexivity | apply eff_oracle].
Qed.
Lemma keeps_fresh_ref `{!Effects d R} : keeps R fresh_ref.
Proof. intros s a s' [= _ <-]. apply eff_next_ref. Qed.
Lemma keeps_user_of `{!Effects d R} c : keeps R (user_of c).
Proof. unfold user_of. solve_keeps. Qed.
Lemma keeps_gsmd_of `{!Effects d R} c : keeps R (gsmd_of c).
Proof. unfold gsmd_of. solve_keeps. Qed.
Lemma keeps_set_dev `{!Effects d R} f : keeps R (set_dev f).
Proof. apply keeps_modify. intros s. apply eff_dev. Qed.
#[export] Hint Resolve keeps_talloc keeps_fresh_ref keeps_user_of keeps_gsmd_of keeps_set_dev : keeps.

Lemma keeps_atcmd_fill `{!Effects d R} cmd rlen cb c id ct : keeps R (atcmd_fill cmd rlen cb c id ct).
Proof. unfold atcmd_fill. solve_keeps. Qed.
Lemma keeps_append_pending `{!Effects d R} c : cmd_new d c → keeps R (append_pending c).
Proof. apply eff_append. Qed.
#[export] Hint Resolve keeps_atcmd_fill keeps_append_pending : keeps.

(** What [atcmd_fill] returns is new, and [sprintf] leaves it so. *)
Definition opt_new (d : ctx) (o : option gsmd_atcmd) : Prop :=
  match o with Some c => cmd_new d c | None => True end.

Lemma atcmd_fill_new d cmd rlen cb c id ct o :
  returns (atcmd_fill cmd rlen cb c id ct) o → ctx_in d c → opt_new d o.
Proof.
  unfold atcmd_fill. intros ([] & _ & H)%returns_bind Hc; [|by apply returns_mret in H as <-].
  apply returns_bind in H as (_ & _ & (r & _ & <-%returns_mret)%returns_bind). by split.
Qed.
Lemma opt_new_Some d c : opt_new d (Some c) → cmd_new d c.
Proof. done. Qed.
Lemma opt_new_deref d o why c :
  returns (deref (S := gsmd) o why) c → opt_new d o → cmd_new d c.
Proof. by intros ->%returns_deref. Qed.

Lemma sprintf_buf_new d text c c' : sprintf_buf text c = Some c' → cmd_new d c → cmd_new d c'.
Proof. unfold sprintf_buf. case_match; [|done]. by intros [= <-]. Qed.
Lemma sprintf_deref_new d text c c' why :
  returns (deref (S := gsmd) (sprintf_buf text c) why) c' → cmd_new d c → cmd_new d c'.
Proof. intros ?%returns_deref. by eapply sprintf_buf_new. Qed.
#[export] Hint Resolve atcmd_fill_new opt_new_Some opt_new_deref sprintf_deref_new : keeps.

Lemma keeps_atcmd_wakeup_modem `{!Effects d R} : keeps R atcmd_wakeup_modem.
Proof. unfold atcmd_wakeup_modem. solve_keeps. Qed.
#[export] Hint Resolve keeps_atcmd_wakeup_modem : keeps.
Lemma keeps_atcmd_submit `{!Effects d R} c : cmd_new d c → keeps R (atcmd_submit c).
Proof. intros ?. unfold atcmd_submit. solve_keeps. Qed.
#[export] Hint Resolve keeps_atcmd_submit : keeps.
Lemma keeps_submit_or_nomem `{!Effects d R} c : opt_new d c → keeps R (submit_or_nomem c).
Proof. intros ?. unfold submit_or_nomem. solve_keeps. Qed.
#[export] Hint Resolve keeps_submit_or_nomem : keeps.
Lemma keeps_gsmd_simplecmd `{!Effects d R} t : keeps R (gsmd_simplecmd t).
Proof. unfold gsmd_simplecmd. solve_keeps. Qed.
#[export] Hint Resolve keeps_gsmd_simplecmd : keeps.
Lemma keeps_simplecmds `{!Effects d R} l : keeps R (simplecmds l).
Proof. induction l; cbn [simplecmds]; solve_keeps; auto. Qed.
Lemma keeps_power_off `{!Effects d R} t n : keeps R (power_off t n).
Proof. unfold power_off. solve_keeps. Qed.
#[export] Hint Resolve keeps_simplecmds keeps_power_off : keeps.
Lemma keeps_machine_power `{!Effects d R} t n p : keeps R (machine_power t n p).
Proof. unfold machine_power. solve_keeps. Qed.
#[export] Hint Resolve keeps_machine_power : keeps.

(** The daemon's timers. *)
Lemma keeps_calc_next_expiration `{!TimerEffects d R} : keeps R calc_next_expiration.
Proof. unfold calc_next_expiration. solve_keeps. apply keeps_modify. intros s. apply eff_itimer. Qed.
Lemma calc_next_expiration_run s rc s' : calc_next_expiration s = Ret rc s' →
  ∃ it, s' = set_kernel_timer it s.
Proof.
  unfold calc_next_expiration. run. destruct (min_expiry _).
  - destruct (setitimer _ _ _) as [it ?]. run. intros [_ <-]%Ret_inj. by exists it.
  - intros [_ <-]%Ret_inj. exists (kernel_timer s). by destruct s.
Qed.

Lemma unlink_timer_run r s a s' : unlink_timer r s = Ret a s' →
  existsb (has_ref r) (timer_list s) = true ∧ s' = set_timer_list (unlinked r s) s.
Proof.
  unfold unlink_timer. run. cbn [timers gsmd_timers]. destruct (existsb _ _) eqn:E; [|done].
  run. by intros [_ <-]%Ret_inj.
Qed.

Lemma gsmd_timer_register_run t s rc s' : gsmd_timer_register t s = Ret rc s' →
  ∃ e it, s' = set_kernel_timer it (set_timer_list (timer_list s ++ [Timer (tmr_ref t) e (tmr_cb t)]) s).
Proof.
  unfold gsmd_timer_register. run. intros (? & ? & (it & ->)%calc_next_expiration_run & [_ <-]%Ret_inj)%bind_Ret.
  by eexists _, it.
Qed.

Lemma keeps_unlink_timer `{!TimerEffects d R} r : keeps R (unlink_timer r).
Proof. intros s a s' (_ & ->)%unlink_timer_run. apply eff_unlink. Qed.
#[export] Hint Resolve keeps_calc_next_expiration keeps_unlink_timer : keeps.
Lemma keeps_gsmd_timer_unregister `{!TimerEffects d R} r : keeps R (gsmd_timer_unregister r).
Proof. unfold gsmd_timer_unregister. solve_keeps. Qed.
Lemma keeps_gsmd_timer_create `{!TimerEffects d R} e cb : keeps R (gsmd_timer_create e cb).
Proof.
  unfold gsmd_timer_create. cbn [talloc_ok fresh gsmd_timers].
  apply keeps_bind; [typeclasses eauto | apply keeps_talloc|]. intros []; [|solve_keeps].
  intros s o s' (r & s1 & H1 & (rc & s2 & (e' & it & ->)%gsmd_timer_register_run & [_ <-]%Ret_inj)%bind_Ret)%bind_Ret.
  apply Ret_inj in H1 as [<- <-]. etrans; [|apply eff_itimer]. cbn. by apply eff_create.
Qed.
#[export] Hint Resolve keeps_gsmd_timer_create keeps_gsmd_timer_unregister : keeps.
