(* ===== verification/Events.v ===== *)
(** * Messages to the clients (usock.c 48-63, 854-871; unsolicited.c 40-94)

    Building a message, queueing it for one client, and sending an event to every
    client that subscribed to it. *)

From S2P Require Import Prelude CString Enums Wire ExtRsp State Queue.

(** ** One message *)

(** The [struct llist_head] that precedes the header in [struct gsmd_ucmd]. *)
Definition sizeof_llist_head : Z := 8.
Definition sizeof_ucmd : Z := sizeof_llist_head + Z.of_nat sizeof_hdr.

Definition ucmd_alloc : G bool := talloc.

Definition enqueue (u : gsmd_ucmd) (gu : gsmd_user) : gsmd_user :=
  User (gu_ref gu) (gu_finished_ucmds gu ++ [u]) true (gu_subscriptions gu).

Definition usock_cmd_enqueue (u : gsmd_ucmd) (c : ctx) : G unit :=
  gu ← user_of c;
  modify (λ s, set_users (update_user (gu_ref gu) (enqueue u) (users s)) s).

(** [data] is the whole object sent, of length [len]. *)
Definition gsmd_ucmd_submit (c : ctx) (msg_type msg_subtype id : Z) (data : mem) : G Z :=
  ok ← ucmd_alloc;
  if ok : bool then
    usock_cmd_enqueue
      (Ucmd (Hdr GSMD_PROTO_VERSION msg_type msg_subtype None (Some (u16 id))
               (u16 (Z.of_nat (length data)))) data) c;;
    mret 0
  else mret (- ENOMEM).

(** ** Events *)

Definition usock_build_event (type subtype : Z) (len : nat) : G (option gsmd_ucmd) :=
  ok ← ucmd_alloc;
  if ok : bool then
    mret (Some (Ucmd (Hdr GSMD_PROTO_VERSION type subtype None None (u16 (Z.of_nat len)))
                  (undef len)))
  else mret None.

(** [memcpy(copy, orig, orig->hdr.len)]: the [hdr.len] bytes from the start of the
    structure, its list head and header included, so that the last [sizeof_ucmd]
    bytes of the payload are not copied. *)
Definition ucmd_dup (orig : gsmd_ucmd) : gsmd_ucmd :=
  let n := Z.to_nat (h_len (uc_hdr orig)) in
  let k := (n - Z.to_nat sizeof_ucmd)%nat in
  Ucmd (uc_hdr orig) (take k (uc_buf orig) ++ undef (n - k)).

Definition ucmd_copy (orig : gsmd_ucmd) : G (option gsmd_ucmd) :=
  ok ← ucmd_alloc;
  if ok : bool then
    must (sizeof_ucmd <=? h_len (uc_hdr orig)) "a copy without a complete header";;
    mret (Some (ucmd_dup orig))
  else mret None.

Definition subscribed (evt : Z) (gu : gsmd_user) : bool := Z.testbit (gu_subscriptions gu) evt.

Fixpoint evt_send_loop (gus : list gsmd_user) (ucmd : gsmd_ucmd) (evt num_sent : Z) : G Z :=
  match gus with
  | [] => mret num_sent
  | gu :: gus' =>
      if subscribed evt gu then
        if num_sent =? 0 then
          usock_cmd_enqueue ucmd (CtxUser (gu_ref gu));;
          evt_send_loop gus' ucmd evt (num_sent + 1)
        else
          cpy ← ucmd_copy ucmd;
          match cpy with
          | None => mret num_sent
          | Some cpy =>
              usock_cmd_enqueue cpy (CtxUser (gu_ref gu));;
              evt_send_loop gus' ucmd evt (num_sent + 1)
          end
      else evt_send_loop gus' ucmd evt num_sent
  end.

Definition usock_evt_send (ucmd : gsmd_ucmd) (evt : Z) : G Z :=
  s ← get; evt_send_loop (users s) ucmd evt 0.

(** The common shape of the event generators: [aux] is the event's data. *)
Definition send_aux (ucmd : gsmd_ucmd) (evt : Z) (aux : mem) : G Z :=
  usock_evt_send (Ucmd (uc_hdr ucmd) aux) evt.

Definition aux_undef : mem := undef sizeof_evt_auxdata.

(** ** The table of unsolicited result codes

    256 entries, the last used one being followed by a terminator; an array is put
    in front of what is there. *)

Definition UNSOLICIT_SIZE : Z := 256.

Definition unsolicited_register_array (arr : list (list Z * unsol_parser)) : G Z :=
  s ← get;
  let curlen := Z.of_nat (length (unsolicit s)) + 1 in
  if UNSOLICIT_SIZE <? Z.of_nat (length arr) + curlen then mret (- ENOMEM)
  else modify (λ s, set_unsolicit (arr ++ unsolicit s) s);; mret 0.

(** ** Parsing a response

    [extrsp_parse] allocates its result; NULL for NULL, for the empty string, and
    when that fails. *)

Definition extrsp_parse (input : option (list Z)) : G (option gsm_extrsp) :=
  match input with
  | None | Some [] => mret None
  | Some input =>
      ok ← talloc;
      if ok : bool then
        er ← deref (extrsp_run input) "extrsp_parse: too many tokens or characters";
        mret (Some er)
      else mret None
  end.

(** ** Reading a request

    A request is the bytes received, header included; a read outside them reads
    indeterminate bytes of the receive buffer. *)

Definition req8 (m : list Z) (off : nat) : G Z := deref (rd8 m off) "read beyond the request".
Definition req32 (m : list Z) (off : nat) : G Z := deref (rd32 m off) "read beyond the request".
Definition req_str (m : list Z) (off : nat) : G (list Z) :=
  deref (cstr_at m off) "string not terminated in the request".

(** [atcmd_fill] with a text that is then overwritten by [sprintf(cmd->buf, ...)]. *)
Definition fill_sprintf (text0 : list Z) (rlen : Z) (cb : atcmd_cb) (c : ctx) (id : Z)
    (text : list Z) : G (option gsmd_atcmd) :=
  cmd ← atcmd_fill text0 rlen (Some cb) c id None;
  match cmd with
  | None => mret None
  | Some cmd => cmd ← deref (sprintf_buf text cmd) "sprintf beyond cmd->buf"; mret (Some cmd)
  end.

(** [atcmd_fill(buf, atcmd_len + 1, ...)] after [atcmd_len = sprintf(buf, ...)],
    [buf] being an array of 1024 bytes. *)
Definition fill_buf1024 (text : list Z) (cb : option atcmd_cb) (c : ctx) (id : Z) :
    G (option gsmd_atcmd) :=
  must (Z.of_nat (length text) <? 1024) "sprintf beyond buf";;
  atcmd_fill text (Z.of_nat (length text) + 1) cb c id None.

(** ** Lemmas *)

#[export] Hint Transparent mem gsm_extrsp : keeps.

Lemma keeps_usock_cmd_enqueue `{!Effects d R} u c : keeps R (usock_cmd_enqueue u c).
Proof.
  unfold usock_cmd_enqueue. solve_keeps. apply keeps_modify. intros s. by apply eff_users.
Qed.
#[export] Hint Resolve keeps_usock_cmd_enqueue : keeps.

Lemma keeps_unsolicited_register_array `{!Effects d R} a : keeps R (unsolicited_register_array a).
Proof.
  intros s rc s'. unfold unsolicited_register_array. run.
  destruct (Z.ltb_spec UNSOLICIT_SIZE (Z.of_nat (length a) + (Z.of_nat (length (unsolicit s)) + 1)));
    intros [= _ <-]; [reflexivity|]. apply eff_unsolicit. unfold UNSOLICIT_SIZE in *. lia.
Qed.
Lemma keeps_extrsp_parse `{!Effects d R} i : keeps R (extrsp_parse i).
Proof. unfold extrsp_parse. solve_keeps. Qed.
Lemma keeps_req8 `{!Effects d R} m o : keeps R (req8 m o).
Proof. unfold req8. solve_keeps. Qed.
Lemma keeps_req32 `{!Effects d R} m o : keeps R (req32 m o).
Proof. unfold req32. solve_keeps. Qed.
Lemma keeps_req_str `{!Effects d R} m o : keeps R (req_str m o).
Proof. unfold req_str. solve_keeps. Qed.
Lemma keeps_fill_sprintf `{!Effects d R} t n cb c i u : keeps R (fill_sprintf t n cb c i u).
Proof. unfold fill_sprintf. solve_keeps. Qed.
Lemma keeps_fill_buf1024 `{!Effects d R} t cb c i : keeps R (fill_buf1024 t cb c i).
Proof. unfold fill_buf1024. solve_keeps. Qed.
#[export] Hint Resolve keeps_unsolicited_register_array keeps_extrsp_parse keeps_req8 keeps_req32
  keeps_req_str keeps_fill_sprintf
  keeps_fill_buf1024 : keeps.

Lemma fill_sprintf_new d t n cb c i u o :
  returns (fill_sprintf t n cb c i u) o → ctx_in d c → opt_new d o.
Proof.
  intros ([cmd|] & H & H')%returns_bind Hc; [|by apply returns_mret in H' as <-].
  apply returns_bind in H' as (cmd' & H' & <-%returns_mret).
  apply (sprintf_deref_new d _ _ _ _ H'), (atcmd_fill_new _ _ _ _ _ _ _ _ H Hc).
Qed.
Lemma fill_buf1024_new d t cb c i o : returns (fill_buf1024 t cb c i) o → ctx_in d c → opt_new d o.
Proof. intros (_ & _ & H)%returns_bind. by eapply atcmd_fill_new. Qed.
#[export] Hint Resolve fill_sprintf_new fill_buf1024_new : keeps.

Lemma keeps_gsmd_ucmd_submit `{!Effects d R} c t st id x : keeps R (gsmd_ucmd_submit c t st id x).
Proof. unfold gsmd_ucmd_submit, ucmd_alloc. solve_keeps. Qed.
Lemma keeps_usock_build_event `{!Effects d R} t st n : keeps R (usock_build_event t st n).
Proof. unfold usock_build_event, ucmd_alloc. solve_keeps. Qed.
Lemma keeps_ucmd_copy `{!Effects d R} o : keeps R (ucmd_copy o).
Proof. unfold ucmd_copy, ucmd_alloc. solve_keeps. Qed.
#[export] Hint Resolve keeps_gsmd_ucmd_submit keeps_usock_build_event keeps_ucmd_copy : keeps.
Lemma keeps_evt_send_loop `{!Effects d R} l u e n : keeps R (evt_send_loop l u e n).
Proof.
  revert n. induction l as [|gu l IH]; intros n; cbn [evt_send_loop]; solve_keeps; apply IH.
Qed.
#[export] Hint Resolve keeps_evt_send_loop : keeps.
Lemma keeps_usock_evt_send `{!Effects d R} u e : keeps R (usock_evt_send u e).
Proof. unfold usock_evt_send. solve_keeps. Qed.
Lemma keeps_send_aux `{!Effects d R} u e a : keeps R (send_aux u e a).
Proof. apply keeps_usock_evt_send. Qed.
#[export] Hint Resolve keeps_usock_evt_send keeps_send_aux : keeps.

Lemma find_user_mid u pre suf : gu_ref u ∉ gu_ref <$> pre →
  find_user (gu_ref u) (pre ++ u :: suf) = Some u.
Proof.
  induction pre as [|v pre IH]; cbn; intros Hn.
  - by rewrite Z.eqb_refl.
  - rewrite not_elem_of_cons in Hn. destruct Hn as [Hv Hn].
    destruct (Z.eqb_spec (gu_ref v) (gu_ref u)); [congruence|]. by apply IH.
Qed.

Lemma update_user_out r f l : r ∉ gu_ref <$> l → update_user r f l = l.
Proof.
  unfold update_user. induction l as [|v l IH]; cbn; intros Hn; [done|].
  rewrite not_elem_of_cons in Hn. destruct Hn as [Hv Hn].
  destruct (Z.eqb_spec (gu_ref v) r); [congruence|]. by rewrite IH.
Qed.

Lemma update_user_mid u f pre suf : NoDup (gu_ref <$> pre ++ u :: suf) →
  update_user (gu_ref u) f (pre ++ u :: suf) = pre ++ f u :: suf.
Proof.
  rewrite fmap_app, fmap_cons. intros (H1 & H2 & H3%NoDup_cons)%NoDup_app.
  assert (gu_ref u ∉ gu_ref <$> pre) by (intros Hin; apply (H2 _ Hin), elem_of_cons; by left).
  unfold update_user. rewrite fmap_app, fmap_cons, Z.eqb_refl.
  fold (update_user (gu_ref u) f pre) (update_user (gu_ref u) f suf).
  by rewrite !update_user_out by (done || apply H3).
Qed.

(** Queueing a message for a connected client. *)
Lemma usock_cmd_enqueue_run s pre u suf m :
  users s = pre ++ u :: suf → NoDup (gu_ref <$> users s) →
  usock_cmd_enqueue m (CtxUser (gu_ref u)) s = Ret tt (set_users (pre ++ enqueue m u :: suf) s).
Proof.
  intros Hu Hnd. unfold usock_cmd_enqueue, user_of. run. rewrite Hu in *.
  rewrite find_user_mid; [run|].
  - unfold modify. by rewrite Hu, update_user_mid.
  - rewrite fmap_app, fmap_cons in Hnd. apply NoDup_app in Hnd as (_ & H2 & _).
    intros Hin. apply (H2 _ Hin), elem_of_cons. by left.
Qed.

(** ** The delivery of an event *)

(** What the [i]-th client of [us] has after the event: the first subscriber gets
    the message itself, every later one a copy. *)
Definition delivered (us : list gsmd_user) (m : gsmd_ucmd) (evt : Z) (i : nat) (u : gsmd_user) :
    gsmd_user :=
  if subscribed evt u
  then enqueue (if existsb (subscribed evt) (take i us) then ucmd_dup m else m) u
  else u.

Definition num_subscribed (evt : Z) (us : list gsmd_user) : Z :=
  Z.of_nat (length (List.filter (subscribed evt) us)).

Lemma num_subscribed_0 evt us :
  (num_subscribed evt us =? 0) = negb (existsb (subscribed evt) us).
Proof.
  unfold num_subscribed. induction us as [|u us IH]; [done|]. cbn.
  by destruct (subscribed evt u).
Qed.

Lemma num_subscribed_snoc evt us u :
  num_subscribed evt (us ++ [u]) = num_subscribed evt us + (if subscribed evt u then 1 else 0).
Proof.
  unfold num_subscribed. rewrite List.filter_app, length_app. cbn.
  destruct (subscribed evt u); cbn; lia.
Qed.

Lemma delivered_ref us m evt i u : gu_ref (delivered us m evt i u) = gu_ref u.
Proof. unfold delivered. by destruct (subscribed evt u). Qed.

Lemma imap_delivered_refs us m evt l k :
  gu_ref <$> imap (λ i, delivered us m evt (k + i)) l = gu_ref <$> l.
Proof.
  revert k. induction l as [|u l IH]; intros k; cbn; [done|].
  rewrite delivered_ref. f_equal. etrans; [|apply (IH (S k))]. f_equal. apply imap_ext.
  intros i x _. cbn. f_equal. lia.
Qed.

Lemma evt_send_loop_run us m evt suf pre s :
  us = pre ++ suf → oracle s = [] → NoDup (gu_ref <$> us) → sizeof_ucmd ≤ h_len (uc_hdr m) →
  users s = imap (delivered us m evt) pre ++ suf →
  evt_send_loop suf m evt (num_subscribed evt pre) s =
  Ret (num_subscribed evt us) (set_users (imap (delivered us m evt) us) s).
Proof.
  intros -> Ho Hnd Hlen. revert pre s Ho Hnd. induction suf as [|u suf IH]; intros pre s Ho Hnd Hu.
  { cbn. rewrite !app_nil_r in *. rewrite <- Hu. by destruct s. }
  set (us := pre ++ u :: suf) in *.
  assert (Hpre : take (length pre) us = pre) by apply take_app_length.
  assert (Hd : imap (delivered us m evt) (pre ++ [u]) =
               imap (delivered us m evt) pre ++ [delivered us m evt (length pre) u]).
  { rewrite imap_app. cbn. by rewrite Nat.add_0_r. }
  assert (Hus : us = (pre ++ [u]) ++ suf) by (unfold us; by rewrite <- app_assoc).
  assert (Hrefs : gu_ref <$> users s = gu_ref <$> us).
  { rewrite Hu. unfold us. rewrite !fmap_app. f_equal.
    apply (imap_delivered_refs us m evt pre 0). }
  specialize (IH (pre ++ [u])). rewrite <- Hus in IH. rewrite Hd in IH.
  rewrite num_subscribed_snoc in IH. cbn [evt_send_loop].
  assert (Hdu : delivered us m evt (length pre) u =
    if subscribed evt u
    then enqueue (if existsb (subscribed evt) pre then ucmd_dup m else m) u else u)
    by (unfold delivered; by rewrite Hpre).
  rewrite Hdu in IH. destruct (subscribed evt u) eqn:Eu.
  2:{ rewrite Z.add_0_r in IH. apply IH; [done|done|]. by rewrite <- app_assoc, Hu. }
  rewrite num_subscribed_0. rewrite <- Hrefs in Hnd.
  destruct (existsb (subscribed evt) pre) eqn:Ex; cbn [negb].
  - rewrite (bind_step _ _ s (Some (ucmd_dup m)) s).
    2:{ unfold ucmd_copy, ucmd_alloc, talloc. run_all. rewrite Ho.
        by rewrite (proj2 (Z.leb_le _ _) Hlen). }
    rewrite (bind_step _ _ _ _ _ (usock_cmd_enqueue_run s _ u suf _ Hu Hnd)).
    rewrite IH; [done|done|by rewrite Hrefs in Hnd|by rewrite <- app_assoc].
  - rewrite (bind_step _ _ _ _ _ (usock_cmd_enqueue_run s _ u suf _ Hu Hnd)).
    rewrite IH; [done|done|by rewrite Hrefs in Hnd|by rewrite <- app_assoc].
Qed.

(** [C36] An event is delivered to the clients that subscribed to it and to no
    other: when no allocation fails, each subscriber finds exactly one message
    more at the end of its queue and is polled for writing, the first of them the
    event itself and the others a copy; the number of subscribers is returned and
    nothing else of the daemon changes. *)
Theorem usock_evt_send_delivers s m evt :
  oracle s = [] → NoDup (gu_ref <$> users s) → sizeof_ucmd ≤ h_len (uc_hdr m) →
  usock_evt_send m evt s =
  Ret (num_subscribed evt (users s)) (set_users (imap (delivered (users s) m evt) (users s)) s).
Proof.
  intros Ho Hnd Hlen. unfold usock_evt_send. rewrite bind_get.
  by apply (evt_send_loop_run (users s) m evt (users s) []).
Qed.

Module Examples.
Definition ex_user (r subs : Z) : gsmd_user := User r [] false subs.
Definition ex_state : gsmd :=
  Gsmd 0 true false (LLParse.LLP LLParse.LLPARSE_STATE_IDLE 0 [])
    [ex_user 3 2; ex_user 2 4; ex_user 1 6] [] [] None None
    (DevState 0 0 0 false false None) [] [] false 0 false false []
    [] None (Timers.TV 0 0) [] 4 [] [].
Definition ex_event : gsmd_ucmd :=
  Ucmd (Hdr GSMD_PROTO_VERSION GSMD_MSG_EVENT GSMD_EVT_IN_CALL None None 20)
       (known (replicate 20 7)).

Lemma usock_evt_send_delivers_witness :
  usock_evt_send ex_event 1 ex_state =
  Ret 2 (set_users [enqueue ex_event (ex_user 3 2); ex_user 2 4;
                    enqueue (Ucmd (uc_hdr ex_event) (known [7; 7; 7; 7] ++ undef 16))
                            (ex_user 1 6)] ex_state).
Proof.
  refine (eq_trans (usock_evt_send_delivers ex_state ex_event 1 _ _ _) _).
  - reflexivity.
  - apply (bool_decide_unpack _). vm_compute. exact I.
  - vm_compute. discriminate.
  - vm_compute. reflexivity.
Defined.
End Examples.
