(* ===== verification/OpCache.v ===== *)
(** * The operator name cache (operator_cache.c)

    A list of operator names keyed by country and network code. *)

From S2P Require Import Prelude CString Wire State Queue.

Definition op_key (o : opname) : Z * Z := (op_mcc o, op_mnc o).

Definition _opname_add (op : opname) : G Z :=
  modify (λ s, set_operators (filter (λ cur, op_key cur ≠ op_key op) (operators s) ++ [op]) s);;
  mret 0.

(** The country and network codes of a string of five characters. *)
Definition mcc_of (n : list Z) : Z := u16 (atoi (take 3 n)).
Definition mnc_of (n : list Z) : Z := u8 (atoi (take 2 (drop 3 n))).

Definition gsmd_opname_add (numeric_bcd_string alnum_long : list Z) : G Z :=
  if negb (length numeric_bcd_string =? 5)%nat then mret (- EINVAL)
  else
    ok ← talloc;
    if ok : bool then
      _opname_add (Opname (mcc_of numeric_bcd_string) (mnc_of numeric_bcd_string)
                     (take 16 alnum_long))
    else mret (- ENOMEM).

Definition gsmd_opname_init : G Z := modify (set_operators []);; mret 0.

Lemma keeps_gsmd_opname_add `{!Effects d R} n a : keeps R (gsmd_opname_add n a).
Proof.
  unfold gsmd_opname_add, _opname_add. solve_keeps.
  apply keeps_modify. intros t. apply (eff_opname (Opname _ _ _)).
Qed.
#[export] Hint Resolve keeps_gsmd_opname_add : keeps.

(** ** Specification: a finite map from codes to names *)

Definition op_lookup (k : Z * Z) (ops : list opname) : option (list Z) :=
  op_alnum_long <$> find (λ o, bool_decide (op_key o = k)) ops.

Definition op_wf (ops : list opname) : Prop := NoDup (op_key <$> ops).

Lemma op_lookup_app k l1 l2 :
  op_lookup k (l1 ++ l2) =
  match op_lookup k l1 with Some x => Some x | None => op_lookup k l2 end.
Proof.
  unfold op_lookup. induction l1 as [|o l1 IH]; [done|]. cbn. by case_bool_decide.
Qed.

Lemma op_lookup_one k o :
  op_lookup k [o] = if bool_decide (op_key o = k) then Some (op_alnum_long o) else None.
Proof. unfold op_lookup. cbn. by case_bool_decide. Qed.

Lemma op_lookup_filter k k' ops :
  op_lookup k (filter (λ cur, op_key cur ≠ k') ops) = if bool_decide (k = k') then None else op_lookup k ops.
Proof.
  unfold op_lookup. induction ops as [|o ops IH]; [by case_bool_decide|].
  destruct (decide (op_key o ≠ k')) as [Hk|Hk].
  - rewrite filter_cons_True by done. cbn [find]. revert IH.
    repeat case_bool_decide; cbn; congruence.
  - rewrite filter_cons_False by done. apply dec_stable in Hk. cbn [find]. revert IH.
    repeat case_bool_decide; cbn; congruence.
Qed.

Lemma op_wf_add op ops : op_wf ops → op_wf (filter (λ cur, op_key cur ≠ op_key op) ops ++ [op]).
Proof.
  unfold op_wf. intros Hnd. rewrite fmap_app. apply NoDup_app. split_and!.
  - eapply sublist_NoDup; [exact Hnd|]. apply fmap_sublist, sublist_filter.
  - intros k Hin. apply list_elem_of_fmap in Hin as (o & -> & [Ho _]%list_elem_of_filter).
    cbn. rewrite list_elem_of_singleton. done.
  - apply NoDup_singleton.
Qed.

(** The operator cache is a finite map: adding the name of a five-digit code
    keeps one entry per code, makes the code's name the one given (its first 16
    characters) whatever it was before, and leaves the names of the other codes;
    a code of another length is refused, and nothing changes. *)
Theorem gsmd_opname_add_spec s n a : oracle s = [] → op_wf (operators s) →
  (length n = 5%nat →
    ∃ ops, gsmd_opname_add n a s = Ret 0 (set_operators ops s) ∧ op_wf ops ∧
      (∀ k, op_lookup k ops =
            if bool_decide (k = (mcc_of n, mnc_of n)) then Some (take 16 a)
            else op_lookup k (operators s))) ∧
  (length n ≠ 5%nat → gsmd_opname_add n a s = Ret (- EINVAL) s).
Proof.
  intros Ho Hwf. unfold gsmd_opname_add. split; intros Hn.
  - eexists. rewrite Hn. cbn [negb Nat.eqb]. split_and!.
    + unfold talloc, _opname_add. run_all. by rewrite Ho.
    + by apply op_wf_add.
    + intros k. rewrite op_lookup_app, op_lookup_filter.
      rewrite op_lookup_one. unfold op_key. cbn [op_mcc op_mnc op_alnum_long].
      repeat case_bool_decide; try congruence. by destruct (op_lookup k (operators s)).
  - rewrite (proj2 (Nat.eqb_neq _ _) Hn). reflexivity.
Qed.

Module Examples.
Definition ex_state : gsmd :=
  set_operators [Opname 262 2 (b "D2"); Opname 262 1 (b "D1")] (Gsmd 0 true false
    (LLParse.LLP LLParse.LLPARSE_STATE_IDLE 0 []) [] [] [] None None
    (DevState 0 0 0 false false None) [] [] false 0 false false []
    [] None (Timers.TV 0 0) [] 4 [] []).

Lemma gsmd_opname_add_witness :
  gsmd_opname_add (b "26202") (b "Vodafone Germany GmbH") ex_state =
    Ret 0 (set_operators [Opname 262 1 (b "D1"); Opname 262 2 (b "Vodafone Germany")] ex_state) ∧
  ∃ ops, gsmd_opname_add (b "26202") (b "Vodafone Germany GmbH") ex_state =
           Ret 0 (set_operators ops ex_state) ∧ op_wf ops ∧
         op_lookup (262, 1) ops = Some (b "D1").
Proof.
  split; [vm_compute; reflexivity|].
  destruct (gsmd_opname_add_spec ex_state (b "26202") (b "Vodafone Germany GmbH")) as [H _].
  - reflexivity.
  - apply (bool_decide_unpack _). vm_compute. exact I.
  - destruct H as (ops & H1 & H2 & H3); [vm_compute; reflexivity|].
    exists ops. split_and!; [exact H1 | exact H2 | rewrite H3; vm_compute; reflexivity].
Defined.
End Examples.
