(* ===== verification/SmsCb.v ===== *)
(** * Short messages and cell broadcast (src/target/gsm/src/gsmd/sms_cb.c)

    The callbacks that turn the modem's responses into messages for the client,
    the requests of the clients, the unsolicited result codes, and the set-up. *)

From S2P Require Import Prelude CString Enums Wire ExtRsp Pdu State Queue Events.

(** ** Memory types *)

Definition ts0705_memtype_name : list (list Z) :=
  [b "NONE"; b "BM"; b "ME"; b "MT"; b "SM"; b "TA"; b "SR"].

Fixpoint memtype_index (i : Z) (names : list (list Z)) (memtype : list Z) : Z :=
  match names with
  | [] => 0
  | n :: names' => if str_eq n memtype then i else memtype_index (i + 1) names' memtype
  end.

Definition parse_memtype (memtype : list Z) : Z := memtype_index 0 ts0705_memtype_name memtype.

(** ** Reading a PDU in hexadecimal *)

(** At most [max] octets, as long as two characters not below ['0'] follow;
    [None] when one of them is not a digit. *)
Fixpoint read_pdu (max : nat) (s : list Z) : option (list Z) :=
  match max, s with
  | S max', c0 :: c1 :: s' =>
      if (ch "0" <=? c0) && (ch "0" <=? c1) then
        x ← scan_hex2 c0 c1; r ← read_pdu max' s'; Some (x :: r)
      else Some []
  | _, _ => Some []
  end.

(** A decoder's result: NULL for a malformed PDU. *)
Definition of_pdu {A} (r : pdu_res A) : G (option A) :=
  match r with
  | Ok a => mret (Some a)
  | Bad => mret None
  | Over => undefined "read beyond the octets of the PDU"
  end.

(** ** Callbacks *)

Definition quoted_opt : list dir := [D_lit DQ; D_set notquote None false; D_lit DQ].

Definition cmgl_fmt1 : list dir :=
  lits (b "+CMGL: ") ++ [D_int true; D_lit (ch ","); D_int true] ++ lits (b ",,") ++
  [D_int true; D_ws; D_cnt].
Definition cmgl_fmt2 : list dir :=
  lits (b "+CMGL: ") ++ [D_int true; D_lit (ch ","); D_int true; D_lit (ch ",")] ++
  quoted_opt ++ [D_lit (ch ","); D_int true; D_ws; D_cnt].

Definition cmgl_scan (resp : list Z) : option (Z * Z * Z * nat) :=
  match sscanf resp cmgl_fmt1 with
  | [VI idx; VI stat; VI len; VN cr] => Some (idx, stat, len, cr)
  | _ => match sscanf resp cmgl_fmt2 with
         | [VI idx; VI stat; VI len; VN cr] => Some (idx, stat, len, cr)
         | _ => None
         end
  end.

Definition cmgr_fmt1 : list dir :=
  lits (b "+CMGR: ") ++ [D_int true] ++ lits (b ",,") ++ [D_int true; D_ws; D_cnt].
Definition cmgr_fmt2 : list dir :=
  lits (b "+CMGR: ") ++ [D_int true; D_lit (ch ",")] ++ quoted_opt ++
  [D_lit (ch ","); D_int true; D_ws; D_cnt].

Definition cmgr_scan (resp : list Z) : option (Z * Z * nat) :=
  match sscanf resp cmgr_fmt1 with
  | [VI stat; VI len; VN cr] => Some (stat, len, cr)
  | _ => match sscanf resp cmgr_fmt2 with
         | [VI stat; VI len; VN cr] => Some (stat, len, cr)
         | _ => None
         end
  end.

(** The message of the PDU at [text], for a client. *)
Definition submit_pdu (cmd : gsmd_atcmd) (c : ctx) (subtype : Z) (msg : gsmd_sms_list)
    (text : list Z) (len : Z) : G Z :=
  match read_pdu SMS_MAX_PDU_SIZE text with
  | None => mret (- EINVAL)
  | Some pdu =>
      m ← of_pdu (sms_pdu_to_msg msg pdu len (Z.of_nat (length pdu)));
      match m with
      | None => mret (- EINVAL)
      | Some m => gsmd_ucmd_submit c GSMD_MSG_SMS subtype (ac_id cmd) (enc_sms_list m)
      end
  end.

Definition with_head (idx stat is_last : Z) : gsmd_sms_list :=
  SmsList (Some idx) (Some stat) (undef 7) addr_undef sms_undef (Some is_last).

Definition sms_list_cb (cmd : gsmd_atcmd) (c : ctx) (resp : list Z) : G Z :=
  if negb (ac_ret cmd =? 0) && negb (ac_ret cmd =? NO_RESULT) then mret 0
  else
    match cmgl_scan resp with
    | None => mret (- EINVAL)
    | Some (idx, stat, len, cr) =>
        if 164 <? len then mret (- EINVAL)
        else submit_pdu cmd c GSMD_SMS_LIST
               (with_head idx stat (if ac_ret cmd =? 0 then 1 else 0)) (drop cr resp) len
    end.

Definition sms_read_cb (cmd : gsmd_atcmd) (c : ctx) (resp : list Z) : G Z :=
  if negb (ac_ret cmd =? 0) then mret 0
  else
    match cmgr_scan resp with
    | None => mret (- EINVAL)
    | Some (stat, len, cr) =>
        if 164 <? len then mret (- EINVAL)
        else
          let index := match strchr (ac_text cmd) (ch "=") with
                       | Some e => if strn_eq 7 (ac_text cmd) (b "AT+CMGR") then atoi (tail e) else 0
                       | None => 0
                       end in
          submit_pdu cmd c GSMD_SMS_READ (with_head index stat 1) (drop cr resp) len
    end.

(** [sscanf(resp, "<prefix>%i", ...)]. *)
Definition scan_ref (prefix resp : list Z) : Z :=
  match sscanf resp (lits prefix ++ [D_int true]) with
  | [VI r] => r
  | _ => - EINVAL
  end.

Definition sms_send_cb (cmd : gsmd_atcmd) (c : ctx) (resp : list Z) : G Z :=
  let msgref := if (ac_ret cmd =? 0) || (ac_ret cmd =? NO_RESULT)
                then scan_ref (b "+CMGS: ") resp else s32 (- ac_ret cmd) in
  gsmd_ucmd_submit c GSMD_MSG_SMS GSMD_SMS_SEND (ac_id cmd) (f32 (Some msgref)).

Definition sms_write_cb (cmd : gsmd_atcmd) (c : ctx) (resp : list Z) : G Z :=
  let result := if ac_ret cmd =? 0
                then scan_ref (b "+CMGW: ") resp else s32 (- ac_ret cmd) in
  gsmd_ucmd_submit c GSMD_MSG_SMS GSMD_SMS_WRITE (ac_id cmd) (f32 (Some result)).

Definition sms_delete_cb (cmd : gsmd_atcmd) (c : ctx) (resp : list Z) : G Z :=
  gsmd_ucmd_submit c GSMD_MSG_SMS GSMD_SMS_DELETE (ac_id cmd) (f32 (Some (ac_ret cmd))).

(** One of the three [\"%2[A-Z]\",%hi,%hi] of a [+CPMS:] response. *)
Definition cpms_part : list dir :=
  [D_lit DQ; D_set isupper (Some 2%nat) true; D_lit DQ; D_lit (ch ","); D_int true;
   D_lit (ch ","); D_int true].

Definition enc_storage (memtype used total : Z) : mem :=
  f8 (Some memtype) ++ undef 3 ++ f16 (Some used) ++ f16 (Some total).

Definition usock_cpms_cb (cmd : gsmd_atcmd) (c : ctx) (resp : list Z) : G Z :=
  ok ← ucmd_alloc;
  if ok : bool then
    match sscanf resp (lits (b "+CPMS: ") ++ cpms_part ++ [D_lit (ch ",")] ++ cpms_part ++
                       [D_lit (ch ",")] ++ cpms_part) with
    | [VS b0; VI u0; VI t0; VS b1; VI u1; VI t1; VS b2; VI u2; VI t2] =>
        let data := enc_storage (parse_memtype b0) u0 t0 ++ enc_storage (parse_memtype b1) u1 t1 ++
                    enc_storage (parse_memtype b2) u2 t2 in
        usock_cmd_enqueue (Ucmd (Hdr GSMD_PROTO_VERSION GSMD_MSG_SMS GSMD_SMS_GET_MSG_STORAGE None
                                   (Some (ac_id cmd)) (Z.of_nat (length data))) data) c;;
        mret 0
    | _ => mret (- EINVAL)
    end
  else mret (- ENOMEM).

Definition usock_get_smsc_cb (cmd : gsmd_atcmd) (c : ctx) (resp : list Z) : G Z :=
  match sscanf resp (lits (b "+CSCA: ") ++ [D_lit DQ; D_set notquote (Some 31%nat) true; D_lit DQ;
                     D_lit (ch ","); D_int true]) with
  | [VS number; VI type] =>
      gsmd_ucmd_submit c GSMD_MSG_SMS GSMD_SMS_GET_SERVICE_CENTRE (ac_id cmd)
        (enc_addr (Addr (Some type) (strlcpy_field (GSMD_ADDR_MAXLEN + 1) number)))
  | _ => mret (- EINVAL)
  end.

(** ** Requests of the clients *)

Definition gsmd_cmgl_stat : list (list Z) :=
  [b "REC UNREAD"; b "REC READ"; b "STO UNSENT"; b "STO SENT"; b "ALL"].

Definition quoted (s : list Z) : list Z := [DQ] ++ s ++ [DQ].

(** [%.*s] of the bytes at an offset of the request. *)
Definition req_prefix (m : list Z) (off : nat) (n : nat) : G (list Z) :=
  let avail := drop off m in
  must (bool_decide (0 ∈ take n avail) || (n <=? length avail)%nat) "read beyond the request";;
  mret (until0 (take n avail)).

(** The request at [off] as [sms_pdu_make_smssubmit] reads it. *)
Definition req_submit (m : list Z) (off : nat) : G gsmd_sms_submit :=
  deref (dec_sms_submit (drop off m)) "submit beyond the request".

(** The text of [AT+CMGS] and [AT+CMGW], up to and without the Ctrl-Z. *)
Definition send_text (m : list Z) (off : nat) (cmd : list Z) (stat : list Z) : G (list Z) :=
  s ← get;
  if flag_sms_text s then
    number ← req_str m (off + 1);
    len ← req8 m (off + 34);
    data ← req_prefix m (off + 73) (Z.to_nat len);
    mret (cmd ++ quoted number ++ [LF] ++ data)
  else
    gss ← req_submit m off;
    n ← deref (sms_pdu_make_smssubmit_len gss) "sms_pdu_make_smssubmit: header overrun";
    pdu ← deref (sms_pdu_make_smssubmit gss) "sms_pdu_make_smssubmit: data overrun";
    mret (cmd ++ dec (n - 1) ++ stat ++ [LF] ++ pdu).

Definition sms_list_text (stat : Z) (text_mode : bool) : option (list Z) :=
  if text_mode
  then name ← gsmd_cmgl_stat !! Z.to_nat stat; Some (b "AT+CMGL=" ++ quoted name)
  else Some (b "AT+CMGL=" ++ dec stat).

Definition rcv_sms_list (c : ctx) (m : list Z) (id : Z) : G (option gsmd_atcmd) :=
  stat ← req32 m sizeof_hdr;
  s ← get;
  text ← deref (sms_list_text stat (flag_sms_text s)) "gsmd_cmgl_stat";
  fill_buf1024 text (Some CB_sms_list_cb) c id.

(** The number of bytes [sprintf] and the two stores after it put in [buf]. *)
Definition fill_message (text : list Z) (cb : atcmd_cb) (c : ctx) (id : Z) : G (option gsmd_atcmd) :=
  must (Z.of_nat (length text) + 2 <=? 1024) "message beyond buf";;
  atcmd_fill (text ++ [CTRL_Z]) (Z.of_nat (length text) + 2) (Some cb) c id None.

Definition memtype_name (m : list Z) (off : nat) : G (list Z) :=
  t ← req32 m off;
  must (0 <=? t) "ts0705_memtype_name";;
  deref (ts0705_memtype_name !! Z.to_nat t) "ts0705_memtype_name".

Definition cpms_text (m : list Z) : G (list Z) :=
  m0 ← memtype_name m sizeof_hdr;
  m1 ← memtype_name m (sizeof_hdr + 4);
  m2 ← memtype_name m (sizeof_hdr + 8);
  mret (b "AT+CPMS=" ++ quoted m0 ++ [ch ","] ++ quoted m1 ++ [ch ","] ++ quoted m2).

Definition csca_text (m : list Z) : G (list Z) :=
  type ← req8 m sizeof_hdr;
  number ← req_str m (sizeof_hdr + 1);
  mret (b "AT+CSCA=" ++ quoted number ++ [ch ","] ++ dec type).

Definition usock_rcv_sms (c : ctx) (h : gsmd_msg_hdr) (m : list Z) : G Z :=
  let len := length m in
  let id := default 0 (h_id h) in
  let st := h_msg_subtype h in
  if st =? GSMD_SMS_LIST then
    if (len <? sizeof_hdr + 4)%nat then mret (- EINVAL)
    else
      stat ← req32 m sizeof_hdr;
      if (stat <? 0) || (4 <? stat) then mret (- EINVAL)
      else cmd ← rcv_sms_list c m id; submit_or_nomem cmd
  else if st =? GSMD_SMS_READ then
    if (len <? sizeof_hdr + 4)%nat then mret (- EINVAL)
    else
      index ← req32 m sizeof_hdr;
      cmd ← fill_buf1024 (b "AT+CMGR=" ++ dec index) (Some CB_sms_read_cb) c id;
      submit_or_nomem cmd
  else if st =? GSMD_SMS_SEND then
    if (len <? sizeof_hdr + sizeof_sms_submit)%nat then mret (- EINVAL)
    else
      text ← send_text m sizeof_hdr (b "AT+CMGS=") [];
      cmd ← fill_message text CB_sms_send_cb c id;
      submit_or_nomem cmd
  else if st =? GSMD_SMS_WRITE then
    if (len <? sizeof_hdr + (1 + sizeof_sms_submit))%nat then mret (- EINVAL)
    else
      stat ← req8 m sizeof_hdr;
      if 4 <? stat then mret (- EINVAL)
      else
        text ← send_text m (sizeof_hdr + 1) (b "AT+CMGW=") ([ch ","] ++ dec stat);
        cmd ← fill_message text CB_sms_write_cb c id;
        submit_or_nomem cmd
  else if st =? GSMD_SMS_DELETE then
    if (len <? sizeof_hdr + 2)%nat then mret (- EINVAL)
    else
      index ← req8 m sizeof_hdr;
      delflg ← req8 m (sizeof_hdr + 1);
      cmd ← fill_buf1024 (b "AT+CMGD=" ++ dec index ++ [ch ","] ++ dec delflg)
              (Some CB_sms_delete_cb) c id;
      submit_or_nomem cmd
  else if st =? GSMD_SMS_GET_MSG_STORAGE then
    cmd ← atcmd_fill (b "AT+CPMS?") 9 (Some CB_usock_cpms_cb) c 0 None;
    submit_or_nomem cmd
  else if st =? GSMD_SMS_SET_MSG_STORAGE then
    if (len <? sizeof_hdr + 3 * 4)%nat then mret (- EINVAL)
    else
      text ← cpms_text m;
      cmd ← fill_buf1024 text None c id;
      submit_or_nomem cmd
  else if st =? GSMD_SMS_GET_SERVICE_CENTRE then
    cmd ← atcmd_fill (b "AT+CSCA?") 9 (Some CB_usock_get_smsc_cb) c 0 None;
    submit_or_nomem cmd
  else if st =? GSMD_SMS_SET_SERVICE_CENTRE then
    if (len <? sizeof_hdr + sizeof_addr)%nat then mret (- EINVAL)
    else
      text ← csca_text m;
      cmd ← fill_buf1024 text None c id;
      submit_or_nomem cmd
  else mret (- ENOSYS).

Definition usock_rcv_cb (c : ctx) (h : gsmd_msg_hdr) (m : list Z) : G Z :=
  let st := h_msg_subtype h in
  if st =? GSMD_CB_SUBSCRIBE then
    cmd ← atcmd_fill (b "AT+CSCB=1") 10 None CtxGsmd 0 None; submit_or_nomem cmd
  else if st =? GSMD_CB_UNSUBSCRIBE then
    cmd ← atcmd_fill (b "AT+CSCB=0") 10 None CtxGsmd 0 None; submit_or_nomem cmd
  else mret (- ENOSYS).

(** ** Unsolicited result codes

    A parser gets the line, and the text after the prefix ([None] when the pointer
    it gets is NULL or outside the line). *)

Definition the_param (param : option (list Z)) : G (list Z) :=
  deref param "the parameter of an unsolicited result code is NULL".

Definition mem_index_fmt : list dir :=
  [D_lit DQ; D_set isupper (Some 2%nat) true; D_lit DQ; D_lit (ch ","); D_int true].

(** The index of a stored message: [at_sms] is the offset of [inlined] in the
    variant of [struct gsmd_evt_auxdata]. *)
Definition stored_parse (evt : Z) (at_sms : nat) (param : option (list Z)) : G Z :=
  ucmd ← usock_build_event GSMD_MSG_EVENT evt sizeof_evt_auxdata;
  match ucmd with
  | None => mret (- ENOMEM)
  | Some ucmd =>
      param ← the_param param;
      match sscanf param mem_index_fmt with
      | [VS memstr; VI index] =>
          send_aux ucmd evt
            (put at_sms (f32 (Some 0) ++ f8 (Some (parse_memtype memstr)) ++ undef 3 ++
                         f32 (Some index)) aux_undef)
      | _ => mret (- EINVAL)
      end
  end.

Definition cmti_parse : option (list Z) → G Z := stored_parse GSMD_EVT_IN_SMS 24.
Definition cbmi_parse : option (list Z) → G Z := stored_parse GSMD_EVT_IN_CBM 0.
Definition cdsi_parse : option (list Z) → G Z := stored_parse GSMD_EVT_IN_DS 0.

(** The sender's name and the PDU's length of [+CMT:]. *)
Definition cmt_header (er : gsm_extrsp) : G (option (list Z * Z)) :=
  match er with
  | [GSMD_ECMD_RTT_EMPTY; GSMD_ECMD_RTT_NUMERIC len] => mret (Some ([], len))
  | [GSMD_ECMD_RTT_STRING alpha; GSMD_ECMD_RTT_NUMERIC len] => mret (Some (alpha, len))
  | _ => mret None
  end.

(** The event of a message received inline: the PDU's text, and the event's data. *)
Definition send_pdu (ucmd : gsmd_ucmd) (evt : Z) (aux : mem) (text : list Z) (len : Z) : G Z :=
  match read_pdu SMS_MAX_PDU_SIZE text with
  | None => mret (- EINVAL)
  | Some pdu =>
      m ← of_pdu (sms_pdu_to_msg sms_list_undef pdu len (Z.of_nat (length pdu)));
      match m with
      | None => mret (- EINVAL)
      | Some m => send_aux ucmd evt (aux ++ enc_sms_list m)
      end
  end.

Definition TMP_SIZE : Z := 64.

Definition cmt_parse (param : option (list Z)) : G Z :=
  ucmd ← usock_build_event GSMD_MSG_EVENT GSMD_EVT_IN_SMS (sizeof_evt_auxdata + sizeof_sms_list);
  match ucmd with
  | None => mret (- ENOMEM)
  | Some ucmd =>
      param ← the_param param;
      match strchr param LF with
      | None => mret (- EAGAIN)
      | Some cr =>
          let head := before param LF in
          must (Z.of_nat (length head) <? TMP_SIZE) "cmt_parse: tmp overrun";;
          er ← extrsp_parse (Some head);
          match er with
          | None => mret (- ENOMEM)
          | Some er =>
              hdr ← cmt_header er;
              match hdr with
              | None => mret (- EINVAL)
              | Some (alpha, len) =>
                  field ← deref (strcpy (undef (GSMD_ALPHA_MAXLEN + 1)) alpha)
                            "cmt_parse: alpha overrun";
                  send_pdu ucmd GSMD_EVT_IN_SMS
                    (put 24 (f32 (Some 1)) (put 0 field aux_undef)) (tail cr) len
              end
          end
      end
  end.

(** [len = strtoul(param, &cr, 10)]: what follows the number. *)
Definition pdu_length (param : list Z) : Z * list Z :=
  let '(len, rest) := strtoul 10 param in (s32 len, default param rest).

Definition cbm_parse (param : option (list Z)) : G Z :=
  ucmd ← usock_build_event GSMD_MSG_EVENT GSMD_EVT_IN_CBM (sizeof_evt_auxdata + 116);
  match ucmd with
  | None => mret (- ENOMEM)
  | Some ucmd =>
      param ← the_param param;
      let '(len, cr) := pdu_length param in
      if negb (default 0 (head cr) =? LF) then mret (- EAGAIN)
      else
        match read_pdu (Z.to_nat CBM_MAX_PDU_SIZE) (tail cr) with
        | None => mret (- EINVAL)
        | Some pdu =>
            m ← of_pdu (cbs_pdu_to_msg pdu len (Z.of_nat (length pdu)));
            match m with
            | None => mret (- EINVAL)
            | Some m =>
                send_aux ucmd GSMD_EVT_IN_CBM (put 0 (f32 (Some 1)) aux_undef ++ enc_cbm m)
            end
        end
  end.

Definition cds_parse (param : option (list Z)) : G Z :=
  ucmd ← usock_build_event GSMD_MSG_EVENT GSMD_EVT_IN_DS (sizeof_evt_auxdata + sizeof_sms_list);
  match ucmd with
  | None => mret (- ENOMEM)
  | Some ucmd =>
      param ← the_param param;
      let '(len, cr) := pdu_length param in
      if negb (default 0 (head cr) =? LF) then mret (- EAGAIN)
      else send_pdu ucmd GSMD_EVT_IN_DS (put 0 (f32 (Some 1)) aux_undef) (tail cr) len
  end.

(** ** Set-up *)

Definition gsm0705_unsolicit : list (list Z * unsol_parser) :=
  [(b "+CMTI", P_cmti_parse); (b "+CMT", P_cmt_parse); (b "+CBMI", P_cbmi_parse);
   (b "+CBM", P_cbm_parse); (b "+CDSI", P_cdsi_parse); (b "+CDS", P_cds_parse)].

Definition GSMD_SMS_FMT_PDU : Z := 0.
Definition GSMD_SMS_FMT_TEXT : Z := 1.

Definition sms_cb_format : G Z :=
  s ← get;
  atcmd ← atcmd_fill (b "AT+CMGF=" ++ dec (if flag_sms_text s then GSMD_SMS_FMT_TEXT
                                            else GSMD_SMS_FMT_PDU)) 10 None CtxGsmd 0 None;
  submit_or_nomem atcmd.

Definition sms_cb_init : G Z :=
  unsolicited_register_array gsm0705_unsolicit;;
  s ← get;
  if flag_sms_text s then
    atcmd ← atcmd_fill (b "AT+CSCS=" ++ quoted (b "IRA")) 14 None CtxGsmd 0 None;
    match atcmd with
    | None => mret (- ENOMEM)
    | Some atcmd => atcmd_submit atcmd;; sms_cb_format
    end
  else sms_cb_format.

Definition sms_cb_network_init : G Z :=
  simplecmds [b "AT+CSMS=0"; b "AT+CNMI=2,1,2,1,0"].

(** ** The queue is only appended to *)

Lemma keeps_of_pdu `{!Effects d R} {A} (r : pdu_res A) : keeps R (of_pdu r).
Proof. unfold of_pdu. solve_keeps. Qed.
Lemma keeps_cmt_header `{!Effects d R} er : keeps R (cmt_header er).
Proof. unfold cmt_header. solve_keeps. Qed.
Lemma keeps_the_param `{!Effects d R} p : keeps R (the_param p).
Proof. unfold the_param. solve_keeps. Qed.
#[export] Hint Resolve keeps_of_pdu keeps_cmt_header keeps_the_param : keeps.
Lemma keeps_submit_pdu `{!Effects d R} cmd c st m t n : keeps R (submit_pdu cmd c st m t n).
Proof. unfold submit_pdu. solve_keeps. Qed.
Lemma keeps_send_pdu `{!Effects d R} u e a t n : keeps R (send_pdu u e a t n).
Proof. unfold send_pdu. solve_keeps. Qed.
Lemma keeps_req_prefix `{!Effects d R} m o n : keeps R (req_prefix m o n).
Proof. unfold req_prefix. solve_keeps. Qed.
Lemma keeps_req_submit `{!Effects d R} m o : keeps R (req_submit m o).
Proof. unfold req_submit. solve_keeps. Qed.
Lemma keeps_memtype_name `{!Effects d R} m o : keeps R (memtype_name m o).
Proof. unfold memtype_name. solve_keeps. Qed.
#[export] Hint Resolve keeps_submit_pdu keeps_send_pdu keeps_req_prefix keeps_req_submit
  keeps_memtype_name : keeps.
Lemma keeps_send_text `{!Effects d R} m o t u : keeps R (send_text m o t u).
Proof. unfold send_text. solve_keeps. Qed.
Lemma keeps_rcv_sms_list `{!Effects d R} c m i : keeps R (rcv_sms_list c m i).
Proof. unfold rcv_sms_list. solve_keeps. Qed.
Lemma fill_message_new d t cb c i o : returns (fill_message t cb c i) o → ctx_in d c → opt_new d o.
Proof. intros (_ & _ & H)%returns_bind. by eapply atcmd_fill_new. Qed.
Lemma rcv_sms_list_new d c m i o : returns (rcv_sms_list c m i) o → ctx_in d c → opt_new d o.
Proof.
  intros (_ & _ & (? & _ & (? & _ & H)%returns_bind)%returns_bind)%returns_bind.
  by eapply fill_buf1024_new.
Qed.
#[export] Hint Resolve fill_message_new rcv_sms_list_new : keeps.
Lemma keeps_fill_message `{!Effects d R} t cb c i : keeps R (fill_message t cb c i).
Proof. unfold fill_message. solve_keeps. Qed.
Lemma keeps_cpms_text `{!Effects d R} m : keeps R (cpms_text m).
Proof. unfold cpms_text. solve_keeps. Qed.
Lemma keeps_csca_text `{!Effects d R} m : keeps R (csca_text m).
Proof. unfold csca_text. solve_keeps. Qed.
#[export] Hint Resolve keeps_send_text keeps_rcv_sms_list keeps_fill_message keeps_cpms_text
  keeps_csca_text : keeps.

Lemma keeps_usock_rcv_sms `{!Effects d R} c h m : ctx_in d c → keeps R (usock_rcv_sms c h m).
Proof. intros ?. unfold usock_rcv_sms. solve_keeps. Qed.
Lemma keeps_usock_rcv_cb `{!Effects d R} c h m : keeps R (usock_rcv_cb c h m).
Proof. unfold usock_rcv_cb. solve_keeps. Qed.
Lemma keeps_stored_parse `{!Effects d R} e o p : keeps R (stored_parse e o p).
Proof. unfold stored_parse. solve_keeps. Qed.
Lemma keeps_cmt_parse `{!Effects d R} p : keeps R (cmt_parse p).
Proof. unfold cmt_parse. solve_keeps. Qed.
Lemma keeps_cbm_parse `{!Effects d R} p : keeps R (cbm_parse p).
Proof. unfold cbm_parse. solve_keeps. Qed.
Lemma keeps_cds_parse `{!Effects d R} p : keeps R (cds_parse p).
Proof. unfold cds_parse. solve_keeps. Qed.
Lemma keeps_sms_cb_format `{!Effects d R} : keeps R sms_cb_format.
Proof. unfold sms_cb_format. solve_keeps. Qed.
#[export] Hint Resolve keeps_usock_rcv_sms keeps_usock_rcv_cb keeps_stored_parse keeps_cmt_parse
  keeps_cbm_parse keeps_cds_parse keeps_sms_cb_format : keeps.
Lemma keeps_sms_cb_init `{!Effects d R} : keeps R sms_cb_init.
Proof. unfold sms_cb_init. solve_keeps. Qed.
Lemma keeps_sms_cb_network_init `{!Effects d R} : keeps R sms_cb_network_init.
Proof. unfold sms_cb_network_init. solve_keeps. Qed.
Lemma keeps_sms_list_cb `{!Effects d R} cmd c r : keeps R (sms_list_cb cmd c r).
Proof. unfold sms_list_cb. solve_keeps. Qed.
Lemma keeps_sms_read_cb `{!Effects d R} cmd c r : keeps R (sms_read_cb cmd c r).
Proof. unfold sms_read_cb. solve_keeps. Qed.
Lemma keeps_sms_send_cb `{!Effects d R} cmd c r : keeps R (sms_send_cb cmd c r).
Proof. unfold sms_send_cb. solve_keeps. Qed.
Lemma keeps_sms_write_cb `{!Effects d R} cmd c r : keeps R (sms_write_cb cmd c r).
Proof. unfold sms_write_cb. solve_keeps. Qed.
Lemma keeps_sms_delete_cb `{!Effects d R} cmd c r : keeps R (sms_delete_cb cmd c r).
Proof. unfold sms_delete_cb. solve_keeps. Qed.
Lemma keeps_usock_cpms_cb `{!Effects d R} cmd c r : keeps R (usock_cpms_cb cmd c r).
Proof. unfold usock_cpms_cb, ucmd_alloc. solve_keeps. Qed.
Lemma keeps_usock_get_smsc_cb `{!Effects d R} cmd c r : keeps R (usock_get_smsc_cb cmd c r).
Proof. unfold usock_get_smsc_cb. solve_keeps. Qed.
#[export] Hint Resolve keeps_sms_cb_init keeps_sms_cb_network_init keeps_sms_list_cb
  keeps_sms_read_cb keeps_sms_send_cb keeps_sms_write_cb keeps_sms_delete_cb keeps_usock_cpms_cb
  keeps_usock_get_smsc_cb : keeps.
