(* ===== verification/Unsolicited.v ===== *)
(** * Unsolicited result codes (src/target/gsm/src/gsmd/unsolicited.c)

    The table of parsers and its look-up, the parsers of the GSM 07.07 codes, the
    incoming-call timer, and the events made of errors. *)

From S2P Require Import Prelude CString Enums Wire ExtRsp Timers State Queue Events OpCache SmsCb.

(** ** The look-up *)

(** [strchr(buf, ':') + 2], or NULL when it lies beyond [buf + len]: [raw] is the
    memory at [buf] up to a NUL. A line without a colon yields an invalid pointer,
    which is no text either. *)
Definition param_of (raw : list Z) (len : nat) : option (list Z) :=
  let buf := until0 raw in
  match strchr buf (ch ":") with
  | None => None
  | Some c =>
      let at' := (length buf - length c + 2)%nat in
      if (at' <=? len)%nat then Some (until0 (drop at' raw)) else None
  end.

(** The first entry whose prefix the line has. *)
Fixpoint find_parser (tbl : list (list Z * unsol_parser)) (buf : list Z) : option unsol_parser :=
  match tbl with
  | [] => None
  | (prefix, p) :: tbl' =>
      if strn_eq (length prefix) buf prefix then Some p else find_parser tbl' buf
  end.

Section dispatch.
Variable parse : unsol_parser → list Z → option (list Z) → G Z.

Definition unsolicited_parse (raw : list Z) (len : nat) : G Z :=
  s ← get;
  match find_parser (unsolicit s) (until0 raw) with
  | Some p => parse p raw (param_of raw len)
  | None => mret (- ENOENT)
  end.
End dispatch.

(** ** Incoming calls *)

Definition GSMD_RING_MAX_JITTER : Z := 200000.
Definition ring_tv : timeval := TV 1 GSMD_RING_MAX_JITTER.

(** The event of an incoming call of a type. *)
Definition call_event (type : Z) (ucmd : gsmd_ucmd) : G Z :=
  send_aux ucmd GSMD_EVT_IN_CALL (put 0 (f32 (Some type)) aux_undef).

Definition state_ringing_timeout : G unit :=
  set_ring_check None;;
  s ← get;
  if negb (ds_ringing (dev_state s)) then mret tt
  else
    set_ringing false;;
    ucmd ← usock_build_event GSMD_MSG_EVENT GSMD_EVT_IN_CALL sizeof_evt_auxdata;
    match ucmd with
    | None => mret tt
    | Some ucmd => call_event GSMD_CALL_TIMEOUT ucmd;; mret tt
    end.

Definition state_ringing_update : G unit :=
  s ← get;
  match ds_ring_check (dev_state s) with
  | Some r =>
      gsmd_timer_unregister r;;
      set_ringing true;;
      gsmd_timer_register (Timer r ring_tv T_state_ringing_timeout);;
      mret tt
  | None =>
      set_ringing true;;
      r ← gsmd_timer_create ring_tv T_state_ringing_timeout;
      set_ring_check r
  end.

Definition ring_parse : G Z :=
  state_ringing_update;;
  ucmd ← usock_build_event GSMD_MSG_EVENT GSMD_EVT_IN_CALL sizeof_evt_auxdata;
  match ucmd with
  | None => mret (- ENOMEM)
  | Some ucmd => call_event GSMD_CALL_UNSPEC ucmd
  end.

(** The call type of [+CRING], [None] for a GPRS one. *)
Definition cring_type (param : list Z) : option Z :=
  if str_eq param (b "VOICE") then Some GSMD_CALL_VOICE
  else if str_eq param (b "SYNC") then Some GSMD_CALL_DATA_SYNC
  else if str_eq param (b "REL ASYNC") then Some GSMD_CALL_DATA_REL_ASYNC
  else if str_eq param (b "REL SYNC") then Some GSMD_CALL_DATA_REL_SYNC
  else if str_eq param (b "FAX") then Some GSMD_CALL_FAX
  else if strn_eq 5 param (b "GPRS ") then None
  else Some GSMD_CALL_UNSPEC.

Definition cring_parse (param : option (list Z)) : G Z :=
  ucmd ← usock_build_event GSMD_MSG_EVENT GSMD_EVT_IN_CALL sizeof_evt_auxdata;
  match ucmd with
  | None => mret (- ENOMEM)
  | Some ucmd =>
      param ← the_param param;
      match cring_type param with
      | None => mret 0
      | Some type => call_event type ucmd
      end
  end.

(** ** Network registration *)

(** [comma + 2] as a string: it must not lie beyond the terminator. *)
Definition past_comma (comma : list Z) : G (list Z) :=
  must (2 <=? length comma)%nat "read beyond the end of the line";;
  mret (drop 2 comma).

Definition hex_field (text : list Z) : option Z := Some (fst (strtoul 16 text)).

Definition enc_netreg (state : Z) (lac ci : option Z) : mem :=
  put 0 (f32 (Some state) ++ f16 lac ++ f16 ci) aux_undef.

Definition creg_event (ucmd : gsmd_ucmd) (param : list Z) : G Z :=
  match strchr param (ch ",") with
  | Some comma =>
      t ← past_comma comma;
      match strchr (tail comma) (ch ",") with
      | None => mret (- EINVAL)
      | Some comma =>
          t' ← past_comma comma;
          send_aux ucmd GSMD_EVT_NETREG (enc_netreg (atoi param) (hex_field t) (hex_field t'))
      end
  | None => send_aux ucmd GSMD_EVT_NETREG (enc_netreg (atoi param) (Some 0) (Some 0))
  end.

Definition is_registered (state : Z) : bool :=
  (state =? GSMD_NETREG_REG_HOME) || (state =? GSMD_NETREG_REG_ROAMING).

Definition creg_parse (param : option (list Z)) : G Z :=
  param ← the_param param;
  s ← get;
  match strtol param with
  | (_, None) => mret (- EINVAL)
  | (state, Some _) =>
      set_registered (is_registered state);;
      (if is_registered state && negb (ds_registered (dev_state s))
       then sms_cb_network_init;; mret tt else mret tt);;
      ucmd ← usock_build_event GSMD_MSG_EVENT GSMD_EVT_NETREG sizeof_evt_auxdata;
      match ucmd with
      | None => mret (- ENOMEM)
      | Some ucmd => creg_event ucmd param
      end
  end.

(** ** Supplementary services *)

Definition NUMBER_FIELD : mem := undef (GSMD_ADDR_MAXLEN + 1).
Definition ALPHA_FIELD : mem := undef (GSMD_ALPHA_MAXLEN + 1).

(** [strcpy] into a field of the event. *)
Definition copy_field (field : mem) (s : list Z) : G mem :=
  deref (strcpy field s) "strcpy overruns a field of the event".

Definition ccwa_fields (er : gsm_extrsp) : option (list Z * Z * Z * list Z * Z) :=
  match er with
  | [GSMD_ECMD_RTT_STRING number; GSMD_ECMD_RTT_NUMERIC type; GSMD_ECMD_RTT_NUMERIC classx;
     GSMD_ECMD_RTT_EMPTY; GSMD_ECMD_RTT_NUMERIC cli] => Some (number, type, classx, [], cli)
  | [GSMD_ECMD_RTT_STRING number; GSMD_ECMD_RTT_NUMERIC type; GSMD_ECMD_RTT_NUMERIC classx;
     GSMD_ECMD_RTT_STRING alpha; GSMD_ECMD_RTT_NUMERIC cli] =>
      Some (number, type, classx, alpha, cli)
  | _ => None
  end.

Definition ccwa_parse (param : option (list Z)) : G Z :=
  ucmd ← usock_build_event GSMD_MSG_EVENT GSMD_EVT_CALL_WAIT sizeof_evt_auxdata;
  match ucmd with
  | None => mret (- ENOMEM)
  | Some ucmd =>
      er ← extrsp_parse param;
      match er with
      | None => mret (- ENOMEM)
      | Some er =>
          match ccwa_fields er with
          | None => mret (- EINVAL)
          | Some (number, type, classx, alpha, cli) =>
              n ← copy_field NUMBER_FIELD number;
              a ← copy_field ALPHA_FIELD alpha;
              send_aux ucmd GSMD_EVT_CALL_WAIT
                (put 0 (f8 (Some type) ++ n ++ f8 (Some classx) ++ a ++ f8 (Some cli)) aux_undef)
          end
      end
  end.

Definition cusd_parse : G Z := mret 0.
Definition cccm_parse : G Z := mret 0.
Definition cgev_parse : G Z := mret 0.
Definition cgreg_parse : G Z := mret 0.

(** [+CLIP] and [+COLP]: the number and its type come first. *)
Definition line_id_parse (evt : Z) (param : option (list Z)) : G Z :=
  ucmd ← usock_build_event GSMD_MSG_EVENT evt sizeof_evt_auxdata;
  match ucmd with
  | None => mret (- ENOMEM)
  | Some ucmd =>
      er ← extrsp_parse param;
      match er with
      | None => mret (- ENOMEM)
      | Some (GSMD_ECMD_RTT_STRING number :: GSMD_ECMD_RTT_NUMERIC type :: _) =>
          n ← copy_field NUMBER_FIELD number;
          send_aux ucmd evt (put 0 (f8 (Some type) ++ n) aux_undef)
      | Some _ => mret (- EINVAL)
      end
  end.

Definition clip_parse : option (list Z) → G Z := line_id_parse GSMD_EVT_IN_CLIP.
Definition colp_parse : option (list Z) → G Z := line_id_parse GSMD_EVT_OUT_COLP.

Definition ctzv_parse (param : option (list Z)) : G Z :=
  ucmd ← usock_build_event GSMD_MSG_EVENT GSMD_EVT_TIMEZONE sizeof_evt_auxdata;
  match ucmd with
  | None => mret (- ENOMEM)
  | Some ucmd =>
      param ← the_param param;
      let tz := atoi param in
      if (tz <? -48) || (48 <? tz) then mret (- EINVAL)
      else send_aux ucmd GSMD_EVT_TIMEZONE (put 0 (f8 (Some tz)) aux_undef)
  end.

Definition copn_parse (param : option (list Z)) : G Z :=
  er ← extrsp_parse param;
  match er with
  | None => mret (- ENOMEM)
  | Some [GSMD_ECMD_RTT_STRING numeric; GSMD_ECMD_RTT_STRING alnum] => gsmd_opname_add numeric alnum
  | Some _ => mret 0
  end.

Definition gsm0707_unsolicit : list (list Z * unsol_parser) :=
  [(b "RING", P_ring_parse); (b "+CRING", P_cring_parse); (b "+CREG", P_creg_parse);
   (b "+CCWA", P_ccwa_parse); (b "+CUSD", P_cusd_parse); (b "+CCCM", P_cccm_parse);
   (b "+CGEV", P_cgev_parse); (b "+CGREG", P_cgreg_parse); (b "+CLIP", P_clip_parse);
   (b "+COLP", P_colp_parse); (b "+CTZV", P_ctzv_parse); (b "+COPN", P_copn_parse)].

(** ** Events made of errors *)

Definition errors_creating_events : list Z :=
  [0; 1; 2; 5; 6; 7; 10; 11; 12; 17; 18; 40; 41; 42; 43; 44; 45; 46; 47].

Fixpoint is_in_array (val : Z) (arr : list Z) : bool :=
  match arr with
  | [] => false
  | x :: arr' => if x =? val then true else is_in_array val arr'
  end.

Definition GSM0707_CME_UNKNOWN : Z := 100.

Definition pintype_from_cme (cme : Z) : Z :=
  if cme =? 5 then GSMD_PIN_PH_SIM_PIN
  else if cme =? 6 then GSMD_PIN_PH_FSIM_PIN
  else if cme =? 7 then GSMD_PIN_PH_FSIM_PUK
  else if cme =? 11 then GSMD_PIN_SIM_PIN
  else if cme =? 12 then GSMD_PIN_SIM_PUK
  else if cme =? 17 then GSMD_PIN_SIM_PIN2
  else if cme =? 18 then GSMD_PIN_SIM_PUK2
  else if cme =? 40 then GSMD_PIN_PH_NET_PIN
  else if cme =? 41 then GSMD_PIN_PH_NET_PUK
  else if cme =? 42 then GSMD_PIN_PH_NETSUB_PIN
  else if cme =? 43 then GSMD_PIN_PH_NETSUB_PUK
  else if cme =? 44 then GSMD_PIN_PH_SP_PIN
  else if cme =? 45 then GSMD_PIN_PH_SP_PUK
  else if cme =? 46 then GSMD_PIN_PH_CORP_PIN
  else if cme =? 47 then GSMD_PIN_PH_CORP_PUK
  else 0.

Definition number_event (evt number : Z) : G Z :=
  ucmd ← usock_build_event GSMD_MSG_EVENT evt sizeof_evt_auxdata;
  match ucmd with
  | None => mret (-1)
  | Some ucmd => send_aux ucmd evt (put 0 (f32 (Some number)) aux_undef)
  end.

Definition generate_event_from_cme (cme_error : Z) : G Z :=
  if negb (is_in_array cme_error errors_creating_events)
  then number_event GSMD_EVT_IN_ERROR cme_error
  else if (GSM0707_CME_UNKNOWN <=? cme_error) || (pintype_from_cme cme_error =? 0) then mret 0
  else number_event GSMD_EVT_PIN (pintype_from_cme cme_error).

Definition generate_event_from_cms (cms_error : Z) : G Z := number_event GSMD_EVT_IN_ERROR cms_error.

(** ** The queue is only appended to *)

Lemma keeps_set_ringing `{!Effects d R} v : keeps R (set_ringing v).
Proof. apply keeps_set_dev. Qed.
Lemma keeps_set_ring_check `{!Effects d R} v : keeps R (set_ring_check v).
Proof. apply keeps_set_dev. Qed.
Lemma keeps_set_registered `{!Effects d R} v : keeps R (set_registered v).
Proof. apply keeps_set_dev. Qed.
Lemma keeps_set_on `{!Effects d R} v : keeps R (set_on v).
Proof. apply keeps_set_dev. Qed.
Lemma keeps_set_vibrator `{!Effects d R} v : keeps R (set_vibrator v).
Proof. apply keeps_set_dev. Qed.
Lemma keeps_set_ciph_flags `{!Effects d R} v : keeps R (set_ciph_flags v).
Proof. apply keeps_set_dev. Qed.
#[export] Hint Resolve keeps_set_ringing keeps_set_ring_check keeps_set_registered keeps_set_on
  keeps_set_vibrator keeps_set_ciph_flags : keeps.

Lemma keeps_call_event `{!Effects d R} t u : keeps R (call_event t u).
Proof. unfold call_event. solve_keeps. Qed.
Lemma keeps_past_comma `{!Effects d R} c : keeps R (past_comma c).
Proof. unfold past_comma. solve_keeps. Qed.
Lemma keeps_copy_field `{!Effects d R} f s : keeps R (copy_field f s).
Proof. unfold copy_field. solve_keeps. Qed.
Lemma keeps_number_event `{!Effects d R} e n : keeps R (number_event e n).
Proof. unfold number_event. solve_keeps. Qed.
#[export] Hint Resolve keeps_call_event keeps_past_comma keeps_copy_field keeps_number_event : keeps.
Lemma keeps_state_ringing_timeout `{!Effects d R} : keeps R state_ringing_timeout.
Proof. unfold state_ringing_timeout. solve_keeps. Qed.
Lemma keeps_state_ringing_update `{!TimerEffects d R} : keeps R state_ringing_update.
Proof.
  unfold state_ringing_update. apply keeps_bind; [typeclasses eauto | solve_keeps|]. intros s0.
  destruct (ds_ring_check _) as [r|]; [|solve_keeps].
  intros s a s' (? & s1 & H1 & (? & s2 & H2 & (? & s3 & H3 & [_ <-]%Ret_inj)%bind_Ret)%bind_Ret)%bind_Ret.
  unfold gsmd_timer_unregister in H1.
  apply bind_Ret in H1 as (? & s4 & [Hin ->]%unlink_timer_run & (? & ? & H1 & [_ <-]%Ret_inj)%bind_Ret).
  apply calc_next_expiration_run in H1 as [it ->]. apply Ret_inj in H2 as [_ <-].
  apply gsmd_timer_register_run in H3 as (e & it' & ->).
  etrans; [apply (eff_move (Timer r e T_state_ringing_timeout)), Hin|].
  etrans; [apply (eff_dev (λ d, DevState (ds_ciph_flags d) (ds_vibrator d) (ds_on d) (ds_registered d)
                                  true (ds_ring_check d)))|].
  etrans; [apply (eff_itimer it) | apply (eff_itimer it')].
Qed.
#[export] Hint Resolve keeps_state_ringing_timeout keeps_state_ringing_update : keeps.
Lemma keeps_creg_event `{!Effects d R} u p : keeps R (creg_event u p).
Proof. unfold creg_event. solve_keeps. Qed.
#[export] Hint Resolve keeps_creg_event : keeps.
Lemma keeps_ring_parse `{!TimerEffects d R} : keeps R ring_parse.
Proof. unfold ring_parse. solve_keeps. Qed.
Lemma keeps_cring_parse `{!Effects d R} p : keeps R (cring_parse p).
Proof. unfold cring_parse. solve_keeps. Qed.
Lemma keeps_creg_parse `{!Effects d R} p : keeps R (creg_parse p).
Proof. unfold creg_parse. solve_keeps. Qed.
Lemma keeps_ccwa_parse `{!Effects d R} p : keeps R (ccwa_parse p).
Proof. unfold ccwa_parse. solve_keeps. Qed.
Lemma keeps_line_id_parse `{!Effects d R} e p : keeps R (line_id_parse e p).
Proof. unfold line_id_parse. solve_keeps. Qed.
Lemma keeps_ctzv_parse `{!Effects d R} p : keeps R (ctzv_parse p).
Proof. unfold ctzv_parse. solve_keeps. Qed.
Lemma keeps_copn_parse `{!Effects d R} p : keeps R (copn_parse p).
Proof. unfold copn_parse. solve_keeps. Qed.
Lemma keeps_generate_event_from_cme `{!Effects d R} n : keeps R (generate_event_from_cme n).
Proof. unfold generate_event_from_cme. solve_keeps. Qed.
Lemma keeps_generate_event_from_cms `{!Effects d R} n : keeps R (generate_event_from_cms n).
Proof. apply keeps_number_event. Qed.
#[export] Hint Resolve keeps_generate_event_from_cms keeps_ring_parse keeps_cring_parse keeps_creg_parse keeps_ccwa_parse
  keeps_line_id_parse keeps_ctzv_parse keeps_copn_parse keeps_generate_event_from_cme : keeps.
