(* ===== verification/Vendor.v ===== *)
(** * Vendor plugins (vendor.c, vendor_ti.c, vendor_tihtc.c, vendor_qc.c, vendor_bcm.c, vendor_telit.c)

    The result codes of each chip set, its set-up commands, the choice of a
    plugin, and the dispatch of every unsolicited result code of the daemon. *)

From S2P Require Import Prelude CString Enums Wire LLParse ExtRsp Timers State.
From S2P Require Import Queue Events OpCache SmsCb Unsolicited.

(** ** Parsers *)

(** [strtok(s, ",")]: the token, and the rest for the next call. *)
Fixpoint skip_commas (s : list Z) : list Z :=
  match s with
  | [] => []
  | c :: s' => if c =? ch "," then skip_commas s' else s
  end.

Definition strtok (s : list Z) : option (list Z * list Z) :=
  match skip_commas s with
  | [] => None
  | t => Some (before t (ch ","), tail (default [] (strchr t (ch ","))))
  end.

(** An event that reports its own allocation failure as [rc]. *)
Definition with_event (evt rc : Z) (k : gsmd_ucmd → G Z) : G Z :=
  ucmd ← usock_build_event GSMD_MSG_EVENT evt sizeof_evt_auxdata;
  match ucmd with
  | None => mret rc
  | Some ucmd => k ucmd
  end.

Definition enc_sigq (rssi ber : Z) : mem := put 0 (f8 (Some rssi) ++ f8 (Some ber)) aux_undef.

Definition csq_fmt : list dir := [D_ws; D_int true; D_lit (ch ","); D_ws; D_int true].

Definition csq_parse (param : option (list Z)) : G Z :=
  with_event GSMD_EVT_SIGNAL (- EINVAL) (λ ucmd,
    param ← the_param param;
    match sscanf param csq_fmt with
    | [VI rssi; VI ber] => send_aux ucmd GSMD_EVT_SIGNAL (enc_sigq rssi ber);; mret 0
    | _ => mret (- EIO)
    end).

Definition GSMD_CIPHIND_DISABLED_SIM : Z := 2.
Definition GSMD_CIPHIND_ACTIVE : Z := 4.

(** The indications are read from the start of the line, prefix included. *)
Definition cpri_flags (code flags : Z) : Z :=
  if code =? 0 then Z.ldiff flags GSMD_CIPHIND_ACTIVE
  else if code =? 1 then Z.lor flags GSMD_CIPHIND_ACTIVE
  else if code =? 2 then Z.lor flags GSMD_CIPHIND_DISABLED_SIM
  else flags.

(** [net_state_gsm] is assigned twice, [flags] and [net_state_gprs] never. *)
Definition cpri_parse (raw : list Z) : G Z :=
  match strtok (take 19 (until0 raw)) with
  | None => mret (- EIO)
  | Some (tok1, rest) =>
      match strtok rest with
      | None =>
          s ← get;
          set_ciph_flags (cpri_flags (atoi tok1) (ds_ciph_flags (dev_state s)));;
          mret 0
      | Some (tok2, _) =>
          with_event GSMD_EVT_CIPHER (- ENOMEM) (λ ucmd,
            send_aux ucmd GSMD_EVT_CIPHER (put 2 (f16 (Some (atoi tok2))) aux_undef);;
            mret 0)
      end
  end.

Definition ti_ctzv_parse : G Z := mret 0.

Definition is_one (tok : list Z) : Z := if default 0 (head tok) =? ch "1" then 1 else 0.

(** The direction: the two low bits of one of the digits 0 to 3. *)
Definition cpi_dir (tok : list Z) : option Z :=
  let c := default 0 (head tok) in
  if (ch "0" <=? c) && (c <=? ch "3") then Some (c - ch "0") else None.

(** Progress, in-band tones, traffic channel and direction; the first token, the
    call's number, is dropped. *)
Definition cpi_fields (line : list Z) : option (Z * Z * Z * option Z) :=
  '(_, r0) ← strtok line;
  '(prog, r1) ← strtok r0;
  '(ibt, r2) ← strtok r1;
  '(tch, r3) ← strtok r2;
  Some (atoi prog, is_one ibt, is_one tch,
        '(d, _) ← strtok r3; cpi_dir d).

(** The bit fields share a byte, which is indeterminate while the direction is;
    the four bits of it that are no field are taken to be zero. *)
Definition enc_call_status (prog ibt tch : Z) (dir : option Z) : mem :=
  put 38 (f8 (d ← dir; Some (ibt + 2 * tch + 4 * d))) (put 0 (f32 (Some prog)) aux_undef).

Definition cpi_parse (raw : list Z) : G Z :=
  with_event GSMD_EVT_OUT_STATUS (- EINVAL) (λ ucmd,
    match cpi_fields (take 63 (until0 raw)) with
    | None => mret (- EIO)
    | Some (prog, ibt, tch, dir) =>
        send_aux ucmd GSMD_EVT_OUT_STATUS (enc_call_status prog ibt tch dir);; mret 0
    end).

Definition rssi_table : list Z := [0; 5; 10; 15; 20; 25; 99].

(** The bounded index is computed but not used. *)
Definition htccsq_parse (raw : list Z) : G Z :=
  with_event GSMD_EVT_SIGNAL (- EINVAL) (λ ucmd,
    let i := atoi (until0 raw) in
    must (0 <=? i) "rssi_table";;
    rssi ← deref (rssi_table !! Z.to_nat i) "rssi_table";
    send_aux ucmd GSMD_EVT_SIGNAL (enc_sigq rssi 99);;
    mret 0).

Definition wcdma_parse : G Z := mret 0.
Definition mrdy_parse (param : option (list Z)) : G Z := the_param param;; mret 0.
Definition mtsmenu_parse : G Z := mret 0.

(** ** The plugins *)

Definition ticalypso_unsolicit : list (list Z * unsol_parser) :=
  [(b "%CSQ", P_csq_parse); (b "%CPRI", P_cpri_parse); (b "%CPI", P_cpi_parse);
   (b "%CTZV", P_ti_ctzv_parse)].
Definition tihtc_unsolicit : list (list Z * unsol_parser) :=
  [(b "%HTCCSQ", P_htccsq_parse); (b "%CPRI", P_cpri_parse); (b "%CPI", P_cpi_parse)].
Definition qc_unsolicit : list (list Z * unsol_parser) :=
  [(b "@HTCCSQ", P_htccsq_parse); (b "[WCDMA]", P_wcdma_parse)].
Definition bcm_unsolicit : list (list Z * unsol_parser) :=
  [(b "*MRDY", P_mrdy_parse); (b "*MTSMENU", P_mtsmenu_parse)].
Definition telit_unsolicit : list (list Z * unsol_parser) := [(b "+CSQ", P_csq_parse)].

Definition vendor_unsolicit (v : vendor) : list (list Z * unsol_parser) :=
  match v with
  | vendor_ti => ticalypso_unsolicit
  | vendor_tihtc => tihtc_unsolicit
  | vendor_qc => qc_unsolicit
  | vendor_bcm => bcm_unsolicit
  | vendor_telit => telit_unsolicit
  end.

Definition ext_chars (v : vendor) : list Z :=
  match v with
  | vendor_ti => b "%@"
  | vendor_tihtc => b "%"
  | vendor_qc => b "@["
  | vendor_bcm => b "*"
  | vendor_telit => b "%#$"
  end.

(** [extrsp_supports] answers with a negative number when the response has another
    form, which the caller takes for a yes. *)
Definition cpi_detect_cb (resp : list Z) : G Z :=
  if negb (strn_eq 6 resp (b "%CPI: ")) then mret (- EINVAL)
  else
    er ← extrsp_parse (Some (drop 6 resp));
    match er with
    | None => mret (- EINVAL)
    | Some er =>
        if negb (extrsp_supports er 0 3 =? 0) then gsmd_simplecmd (b "AT%CPI=3")
        else if negb (extrsp_supports er 0 2 =? 0) then gsmd_simplecmd (b "AT%CPI=2")
        else mret 0
    end.

Definition submit_cpi_detect : G unit :=
  cmd ← atcmd_fill (b "AT%CPI=?") 9 (Some CB_cpi_detect_cb) CtxGsmd 0 None;
  match cmd with
  | Some cmd => atcmd_submit cmd;; mret tt
  | None => mret tt
  end.

Definition ticalypso_initsettings : G Z :=
  rc ← simplecmds [b "AT+CTZR=1"; b "AT%CTZV=1"; b "AT%CPRI=1"; b "AT%CSQ=1"; b "AT%CUNS=0"];
  submit_cpi_detect;;
  mret rc.

Definition tihtc_initsettings : G Z :=
  rc ← simplecmds [b "AT%CPRI=1"; b "AT%HTCCSQ=1"; b "AT%CUNS=0"];
  submit_cpi_detect;;
  mret rc.

Definition qc_initsettings : G Z := simplecmds [b "AT@HTCCSQ=1"].

Definition bcm_initsettings : G Z :=
  modify (λ s, set_llp (LLP (lp_state (llp s)) (Z.lor (lp_flags (llp s)) LGSM_ATCMD_F_LFCR)
                          (lp_buf (llp s))) s);;
  mret 0.

Definition telit_initsettings : G Z := simplecmds [b "AT+CGREG=2"; b "AT+CLIP=1"; b "AT+CFUN=5"].

Definition vendor_initsettings (v : vendor) : G Z :=
  match v with
  | vendor_ti => ticalypso_initsettings
  | vendor_tihtc => tihtc_initsettings
  | vendor_qc => qc_initsettings
  | vendor_bcm => bcm_initsettings
  | vendor_telit => telit_initsettings
  end.

(** [pl->detect]: every plugin accepts; the Qualcomm one switches to V0 codes. *)
Definition qc_detect : G Z := modify (λ s, set_flags (Z.lor (flags s) GSMD_FLAG_V0) s);; mret 1.

Definition vendor_detect (v : vendor) : G Z :=
  match v with vendor_qc => qc_detect | _ => mret 1 end.

Fixpoint vendor_find_loop (l : list vendor) : G Z :=
  match l with
  | [] => mret 0
  | pl :: l' =>
      rc ← vendor_detect pl;
      if rc =? 1 then modify (set_vendorpl (Some pl));; mret 1
      else vendor_find_loop l'
  end.

(** [vendorpl_list]: the registered plugins, the last one registered first. *)
Definition gsmd_vendor_plugin_find (vendorpl_list : list vendor) : G Z :=
  s ← get;
  match vendorpl s with
  | Some _ => mret (- EEXIST)
  | None => vendor_find_loop vendorpl_list
  end.

(** ** Every unsolicited result code *)

Definition run_parser (p : unsol_parser) (raw : list Z) (param : option (list Z)) : G Z :=
  match p with
  | P_ring_parse => ring_parse
  | P_cring_parse => cring_parse param
  | P_creg_parse => creg_parse param
  | P_ccwa_parse => ccwa_parse param
  | P_cusd_parse => cusd_parse
  | P_cccm_parse => cccm_parse
  | P_cgev_parse => cgev_parse
  | P_cgreg_parse => cgreg_parse
  | P_clip_parse => clip_parse param
  | P_colp_parse => colp_parse param
  | P_ctzv_parse => ctzv_parse param
  | P_copn_parse => copn_parse param
  | P_cmti_parse => cmti_parse param
  | P_cmt_parse => cmt_parse param
  | P_cbmi_parse => cbmi_parse param
  | P_cbm_parse => cbm_parse param
  | P_cdsi_parse => cdsi_parse param
  | P_cds_parse => cds_parse param
  | P_csq_parse => csq_parse param
  | P_cpri_parse => cpri_parse raw
  | P_ti_ctzv_parse => ti_ctzv_parse
  | P_cpi_parse => cpi_parse raw
  | P_htccsq_parse => htccsq_parse raw
  | P_mrdy_parse => mrdy_parse param
  | P_mtsmenu_parse => mtsmenu_parse
  | P_wcdma_parse => wcdma_parse
  end.

Definition unsolicited (raw : list Z) (len : nat) : G Z := unsolicited_parse run_parser raw len.

Definition unsolicited_init : G unit :=
  unsolicited_register_array gsm0707_unsolicit;;
  s ← get;
  match vendorpl s with
  | Some v => unsolicited_register_array (vendor_unsolicit v);; mret tt
  | None => mret tt
  end.

(** ** The queue is only appended to *)

Lemma keeps_with_event `{!Effects d R} e rc k : (∀ u, keeps R (k u)) → keeps R (with_event e rc k).
Proof. intros Hk. unfold with_event. solve_keeps. Qed.

Lemma keeps_csq_parse `{!Effects d R} p : keeps R (csq_parse p).
Proof. apply keeps_with_event. intros u. solve_keeps. Qed.
Lemma keeps_cpri_parse `{!Effects d R} r : keeps R (cpri_parse r).
Proof. unfold cpri_parse. solve_keeps;
  apply keeps_with_event; intros u; solve_keeps. Qed.
Lemma keeps_cpi_parse `{!Effects d R} r : keeps R (cpi_parse r).
Proof. apply keeps_with_event. intros u. solve_keeps. Qed.
Lemma keeps_htccsq_parse `{!Effects d R} r : keeps R (htccsq_parse r).
Proof. apply keeps_with_event. intros u. solve_keeps. Qed.
Lemma keeps_mrdy_parse `{!Effects d R} p : keeps R (mrdy_parse p).
Proof. unfold mrdy_parse. solve_keeps. Qed.
#[export] Hint Resolve keeps_csq_parse keeps_cpri_parse keeps_cpi_parse keeps_htccsq_parse
  keeps_mrdy_parse : keeps.

Lemma keeps_run_parser `{!TimerEffects d R} p raw param : keeps R (run_parser p raw param).
Proof.
  destruct p; cbn [run_parser]; try solve_keeps; try apply keeps_stored_parse;
    try apply keeps_line_id_parse; apply keeps_ret, _.
Qed.
#[export] Hint Resolve keeps_run_parser : keeps.
Lemma keeps_unsolicited `{!TimerEffects d R} raw n : keeps R (unsolicited raw n).
Proof. unfold unsolicited, unsolicited_parse. solve_keeps. Qed.
#[export] Hint Resolve keeps_unsolicited : keeps.

Lemma keeps_cpi_detect_cb `{!Effects d R} r : keeps R (cpi_detect_cb r).
Proof. unfold cpi_detect_cb. solve_keeps. Qed.
Lemma keeps_submit_cpi_detect `{!Effects d R} : keeps R submit_cpi_detect.
Proof. unfold submit_cpi_detect. solve_keeps. Qed.
#[export] Hint Resolve keeps_cpi_detect_cb keeps_submit_cpi_detect : keeps.

Lemma keeps_vendor_initsettings `{!Effects d R} v : keeps R (vendor_initsettings v).
Proof.
  destruct v; cbn [vendor_initsettings];
    unfold ticalypso_initsettings, tihtc_initsettings, qc_initsettings, bcm_initsettings,
      telit_initsettings; solve_keeps.
  apply keeps_modify. intros s. apply eff_llp_flags. rewrite Z.lor_spec. apply orb_false_r.
Qed.
#[export] Hint Resolve keeps_vendor_initsettings : keeps.
