(* ===== verification/UsockCb.v ===== *)
(** * Responses for the clients (the callbacks of src/target/gsm/src/gsmd/usock.c)

    Each callback gets the command, the client that sent it and the text of the
    modem's response, and queues a message for the client.  Fields of a structure
    that a path leaves unassigned are sent as they were on the stack. *)

From S2P Require Import Prelude CString Enums Wire ExtRsp State Queue Events SmsCb Unsolicited.

(** ** Common parts *)

(** [talloc]'d text: [strlen(resp) + 1] bytes. *)
Definition cstr (s : list Z) : mem := known (s ++ [0]).

(** [if (!strncmp(resp, prefix, strlen(prefix))) resp += strlen(prefix);] *)
Definition strip (prefix resp : list Z) : list Z :=
  if strn_eq (length prefix) resp prefix then drop (length prefix) resp else resp.

Definition digits10 : list Z := b "0123456789".

(** [0 - atoi(strpbrk(resp, "0123456789"))]. *)
Definition error_number (resp : list Z) : G Z :=
  d ← deref (strpbrk resp digits10) "atoi of a NULL pointer";
  mret (atoi d).

(** The command has got its last response. *)
Definition is_final (cmd : gsmd_atcmd) : Z :=
  if (ac_ret cmd =? 0) || (ac_ret cmd =? 4) then 1 else 0.

(** A callback that parses its response; a failure is reported as no memory. *)
Definition with_extrsp (resp : list Z) (k : gsm_extrsp → G Z) : G Z :=
  er ← extrsp_parse (Some resp);
  match er with
  | None => mret (- ENOMEM)
  | Some er => k er
  end.

Definition submit_ret (c : ctx) (msg_type msg_subtype : Z) (cmd : gsmd_atcmd) : G Z :=
  gsmd_ucmd_submit c msg_type msg_subtype (ac_id cmd) (f32 (Some (ac_ret cmd))).

Definition submit_text (c : ctx) (msg_type msg_subtype : Z) (cmd : gsmd_atcmd) (text : list Z) : G Z :=
  gsmd_ucmd_submit c msg_type msg_subtype (ac_id cmd) (cstr text).

(** ** Pass-through and calls *)

(** The length is 16 bits wide, and as many bytes are copied. *)
Definition usock_cmd_cb (cmd : gsmd_atcmd) (c : ctx) (resp : list Z) : G Z :=
  let rlen := (length resp + 1)%nat in
  let len := u16 (Z.of_nat rlen) in
  ok ← ucmd_alloc;
  if ok : bool then
    usock_cmd_enqueue
      (Ucmd (Hdr GSMD_PROTO_VERSION GSMD_MSG_PASSTHROUGH GSMD_PASSTHROUGH_RESP None
               (Some (ac_id cmd)) len)
            (take (Z.to_nat len) (cstr resp) ++ undef (rlen - Z.to_nat len))) c;;
    mret 0
  else mret (- ENOMEM).

Definition usock_ringing_cb (cmd : gsmd_atcmd) (c : ctx) (resp : list Z) : G Z :=
  (if ac_ret cmd =? 0 then user_of c;; set_ringing false else mret tt);;
  usock_cmd_cb cmd c resp.

Definition null_cmd_cb : G Z := mret 0.

Record gsmd_call_status : Type := CallStatus {
  cs_idx : option Z; cs_dir : option Z; cs_stat : option Z; cs_mode : option Z;
  cs_mpty : option Z; cs_number : mem; cs_type : option Z; cs_alpha : mem; cs_is_last : Z }.

Definition enc_call_status (s : gsmd_call_status) : mem :=
  f8 (cs_idx s) ++ f8 (cs_dir s) ++ f8 (cs_stat s) ++ f8 (cs_mode s) ++ f8 (cs_mpty s) ++
  cs_number s ++ f8 (cs_type s) ++ cs_alpha s ++ f32 (Some (cs_is_last s)).

Definition number_field (s : list Z) : mem := strlcpy_field (GSMD_ADDR_MAXLEN + 1) s.
Definition alpha_field (s : list Z) : mem := strlcpy_field (GSMD_ALPHA_MAXLEN + 1) s.

(** Only the index of the call is known. *)
Definition call_index (idx is_last : Z) : gsmd_call_status :=
  CallStatus (Some idx) None None None None NUMBER_FIELD None ALPHA_FIELD is_last.

Definition clcc_fields (er : gsm_extrsp) (is_last : Z) : option gsmd_call_status :=
  match er with
  | [GSMD_ECMD_RTT_NUMERIC idx; GSMD_ECMD_RTT_NUMERIC dir; GSMD_ECMD_RTT_NUMERIC stat;
     GSMD_ECMD_RTT_NUMERIC mode; GSMD_ECMD_RTT_NUMERIC mpty; GSMD_ECMD_RTT_STRING number;
     GSMD_ECMD_RTT_NUMERIC type] =>
      Some (CallStatus (Some idx) (Some dir) (Some stat) (Some mode) (Some mpty)
              (number_field number) (Some type) ALPHA_FIELD is_last)
  | [GSMD_ECMD_RTT_NUMERIC idx; GSMD_ECMD_RTT_NUMERIC dir; GSMD_ECMD_RTT_NUMERIC stat;
     GSMD_ECMD_RTT_NUMERIC mode; GSMD_ECMD_RTT_NUMERIC mpty; GSMD_ECMD_RTT_STRING number;
     GSMD_ECMD_RTT_NUMERIC type; GSMD_ECMD_RTT_STRING alpha] =>
      Some (CallStatus (Some idx) (Some dir) (Some stat) (Some mode) (Some mpty)
              (number_field number) (Some type) (alpha_field alpha) is_last)
  | _ => None
  end.

Definition voicecall_get_stat_cb (cmd : gsmd_atcmd) (c : ctx) (resp : list Z) : G Z :=
  with_extrsp resp (λ er,
    let submit gcs := gsmd_ucmd_submit c GSMD_MSG_VOICECALL GSMD_VOICECALL_GET_STAT (ac_id cmd)
                        (enc_call_status gcs) in
    let is_last := is_final cmd in
    if strn_eq 2 resp (b "OK") then submit (call_index 0 is_last)
    else if strn_eq 4 resp (b "+CME") then
      n ← error_number resp; submit (call_index (0 - n) is_last)
    else
      match clcc_fields er is_last with
      | Some gcs => submit gcs
      | None => mret (- EINVAL)
      end).

Definition voicecall_ctrl_cb (cmd : gsmd_atcmd) (c : ctx) (resp : list Z) : G Z :=
  ret ← (if strn_eq 4 resp (b "+CME") then error_number resp else mret 0);
  gsmd_ucmd_submit c GSMD_MSG_VOICECALL GSMD_VOICECALL_CTRL (ac_id cmd) (f32 (Some ret)).

Record gsmd_call_fwd_stat : Type := FwdStat {
  fs_status : Z; fs_classx : Z; fs_type : option Z; fs_number : mem;
  fs_time : option Z; fs_is_last : Z }.

Definition enc_call_fwd_stat (s : gsmd_call_fwd_stat) : mem :=
  f32 (Some (fs_status s)) ++ f8 (Some (fs_classx s)) ++ f8 (fs_type s) ++ fs_number s ++
  undef 17 ++ undef 1 ++ f8 (fs_time s) ++ f32 (Some (fs_is_last s)).

Definition ccfc_fields (er : gsm_extrsp) (is_last : Z) : option gsmd_call_fwd_stat :=
  match er with
  | [GSMD_ECMD_RTT_NUMERIC status; GSMD_ECMD_RTT_NUMERIC classx] =>
      Some (FwdStat status classx None (number_field []) None is_last)
  | [GSMD_ECMD_RTT_NUMERIC status; GSMD_ECMD_RTT_NUMERIC classx; GSMD_ECMD_RTT_STRING number;
     GSMD_ECMD_RTT_NUMERIC type] =>
      Some (FwdStat status classx (Some type) (number_field number) None is_last)
  | [GSMD_ECMD_RTT_NUMERIC status; GSMD_ECMD_RTT_NUMERIC classx; GSMD_ECMD_RTT_STRING number;
     GSMD_ECMD_RTT_NUMERIC type; GSMD_ECMD_RTT_EMPTY; GSMD_ECMD_RTT_EMPTY;
     GSMD_ECMD_RTT_NUMERIC time] =>
      Some (FwdStat status classx (Some type) (number_field number) (Some time) is_last)
  | _ => None
  end.

Definition voicecall_fwd_stat_cb (cmd : gsmd_atcmd) (c : ctx) (resp : list Z) : G Z :=
  with_extrsp resp (λ er,
    match ccfc_fields er (is_final cmd) with
    | Some gcfs => gsmd_ucmd_submit c GSMD_MSG_VOICECALL GSMD_VOICECALL_FWD_STAT (ac_id cmd)
                     (enc_call_fwd_stat gcfs)
    | None => mret (- EINVAL)
    end).

(** ** PIN *)

Definition pin_cmd_cb (cmd : gsmd_atcmd) (c : ctx) : G Z :=
  submit_ret c GSMD_MSG_PIN GSMD_PIN_INPUT cmd.

Definition pin_type_names : list (list Z) :=
  [b "READY"; b "SIM PIN"; b "SIM PUK"; b "Phone-to-SIM PIN"; b "Phone-to-very-first SIM PIN";
   b "Phone-to-very-first SIM PUK"; b "SIM PIN2"; b "SIM PUK2"; b "Network personalization PIN";
   b "Network personalizaiton PUK"; b "Network subset personalisation PIN";
   b "Network subset personalisation PUK"; b "Service provider personalisation PIN";
   b "Service provider personalisation PUK"; b "Corporate personalisation PIN";
   b "Corporate personalisation PUK"].

(** The last name that equals the text; [type] stays indeterminate without one. *)
Fixpoint pin_type_of (names : list (list Z)) (i : Z) (resp : list Z) (type : option Z) : option Z :=
  match names with
  | [] => type
  | n :: names' => pin_type_of names' (i + 1) resp (if str_eq resp n then Some i else type)
  end.

Definition get_cpin_cb (cmd : gsmd_atcmd) (c : ctx) (resp : list Z) : G Z :=
  let type := if strn_eq 7 resp (b "+CPIN: ")
              then pin_type_of pin_type_names 0 (drop 7 resp) None else None in
  gsmd_ucmd_submit c GSMD_MSG_PIN GSMD_PIN_GET_STATUS (ac_id cmd) (f32 type).

(** ** The phone *)

Definition phone_powerup_cb (cmd : gsmd_atcmd) (c : ctx) : G Z :=
  (if ac_ret cmd =? 0 then user_of c;; set_on 1 else mret tt);;
  submit_ret c GSMD_MSG_PHONE GSMD_PHONE_POWERUP cmd.

Definition phone_powerdown_cb (cmd : gsmd_atcmd) (c : ctx) : G Z :=
  submit_ret c GSMD_MSG_PHONE GSMD_PHONE_POWERDOWN cmd.

Definition phone_power_status_cb (cmd : gsmd_atcmd) (c : ctx) (resp : list Z) : G Z :=
  submit_text c GSMD_MSG_PHONE GSMD_PHONE_POWER_STATUS cmd (strip (b "+CFUN: ") resp).
Definition phone_get_manuf_cb (cmd : gsmd_atcmd) (c : ctx) (resp : list Z) : G Z :=
  submit_text c GSMD_MSG_PHONE GSMD_PHONE_GET_MANUF cmd (strip (b "+CGMI: ") resp).
Definition phone_get_model_cb (cmd : gsmd_atcmd) (c : ctx) (resp : list Z) : G Z :=
  submit_text c GSMD_MSG_PHONE GSMD_PHONE_GET_MODEL cmd (strip (b "+CGMM: ") resp).
Definition phone_get_revision_cb (cmd : gsmd_atcmd) (c : ctx) (resp : list Z) : G Z :=
  submit_text c GSMD_MSG_PHONE GSMD_PHONE_GET_REVISION cmd (strip (b "+CGMR: ") resp).
Definition phone_get_serial_cb (cmd : gsmd_atcmd) (c : ctx) (resp : list Z) : G Z :=
  submit_text c GSMD_MSG_PHONE GSMD_PHONE_GET_SERIAL cmd (strip (b "+CGSN: ") resp).

Definition phone_get_battery_cb (cmd : gsmd_atcmd) (c : ctx) (resp : list Z) : G Z :=
  with_extrsp resp (λ er,
    let '(bcs, bcl) := match er with
                       | [GSMD_ECMD_RTT_NUMERIC bcs; GSMD_ECMD_RTT_NUMERIC bcl] =>
                           (Some bcs, Some bcl)
                       | _ => (None, None)
                       end in
    gsmd_ucmd_submit c GSMD_MSG_PHONE GSMD_PHONE_GET_BATTERY (ac_id cmd) (f32 bcs ++ f8 bcl)).

Definition phone_vibrator_enable_cb (cmd : gsmd_atcmd) (c : ctx) : G Z :=
  (if ac_ret cmd =? 0 then user_of c;; set_vibrator 1 else mret tt);;
  submit_ret c GSMD_MSG_PHONE GSMD_PHONE_VIB_ENABLE cmd.

Definition phone_vibrator_disable_cb (cmd : gsmd_atcmd) (c : ctx) : G Z :=
  submit_ret c GSMD_MSG_PHONE GSMD_PHONE_VIB_DISABLE cmd.

(** ** The network *)

Definition network_query_reg_cb (cmd : gsmd_atcmd) (c : ctx) (resp : list Z) : G Z :=
  if negb (strn_eq 7 resp (b "+CREG: ")) then mret (- EINVAL)
  else
    with_extrsp resp (λ er,
      let state := match er with
                   | [GSMD_ECMD_RTT_NUMERIC _; GSMD_ECMD_RTT_NUMERIC stat; _; _]
                   | [GSMD_ECMD_RTT_NUMERIC _; GSMD_ECMD_RTT_NUMERIC stat] => Some stat
                   | _ => None
                   end in
      gsmd_ucmd_submit c GSMD_MSG_NETWORK GSMD_NETWORK_QUERY_REG (ac_id cmd) (f32 state)).

Definition vmail_fields (er : gsm_extrsp) : mem :=
  match er with
  | [GSMD_ECMD_RTT_NUMERIC enable; GSMD_ECMD_RTT_STRING number; GSMD_ECMD_RTT_NUMERIC type] =>
      f8 (Some enable) ++ enc_addr (Addr (Some type) (number_field number))
  | _ => undef 1 ++ enc_addr addr_undef
  end.

Definition network_vmail_cb (cmd : gsmd_atcmd) (c : ctx) (resp : list Z) : G Z :=
  c7 ← deref (ac_buf cmd !! 7%nat) "cmd->buf[7]";
  if c7 =? ch "=" then submit_ret c GSMD_MSG_NETWORK GSMD_NETWORK_VMAIL_SET cmd
  else if negb (strn_eq 7 resp (b "+CSVM: ")) then mret (- EINVAL)
  else
    with_extrsp (drop 7 resp) (λ er,
      gsmd_ucmd_submit c GSMD_MSG_NETWORK GSMD_NETWORK_VMAIL_GET (ac_id cmd) (vmail_fields er)).

(** [atoi(resp + 6)] of a response shorter than that reads what follows it. *)
Definition network_sigq_cb (cmd : gsmd_atcmd) (c : ctx) (resp : list Z) : G Z :=
  let rssi := if (6 <=? length resp)%nat then Some (atoi (drop 6 resp)) else None in
  match strchr resp (ch ",") with
  | None => mret (- EIO)
  | Some comma =>
      gsmd_ucmd_submit c GSMD_MSG_NETWORK GSMD_NETWORK_SIGQ_GET (ac_id cmd)
        (f8 rssi ++ f8 (Some (atoi (tail comma))))
  end.

Definition cops_fmt : list dir :=
  lits (b "+COPS: ") ++ [D_int false; D_lit (ch ","); D_int true; D_lit (ch ","); D_lit DQ; D_cnt].

(** The operator's name, or NULL when its closing quote is missing; [s] is
    indeterminate when only the format was read. *)
Definition oper_name (resp : list Z) : G (option (list Z)) :=
  match sscanf resp cops_fmt with
  | [VI _; VN s] =>
      let opname := drop s resp in
      match strchr opname DQ with
      | None => mret None
      | Some _ => mret (Some (before opname DQ))
      end
  | [] => mret (Some [])
  | _ => undefined "the offset of the name was not read"
  end.

Definition network_oper_cb (cmd : gsmd_atcmd) (c : ctx) (resp : list Z) : G Z :=
  name ← oper_name resp;
  match name with
  | None => mret (- EINVAL)
  | Some name => submit_text c GSMD_MSG_NETWORK GSMD_NETWORK_OPER_GET cmd name
  end.

Definition oper_buf (name : list Z) : mem :=
  let t := take 16 name in known (t ++ replicate (17 - length t) 0).

Definition network_oper_n_cb (cmd : gsmd_atcmd) (c : ctx) (resp : list Z) : G Z :=
  with_extrsp resp (λ er,
    let submit buf := gsmd_ucmd_submit c GSMD_MSG_NETWORK GSMD_NETWORK_OPER_N_GET (ac_id cmd) buf in
    match er with
    | [GSMD_ECMD_RTT_NUMERIC _] => submit (oper_buf [])
    | GSMD_ECMD_RTT_NUMERIC _ :: GSMD_ECMD_RTT_NUMERIC _ :: GSMD_ECMD_RTT_STRING name :: _ =>
        submit (oper_buf name)
    | _ => mret (- EINVAL)
    end).

(** [+COPS=?]: the list ends before two commas in a row. *)
Fixpoint before_commas (s : list Z) : list Z :=
  match s with
  | x :: (y :: _) as s' => if (x =? ch ",") && (y =? ch ",") then [] else x :: before_commas s'
  | _ => s
  end.

(** The number of operators: of opening parentheses followed by a digit. *)
Fixpoint count_opers (s : list Z) : nat :=
  match s with
  | x :: (y :: _) as s' => if (x =? ch "(") && isdigit y then S (count_opers s') else count_opers s'
  | _ => 0
  end.

Definition sizeof_msg_oper : nat := 40.

Definition enc_msg_oper (stat : Z) (long short num : list Z) : mem :=
  f32 (Some stat) ++ f32 (Some 0) ++ strlcpy_field 16 long ++ strlcpy_field 8 short ++
  strlcpy_field 6 num ++ undef 2.

Definition last_oper : mem := undef 4 ++ f32 (Some 1) ++ undef 32.

Definition oper_entry (text : list Z) : G (mem + Z) :=
  must (Z.of_nat (length text) <? 64) "network_opers_parse: buf";;
  er ← extrsp_parse (Some text);
  match er with
  | None => mret (inr (- ENOMEM))
  | Some (GSMD_ECMD_RTT_NUMERIC stat :: GSMD_ECMD_RTT_STRING long :: GSMD_ECMD_RTT_STRING short ::
          GSMD_ECMD_RTT_STRING num :: _) => mret (inl (enc_msg_oper stat long short num))
  | Some _ => mret (inr (- EINVAL))
  end.

(** The second loop: [head] is what follows the last opening parenthesis, [out]
    the entries filled, of the [n + 1] allocated. An entry that cannot be parsed
    ends it with an error. *)
Fixpoint opers_loop (str : list Z) (head : option (list Z)) (n : nat) (out : mem) : G (mem + Z) :=
  match str with
  | [] => mret (inl out)
  | x :: str' =>
      if x =? ch "(" then opers_loop str' (Some []) n out
      else if x =? ch ")" then
        text ← deref head "network_opers_parse: head is indeterminate";
        e ← oper_entry text;
        match e with
        | inr rc => mret (inr rc)
        | inl e =>
            must (length out <=? n * sizeof_msg_oper)%nat "network_opers_parse: too many entries";;
            opers_loop str' (Some (text ++ [x])) n (out ++ e)
        end
      else opers_loop str' ((λ t, t ++ [x]) <$> head) n out
  end.

Definition network_opers_parse (str : list Z) : G (mem + Z) :=
  if negb (strn_eq 7 str (b "+COPS: ")) then mret (inr (- EINVAL))
  else
    let str := before_commas str in
    let n := count_opers str in
    ok ← talloc;
    must ok "network_opers_parse: *out is NULL";;
    r ← opers_loop str None n [];
    match r with
    | inr rc => mret (inr rc)
    | inl out =>
        must (length out <=? n * sizeof_msg_oper)%nat "network_opers_parse: too many entries";;
        mret (inl (out ++ last_oper ++ undef (n * sizeof_msg_oper - length out)))
    end.

Definition network_opers_cb (cmd : gsmd_atcmd) (c : ctx) (resp : list Z) : G Z :=
  r ← network_opers_parse resp;
  match r with
  | inr rc => mret rc
  | inl buf => gsmd_ucmd_submit c GSMD_MSG_NETWORK GSMD_NETWORK_OPER_LIST (ac_id cmd) buf
  end.

(** The command failed: nothing is sent to the client. *)
Definition failed (cmd : gsmd_atcmd) : bool :=
  negb (ac_ret cmd =? 0) && negb (ac_ret cmd =? NO_RESULT).

Definition cpol_fmt : list dir :=
  lits (b "+CPOL: ") ++ [D_int true] ++ lits (b ",0,") ++
  [D_lit DQ; D_set notquote (Some 16%nat) true; D_lit DQ].

Definition network_pref_opers_cb (cmd : gsmd_atcmd) (c : ctx) (resp : list Z) : G Z :=
  if failed cmd then mret 0
  else
    match sscanf resp cpol_fmt with
    | [VI index; VS opname] =>
        gsmd_ucmd_submit c GSMD_MSG_NETWORK GSMD_NETWORK_PREF_LIST (ac_id cmd)
          (f32 (Some index) ++ f32 (Some (if ac_ret cmd =? 0 then 1 else 0)) ++
           take 16 (strlcpy_field 17 opname))
    | _ => mret (- EINVAL)
    end.

Definition network_pref_num_cb (cmd : gsmd_atcmd) (c : ctx) (resp : list Z) : G Z :=
  if negb (ac_ret cmd =? 0) then mret 0
  else
    match sscanf resp (lits (b "+CPOL: (") ++ [D_int true; D_lit (ch "-"); D_int true; D_lit (ch ")")]) with
    | [VI min_index; VI max_index] =>
        let size := max_index - min_index + 1 in
        must ((INT_MIN <=? max_index - min_index) && (size <=? INT_MAX)) "integer overflow";;
        gsmd_ucmd_submit c GSMD_MSG_NETWORK GSMD_NETWORK_PREF_SPACE (ac_id cmd) (f32 (Some size))
    | _ => mret (- EINVAL)
    end.

(** ** Own numbers *)

Definition GSMD_SERVICE_UNKNOWN : Z := -1.

Definition cnum_head_fmt : list dir :=
  lits (b "+CNUM: ") ++ quoted_opt ++ [D_chr; D_cnt].
Definition cnum_number : list dir :=
  [D_lit DQ; D_set notquote (Some 32%nat) true; D_lit DQ; D_lit (ch ","); D_int true;
   D_lit (ch ","); D_int false; D_lit (ch ","); D_int true; D_lit (ch ",")].
Definition cnum_fmt1 : list dir :=
  lits (b "+CNUM: ") ++ [D_lit DQ; D_set notquote None true; D_lit DQ; D_lit (ch ",")] ++ cnum_number.
Definition cnum_fmt2 : list dir := lits (b "+CNUM: ,") ++ cnum_number.

(** The length of the name, from the number of characters before the number. *)
Definition cnum_len (resp : list Z) : Z :=
  match sscanf resp cnum_head_fmt with
  | [VI _; VN n] => Z.of_nat n - 10
  | _ => 0
  end.

(** Name, number, type and service. *)
Definition cnum_fields (len : Z) (resp : list Z) : option (list Z * list Z * Z * Z) :=
  if negb (len =? 0) then
    match sscanf resp cnum_fmt1 with
    | [VS name; VS number; VI type; VI service] => Some (name, number, type, service)
    | [VS name; VS number; VI type] => Some (name, number, type, GSMD_SERVICE_UNKNOWN)
    | _ => None
    end
  else
    match sscanf resp cnum_fmt2 with
    | [VS number; VI type; VI service] => Some ([], number, type, service)
    | [VS number; VI type] => Some ([], number, type, GSMD_SERVICE_UNKNOWN)
    | _ => None
    end.

(** [struct gsmd_own_number] is 44 bytes, the name beginning at byte 42, and
    [len + 1] bytes are allocated after it. *)
Definition enc_own_number (is_last service type : Z) (number name : list Z) (len : nat) : option mem :=
  field ← (if is_empty name then Some (undef (len + 3)) else strcpy (undef (len + 3)) name);
  Some (f32 (Some is_last) ++ f32 (Some service) ++
        enc_addr (Addr (Some type) (number_field number)) ++ put len (known [0]) field).

Definition network_ownnumbers_cb (cmd : gsmd_atcmd) (c : ctx) (resp : list Z) : G Z :=
  if failed cmd then mret 0
  else
    let len := cnum_len resp in
    must (0 <=? len) "network_ownnumbers_cb: negative length";;
    ok ← talloc;
    must ok "network_ownnumbers_cb: num is NULL";;
    match cnum_fields len resp with
    | None => mret (- EINVAL)
    | Some (name, number, type, service) =>
        num ← deref (enc_own_number (if ac_ret cmd =? 0 then 1 else 0) service type number name
                       (Z.to_nat len)) "network_ownnumbers_cb: name overrun";
        gsmd_ucmd_submit c GSMD_MSG_NETWORK GSMD_NETWORK_GET_NUMBER (ac_id cmd) num
    end.

(** ** The phone book *)

Definition GSMD_PB_NUMB_MAXLEN : nat := 44.
Definition GSMD_PB_TEXT_MAXLEN : nat := 14.

Definition enc_phonebook (index : Z) (rest : option (list Z * Z * list Z)) : mem :=
  f8 (Some index) ++
  match rest with
  | Some (numb, type, text) =>
      strlcpy_field (GSMD_PB_NUMB_MAXLEN + 1) numb ++ f8 (Some type) ++
      strlcpy_field (GSMD_PB_TEXT_MAXLEN + 1) text
  | None => undef (GSMD_PB_NUMB_MAXLEN + 1) ++ undef 1 ++ undef (GSMD_PB_TEXT_MAXLEN + 1)
  end.

(** The entry of a response to [AT+CPBF] or [AT+CPBR]; [None] for another text. *)
Definition phonebook_entry (er : gsm_extrsp) (resp : list Z) : G (option mem) :=
  if strn_eq 2 resp (b "OK") then mret (Some (enc_phonebook 0 None))
  else if strn_eq 4 resp (b "+CME") then
    n ← error_number resp; mret (Some (enc_phonebook (0 - n) None))
  else
    match er with
    | [GSMD_ECMD_RTT_NUMERIC index; GSMD_ECMD_RTT_STRING numb; GSMD_ECMD_RTT_NUMERIC type;
       GSMD_ECMD_RTT_STRING text] => mret (Some (enc_phonebook index (Some (numb, type, text))))
    | _ => mret None
    end.

(** The callbacks differ in the message's type, and in whether it says that it is
    the last one. *)
Definition phonebook_cb (subtype : Z) (with_last : bool) (cmd : gsmd_atcmd) (c : ctx) (resp : list Z) :
    G Z :=
  with_extrsp resp (λ er,
    e ← phonebook_entry er resp;
    match e with
    | None => mret (- EINVAL)
    | Some pb => gsmd_ucmd_submit c GSMD_MSG_PHONEBOOK subtype (ac_id cmd)
                   (if with_last : bool then pb ++ f8 (Some (is_final cmd)) else pb)
    end).

Definition phonebook_find_cb := phonebook_cb GSMD_PHONEBOOK_FIND true.
Definition phonebook_read_cb := phonebook_cb GSMD_PHONEBOOK_READ false.
Definition phonebook_readrg_cb := phonebook_cb GSMD_PHONEBOOK_READRG true.

Definition phonebook_write_cb (cmd : gsmd_atcmd) (c : ctx) (resp : list Z) : G Z :=
  submit_text c GSMD_MSG_PHONEBOOK GSMD_PHONEBOOK_WRITE cmd resp.
Definition phonebook_delete_cb (cmd : gsmd_atcmd) (c : ctx) (resp : list Z) : G Z :=
  submit_text c GSMD_MSG_PHONEBOOK GSMD_PHONEBOOK_DELETE cmd resp.

Definition phonebook_get_support_cb (cmd : gsmd_atcmd) (c : ctx) (resp : list Z) : G Z :=
  match strchr resp (ch "-"), strchr resp (ch ","), strrchr resp (ch ",") with
  | Some dash, Some fcomma, Some lcomma =>
      gsmd_ucmd_submit c GSMD_MSG_PHONEBOOK GSMD_PHONEBOOK_GET_SUPPORT (ac_id cmd)
        (f8 (Some (atoi (tail dash))) ++ f8 (Some (atoi (tail fcomma))) ++
         f8 (Some (atoi (tail lcomma))))
  | _, _, _ => mret (- EIO)
  end.

(** One [struct gsmd_phonebook_mem]: the type's two letters. *)
Definition enc_pb_mem (s : list Z) : mem :=
  let t := take 2 s in known (t ++ replicate (3 - length t) 0) ++ undef 5.

Definition PB_STORAGES : nat := 20.

(** [ptr = strpbrk(ptr + 2, delim)] until it is NULL: [skip] characters are passed
    over unseen. *)
Fixpoint storages_loop (str : list Z) (skip : nat) (found : list mem) : G (list mem) :=
  match str, skip with
  | [], _ => mret found
  | _ :: str', S skip' => storages_loop str' skip' found
  | x :: str', O =>
      if (x =? ch "(") || (x =? ch ",") then
        must (length found <? PB_STORAGES)%nat "phonebook_list_storage_cb: more than 20 storages";;
        must (2 <=? length str)%nat "phonebook_list_storage_cb: read beyond the response";;
        storages_loop str' 1 (found ++ [enc_pb_mem (drop 2 str)])
      else storages_loop str' 0 found
  end.

Definition phonebook_list_storage_cb (cmd : gsmd_atcmd) (c : ctx) (resp : list Z) : G Z :=
  found ← (if strn_eq 5 resp (b "+CPBS")
           then storages_loop resp 0 [] else mret []);
  gsmd_ucmd_submit c GSMD_MSG_PHONEBOOK GSMD_PHONEBOOK_LIST_STORAGE (ac_id cmd)
    (f8 (Some (Z.of_nat (length found))) ++ mjoin found ++
     undef (8 * (PB_STORAGES - length found))).

(** ** The queue is only appended to *)

Lemma keeps_with_extrsp `{!Effects d R} r k : (∀ er, keeps R (k er)) → keeps R (with_extrsp r k).
Proof. intros Hk. unfold with_extrsp. solve_keeps. Qed.
Lemma keeps_error_number `{!Effects d R} r : keeps R (error_number r).
Proof. unfold error_number. solve_keeps. Qed.
Lemma keeps_submit_ret `{!Effects d R} c t st cmd : keeps R (submit_ret c t st cmd).
Proof. unfold submit_ret. solve_keeps. Qed.
Lemma keeps_submit_text `{!Effects d R} c t st cmd x : keeps R (submit_text c t st cmd x).
Proof. unfold submit_text. solve_keeps. Qed.
Lemma keeps_usock_cmd_cb `{!Effects d R} cmd c r : keeps R (usock_cmd_cb cmd c r).
Proof. unfold usock_cmd_cb, ucmd_alloc. solve_keeps. Qed.
Lemma keeps_oper_name `{!Effects d R} r : keeps R (oper_name r).
Proof. unfold oper_name. solve_keeps. Qed.
Lemma keeps_oper_entry `{!Effects d R} t : keeps R (oper_entry t).
Proof. unfold oper_entry. solve_keeps. Qed.
#[export] Hint Resolve keeps_error_number keeps_submit_ret keeps_submit_text keeps_usock_cmd_cb
  keeps_oper_name keeps_oper_entry : keeps.
Lemma keeps_opers_loop `{!Effects d R} l h n o : keeps R (opers_loop l h n o).
Proof. revert h o. induction l; intros h o; cbn [opers_loop]; solve_keeps; auto. Qed.
#[export] Hint Resolve keeps_opers_loop : keeps.
Lemma keeps_network_opers_parse `{!Effects d R} l : keeps R (network_opers_parse l).
Proof. unfold network_opers_parse. solve_keeps. Qed.
Lemma keeps_phonebook_entry `{!Effects d R} er r : keeps R (phonebook_entry er r).
Proof. unfold phonebook_entry. solve_keeps. Qed.
Lemma keeps_storages_loop `{!Effects d R} l k f : keeps R (storages_loop l k f).
Proof. revert k f. induction l; intros [|k] f; cbn [storages_loop]; solve_keeps; auto. Qed.
#[export] Hint Resolve keeps_network_opers_parse keeps_phonebook_entry keeps_storages_loop : keeps.
