(* ===== verification/Main.v ===== *)
(** * The daemon's own commands and its plugins (gsmd.c, machine.c, machine_generic.c, machine_gta01.c, machine_telit.c, machine_tihtc.c)

    Choosing and initialising the machine plugin, the commands that set the modem
    up, and the inquiry whether the modem is still alive. *)

From S2P Require Import Prelude CString Enums Wire LLParse Timers State Queue.
From S2P Require Import Events OpCache SmsCb Unsolicited Vendor.

(** ** Which plugins are loaded (machine.c 91-165) *)

Definition machines : list (list Z * (list Z * list Z)) :=
  [(b "GTA01", (b "gta01", b "ti")); (b "GTA02", (b "gta01", b "ti"));
   (b "HTC Blueangel", (b "tihtc", b "tihtc")); (b "HTC Himalaya", (b "tihtc", b "tihtc"));
   (b "HTC Magician", (b "tihtc", b "tihtc")); (b "HTC Universal", (b "generic", b "qc"));
   (b "Palm Treo 650", (b "generic", b "bcm"))].

Definition find_machine (hw : list Z) : option (list Z * list Z) :=
  snd <$> find (λ m, str_eq hw (fst m)) machines.

(** The lines of [/proc/cpuinfo] as [strtok(buf, "\n")] yields them: empty lines
    are skipped, [cur] is the line being read. *)
Fixpoint lines (cur s : list Z) : list (list Z) :=
  match s with
  | [] => if is_empty cur then [] else [cur]
  | c :: s' =>
      if c =? LF then (if is_empty cur then lines [] s' else cur :: lines [] s')
      else lines (cur ++ [c]) s'
  end.

Definition HARDWARE : list Z := b "Hardware" ++ [9] ++ b ": ".

Definition hardware_line (line : list Z) : option (list Z) :=
  if strn_eq 11 line HARDWARE then Some (drop 11 line) else None.

(** The loop begins with the second line, and ends at the first that matches. *)
Fixpoint first_hardware (ls : list (list Z)) : option (list Z) :=
  match ls with
  | [] => None
  | l :: ls' => match hardware_line l with Some hw => Some hw | None => first_hardware ls' end
  end.

Definition hardware (cpuinfo : list Z) : option (list Z) := first_hardware (tail (lines [] cpuinfo)).

(** The names of the plugins to load: the user's choice goes before the
    detected one. [cpuinfo] is the text read from [/proc/cpuinfo]. *)
Definition detected (cpuinfo : list Z) : option (list Z * list Z) :=
  hw ← hardware cpuinfo; find_machine hw.

Definition or_detected (name detected : option (list Z)) : option (list Z) :=
  match name with Some n => Some n | None => detected end.

Definition gsmd_machine_plugin_init (cpuinfo : list Z) (machine_name vendor_name : option (list Z)) :
    list Z * list (list Z) :=
  let machine_name := or_detected machine_name (fst <$> detected cpuinfo) in
  let vendor_name := or_detected vendor_name (snd <$> detected cpuinfo) in
  (default (b "generic") machine_name,
   match vendor_name with
   | Some v => [v]
   | None => [b "ti"; b "tihtc"; b "qc"; b "bcm"]
   end).

(** [dlopen] of [libgsmd-machine_<name>.so] and [libgsmd-vendor_<name>.so]: the
    plugins of the source tree. *)
Definition machine_of_name (name : list Z) : option machine :=
  if str_eq name (b "generic") then Some machine_generic
  else if str_eq name (b "gta01") then Some machine_gta01
  else if str_eq name (b "telit") then Some machine_telit
  else if str_eq name (b "tihtc") then Some machine_tihtc
  else None.

Definition vendor_of_name (name : list Z) : option vendor :=
  if str_eq name (b "ti") then Some vendor_ti
  else if str_eq name (b "tihtc") then Some vendor_tihtc
  else if str_eq name (b "qc") then Some vendor_qc
  else if str_eq name (b "bcm") then Some vendor_bcm
  else if str_eq name (b "telit") then Some vendor_telit
  else None.

(** [vendorpl_list] after loading [names]: each is put in front. *)
Definition load_vendors (names : list (list Z)) : list vendor :=
  foldl (λ l n, match vendor_of_name n with Some v => v :: l | None => l end) [] names.

(** ** The machine plugin *)

(** Every [detect] returns 1: the first registered plugin is taken. *)
Definition gsmd_machine_plugin_find (machinepl_list : list machine) : G Z :=
  s ← get;
  match machinepl s, machinepl_list with
  | Some _, _ => mret (- EEXIST)
  | None, [] => mret 0
  | None, pl :: _ => modify (set_machinepl (Some pl));; mret 1
  end.

(** [machinepl->init]; [ioctl_rc] is the result of setting the line discipline. *)
Definition machine_init (m : machine) (ioctl_rc : Z) : G Z :=
  match m with
  | machine_tihtc => modify (set_interpreter_ready false);; mret ioctl_rc
  | _ => modify (set_interpreter_ready true);; mret 0
  end.

Definition gta01_initsettings : G Z :=
  simplecmds [b "AT@AUL=" ++ quoted (b "0"); b "AT@ST=" ++ quoted (b "-26")].

Definition machine_initsettings (m : machine) : option (G Z) :=
  match m with machine_gta01 => Some gta01_initsettings | _ => None end.

(** ** Is the modem alive? *)

Definition GSMD_ALIVECMD : list Z := b "AT".
Definition GSMD_ALIVE_INTERVAL : Z := 5 * 60.
Definition GSMD_ALIVE_TIMEOUT : Z := 30.

Definition gsmd_alive_cb (c : ctx) (resp : list Z) : G Z :=
  gsmd_of c;;
  s ← get;
  (if str_eq resp (b "OK") || str_eq resp (b "ERROR") ||
      (flag_v0 s && (default 0 (head resp) =? ch "0"))
   then modify (set_alive_responded true) else mret tt);;
  mret 0.

(** The timer is freed; the command's pointer to it is left. *)
Definition alive_tmr_cb : G unit :=
  s ← get;
  if negb (alive_responded s) then halt (Exited 3) else mret tt.

Definition gsmd_modem_alive : G Z :=
  modify (set_alive_responded false);;
  cmd ← atcmd_fill GSMD_ALIVECMD (Z.of_nat (length GSMD_ALIVECMD) + 1) (Some CB_gsmd_alive_cb)
          CtxGsmd 0 (Some alive_timer);
  submit_or_nomem cmd.

Definition alive_interval_tmr_cb (tmr : gsmd_timer timer_cb) : G unit :=
  gsmd_modem_alive;;
  gsmd_timer_register (Timer (tmr_ref tmr) (TV GSMD_ALIVE_INTERVAL 0) (tmr_cb tmr));;
  mret tt.

Definition gsmd_alive_start : G Z :=
  t ← gsmd_timer_create (TV GSMD_ALIVE_INTERVAL 0) T_alive_interval_tmr_cb;
  match t with
  | None => mret (-1)
  | Some _ => mret 0
  end.

(** ** Setting the modem up *)

Definition gsmd_test_atcb : G Z := mret 0.

Definition gsmd_get_imsi_cb (c : ctx) (resp : list Z) : G Z :=
  gsmd_of c;;
  modify (set_imsi (take 15 resp));;
  mret 0.

(** [atcmd_submit(g, atcmd_fill(...))]: the result of [atcmd_fill] is not tested. *)
Definition submit_unchecked (cmd : option gsmd_atcmd) : G Z :=
  cmd ← deref cmd "atcmd_submit of a NULL command";
  atcmd_submit cmd.

Definition base_settings : list (list Z) :=
  [b "ATE0V1"; b "AT+CRC=1"; b "AT+CREG=2"; b "AT+CMEE=1"; b "AT+CLIP=1"; b "AT+COLP=0";
   b "AT+CCWA=1,1"; b "AT+CMGF=0"].

Definition gsmd_initsettings2 : G Z :=
  rc ← simplecmds base_settings;
  cmd ← atcmd_fill (b "AT+CIMI") 8 (Some CB_gsmd_get_imsi_cb) CtxGsmd 0 None;
  submit_unchecked cmd;;
  sms_cb_init;;
  s ← get;
  match vendorpl s with
  | None => mret rc
  | Some v =>
      rc' ← vendor_initsettings v;
      match machinepl s ≫= machine_initsettings with
      | Some init => rc'' ← init; mret (Z.lor (Z.lor rc rc') rc'')
      | None => mret (Z.lor rc rc')
      end
  end.

(** Whatever the response, the set-up goes on. *)
Definition firstcmd_atcb (c : ctx) : G Z :=
  gsmd_of c;;
  gsmd_initsettings2.

Definition gsmd_initsettings : G Z :=
  cmd ← atcmd_fill (b "ATZ") 4 (Some CB_firstcmd_atcb) CtxGsmd 0 None;
  submit_or_nomem cmd.

(** ** The queue is only appended to *)

Lemma keeps_gsmd_alive_cb `{!Effects d R} c r : keeps R (gsmd_alive_cb c r).
Proof. unfold gsmd_alive_cb. solve_keeps. apply keeps_modify. intros s. apply eff_alive. Qed.
Lemma keeps_alive_tmr_cb `{!Effects d R} : keeps R alive_tmr_cb.
Proof. unfold alive_tmr_cb. solve_keeps. Qed.
Lemma keeps_gsmd_modem_alive `{!Effects d R} : keeps R gsmd_modem_alive.
Proof. unfold gsmd_modem_alive. solve_keeps. apply keeps_modify. intros s. apply eff_alive. Qed.
#[export] Hint Resolve keeps_gsmd_alive_cb keeps_alive_tmr_cb keeps_gsmd_modem_alive : keeps.
Lemma keeps_gsmd_alive_start `{!TimerEffects d R} : keeps R gsmd_alive_start.
Proof. unfold gsmd_alive_start. solve_keeps. Qed.
Lemma keeps_gsmd_get_imsi_cb `{!Effects d R} c r : keeps R (gsmd_get_imsi_cb c r).
Proof. unfold gsmd_get_imsi_cb. solve_keeps. apply keeps_modify. intros s. apply eff_imsi. Qed.
Lemma keeps_submit_unchecked `{!Effects d R} c : opt_new d c → keeps R (submit_unchecked c).
Proof. intros ?. unfold submit_unchecked. solve_keeps. Qed.
Lemma keeps_machine_initsettings `{!Effects d R} m i : machine_initsettings m = Some i → keeps R i.
Proof. destruct m; intros [= <-]. unfold gta01_initsettings. solve_keeps. Qed.
#[export] Hint Resolve keeps_gsmd_alive_start keeps_gsmd_get_imsi_cb
  keeps_submit_unchecked : keeps.
Lemma keeps_gsmd_initsettings2 `{!Effects d R} : keeps R gsmd_initsettings2.
Proof.
  unfold gsmd_initsettings2. solve_keeps.
  match goal with H : _ = Some _ |- _ => apply bind_Some in H as (pl & _ & H) end.
  by eapply keeps_machine_initsettings.
Qed.
Lemma keeps_gsmd_initsettings `{!Effects d R} : keeps R gsmd_initsettings.
Proof. unfold gsmd_initsettings. solve_keeps. Qed.
#[export] Hint Resolve keeps_gsmd_initsettings2 keeps_gsmd_initsettings : keeps.
Lemma keeps_firstcmd_atcb `{!Effects d R} c : keeps R (firstcmd_atcb c).
Proof. unfold firstcmd_atcb. solve_keeps. Qed.
#[export] Hint Resolve keeps_firstcmd_atcb : keeps.

(** ** The choice of the plugins *)

Lemma lines_run l rest : ∀ cur, LF ∉ l →
  lines cur (l ++ LF :: rest) =
  if is_empty (cur ++ l) then lines [] rest else (cur ++ l) :: lines [] rest.
Proof.
  induction l as [|c l IH]; intros cur Hl; cbn [app lines].
  - rewrite Z.eqb_refl, app_nil_r. done.
  - apply not_elem_of_cons in Hl as [Hc Hl]. destruct (Z.eqb_spec c LF); [congruence|].
    rewrite IH by done. by rewrite <- app_assoc.
Qed.

Definition line_of_text (l : list Z) : Prop := (LF ∉ l) ∧ (l ≠ []).
Definition unlines (ls : list (list Z)) : list Z := concat ((λ l, l ++ [LF]) <$> ls).

Lemma lines_unlines ls rest : Forall line_of_text ls → lines [] (unlines ls ++ rest) = ls ++ lines [] rest.
Proof.
  induction 1 as [|l ls [Hl Hne] _ IH]; [done|]. unfold unlines in *. cbn [fmap list_fmap concat].
  rewrite <- !app_assoc. cbn [app]. rewrite lines_run by done. cbn [app]. rewrite IH. by destruct l.
Qed.

Lemma hardware_line_run hw : hardware_line (HARDWARE ++ hw) = Some hw.
Proof. reflexivity. Qed.

Lemma first_hardware_skip ls rest : Forall (λ l, hardware_line l = None) ls →
  first_hardware (ls ++ rest) = first_hardware rest.
Proof. induction 1 as [|l ls Hl _ IH]; [done|]. cbn [app first_hardware]. by rewrite Hl. Qed.

(** The plugins: whatever surrounds it, the first hardware line after the first
    line of cpuinfo decides which machine and vendor plugins are loaded, when it
    names a known machine; a name given on the command line goes before it. *)
Theorem plugin_choice first pre hw rest m v mname vname :
  Forall line_of_text (first :: pre) → Forall (λ l, hardware_line l = None) pre → LF ∉ hw →
  find_machine hw = Some (m, v) →
  gsmd_machine_plugin_init (unlines (first :: pre ++ [HARDWARE ++ hw]) ++ rest) mname vname =
  (default m mname, [default v vname]).
Proof.
  intros Hl Hp Hw Hm. apply Forall_cons in Hl as [Hf Hl].
  assert (hardware (unlines (first :: pre ++ [HARDWARE ++ hw]) ++ rest) = Some hw) as E.
  { unfold hardware. rewrite lines_unlines.
    - cbn [app tail]. rewrite <- app_assoc, first_hardware_skip by done. cbn [app first_hardware].
      by rewrite hardware_line_run.
    - apply Forall_cons; split; [done|]. apply Forall_app; split; [done|]. constructor; [|done]. split; [|done].
      intros [H|?]%elem_of_app; [|done]. revert H. apply (bool_decide_eq_false_1 (LF ∈ HARDWARE)). reflexivity. }
  unfold gsmd_machine_plugin_init, detected. rewrite E. cbn [mbind option_bind]. rewrite Hm.
  by destruct mname, vname.
Qed.

Lemma plugin_choice_witness :
  gsmd_machine_plugin_init (unlines [b "Processor"; (HARDWARE ++ b "GTA01")] ++ b "Serial") None (Some (b "bcm")) =
  (b "gta01", [b "bcm"]).
Proof.
  apply (plugin_choice (b "Processor") [] (b "GTA01") (b "Serial") (b "gta01") (b "ti") None (Some (b "bcm"))).
  - constructor; [|constructor]. split; [|done]. apply (bool_decide_eq_false_1 (LF ∈ b "Processor")). reflexivity.
  - constructor.
  - apply (bool_decide_eq_false_1 (LF ∈ b "GTA01")). reflexivity.
  - reflexivity.
Defined.
