(* ===== verification/AtCmd.v ===== *)
(** * The command engine (src/target/gsm/src/gsmd/atcmd.c 208-472, 551-751)

    What becomes of a line from the modem: the response that ends a command, a
    part of a response, or an unsolicited result code; time-outs; cancelling
    commands.  The line parser and the timers call into this file through their
    interfaces. *)

From S2P Require Import Prelude CString Enums Wire LLParse Timers State Queue.
From S2P Require Import Events SmsCb Unsolicited Vendor UsockCb Main.

Definition MLPARSE_BUF_SIZE : Z := 65535.
Definition GSMD_ATCMD_TIMEOUT : Z := 60.

(** ** The callbacks *)

Definition run_cb (cb : atcmd_cb) (cmd : gsmd_atcmd) (resp : list Z) : G Z :=
  let c := ac_ctx cmd in
  match cb with
  | CB_gsmd_alive_cb => gsmd_alive_cb c resp
  | CB_gsmd_test_atcb => gsmd_test_atcb
  | CB_gsmd_get_imsi_cb => gsmd_get_imsi_cb c resp
  | CB_firstcmd_atcb => firstcmd_atcb c
  | CB_null_wakeup_cb => mret 0
  | CB_cpi_detect_cb => cpi_detect_cb resp
  | CB_usock_cmd_cb => usock_cmd_cb cmd c resp
  | CB_usock_ringing_cb => usock_ringing_cb cmd c resp
  | CB_null_cmd_cb => null_cmd_cb
  | CB_voicecall_get_stat_cb => voicecall_get_stat_cb cmd c resp
  | CB_voicecall_ctrl_cb => voicecall_ctrl_cb cmd c resp
  | CB_voicecall_fwd_stat_cb => voicecall_fwd_stat_cb cmd c resp
  | CB_pin_cmd_cb => pin_cmd_cb cmd c
  | CB_get_cpin_cb => get_cpin_cb cmd c resp
  | CB_phone_powerup_cb => phone_powerup_cb cmd c
  | CB_phone_powerdown_cb => phone_powerdown_cb cmd c
  | CB_phone_power_status_cb => phone_power_status_cb cmd c resp
  | CB_phone_get_manuf_cb => phone_get_manuf_cb cmd c resp
  | CB_phone_get_model_cb => phone_get_model_cb cmd c resp
  | CB_phone_get_revision_cb => phone_get_revision_cb cmd c resp
  | CB_phone_get_serial_cb => phone_get_serial_cb cmd c resp
  | CB_phone_get_battery_cb => phone_get_battery_cb cmd c resp
  | CB_phone_vibrator_enable_cb => phone_vibrator_enable_cb cmd c
  | CB_phone_vibrator_disable_cb => phone_vibrator_disable_cb cmd c
  | CB_network_query_reg_cb => network_query_reg_cb cmd c resp
  | CB_network_vmail_cb => network_vmail_cb cmd c resp
  | CB_network_sigq_cb => network_sigq_cb cmd c resp
  | CB_network_oper_cb => network_oper_cb cmd c resp
  | CB_network_oper_n_cb => network_oper_n_cb cmd c resp
  | CB_network_opers_cb => network_opers_cb cmd c resp
  | CB_network_pref_opers_cb => network_pref_opers_cb cmd c resp
  | CB_network_pref_num_cb => network_pref_num_cb cmd c resp
  | CB_network_ownnumbers_cb => network_ownnumbers_cb cmd c resp
  | CB_phonebook_find_cb => phonebook_find_cb cmd c resp
  | CB_phonebook_read_cb => phonebook_read_cb cmd c resp
  | CB_phonebook_readrg_cb => phonebook_readrg_cb cmd c resp
  | CB_phonebook_write_cb => phonebook_write_cb cmd c resp
  | CB_phonebook_delete_cb => phonebook_delete_cb cmd c resp
  | CB_phonebook_get_support_cb => phonebook_get_support_cb cmd c resp
  | CB_phonebook_list_storage_cb => phonebook_list_storage_cb cmd c resp
  | CB_sms_list_cb => sms_list_cb cmd c resp
  | CB_sms_read_cb => sms_read_cb cmd c resp
  | CB_sms_send_cb => sms_send_cb cmd c resp
  | CB_sms_write_cb => sms_write_cb cmd c resp
  | CB_sms_delete_cb => sms_delete_cb cmd c resp
  | CB_usock_cpms_cb => usock_cpms_cb cmd c resp
  | CB_usock_get_smsc_cb => usock_get_smsc_cb cmd c resp
  end.

Lemma keeps_run_cb `{!Effects d R} cb cmd resp : keeps R (run_cb cb cmd resp).
Proof.
  destruct cb; cbn [run_cb]; try solve [eauto with keeps nocore];
    unfold gsmd_test_atcb, null_cmd_cb, usock_ringing_cb, voicecall_get_stat_cb, voicecall_ctrl_cb,
      voicecall_fwd_stat_cb, pin_cmd_cb, get_cpin_cb, phone_powerup_cb, phone_powerdown_cb,
      phone_power_status_cb, phone_get_manuf_cb, phone_get_model_cb, phone_get_revision_cb,
      phone_get_serial_cb, phone_get_battery_cb, phone_vibrator_enable_cb,
      phone_vibrator_disable_cb, network_query_reg_cb, network_vmail_cb, network_sigq_cb,
      network_oper_cb, network_oper_n_cb, network_opers_cb, network_pref_opers_cb,
      network_pref_num_cb, network_ownnumbers_cb, phonebook_find_cb, phonebook_read_cb,
      phonebook_readrg_cb, phonebook_cb, phonebook_write_cb, phonebook_delete_cb,
      phonebook_get_support_cb, phonebook_list_storage_cb;
    repeat first [keeps_step | apply keeps_with_extrsp; intros ? | progress cbv zeta].
Qed.
#[export] Hint Resolve keeps_run_cb : keeps.

(** ** Objects of the queues *)

Definition set_ret (v : Z) (c : gsmd_atcmd) : gsmd_atcmd :=
  Atcmd (ac_ref c) (ac_ctx c) (ac_cb c) v (ac_buflen c) (ac_id c) (ac_timeout c)
    (ac_create_timer c) (ac_cur c) (ac_buf c).
Definition set_timeout (t : option Z) (c : gsmd_atcmd) : gsmd_atcmd :=
  Atcmd (ac_ref c) (ac_ctx c) (ac_cb c) (ac_ret c) (ac_buflen c) (ac_id c) t
    (ac_create_timer c) (ac_cur c) (ac_buf c).
Definition set_orphan (c : gsmd_atcmd) : gsmd_atcmd :=
  Atcmd (ac_ref c) CtxNull None (ac_ret c) (ac_buflen c) (ac_id c) (ac_timeout c)
    (ac_create_timer c) (ac_cur c) (ac_buf c).
Definition set_progress (n : Z) (c : gsmd_atcmd) : gsmd_atcmd :=
  Atcmd (ac_ref c) (ac_ctx c) (ac_cb c) (ac_ret c) (ac_buflen c - n) (ac_id c) (ac_timeout c)
    (ac_create_timer c) (ac_cur c + Z.to_nat n) (ac_buf c).

(** An assignment to the command at the head of the executing ones. *)
Definition on_first (f : gsmd_atcmd → gsmd_atcmd) (l : list gsmd_atcmd) : list gsmd_atcmd :=
  match l with [] => [] | c :: l' => f c :: l' end.
Definition set_first (f : gsmd_atcmd → gsmd_atcmd) : G unit :=
  modify (λ s, set_busy_atcmds (on_first f (busy_atcmds s)) s).

(** [llist_del] of that command, which is then freed. *)
Definition drop_first : G unit := modify (λ s, set_busy_atcmds (tail (busy_atcmds s)) s).

(** ... and then the next pending command is let through. *)
Definition finish_first : G unit := drop_first;; wake_if_idle.

Definition remove_timer (cmd : gsmd_atcmd) : G unit :=
  match ac_timeout cmd with
  | Some r => gsmd_timer_unregister r
  | None => mret tt
  end.

(** ** The buffer of a response in several lines *)

Definition mlbuf_clear : G unit := modify (λ s, set_mlbuf_zero true (set_mlbuf [] s)).
Definition mlbuf_set_len (n : Z) : G unit := modify (set_mlbuf_len n).

(** [memcpy(g->mlbuf + n, bytes, ...)]. *)
Definition mlbuf_write (n : Z) (bytes : list Z) : G unit :=
  modify (λ s, set_mlbuf (take (Z.to_nat n) (mlbuf s) ++ bytes ++
                          drop (Z.to_nat n + length bytes) (mlbuf s)) s).

(** The memory at [g->mlbuf] as a string: a NUL must follow. *)
Definition mlbuf_string : G (list Z) :=
  s ← get;
  must (bool_decide (0 ∈ mlbuf s) ||
        (mlbuf_zero s && (Z.of_nat (length (mlbuf s)) <? MLPARSE_BUF_SIZE)))
    "g->mlbuf is not terminated";;
  mret (mlbuf s).

(** ** The end of a command *)

(** [cmd->resp]: what was gathered, or the final result code. *)
Definition final_response (buf : list Z) : G (list Z) :=
  s ← get;
  if mlbuf_len s =? 0 then mret buf
  else
    must (mlbuf_len s <? MLPARSE_BUF_SIZE) "g->mlbuf[g->mlbuf_len]";;
    mret (until0 (take (Z.to_nat (mlbuf_len s)) (mlbuf s))).

(** [cmd] is the head of the executing commands. *)
Definition atcmd_done (cmd : gsmd_atcmd) (buf : list Z) : G Z :=
  remove_timer cmd;;
  rc ← match ac_cb cmd with
       | None => mret 0
       | Some cb =>
           resp ← final_response buf;
           rc ← run_cb cb cmd resp;
           mlbuf_clear;;
           mlbuf_set_len 0;;
           mret rc
       end;
  finish_first;;
  mret rc.

(** ** A line from the modem *)

(** What the first half of [ml_parse] decides. *)
Inductive ml_next : Type :=
  | ML_return (rc : Z)
  | ML_final (cme cms : bool)
  | ML_append (rc : Z).

Definition READY : list Z := b "AT-Command Interpreter ready".

(** [cmd->buf[2]] and the string that begins there. *)
Definition cmd_text2 (cmd : gsmd_atcmd) : G (list Z) :=
  must (2 <? length (ac_buf cmd))%nat "cmd->buf[2]";;
  mret (until0 (drop 2 (ac_buf cmd))).

(** [buf[0] == '+' || strchr(g->vendorpl->ext_chars, buf[0])]; a NUL is found at
    the end of [ext_chars]. *)
Definition is_ext_char (c : Z) : G bool :=
  if c =? ch "+" then mret true
  else
    s ← get;
    v ← deref (vendorpl s) "no vendor plugin";
    mret (bool_decide (c ∈ ext_chars v ++ [0])).

(** Case A: a part of the response to an extended command; [rc] is the result so
    far. *)
Definition ml_info (cmd : option gsmd_atcmd) (rc : Z) : G ml_next :=
  match cmd with
  | None => mret (ML_append rc)
  | Some cmd =>
      t ← cmd_text2 cmd;
      ext ← is_ext_char (default 0 (head t));
      if negb ext then mret (ML_return (- EINVAL))
      else
        s ← get;
        if mlbuf_len s =? 0 then mret (ML_append rc)
        else
          rc ← match ac_cb cmd with
               | None => mret rc
               | Some cb =>
                   m ← mlbuf_string;
                   rc ← run_cb cb cmd (until0 m);
                   mlbuf_clear;;
                   mret rc
               end;
          mlbuf_set_len 0;;
          mret (ML_append rc)
  end.

(** The parser wants the next line too: keep this one. *)
Definition ml_keep (raw : list Z) : G unit :=
  mlbuf_set_len (Z.of_nat (length raw));;
  mlbuf_write 0 raw;;
  modify (set_mlunsolicited true).

(** Case B, and A when no parser handles the line. *)
Definition ml_unsolicited (raw : list Z) (cmd : option gsmd_atcmd) : G ml_next :=
  rc ← unsolicited raw (length raw);
  if rc =? - EAGAIN then ml_keep raw;; mret (ML_return 0)
  else if negb (rc =? - ENOENT) then mret (ML_return rc)
  else ml_info cmd rc.

(** [!cmd || strncmp(buf, &cmd->buf[2], colon - buf)]. *)
Definition not_mine (buf : list Z) (n : nat) (cmd : option gsmd_atcmd) : G bool :=
  match cmd with
  | None => mret true
  | Some cmd => t ← cmd_text2 cmd; mret (negb (strn_eq n buf t))
  end.

(** [cmd->ret = err_nr]. *)
Definition err_nr (colon : list Z) : Z := s32 (fst (strtoul 10 (tail colon))).

Definition ml_extended (raw buf : list Z) (cmd : option gsmd_atcmd) : G ml_next :=
  match strchr buf (ch ":") with
  | None => mret (ML_return (- EINVAL))
  | Some colon =>
      if strn_eq 9 (tail buf) (b "CME ERROR") then
        set_first (set_ret (err_nr colon));; mret (ML_final true false)
      else if strn_eq 9 (tail buf) (b "CMS ERROR") then
        set_first (set_ret (err_nr colon));; mret (ML_final false true)
      else
        unsol ← not_mine buf (length buf - length colon) cmd;
        if unsol : bool then ml_unsolicited raw cmd else ml_info cmd 0
  end.

Definition v0_code (s : gsmd) (buf : list Z) (c : Z) : bool :=
  flag_v0 s && (default 0 (head buf) =? c).

Definition ml_basic (raw buf : list Z) : G ml_next :=
  s ← get;
  if str_eq buf (b "RING") || v0_code s buf (ch "2") then
    rc ← unsolicited raw (length raw); mret (ML_return rc)
  else if str_eq buf (b "ERROR") || v0_code s buf (ch "4") then
    set_first (set_ret 4);; mret (ML_final false false)
  else if strn_eq 2 buf (b "OK") || v0_code s buf (ch "0") then
    set_first (set_ret 0);; mret (ML_final false false)
  else if strn_eq 10 buf (b "NO CARRIER") || v0_code s buf (ch "3") then
    mret (ML_final false false)
  else if strn_eq 4 buf (b "BUSY") || v0_code s buf (ch "7") then
    mret (ML_final false false)
  else mret (ML_append 0).

(** The line is added to the buffer, after a newline if it is not the first. *)
Definition mlbuf_newline : G unit :=
  s ← get;
  if mlbuf_len s =? 0 then mret tt
  else
    must (mlbuf_len s <? MLPARSE_BUF_SIZE) "g->mlbuf[g->mlbuf_len++]";;
    mlbuf_write (mlbuf_len s) [LF];;
    mlbuf_set_len (mlbuf_len s + 1).

Definition mlbuf_line (raw : list Z) (rc : Z) : G Z :=
  s ← get;
  let bytes := take (Z.to_nat (MLPARSE_BUF_SIZE - mlbuf_len s)) raw in
  mlbuf_write (mlbuf_len s) bytes;;
  mlbuf_set_len (mlbuf_len s + Z.of_nat (length bytes));;
  s ← get;
  if mlunsolicited s then
    m ← mlbuf_string;
    rc ← unsolicited m (Z.to_nat (mlbuf_len s));
    if rc =? - EAGAIN then mret 0
    else modify (set_mlunsolicited false);; mlbuf_set_len 0;; mret rc
  else mret rc.

Definition ml_append (raw : list Z) (rc : Z) : G Z :=
  mlbuf_newline;;
  mlbuf_line raw rc.

(** The final result code of the command at the head, if there is one. *)
Definition ml_final (buf : list Z) (cme cms : bool) : G Z :=
  s ← get;
  match busy_atcmds s with
  | [] => mret 0
  | cmd :: _ =>
      (if cme then generate_event_from_cme (u32 (ac_ret cmd));; mret tt else mret tt);;
      (if cms then generate_event_from_cms (u32 (ac_ret cmd));; mret tt else mret tt);;
      atcmd_done cmd buf
  end.

Definition ml_classify (raw buf : list Z) : G ml_next :=
  s ← get;
  ext ← is_ext_char (default 0 (head buf));
  if ext : bool then ml_extended raw buf (head (busy_atcmds s)) else ml_basic raw buf.

(** [raw] is the line's bytes; its NUL must fit into the parser's buffer. *)
Definition ml_parse (raw : list Z) : G Z :=
  must (length raw <? LLPARSE_BUF_SIZE)%nat "the line is not terminated";;
  let buf := until0 raw in
  if is_empty buf || str_eq buf READY then
    modify (set_interpreter_ready true);;
    gsmd_initsettings;;
    gsmd_alive_start;;
    mret 0
  else
    s ← get;
    if match head (busy_atcmds s) with Some cmd => str_eq buf (ac_text cmd) | None => false end
    then mret 0
    else
      next ← ml_classify raw buf;
      match next with
      | ML_return rc => mret rc
      | ML_final cme cms => ml_final buf cme cms
      | ML_append rc => ml_append raw rc
      end.

Definition atcmd_prompt : G Z := atcmd_wake_pending_queue;; mret 0.

#[export] Instance gsmd_sink : LineSink gsmd := {
  llp_of := llp;
  llp_put := set_llp;
  line_cb := ml_parse;
  prompt_cb := atcmd_prompt
}.

(** ** Time-outs *)

Definition timer_args (t : create_timer) : timeval * timer_cb :=
  match t with
  | discard_timer => (TV GSMD_ATCMD_TIMEOUT 0, T_discard_timeout)
  | poweroff_timer secs => (TV secs 0, T_poweroff_timeout)
  | wakeup_timer => (TV 3 0, T_wakeup_timeout)
  | alive_timer => (TV GSMD_ALIVE_TIMEOUT 0, T_alive_tmr_cb)
  end.

(** [pos->create_timer_func(g)]. *)
Definition create_timer_func (t : create_timer) : G (option Z) :=
  let '(tv, cb) := timer_args t in gsmd_timer_create tv cb.

(** The command at the head, if the timer is its own. *)
Definition timed_out (tmr : Z) (s : gsmd) : option gsmd_atcmd :=
  cmd ← head (busy_atcmds s);
  if bool_decide (ac_timeout cmd = Some tmr) then Some cmd else None.

Definition discard_timeout (tmr : Z) : G unit :=
  s ← get;
  match timed_out tmr s with
  | None => mret tt
  | Some cmd =>
      let cmd := set_timeout None cmd in
      set_first (set_timeout None);;
      match ac_cb cmd with
      | Some cb => run_cb cb cmd (b "Timeout");; mret tt
      | None => mret tt
      end;;
      finish_first
  end.

Definition wakeup_timeout (tmr : Z) : G unit :=
  s ← get;
  match timed_out tmr s with
  | None => mret tt
  | Some cmd =>
      set_first (set_timeout None);;
      if default 0 (head (ac_buf cmd)) =? SPC then finish_first else mret tt
  end.

(** [exit(0)]: the modem was switched off. *)
Definition poweroff_timeout : G unit := halt (Exited 0).

#[export] Instance gsmd_timer_host : TimerHost gsmd timer_cb := λ t,
  match tmr_cb t with
  | T_discard_timeout => discard_timeout (tmr_ref t)
  | T_poweroff_timeout => poweroff_timeout
  | T_wakeup_timeout => wakeup_timeout (tmr_ref t)
  | T_alive_tmr_cb => alive_tmr_cb
  | T_alive_interval_tmr_cb => alive_interval_tmr_cb t
  | T_state_ringing_timeout => state_ringing_timeout
  end.

(** ** The UART is readable

    The chunks that [read] returns, and how the loop ends: the end of the file,
    no more data, or an error. *)

Inductive read_end : Type := RD_eof | RD_again | RD_error.

Fixpoint read_loop (chunks : list (list Z)) : G (option Z) :=
  match chunks with
  | [] => mret None
  | chunk :: chunks' =>
      rc ← llparse_string chunk;
      if rc <? 0 then mret (Some rc) else read_loop chunks'
  end.

(** ** The UART is writable *)

(** [write]: a negative [room] is an error; the result is a byte count or -1. *)
Definition uart_write_rc (room len : Z) : Z := if room <? 0 then -1 else Z.min room len.

Definition uart_put (bytes : list Z) : G unit := modify (λ s, set_uart_out (uart_out s ++ bytes) s).

(** The line at [pos->cur]: whether a newline ends it, and the number of bytes
    to write. *)
Definition next_line (pos : gsmd_atcmd) : bool * Z :=
  let rest := ac_rest pos in
  match strchr rest LF with
  | Some cr => (true, Z.of_nat (length rest - length cr))
  | None => (false, ac_buflen pos - 1)
  end.

(** The command has been sent: its timer is started and it waits for the answer. *)
Definition start_waiting (pos : gsmd_atcmd) : G unit :=
  timeout ← create_timer_func (ac_create_timer pos);
  modify (λ s, set_busy_atcmds (busy_atcmds s ++ [set_timeout timeout pos])
                 (set_pending_atcmds (tail (pending_atcmds s)) s)).

(** The loop's body, which the loop runs for the first command only. [cr_sent]
    is whether the [write(fd, "\r", 1)], whose result is not tested, succeeds. *)
Definition write_first (room : Z) (cr_sent : bool) (pos : gsmd_atcmd) : G Z :=
  let '(cr, len) := next_line pos in
  let rc := uart_write_rc room len in
  if rc =? 0 then atcmd_wait_pending_queue;; mret 0
  else if rc <? 0 then mret rc
  else
    uart_put (take (Z.to_nat rc) (drop (ac_cur pos) (ac_buf pos)));;
    let rc := if negb cr || (rc =? len) then rc + 1 else rc in
    let pos' := set_progress rc pos in
    modify (λ s, set_pending_atcmds (on_first (λ _, pos') (pending_atcmds s)) s);;
    (if cr_sent then uart_put [CR] else mret tt);;
    if ac_buflen pos' =? 0 then start_waiting pos';; atcmd_wait_pending_queue;; mret 0
    else if rc <? len then mret 0
    else atcmd_wait_pending_queue;; mret 0.

Definition write_pending (room : Z) (cr_sent : bool) : G Z :=
  s ← get;
  if interpreter_ready s then
    match pending_atcmds s with
    | [] => atcmd_wait_pending_queue;; mret 0
    | pos :: _ => write_first room cr_sent pos
    end
  else mret 0.

(** [what & GSMD_FD_READ] with the result of the reads, and [what & GSMD_FD_WRITE]
    with the result of the writes. *)
Definition atcmd_select_cb (rd : option (list (list Z) * read_end)) (wr : option (Z * bool)) : G Z :=
  let write_part :=
    match wr with
    | Some (room, cr_sent) => write_pending room cr_sent
    | None => mret 0
    end in
  match rd with
  | None => write_part
  | Some (chunks, fin) =>
      r ← read_loop chunks;
      match r, fin with
      | Some rc, _ => mret rc
      | None, RD_again => mret 0
      | None, RD_error => mret (-1)
      | None, RD_eof => write_part
      end
  end.

(** ** Cancelling commands *)

(** Commands other than the one at the head keep their place; the new command goes
    before every pending one. *)
Definition cancel_atcmd (cmd : gsmd_atcmd) : G Z :=
  s ← get;
  match busy_atcmds s with
  | [] => atcmd_submit cmd
  | cur :: _ =>
      mlbuf_set_len 0;;
      modify (λ s, set_pending_atcmds (cmd :: pending_atcmds s) s);;
      atcmd_done cur (b "ERROR")
  end.

(** The callback of a command that is removed because its client is gone. *)
Definition shut_down (cmd : gsmd_atcmd) : G unit :=
  cb ← deref (ac_cb cmd) "cmd->cb is NULL";
  run_cb cb (set_ret (- ESHUTDOWN) cmd) (b "ERROR");;
  mret tt.

Fixpoint shut_down_all (c : ctx) (l : list gsmd_atcmd) : G Z :=
  match l with
  | [] => mret 0
  | cmd :: l' =>
      if bool_decide (ac_ctx cmd = c)
      then shut_down cmd;; n ← shut_down_all c l'; mret (n + 1)
      else shut_down_all c l'
  end.

Definition orphan (c : ctx) (cmd : gsmd_atcmd) : gsmd_atcmd :=
  if bool_decide (ac_ctx cmd = c) then set_orphan (set_ret (- ESHUTDOWN) cmd) else cmd.

(** Executing commands stay, without a client; pending ones are removed. *)
Definition atcmd_terminate_matching (c : ctx) : G Z :=
  s ← get;
  n ← shut_down_all c (busy_atcmds s);
  modify (λ s, set_busy_atcmds (orphan c <$> busy_atcmds s) s);;
  s ← get;
  m ← shut_down_all c (pending_atcmds s);
  modify (λ s, set_pending_atcmds (filter (λ cmd, ac_ctx cmd ≠ c) (pending_atcmds s)) s);;
  mret (n + m).

(** ** Start *)

Definition atcmd_init : G unit :=
  modify (λ s, set_busy_atcmds [] (set_pending_atcmds [] (set_uart_write false
            (set_llp (LLP LLPARSE_STATE_IDLE LGSM_ATCMD_F_EXTENDED [])
               (set_mlbuf_len 0 (set_mlunsolicited false (set_alive_responded false s))))))).

(** ** The effects of a line or a time-out

    Besides those of the callbacks: the command at the head is assigned to, the
    buffer changes, the UART is polled for writing; and, when a command ends, it
    leaves the queue. *)

Definition same_text (c c' : gsmd_atcmd) : Prop :=
  ac_ref c' = ac_ref c ∧ ac_ctx c' = ac_ctx c ∧ ac_cur c' = ac_cur c ∧ ac_buf c' = ac_buf c.

Class LineEffects (R : gsmd → gsmd → Prop) : Prop := {
  eng_eff :: TimerEffects CtxNull R;
  eng_first f s : (∀ c, same_text c (f c)) → R s (set_busy_atcmds (on_first f (busy_atcmds s)) s);
  eng_mlbuf l z s : R s (set_mlbuf_zero z (set_mlbuf l s));
  eng_mlbuf_len n s : R s (set_mlbuf_len n s);
  eng_mlunsolicited v s : R s (set_mlunsolicited v s);
  eng_ready v s : R s (set_interpreter_ready v s);
  eng_wake s : R s (set_uart_write true s)
}.
Class EngineEffects (R : gsmd → gsmd → Prop) : Prop := {
  eng_line :: LineEffects R;
  eng_finish : keeps R finish_first
}.
#[export] Hint Extern 1 (LineEffects _) => typeclasses eauto : keeps.
#[export] Hint Extern 1 (EngineEffects _) => typeclasses eauto : keeps.

Lemma keeps_set_first `{!LineEffects R} f : (∀ c, same_text c (f c)) → keeps R (set_first f).
Proof. intros Hf. apply keeps_modify. intros s. by apply eng_first. Qed.
Lemma keeps_finish_first `{!EngineEffects R} : keeps R finish_first.
Proof. apply eng_finish. Qed.
Lemma keeps_mlbuf_clear `{!LineEffects R} : keeps R mlbuf_clear.
Proof. apply keeps_modify. intros s. apply eng_mlbuf. Qed.
Lemma keeps_mlbuf_set_len `{!LineEffects R} n : keeps R (mlbuf_set_len n).
Proof. apply keeps_modify. intros s. apply eng_mlbuf_len. Qed.
Lemma keeps_mlbuf_write `{!LineEffects R} n l : keeps R (mlbuf_write n l).
Proof.
  apply keeps_modify. intros s.
  change (R s (set_mlbuf_zero (mlbuf_zero s) (set_mlbuf (take (Z.to_nat n) (mlbuf s) ++ l ++
    drop (Z.to_nat n + length l) (mlbuf s)) s))). apply eng_mlbuf.
Qed.
Lemma keeps_set_mlunsolicited `{!LineEffects R} v : keeps R (modify (set_mlunsolicited v)).
Proof. apply keeps_modify. intros s. apply eng_mlunsolicited. Qed.
Lemma keeps_set_ready `{!LineEffects R} v : keeps R (modify (set_interpreter_ready v)).
Proof. apply keeps_modify. intros s. apply eng_ready. Qed.
Lemma keeps_wake `{!LineEffects R} : keeps R atcmd_wake_pending_queue.
Proof. apply keeps_modify. intros s. apply eng_wake. Qed.
Lemma keeps_remove_timer `{!TimerEffects d R} c : keeps R (remove_timer c).
Proof. unfold remove_timer. solve_keeps. Qed.
Lemma keeps_mlbuf_string `{!PreOrder R} : keeps R mlbuf_string.
Proof. unfold mlbuf_string. solve_keeps. Qed.
Lemma keeps_final_response `{!PreOrder R} l : keeps R (final_response l).
Proof. unfold final_response. solve_keeps. Qed.
Lemma keeps_cmd_text2 `{!PreOrder R} c : keeps R (cmd_text2 c).
Proof. unfold cmd_text2. solve_keeps. Qed.
Lemma keeps_is_ext_char `{!PreOrder R} c : keeps R (is_ext_char c).
Proof. unfold is_ext_char. solve_keeps. Qed.
#[export] Hint Resolve keeps_set_first keeps_finish_first keeps_mlbuf_clear keeps_mlbuf_set_len
  keeps_mlbuf_write keeps_set_mlunsolicited keeps_set_ready keeps_wake keeps_remove_timer
  keeps_mlbuf_string keeps_final_response keeps_cmd_text2 keeps_is_ext_char : keeps.
#[export] Hint Extern 1 (∀ c, same_text c _) => done : keeps.

Lemma keeps_atcmd_done `{!EngineEffects R} c l : keeps R (atcmd_done c l).
Proof. unfold atcmd_done. solve_keeps. Qed.
Lemma keeps_ml_info `{!LineEffects R} c rc : keeps R (ml_info c rc).
Proof. unfold ml_info. solve_keeps. Qed.
Lemma keeps_ml_keep `{!LineEffects R} l : keeps R (ml_keep l).
Proof. unfold ml_keep. solve_keeps. Qed.
Lemma keeps_not_mine `{!PreOrder R} l n c : keeps R (not_mine l n c).
Proof. unfold not_mine. solve_keeps. Qed.
#[export] Hint Resolve keeps_atcmd_done keeps_ml_info keeps_ml_keep keeps_not_mine : keeps.
Lemma keeps_ml_unsolicited `{!LineEffects R} l c : keeps R (ml_unsolicited l c).
Proof. unfold ml_unsolicited. solve_keeps. Qed.
#[export] Hint Resolve keeps_ml_unsolicited : keeps.
Lemma keeps_ml_extended `{!LineEffects R} r l c : keeps R (ml_extended r l c).
Proof. unfold ml_extended. solve_keeps. Qed.
Lemma keeps_ml_basic `{!LineEffects R} r l : keeps R (ml_basic r l).
Proof. unfold ml_basic. solve_keeps. Qed.
Lemma keeps_ml_append `{!LineEffects R} l rc : keeps R (ml_append l rc).
Proof. unfold ml_append, mlbuf_newline, mlbuf_line. solve_keeps. Qed.
Lemma keeps_ml_final `{!EngineEffects R} l x y : keeps R (ml_final l x y).
Proof. unfold ml_final. solve_keeps. Qed.
#[export] Hint Resolve keeps_ml_extended keeps_ml_basic keeps_ml_append keeps_ml_final : keeps.
Lemma keeps_ml_classify `{!LineEffects R} r l : keeps R (ml_classify r l).
Proof. unfold ml_classify. solve_keeps. Qed.
#[export] Hint Resolve keeps_ml_classify : keeps.
Lemma keeps_ml_parse `{!EngineEffects R} l : keeps R (ml_parse l).
Proof. unfold ml_parse. solve_keeps. Qed.
Lemma keeps_atcmd_prompt `{!LineEffects R} : keeps R atcmd_prompt.
Proof. unfold atcmd_prompt. solve_keeps. Qed.
#[export] Hint Resolve keeps_ml_parse keeps_atcmd_prompt : keeps.

Lemma keeps_discard_timeout `{!EngineEffects R} t : keeps R (discard_timeout t).
Proof. unfold discard_timeout. solve_keeps. Qed.
Lemma keeps_wakeup_timeout `{!EngineEffects R} t : keeps R (wakeup_timeout t).
Proof. unfold wakeup_timeout. solve_keeps. Qed.
#[export] Hint Resolve keeps_discard_timeout keeps_wakeup_timeout : keeps.
Lemma keeps_shut_down `{!Effects d R} c : keeps R (shut_down c).
Proof. unfold shut_down. solve_keeps. Qed.
#[export] Hint Resolve keeps_shut_down : keeps.
Lemma keeps_shut_down_all `{!Effects d R} c l : keeps R (shut_down_all c l).
Proof. induction l; cbn [shut_down_all]; solve_keeps; auto. Qed.
#[export] Hint Resolve keeps_shut_down_all : keeps.

(** The timer of the inquiry is registered again. *)
Class RearmEffects (R : gsmd → gsmd → Prop) : Prop := {
  rearm_eng :: EngineEffects R;
  eff_rearm t s : R s (set_timer_list (timer_list s ++ [t]) s)
}.

Lemma keeps_alive_interval_tmr_cb `{!RearmEffects R} t : keeps R (alive_interval_tmr_cb t).
Proof.
  unfold alive_interval_tmr_cb. solve_keeps.
  intros s rc s' (e & it & ->)%gsmd_timer_register_run. etrans; [apply eff_rearm | apply eff_itimer].
Qed.
#[export] Hint Extern 1 (RearmEffects _) => typeclasses eauto : keeps.
#[export] Hint Resolve keeps_alive_interval_tmr_cb : keeps.

Lemma keeps_run_timer `{!RearmEffects R} (t : gsmd_timer timer_cb) : keeps R (run_timer t).
Proof.
  unfold run_timer, gsmd_timer_host, poweroff_timeout. solve_keeps.
Qed.
#[export] Hint Resolve keeps_run_timer : keeps.
