(* ===== verification/Engine.v ===== *)
(** * What the engine keeps, and what a line does (atcmd.c)

    Instances of the effect classes of Queue.v and AtCmd.v: the engine is a host
    for the line parser and for the timers, so that their theorems hold of the
    daemon.  Then the theorems about the commands: the responses are matched with
    the commands in order, a final result ends the oldest command, cancelling and
    client disconnection. *)

From S2P Require Import Prelude CString Enums Wire LLParse Timers State Queue Events OpCache.
From S2P Require Import SmsCb Unsolicited Vendor UsockCb Main AtCmd.

Lemma finish_first_run s : finish_first s =
  Ret tt (set_uart_write (uart_write s || (is_empty (tail (busy_atcmds s)) &&
                                          negb (is_empty (pending_atcmds s))))
            (set_busy_atcmds (tail (busy_atcmds s)) s)).
Proof. unfold finish_first, drop_first. run. apply wake_if_idle_run. Qed.

Lemma keeps_append_run (R : gsmd → gsmd → Prop) c :
  (∀ s, R s (set_uart_write (uart_write s || is_empty (busy_atcmds s))
               (set_pending_atcmds (pending_atcmds s ++ [c]) s))) → keeps R (append_pending c).
Proof. intros HR s a s'. rewrite append_pending_run. intros [_ <-]%Ret_inj. apply HR. Qed.

Lemma keeps_finish_run (R : gsmd → gsmd → Prop) :
  (∀ s, R s (set_uart_write (uart_write s || (is_empty (tail (busy_atcmds s)) &&
                                              negb (is_empty (pending_atcmds s))))
               (set_busy_atcmds (tail (busy_atcmds s)) s))) → keeps R finish_first.
Proof. intros HR s a s'. rewrite finish_first_run. intros [_ <-]%Ret_inj. apply HR. Qed.

(** From [H : m s = Ret a s'], that [R s s'] holds. *)
Ltac by_keeps R H :=
  lazymatch type of H with
  | ?m ?s = Ret ?a ?s' =>
      refine ((_ : keeps R m) s a s' H); unshelve solve_keeps; exact CtxNull
  end.

Lemma update_user_refs r f us : (∀ u, gu_ref (f u) = gu_ref u) →
  gu_ref <$> update_user r f us = gu_ref <$> us.
Proof.
  intros Hf. unfold update_user. rewrite <- list_fmap_compose. apply list_fmap_ext. intros _ u _.
  cbn. destruct (_ =? _); [apply Hf | done].
Qed.

(** ** The line parser's host

    No operation moves the parser, leaves V1 mode or exchanges a plugin. *)

Definition erel (s s' : gsmd) : Prop :=
  llp_kept (llp s) (llp s') ∧ machinepl s' = machinepl s ∧ vendorpl s' = vendorpl s.

#[export] Instance erel_preorder : PreOrder erel.
Proof.
  split; [by intros s | intros s t u (?&?&?) (?&?&?)].
  split_and!; [by etrans | congruence..].
Qed.

#[export] Instance erel_effects d : Effects d erel.
Proof.
  split; try by typeclasses eauto.
  all: try by intros; unfold erel; cbn.
  intros c _. apply keeps_append_run. intros s. unfold erel. by cbn.
Qed.
#[export] Instance erel_timers d : TimerEffects d erel.
Proof. split; [typeclasses eauto | by intros; unfold erel; cbn ..]. Qed.
#[export] Instance erel_line : LineEffects erel.
Proof. split; [typeclasses eauto | by intros; unfold erel; cbn ..]. Qed.
#[export] Instance erel_engine : EngineEffects erel.
Proof. split; [typeclasses eauto | apply keeps_finish_run; intros s; unfold erel; by cbn]. Qed.

#[export] Instance erel_rearm : RearmEffects erel.
Proof. split; [typeclasses eauto | by intros; unfold erel; cbn]. Qed.

#[export] Instance gsmd_sink_laws : LineSinkLaws gsmd.
Proof.
  split; [done | done | by intros [] | |].
  - intros l s a s' H. apply (keeps_ml_parse (R := erel) l s a s' H).
  - intros s a s' H. apply (keeps_atcmd_prompt (R := erel) s a s' H).
Qed.

(** ** The timers' host

    No callback of a command touches the timers; of the timers' callbacks, only the
    inquiry every five minutes registers its own timer again. *)

Definition trel (s s' : gsmd) : Prop := timer_list s' = timer_list s ∧ clock s' = clock s.

#[export] Instance trel_preorder : PreOrder trel.
Proof. split; [by intros s | intros s t u [??] [??]; split; congruence]. Qed.

#[export] Instance trel_effects d : Effects d trel.
Proof.
  split; try by typeclasses eauto.
  all: try by intros; unfold trel; cbn.
  intros c _. apply keeps_append_run. intros s. unfold trel. by cbn.
Qed.

Lemma trel_set_first f : keeps trel (set_first f).
Proof. apply keeps_modify. intros s. by split. Qed.
Lemma trel_finish_first : keeps trel finish_first.
Proof. apply keeps_finish_run. intros s. unfold trel. by cbn. Qed.
#[export] Hint Resolve trel_set_first trel_finish_first : keeps.

Lemma trel_cb_rel s s' : trel s s' → cb_rel s s'.
Proof.
  intros [Et Ec]. exists []. unfold refs. cbn [timers now gsmd_timers]. rewrite app_nil_r, Et.
  by split_and!; [|apply Nat.le_0_l|constructor| |].
Qed.

Lemma alive_interval_cb_rel t s s' : tmr_ref t ∉ refs s →
  alive_interval_tmr_cb t s = Ret tt s' → cb_rel s s'.
Proof.
  unfold alive_interval_tmr_cb. intros Hr (? & s1 & H1 & (? & s2 & H2 & [_ <-]%Ret_inj)%bind_Ret)%bind_Ret.
  apply (keeps_gsmd_modem_alive (d := CtxNull) (R := trel)) in H1 as [Et Ec].
  unfold gsmd_timer_register in H2. revert H2. run.
  intros (? & ? & [it ->]%calc_next_expiration_run & [_ <-]%Ret_inj)%bind_Ret.
  eexists. unfold refs. cbn [timers now gsmd_timers set_kernel_timer set_timers set_timer_list timer_list clock] in *.
  rewrite Et in *. split_and!; [done|done| |done|].
  - constructor; [|constructor]. unfold expired, tv_later. cbn [tmr_expires tv_sec]. rewrite Ec.
    unfold GSMD_ALIVE_INTERVAL. destruct (Z.ltb_spec (tv_sec (clock s)) (5 * 60 + tv_sec (clock s))); [done|lia].
  - intros Hd. rewrite fmap_app. apply NoDup_app. split_and!; [done| |apply NoDup_singleton].
    intros r Hin. cbn. intros ->%list_elem_of_singleton. done.
Qed.

#[export] Instance gsmd_timer_laws : TimerHostLaws gsmd timer_cb.
Proof.
  split; [done..|]. intros t s [] s' Hr. unfold run_timer, gsmd_timer_host. destruct (tmr_cb t); intros H.
  5: by apply (alive_interval_cb_rel t).
  all: apply trel_cb_rel;
    unfold discard_timeout, wakeup_timeout, poweroff_timeout, state_ringing_timeout in H; by_keeps trel H.
Qed.

(** ** The executing commands

    A callback or a parser leaves the executing commands alone, and only appends to
    the pending ones. *)

Definition busy_refs (s : gsmd) : list Z := ac_ref <$> busy_atcmds s.

Definition qrel (s s' : gsmd) : Prop :=
  busy_refs s' = busy_refs s ∧ pending_atcmds s `prefix_of` pending_atcmds s'.

#[export] Instance qrel_preorder : PreOrder qrel.
Proof. split; [by intros s | intros s t u [??] [??]; split; [congruence | by etrans]]. Qed.

#[export] Instance qrel_effects d : Effects d qrel.
Proof.
  split; try by typeclasses eauto.
  all: try by intros; unfold qrel; cbn.
  intros c _. apply keeps_append_run. intros s. split; [done|]. by apply prefix_app_r.
Qed.
#[export] Instance qrel_timers d : TimerEffects d qrel.
Proof. split; [typeclasses eauto | by intros; unfold qrel; cbn ..]. Qed.
#[export] Instance qrel_line : LineEffects qrel.
Proof.
  split; [typeclasses eauto | | by intros; unfold qrel; cbn ..]. intros f s Hf. split; [|done].
  unfold busy_refs. cbn [set_busy_atcmds busy_atcmds]. destruct (busy_atcmds s) as [|c l]; [done|].
  cbn. f_equal. apply Hf.
Qed.

(** *** Which lines end a command *)

(** Is the first character one of an extended response? *)
Definition ext_first (s : gsmd) (buf : list Z) : bool :=
  let c := default 0 (head buf) in
  (c =? ch "+") || match vendorpl s with Some v => bool_decide (c ∈ ext_chars v ++ [0]) | None => false end.

(** The final result codes. *)
Definition final_code (s : gsmd) (buf : list Z) : bool :=
  if ext_first s buf then
    bool_decide (is_Some (strchr buf (ch ":"))) &&
    (strn_eq 9 (tail buf) (b "CME ERROR") || strn_eq 9 (tail buf) (b "CMS ERROR"))
  else
    negb (str_eq buf (b "RING") || v0_code s buf (ch "2")) &&
    (str_eq buf (b "ERROR") || v0_code s buf (ch "4") ||
     (strn_eq 2 buf (b "OK") || v0_code s buf (ch "0")) ||
     (strn_eq 10 buf (b "NO CARRIER") || v0_code s buf (ch "3")) ||
     (strn_eq 4 buf (b "BUSY") || v0_code s buf (ch "7"))).

(** A line that begins anew, or repeats the command, ends nothing. *)
Definition echo (s : gsmd) (buf : list Z) : bool :=
  match head (busy_atcmds s) with Some cmd => str_eq buf (ac_text cmd) | None => false end.

Definition ends_command (s : gsmd) (raw : list Z) : bool :=
  let buf := until0 raw in
  negb (is_empty buf || str_eq buf READY) && negb (echo s buf) && final_code s buf.

Definition is_final (next : ml_next) : bool :=
  match next with ML_final _ _ => true | _ => false end.

Lemma is_ext_char_run s buf e s' : is_ext_char (default 0 (head buf)) s = Ret e s' →
  s' = s ∧ e = ext_first s buf.
Proof.
  unfold is_ext_char, ext_first. destruct (_ =? _); [by intros [<- <-]%Ret_inj|].
  destruct (vendorpl s) as [v|] eqn:E; run; rewrite ?E; [|done]. run. by intros [<- <-]%Ret_inj.
Qed.

Lemma ml_info_not_final cmd rc next : returns (ml_info cmd rc) next → is_final next = false.
Proof.
  unfold ml_info. destruct cmd; [|by intros <-%returns_mret].
  intros (t & _ & (e & _ & H)%returns_bind)%returns_bind. destruct e; cbn in H; [|by apply returns_mret in H as <-].
  apply returns_bind in H as (s & _ & H). destruct (_ =? 0); [by apply returns_mret in H as <-|].
  apply returns_bind in H as (rc' & _ & (? & _ & <-%returns_mret)%returns_bind). done.
Qed.

Lemma ml_unsolicited_not_final raw cmd next : returns (ml_unsolicited raw cmd) next →
  is_final next = false.
Proof.
  unfold ml_unsolicited. intros (rc & _ & H)%returns_bind.
  destruct (rc =? _); [by apply returns_bind in H as (? & _ & <-%returns_mret)|].
  destruct (negb _); [by apply returns_mret in H as <- | by apply ml_info_not_final in H].
Qed.

Lemma ml_classify_final raw buf s next s' : ml_classify raw buf s = Ret next s' →
  is_final next = final_code s buf.
Proof.
  unfold ml_classify, final_code. run. intros (e & s1 & [-> ->]%is_ext_char_run & H)%bind_Ret.
  destruct (ext_first s buf).
  - unfold ml_extended in H. destruct (strchr buf (ch ":")); cbn [bool_decide]; [|by apply Ret_inj in H as [<- _]].
    rewrite bool_decide_true by done. cbn [andb].
    destruct (strn_eq 9 (tail buf) (b "CME ERROR")); [by apply bind_Ret in H as (?&?&_&[<- _]%Ret_inj)|].
    destruct (strn_eq 9 (tail buf) (b "CMS ERROR")); [by apply bind_Ret in H as (?&?&_&[<- _]%Ret_inj)|].
    apply bind_Ret in H as (u & s2 & _ & H). cbn [orb].
    destruct u; [eapply ml_unsolicited_not_final | eapply ml_info_not_final]; by eexists _, _.
  - unfold ml_basic in H. revert H. run.
    repeat match goal with |- (if ?c then _ else _) _ = _ → _ => destruct c; cbn [negb andb orb]; run end.
    all: rewrite ?orb_true_r; try by intros [<- _]%Ret_inj.
    by intros (? & ? & _ & [<- _]%Ret_inj)%bind_Ret.
Qed.

Lemma atcmd_done_refs cmd buf s rc s' : atcmd_done cmd buf s = Ret rc s' →
  busy_refs s' = tail (busy_refs s) ∧ pending_atcmds s `prefix_of` pending_atcmds s'.
Proof.
  unfold atcmd_done. intros (? & s1 & H1 & (rc' & s2 & H2 & ([] & s3 & H3 & [_ <-]%Ret_inj)%bind_Ret)%bind_Ret)%bind_Ret.
  apply (keeps_remove_timer (d := CtxNull) (R := qrel)) in H1 as [E1 P1].
  assert (qrel s1 s2) as [E2 P2].
  { by_keeps qrel H2. }
  rewrite finish_first_run in H3. apply Ret_inj in H3 as [_ <-]. split; [|by etrans].
  unfold busy_refs in *. cbn [set_uart_write set_busy_atcmds busy_atcmds].
  rewrite <- E1, <- E2. by destruct (busy_atcmds s2).
Qed.

Lemma ml_final_refs buf x y s rc s' : ml_final buf x y s = Ret rc s' →
  busy_refs s' = tail (busy_refs s) ∧ pending_atcmds s `prefix_of` pending_atcmds s'.
Proof.
  unfold ml_final. run. destruct (busy_atcmds s) as [|cmd l] eqn:Eb.
  { intros [_ <-]%Ret_inj. unfold busy_refs. by rewrite Eb. }
  intros (? & s2 & H2 & (? & s3 & H3 & [E4 P4]%atcmd_done_refs)%bind_Ret)%bind_Ret.
  assert (qrel s s2) as [E2 P2] by by_keeps qrel H2.
  assert (qrel s2 s3) as [E3 P3] by by_keeps qrel H3.
  rewrite E4, E3, E2. split; [done|]. by do 2 (etrans; [eassumption|]).
Qed.

(** [C10] Responses come in order: a line from the modem ends a command exactly when
    it is a final result code that is neither blank nor an echo, and it is the
    oldest executing command that ends; no other line changes which commands are
    executing, and no line takes a command from the pending ones. *)
Theorem ml_parse_fifo raw s rc s' : ml_parse raw s = Ret rc s' →
  busy_refs s' = (if ends_command s raw then tail (busy_refs s) else busy_refs s) ∧
  pending_atcmds s `prefix_of` pending_atcmds s'.
Proof.
  unfold ml_parse, ends_command. intros (? & s0 & H0 & H)%bind_Ret.
  destruct (_ <? _)%nat; [|done]. apply Ret_inj in H0 as [_ <-].
  destruct (is_empty _ || _).
  { assert (qrel s s') as [-> ?]; [by_keeps qrel H | done]. }
  revert H. run. fold (echo s (until0 raw)). destruct (echo s _); cbn [negb andb]; [by intros [_ <-]%Ret_inj|].
  intros (next & s1 & H1 & H)%bind_Ret. rewrite <- (ml_classify_final _ _ _ _ _ H1).
  apply (keeps_ml_classify (R := qrel)) in H1 as [E1 P1]. destruct next; cbn [is_final].
  - by apply Ret_inj in H as [_ <-].
  - apply ml_final_refs in H as [-> ?]. rewrite E1. split; [done|]. by etrans.
  - apply (keeps_ml_append (R := qrel)) in H as [-> ?]. rewrite E1. split; [done|]. by etrans.
Qed.

(** ** A client that goes away

    The callbacks only append commands of the daemon's own. *)

Definition own (c : gsmd_atcmd) : Prop := ac_ctx c = CtxGsmd ∨ ac_ctx c = CtxNull.

Definition srel (s s' : gsmd) : Prop :=
  busy_atcmds s' = busy_atcmds s ∧
  ∃ new, pending_atcmds s' = pending_atcmds s ++ new ∧ Forall own new.

Lemma srel_same s s' : busy_atcmds s' = busy_atcmds s → pending_atcmds s' = pending_atcmds s → srel s s'.
Proof. intros ? E. split; [done|]. exists []. by rewrite E, app_nil_r. Qed.

#[export] Instance srel_preorder : PreOrder srel.
Proof.
  split; [by intros s; apply srel_same|].
  intros s t u [E1 (n1 & F1 & G1)] [E2 (n2 & F2 & G2)]. split; [congruence|].
  exists (n1 ++ n2). rewrite F2, F1, app_assoc, Forall_app. done.
Qed.

#[export] Instance srel_effects : Effects CtxNull srel.
Proof.
  split; try by typeclasses eauto.
  all: try by intros; apply srel_same.
  intros c [Hc _]. apply keeps_append_run. intros s. split; [done|]. exists [c]. cbn. split; [done|].
  constructor; [|done]. unfold own. destruct Hc as [?|[?|?]]; tauto.
Qed.

#[export] Instance srel_timers : TimerEffects CtxNull srel.
Proof. split; [typeclasses eauto | by intros; apply srel_same..]. Qed.

Definition of_ctx (c : ctx) (cmd : gsmd_atcmd) : Prop := ac_ctx cmd = c.
#[export] Instance of_ctx_dec c cmd : Decision (of_ctx c cmd).
Proof. unfold of_ctx. apply _. Defined.
#[local] Typeclasses Opaque of_ctx.

Lemma shut_down_all_run c l s n s' : shut_down_all c l s = Ret n s' →
  n = Z.of_nat (length (filter (of_ctx c) l)) ∧ srel s s'.
Proof.
  intros H. split; [|by_keeps srel H]. revert s n H. induction l as [|cmd l IH]; intros s n; cbn [shut_down_all].
  { by intros [<- _]%Ret_inj. }
  case_bool_decide as Hc.
  - intros (? & s1 & _ & (m & s2 & H & [<- <-]%Ret_inj)%bind_Ret)%bind_Ret.
    apply IH in H as ->. rewrite filter_cons_True by done. cbn [length]. lia.
  - intros ->%IH. by rewrite filter_cons_False.
Qed.

Lemma filter_own c l : c ≠ CtxGsmd → c ≠ CtxNull → Forall own l → filter (λ cmd, ac_ctx cmd ≠ c) l = l.
Proof.
  intros Hg Hn. induction 1 as [|cmd l Hc _ IH]; [done|]. rewrite filter_cons_True; [by f_equal|].
  destruct Hc as [->| ->]; done.
Qed.

Lemma filter_own_nil c l : c ≠ CtxGsmd → c ≠ CtxNull → Forall own l → filter (of_ctx c) l = [].
Proof.
  intros Hg Hn. induction 1 as [|cmd l Hc _ IH]; [done|]. rewrite filter_cons_False; [exact IH|].
  unfold of_ctx. destruct Hc as [->| ->]; congruence.
Qed.

Lemma terminate_run c s n s' : c ≠ CtxGsmd → c ≠ CtxNull → atcmd_terminate_matching c s = Ret n s' →
  n = Z.of_nat (length (filter (of_ctx c) (busy_atcmds s ++ pending_atcmds s))) ∧
  busy_atcmds s' = orphan c <$> busy_atcmds s ∧
  ∃ new, pending_atcmds s' = filter (λ cmd, ac_ctx cmd ≠ c) (pending_atcmds s) ++ new ∧ Forall own new.
Proof.
  intros Hg Hn. unfold atcmd_terminate_matching. run.
  intros (n1 & s1 & [-> [B1 (l1 & P1 & O1)]]%shut_down_all_run & H)%bind_Ret. revert H. run.
  intros (n2 & s2 & [-> [B2 (l2 & P2 & O2)]]%shut_down_all_run & H)%bind_Ret. revert H. run.
  intros [<- <-]%Ret_inj. cbn [busy_atcmds pending_atcmds set_busy_atcmds set_pending_atcmds] in *.
  rewrite B2, P2, B1, P1. split_and!; [|done|].
  - rewrite !filter_app, !length_app, (filter_own_nil c l1) by done. cbn [length]. lia.
  - exists (l1 ++ l2). rewrite !filter_app, (filter_own c l1), (filter_own c l2), Forall_app, app_assoc by done.
    done.
Qed.

Lemma terminated_clear r s n s' : atcmd_terminate_matching (CtxUser r) s = Ret n s' →
  Forall (λ cmd, ac_ctx cmd ≠ CtxUser r) (busy_atcmds s' ++ pending_atcmds s').
Proof.
  intros (_ & -> & new & -> & Hnew)%terminate_run; [|done..]. rewrite !Forall_app. split_and!.
  - apply Forall_fmap, Forall_forall. intros cmd _. cbn. unfold orphan. by case_bool_decide.
  - apply Forall_forall. by intros cmd [? _]%list_elem_of_filter.
  - eapply Forall_impl; [exact Hnew|]. intros cmd [E|E]; by rewrite E.
Qed.

(** [C38] When a client goes away, no command is left to it: its executing commands
    stay where they are, without a client or a callback; its pending ones are
    removed, and the others keep their order; the callbacks may only queue commands
    of the daemon. The result counts the client's commands. *)
Theorem atcmd_terminate_matching_spec r s n s' :
  let c := CtxUser r in
  atcmd_terminate_matching c s = Ret n s' →
  n = Z.of_nat (length (filter (of_ctx c) (busy_atcmds s ++ pending_atcmds s))) ∧
  busy_atcmds s' = orphan c <$> busy_atcmds s ∧
  (∃ new, pending_atcmds s' = filter (λ cmd, ac_ctx cmd ≠ c) (pending_atcmds s) ++ new ∧ Forall own new) ∧
  Forall (λ cmd, ac_ctx cmd ≠ c) (busy_atcmds s' ++ pending_atcmds s').
Proof.
  cbv zeta. intros H. pose proof (terminated_clear _ _ _ _ H). by apply terminate_run in H as (? & ? & ?).
Qed.
