(* ===== verification/Response.v ===== *)
(** * A command's way to the modem and back (atcmd.c 59-82, 208-549)

    A command that is written in full is executing; the lines of its response are
    gathered and given to its callback when the final result code arrives; a command
    may be cancelled. *)

From S2P Require Import Prelude CString Enums Wire LLParse Timers State Queue Events OpCache.
From S2P Require Import SmsCb Unsolicited Vendor UsockCb Main AtCmd Engine.

(** ** Gathering lines *)

Definition gather (acc l : list Z) : list Z :=
  match acc with [] => l | _ => acc ++ [LF] ++ l end.
Definition joined (ls : list (list Z)) : list Z := foldl gather [] ls.

(** The buffer holds [acc]. *)
Definition gathered (acc : list Z) (s : gsmd) : gsmd :=
  set_mlbuf_len (Z.of_nat (length acc)) (set_mlbuf acc s).

Lemma length_gather acc l : (length (gather acc l) ≤ length acc + 1 + length l)%nat.
Proof. unfold gather. destruct acc; [lia|]. rewrite !length_app. cbn [length]. lia. Qed.

Lemma mlbuf_write_end acc l s : mlbuf_write (Z.of_nat (length acc)) l (gathered acc s) =
  Ret tt (set_mlbuf_len (Z.of_nat (length acc)) (set_mlbuf (acc ++ l) s)).
Proof.
  unfold mlbuf_write, gathered. unfold modify. cbn [mlbuf set_mlbuf set_mlbuf_len]. do 2 f_equal.
  rewrite Nat2Z.id, firstn_all, drop_ge by lia. by rewrite app_nil_r.
Qed.

Lemma mlbuf_line_run acc l rc s : mlunsolicited s = false →
  Z.of_nat (length acc + length l) ≤ MLPARSE_BUF_SIZE →
  mlbuf_line l rc (gathered acc s) = Ret rc (gathered (acc ++ l) s).
Proof.
  intros Hu Hl. unfold mlbuf_line. run. cbn [gathered mlbuf_len set_mlbuf_len]. rewrite take_ge by lia.
  rewrite (bind_step _ _ _ _ _ (mlbuf_write_end acc l s)). unfold mlbuf_set_len. run.
  cbn [mlunsolicited set_mlbuf_len set_mlbuf]. rewrite Hu. unfold mret, M_ret, gathered. f_equal.
  by rewrite length_app, Nat2Z.inj_add.
Qed.

Lemma mlbuf_newline_run acc s : acc ≠ [] → Z.of_nat (length acc + 1) ≤ MLPARSE_BUF_SIZE →
  mlbuf_newline (gathered acc s) = Ret tt (gathered (acc ++ [LF]) s).
Proof.
  intros Hne Hl. unfold mlbuf_newline. run. cbn [gathered mlbuf_len set_mlbuf_len].
  assert (length acc ≠ 0%nat) by (by destruct acc).
  destruct (Z.eqb_spec (Z.of_nat (length acc)) 0); [lia|].
  destruct (Z.ltb_spec (Z.of_nat (length acc)) MLPARSE_BUF_SIZE); [|lia]. run.
  rewrite (bind_step _ _ _ _ _ (mlbuf_write_end acc [LF] s)). unfold mlbuf_set_len, modify, gathered.
  by rewrite length_app, Nat2Z.inj_add.
Qed.

Lemma ml_append_gather acc l rc s : mlunsolicited s = false →
  Z.of_nat (length acc + 1 + length l) ≤ MLPARSE_BUF_SIZE →
  ml_append l rc (gathered acc s) = Ret rc (gathered (gather acc l) s).
Proof.
  intros Hu Hl. unfold ml_append. destruct acc as [|c acc].
  - unfold mlbuf_newline. run. cbn [gathered mlbuf_len set_mlbuf_len length]. run.
    apply (mlbuf_line_run []); [done|]. cbn [length] in *. lia.
  - rewrite (bind_step _ _ _ _ _ (mlbuf_newline_run (c :: acc) s ltac:(done) ltac:(lia))).
    unfold gather. rewrite app_assoc. apply mlbuf_line_run; [done|]. rewrite length_app. cbn [length] in *. lia.
Qed.

(** ** The lines of a response *)

(** The buffer at the start of a response, the parser aside. *)
Record collecting (v : vendor) (cmd : gsmd_atcmd) (s : gsmd) : Prop := {
  co_vendor : vendorpl s = Some v;
  co_v1 : flag_v0 s = false;
  co_head : head (busy_atcmds s) = Some cmd;
  co_own : mlunsolicited s = false }.

Definition ext_char (v : vendor) (c : Z) : bool := (c =? ch "+") || bool_decide (c ∈ ext_chars v ++ [0]).

(** A line that is text for the command: it neither ends nor repeats it. *)
Definition text_line (cmd : gsmd_atcmd) (l : list Z) : Prop :=
  l ≠ [] ∧ l ≠ READY ∧ l ≠ ac_text cmd ∧ cstring l ∧ line_text l ∧ (length l < LLPARSE_BUF_SIZE)%nat.

(** Free text. *)
Definition plain (v : vendor) (l : list Z) : Prop :=
  ext_char v (default 0 (head l)) = false ∧ l ≠ b "RING" ∧ l ≠ b "ERROR" ∧
  strn_eq 2 l (b "OK") = false ∧ strn_eq 10 l (b "NO CARRIER") = false ∧ strn_eq 4 l (b "BUSY") = false.

(** An information response: the command's name, a colon and the rest. *)
Definition informs (v : vendor) (cmd : gsmd_atcmd) (l : list Z) : Prop :=
  let name := until0 (drop 2 (ac_buf cmd)) in
  ext_char v (default 0 (head l)) = true ∧ (2 < length (ac_buf cmd))%nat ∧
  ext_char v (default 0 (head name)) = true ∧
  strn_eq 9 (tail l) (b "CME ERROR") = false ∧ strn_eq 9 (tail l) (b "CMS ERROR") = false ∧
  ∃ colon, strchr l (ch ":") = Some colon ∧ strn_eq (length l - length colon) l name = true.

Lemma is_ext_char_eq v c s : vendorpl s = Some v → is_ext_char c s = Ret (ext_char v c) s.
Proof.
  intros Hv. unfold is_ext_char, ext_char. destruct (c =? ch "+"); [done|]. run. rewrite Hv. by run.
Qed.

Lemma ml_parse_text cmd l s : text_line cmd l → head (busy_atcmds s) = Some cmd →
  ml_parse l s =
  (next ← ml_classify l l; match next with
     | ML_return rc => mret rc | ML_final x y => ml_final l x y | ML_append rc => ml_append l rc end) s.
Proof.
  intros (H1 & H2 & H3 & H4 & H5 & H6) Hc. unfold ml_parse.
  destruct (Nat.ltb_spec (length l) LLPARSE_BUF_SIZE); [|lia]. run. rewrite until0_id by done.
  destruct (is_empty l) eqn:E; [by destruct l|]. unfold str_eq at 1. rewrite bool_decide_false by done. cbn [orb].
  run. rewrite Hc. unfold str_eq. by rewrite bool_decide_false.
Qed.

Lemma plain_appends v cmd l s : collecting v cmd s → plain v l → ml_classify l l s = Ret (ML_append 0) s.
Proof.
  intros [Hv H0 Hc Hu] (H1 & H2 & H3 & H4 & H5 & H6). unfold ml_classify. run.
  rewrite (bind_step _ _ _ _ _ (is_ext_char_eq v _ s Hv)), H1.
  unfold ml_basic, v0_code, str_eq. run. rewrite H0, H4, H5, H6, !bool_decide_false by done. done.
Qed.

Lemma informs_appends v cmd l s : collecting v cmd s → informs v cmd l → mlbuf_len s = 0 →
  ml_classify l l s = Ret (ML_append 0) s.
Proof.
  intros [Hv H0 Hc Hu] (H1 & H2 & H3 & H4 & H5 & colon & H6 & H7) Hm. unfold ml_classify. run.
  rewrite (bind_step _ _ _ _ _ (is_ext_char_eq v _ s Hv)), H1, Hc.
  unfold ml_extended, not_mine, ml_info, cmd_text2. rewrite H6, H4, H5.
  destruct (Nat.ltb_spec 2 (length (ac_buf cmd))); [|lia]. run. rewrite H7. cbn [negb]. run.
  rewrite (bind_step _ _ _ _ _ (is_ext_char_eq v _ s Hv)), H3. cbn [negb]. run. by rewrite Hm.
Qed.

Lemma collecting_gathered v cmd acc s : collecting v cmd s → collecting v cmd (gathered acc s).
Proof. by intros []. Qed.
Lemma collecting_llp v cmd p s : collecting v cmd s → collecting v cmd (set_llp p s).
Proof. by intros []. Qed.

(** The response: its first line may be an information response, the others are text. *)
Definition response_line (v : vendor) (cmd : gsmd_atcmd) (acc l : list Z) : Prop :=
  text_line cmd l ∧ (plain v l ∨ (acc = [] ∧ informs v cmd l)).

Inductive response (v : vendor) (cmd : gsmd_atcmd) : list Z → list (list Z) → Prop :=
  | response_end acc : response v cmd acc []
  | response_cons acc l ls : response_line v cmd acc l →
      Z.of_nat (length acc + 1 + length l) ≤ MLPARSE_BUF_SIZE →
      response v cmd (gather acc l) ls → response v cmd acc (l :: ls).

Lemma ml_parse_gather v cmd acc l s : collecting v cmd s → response_line v cmd acc l →
  Z.of_nat (length acc + 1 + length l) ≤ MLPARSE_BUF_SIZE →
  ml_parse l (gathered acc s) = Ret 0 (gathered (gather acc l) s).
Proof.
  intros Hs [Ht Hl] Hlen. pose proof (collecting_gathered v cmd acc s Hs) as Hg.
  rewrite (ml_parse_text cmd) by (done || apply Hg).
  assert (ml_classify l l (gathered acc s) = Ret (ML_append 0) (gathered acc s)) as E.
  { destruct Hl as [Hp|[-> Hi]]; [by apply (plain_appends v cmd) | by apply (informs_appends v cmd)]. }
  rewrite (bind_step _ _ _ _ _ E). apply ml_append_gather; [apply Hs|done].
Qed.

Lemma deliver_gather v cmd ls : ∀ acc s, collecting v cmd s → llp_idle (llp s) →
  response v cmd acc ls → deliver ls (gathered acc s) = Ret 0 (gathered (foldl gather acc ls) s).
Proof.
  induction ls as [|l ls IH]; intros acc s Hs Hi Hr; [done|]. inversion Hr as [|? ? ? Hl Hlen Hr']; subst.
  cbn [deliver foldl]. run. unfold at_line. cbn [line_cb gsmd_sink llp_of llp_put].
  set (p := LLP _ _ _). change (set_llp p (gathered acc s)) with (gathered acc (set_llp p s)).
  rewrite (bind_step _ _ _ _ _ (ml_parse_gather v cmd acc l _ (collecting_llp v cmd p s Hs) Hl Hlen)). run.
  assert (line_done (gathered (gather acc l) (set_llp p s)) = gathered (gather acc l) s) as ->.
  { unfold line_done, p, gathered. cbn. destruct Hi as (E1 & E2 & _). destruct s as [? ? ? lp]; cbn in *.
    destruct lp; cbn in *. by subst. }
  by apply IH.
Qed.

(** ** The final result code *)

Lemma text_line_OK cmd : ac_text cmd ≠ b "OK" → text_line cmd (b "OK").
Proof.
  intros Ht. assert (cstring (b "OK")) by (by repeat constructor).
  split_and!; try done; try (apply Nat.leb_le; reflexivity); by repeat constructor.
Qed.

(** What [atcmd_done] does with the response, before the parser goes on. *)
Definition complete (cmd : gsmd_atcmd) (cb : atcmd_cb) (resp : list Z) : G Z :=
  remove_timer cmd;;
  rc ← run_cb cb cmd resp;
  mlbuf_clear;;
  mlbuf_set_len 0;;
  finish_first;;
  mret rc.

(** The text the callback gets: what was gathered, or the final result code. *)
Definition response_text (acc final : list Z) : list Z := if is_empty acc then final else acc.

(** The callbacks and the timers leave the buffer alone. *)
Definition mrel (s s' : gsmd) : Prop := mlbuf s' = mlbuf s ∧ mlbuf_len s' = mlbuf_len s.
#[export] Instance mrel_preorder : PreOrder mrel.
Proof. split; [by intros s | intros s t u [??] [??]; split; congruence]. Qed.
#[export] Instance mrel_effects d : Effects d mrel.
Proof.
  split; try by typeclasses eauto.
  all: try by intros; unfold mrel; cbn.
  intros c _. apply keeps_append_run. intros s. unfold mrel. by cbn.
Qed.
#[export] Instance mrel_timers d : TimerEffects d mrel.
Proof. split; [typeclasses eauto | by intros; unfold mrel; cbn ..]. Qed.

Lemma final_response_run acc buf t : cstring acc → Z.of_nat (length acc) < MLPARSE_BUF_SIZE →
  mlbuf t = acc → mlbuf_len t = Z.of_nat (length acc) →
  final_response buf t = Ret (response_text acc buf) t.
Proof.
  intros Hc Hl Em El. unfold final_response. run. rewrite El, Em. destruct acc as [|c acc]; [done|].
  destruct (Z.eqb_spec (Z.of_nat (length (c :: acc))) 0) as [E|_]; [cbn [length] in E; lia|].
  destruct (Z.ltb_spec (Z.of_nat (length (c :: acc))) MLPARSE_BUF_SIZE); [|lia]. run.
  by rewrite Nat2Z.id, firstn_all, until0_id.
Qed.

Lemma atcmd_done_run cmd cb acc buf s : ac_cb cmd = Some cb → cstring acc →
  Z.of_nat (length acc) < MLPARSE_BUF_SIZE → mlbuf s = acc → mlbuf_len s = Z.of_nat (length acc) →
  atcmd_done cmd buf s = complete cmd cb (response_text acc buf) s.
Proof.
  intros Hcb Hc Hl Em El. unfold atcmd_done, complete. rewrite Hcb. apply bind_ext. intros [] t Ht.
  apply (keeps_remove_timer (d := CtxNull) (R := mrel)) in Ht as [E1 E2]. run.
  rewrite (bind_step _ _ _ _ _ (final_response_run acc buf t Hc Hl ltac:(congruence) ltac:(congruence))). by run.
Qed.

Lemma atcmd_done_run0 cmd cb buf s : ac_cb cmd = Some cb → mlbuf_len s = 0 →
  atcmd_done cmd buf s = complete cmd cb buf s.
Proof.
  intros Hcb El. unfold atcmd_done, complete. rewrite Hcb. apply bind_ext. intros [] t Ht.
  apply (keeps_remove_timer (d := CtxNull) (R := mrel)) in Ht as [_ E2]. unfold final_response. run.
  rewrite E2, El, Z.eqb_refl. by run.
Qed.

Lemma ok_completes v cmd cb rest acc p s : collecting v cmd s → busy_atcmds s = cmd :: rest →
  ac_cb cmd = Some cb → ac_text cmd ≠ b "OK" → cstring acc → Z.of_nat (length acc) < MLPARSE_BUF_SIZE →
  ml_parse (b "OK") (set_llp p (gathered acc s)) =
  complete (set_ret 0 cmd) cb (response_text acc (b "OK"))
    (set_busy_atcmds (set_ret 0 cmd :: rest) (set_llp p (gathered acc s))).
Proof.
  intros Hs Hb Hcb Ht Hc Hl. pose proof (collecting_llp v cmd p _ (collecting_gathered v cmd acc s Hs)) as Hg.
  rewrite (ml_parse_text cmd); [|by apply text_line_OK|apply Hg].
  unfold ml_classify. run. destruct Hg as [Hv H0 Hh _].
  rewrite (bind_step _ _ _ _ _ (is_ext_char_eq v _ _ Hv)).
  assert (ext_char v (default 0 (head (b "OK"))) = false) as -> by (destruct v; reflexivity).
  unfold ml_basic, v0_code, str_eq. run. rewrite H0. rewrite !bool_decide_false by done. cbn [orb andb].
  change (strn_eq 2 (b "OK") (b "OK")) with true. cbn [orb]. unfold set_first. run.
  cbn [set_llp gathered set_mlbuf_len set_mlbuf busy_atcmds]. rewrite Hb. cbn [on_first].
  unfold ml_final. run. cbn [set_busy_atcmds busy_atcmds]. run. by apply (atcmd_done_run _ _ acc).
Qed.

Lemma bind_cong2 {A B} (m1 m2 : G A) (k : A → G B) s1 s2 : m1 s1 = m2 s2 → (m1 ≫= k) s1 = (m2 ≫= k) s2.
Proof. unfold mbind, M_bind. by intros ->. Qed.

Lemma response_frames v cmd acc ls : ac_text cmd ≠ b "OK" → response v cmd acc ls →
  Forall line_text (ls ++ [b "OK"]).
Proof.
  intros Ht Hr. apply Forall_app. split; [|constructor; [by apply (text_line_OK cmd)|done]].
  induction Hr as [|acc l ls [Hl _] _ _ IH]; constructor; [apply Hl|done].
Qed.

(** ** Making a command *)

Lemma fill_buf_cut cmd : cmd ≠ [] → fill_buf cmd (length cmd) = take (length cmd - 1) cmd ++ [0].
Proof. intros Hne. unfold fill_buf. rewrite take_app_le by lia. done. Qed.

(** [atcmd_fill] makes a command that holds the text and a NUL, padded to the
    length asked for, when that is greater than the text's; otherwise the last
    character of the text is overwritten by the NUL; with an empty text and length 0
    it writes outside the buffer; and without memory it returns NULL. *)
Theorem atcmd_fill_spec text rlen cb c id ct s :
  let n := Z.to_nat (Z.max (Z.of_nat (length text)) rlen) in
  let made buf := Atcmd (next_ref s) c cb NO_RESULT (Z.of_nat n) (u16 id) None (default discard_timer ct) 0 buf in
  match oracle s with
  | false :: o => atcmd_fill text rlen cb c id ct s = Ret None (set_oracle o s)
  | _ =>
      let s' := set_next_ref (next_ref s + 1) (set_oracle (tail (oracle s)) s) in
      (Z.of_nat (length text) < rlen →
         atcmd_fill text rlen cb c id ct s =
         Ret (Some (made (text ++ replicate (Z.to_nat rlen - length text) 0))) s') ∧
      (rlen ≤ Z.of_nat (length text) → text ≠ [] →
         atcmd_fill text rlen cb c id ct s =
         Ret (Some (made (take (length text - 1) text ++ [0]))) s') ∧
      (rlen ≤ 0 → text = [] → ∃ why, atcmd_fill text rlen cb c id ct s = Stop (Undefined why))
  end.
Proof.
  cbv zeta. set (buflen := Z.max (Z.of_nat (length text)) rlen).
  assert (∀ s0 s1, talloc s0 = Ret true s1 → atcmd_fill text rlen cb c id ct s0 =
    (must (0 <? buflen) "the byte before an empty command buffer";;
     r ← fresh_ref; mret (Some (Atcmd r c cb NO_RESULT buflen (u16 id) None (default discard_timer ct) 0
                      (fill_buf text (Z.to_nat buflen))))) s1) as E.
  { intros s0 s1 H. unfold atcmd_fill. by rewrite (bind_step _ _ _ _ _ H). }
  assert (∀ s1, talloc s = Ret true s1 →
    s1 = set_oracle (tail (oracle s)) s →
    (Z.of_nat (length text) < rlen → atcmd_fill text rlen cb c id ct s = Ret (Some (Atcmd (next_ref s) c cb NO_RESULT
        (Z.of_nat (Z.to_nat buflen)) (u16 id) None (default discard_timer ct) 0
        (text ++ replicate (Z.to_nat rlen - length text) 0))) (set_next_ref (next_ref s + 1) s1)) ∧
    (rlen ≤ Z.of_nat (length text) → text ≠ [] → atcmd_fill text rlen cb c id ct s = Ret (Some (Atcmd (next_ref s) c cb NO_RESULT
        (Z.of_nat (Z.to_nat buflen)) (u16 id) None (default discard_timer ct) 0
        (take (length text - 1) text ++ [0]))) (set_next_ref (next_ref s + 1) s1)) ∧
    (rlen ≤ 0 → text = [] → ∃ why, atcmd_fill text rlen cb c id ct s = Stop (Undefined why))) as Hmain.
  { intros s1 Ht ->. rewrite (E _ _ Ht). split_and!.
    - intros Hr. assert (buflen = rlen) as -> by lia. rewrite fill_buf_fits by lia. rewrite Z2Nat.id by lia.
      destruct (Z.ltb_spec 0 rlen); [done|lia].
    - intros Hr Hne. assert (buflen = Z.of_nat (length text)) as -> by lia.
      rewrite !Nat2Z.id, fill_buf_cut by done.
      destruct (Z.ltb_spec 0 (Z.of_nat (length text))); [done|]. destruct text; [done|cbn [length] in *; lia].
    - intros Hr ->. assert (buflen = 0) as -> by (unfold buflen; cbn [length]; lia). by eexists. }
  unfold talloc in Hmain. destruct (oracle s) as [|[] o] eqn:Eo.
  - apply Hmain; [|done]. f_equal. destruct s; cbn in *; by subst.
  - by apply Hmain.
  - unfold atcmd_fill. by rewrite (bind_step _ _ _ false (set_oracle o s)) by (unfold talloc; by rewrite Eo).
Qed.

(** ** Writing a command of one line *)

(** A command of which nothing was sent: one line of text, and its NUL. *)
Definition unsent (text : list Z) (c : gsmd_atcmd) : Prop :=
  ac_cur c = 0%nat ∧ ac_buf c = text ++ [0] ∧ ac_buflen c = Z.of_nat (length text) + 1 ∧
  cstring text ∧ text ≠ [] ∧ LF ∉ text.

Lemma next_line_unsent text c : unsent text c → next_line c = (false, Z.of_nat (length text)).
Proof.
  intros (H1 & H2 & H3 & H4 & H5 & H6). unfold next_line, ac_rest. rewrite H1, H2, H3, drop_0.
  rewrite (until0_cstring text []) by done. rewrite (proj2 (strchr_None text LF) H6). f_equal. lia.
Qed.

(** Same command, whatever was sent of it and whatever its timer. *)
Definition same_command (c c' : gsmd_atcmd) : Prop :=
  ac_ref c' = ac_ref c ∧ ac_ctx c' = ac_ctx c ∧ ac_cb c' = ac_cb c ∧ ac_id c' = ac_id c ∧ ac_buf c' = ac_buf c.

(** The timer's registration, when memory is not short. *)
Lemma create_timer_func_run t s : oracle s = [] → ∃ tmr it,
  create_timer_func t s =
  Ret (Some (next_ref s)) (set_kernel_timer it
    (set_timer_list (timer_list s ++ [tmr]) (set_next_ref (next_ref s + 1) s))) ∧ tmr_ref tmr = next_ref s.
Proof.
  intros Ho. unfold create_timer_func. destruct (timer_args t) as [tv cb]. unfold gsmd_timer_create.
  cbn [talloc_ok fresh gsmd_timers]. unfold talloc at 1. unfold mbind at 1, M_bind at 1. rewrite Ho.
  unfold fresh_ref. unfold mbind at 1, M_bind at 1. unfold gsmd_timer_register. run.
  unfold calc_next_expiration. run. destruct (min_expiry _) as [m|] eqn:Em.
  - destruct (setitimer _ _ _) as [it ?]. run. exists (Timer (next_ref s) (TV (tv_sec tv + tv_sec (clock s)) (tv_usec tv + tv_usec (clock s))) cb), it. by split.
  - exfalso. revert Em. cbn. by destruct (timer_list s).
Qed.

(** A command of one line that fits into what the UART accepts is sent whole: its
    text and a carriage return are written, it moves from the pending to the end of
    the executing commands with a timer of its own, and the UART is no longer polled. *)
Theorem command_written c l text room s :
  interpreter_ready s = true → pending_atcmds s = c :: l → unsent text c →
  Z.of_nat (length text) ≤ room → oracle s = [] →
  ∃ s' c', write_pending room true s = Ret 0 s' ∧
    uart_out s' = uart_out s ++ text ++ [CR] ∧ pending_atcmds s' = l ∧
    busy_atcmds s' = busy_atcmds s ++ [c'] ∧ same_command c c' ∧
    ac_timeout c' = Some (next_ref s) ∧ next_ref s ∈ (tmr_ref <$> timer_list s') ∧
    uart_write s' = false.
Proof.
  intros Hr Hp Hu Hroom Ho. pose proof Hu as (H1 & H2 & H3 & H4 & H5 & H6).
  unfold write_pending. run. rewrite Hr, Hp. unfold write_first. rewrite (next_line_unsent text c Hu).
  assert (0 < Z.of_nat (length text)) by (destruct text; [done|cbn [length]; lia]).
  unfold uart_write_rc. destruct (Z.ltb_spec room 0); [lia|]. rewrite Z.min_r by lia.
  destruct (Z.eqb_spec (Z.of_nat (length text)) 0); [lia|]. destruct (Z.ltb_spec (Z.of_nat (length text)) 0); [lia|].
  cbn [negb orb]. unfold uart_put. run. cbn [set_uart_out pending_atcmds]. rewrite Hp. cbn [on_first].
  set (c1 := set_progress _ c). cbn [ac_buflen c1 set_progress]. rewrite H3, Z.sub_diag. cbn [Z.eqb].
  unfold start_waiting. run.
  match goal with |- context [create_timer_func ?t ≫= ?k] =>
    match goal with |- context [(create_timer_func t ≫= k) ?s1] =>
      destruct (create_timer_func_run t s1 Ho) as (tmr & it & E & Et); rewrite (bind_step _ _ _ _ _ E) end end.
  unfold atcmd_wait_pending_queue. run. do 2 eexists. split; [reflexivity|]. cbn.
  rewrite H1, H2, Nat2Z.id, <- app_assoc, drop_0, take_app_le, take_ge by lia.
  split_and!; try done. rewrite fmap_app. apply elem_of_app. right. cbn. rewrite Et. by left.
Qed.

(** [C39] When the UART accepts only a part of the line, the byte after that part is
    skipped and a carriage return is put in its place; and when it accepts all but
    one byte, the command can never be finished: every later attempt writes nothing,
    leaves it at the head of the queue and stops polling the UART. *)
Theorem short_write c l text room s :
  interpreter_ready s = true → pending_atcmds s = c :: l → unsent text c →
  0 < room < Z.of_nat (length text) →
  ∃ s' c', write_pending room true s = Ret 0 s' ∧
    uart_out s' = uart_out s ++ take (Z.to_nat room) text ++ [CR] ∧
    pending_atcmds s' = c' :: l ∧ busy_atcmds s' = busy_atcmds s ∧
    ac_rest c' = drop (S (Z.to_nat room)) text ∧
    (room = Z.of_nat (length text) - 1 → ∀ room2 s2, 0 ≤ room2 → interpreter_ready s2 = true →
       pending_atcmds s2 = c' :: l → write_pending room2 true s2 = Ret 0 (set_uart_write false s2)).
Proof.
  intros Hr Hp Hu Hroom. pose proof Hu as (H1 & H2 & H3 & H4 & H5 & H6).
  unfold write_pending at 1. run. rewrite Hr, Hp. unfold write_first at 1. rewrite (next_line_unsent text c Hu).
  unfold uart_write_rc. destruct (Z.ltb_spec room 0); [lia|]. rewrite Z.min_l by lia.
  destruct (Z.eqb_spec room 0); [lia|]. destruct (Z.ltb_spec room 0); [lia|].
  cbn [negb orb]. unfold uart_put. run. cbn [set_uart_out pending_atcmds]. rewrite Hp. cbn [on_first].
  set (c1 := set_progress _ c).
  assert (ac_buflen c1 = Z.of_nat (length text) - room) as Hlen by (cbn; lia).
  assert (ac_rest c1 = drop (S (Z.to_nat room)) text) as Hrest.
  { unfold ac_rest, c1. cbn [set_progress ac_cur ac_buf]. rewrite H1, H2.
    replace (0 + Z.to_nat (room + 1))%nat with (S (Z.to_nat room)) by lia.
    rewrite drop_app_le by lia. apply until0_cstring. by apply Forall_drop. }
  destruct (Z.eqb_spec (ac_buflen c1) 0); [lia|].
  destruct (Z.ltb_spec (room + 1) (Z.of_nat (length text))) as [Hlt|Hge].
  all: unfold atcmd_wait_pending_queue; run; eexists _, c1; (split; [reflexivity|]); cbn -[c1];
    rewrite H1, H2, <- app_assoc, drop_0, take_app_le by lia; split_and!; try done; try lia.
  intros -> room2 s2 H7 H8 H9. unfold write_pending. run. rewrite H8, H9. unfold write_first, next_line.
  assert (ac_rest c1 = []) as -> by (rewrite Hrest; apply drop_ge; lia). cbn [strchr].
  assert (uart_write_rc room2 (ac_buflen c1 - 1) = 0) as ->; [|by run].
  unfold uart_write_rc. destruct (Z.ltb_spec room2 0); lia.
Qed.

(** ** Cancelling *)

Lemma complete_effects cmd cb resp s rc s' : complete cmd cb resp s = Ret rc s' →
  busy_atcmds s' = tail (busy_atcmds s) ∧ mlbuf_len s' = 0 ∧
  ∃ new, pending_atcmds s' = pending_atcmds s ++ new ∧ Forall own new.
Proof.
  unfold complete. intros (? & s1 & H1 & (rc1 & s2 & H2 & H)%bind_Ret)%bind_Ret.
  assert (srel s s1) as G1 by by_keeps srel H1. assert (srel s1 s2) as G2 by by_keeps srel H2.
  assert (srel s s2) as [Eb (new & Ep & Ho)] by by etrans. revert H. unfold mlbuf_clear, mlbuf_set_len. run.
  match goal with |- context [(finish_first ≫= _) ?t] => rewrite (bind_step _ _ _ _ _ (finish_first_run t)) end.
  intros [_ <-]%Ret_inj. cbn. rewrite Eb, Ep. split_and!; [done..|by exists new].
Qed.

(** Cancelling, as hanging up does: the oldest executing command ends at once,
    its callback getting ERROR and not what was gathered for it; the new command goes
    before every pending one; the other commands keep their order, and only commands
    of the daemon's own may be queued behind them. *)
Theorem cancel_atcmd_spec cmd cur rest cb s : busy_atcmds s = cur :: rest → ac_cb cur = Some cb →
  cancel_atcmd cmd s = complete cur cb (b "ERROR")
    (set_pending_atcmds (cmd :: pending_atcmds s) (set_mlbuf_len 0 s)) ∧
  ∀ rc s', cancel_atcmd cmd s = Ret rc s' →
    busy_atcmds s' = rest ∧ mlbuf_len s' = 0 ∧
    ∃ new, pending_atcmds s' = cmd :: pending_atcmds s ++ new ∧ Forall own new.
Proof.
  intros Hb Hcb.
  assert (cancel_atcmd cmd s = complete cur cb (b "ERROR")
    (set_pending_atcmds (cmd :: pending_atcmds s) (set_mlbuf_len 0 s))) as E.
  { unfold cancel_atcmd. run. rewrite Hb. unfold mlbuf_set_len. run. by apply atcmd_done_run0. }
  split; [done|]. intros rc s'. rewrite E. intros (Eb & El & new & Ep & Ho)%complete_effects.
  cbn in Eb, Ep. rewrite Hb in Eb. split_and!; [done..|by exists new].
Qed.

(** ** Reading in chunks *)

(** However the operating system cuts the modem's output into reads, the daemon
    does the same with it as if it had come in one piece, up to a parser error. *)
Theorem read_loop_chunks chunks s :
  read_loop chunks s =
  (rc ← llparse_string (concat chunks); mret (if rc <? 0 then Some rc else None)) s.
Proof.
  revert s. induction chunks as [|bs chunks IH]; intros s; [done|]. cbn [read_loop concat].
  rewrite (bind_cong _ _ _ _ (string_app bs (concat chunks) s)). run. apply bind_ext. intros rc s1 _.
  destruct (rc <? 0) eqn:E; [run; by rewrite E|apply IH].
Qed.

(** Readings of the UART in rounds of the loop, one after the other: the chunks that each finds
    before there is no more. *)
Fixpoint uart_rounds (rounds : list (list (list Z))) : G unit :=
  match rounds with
  | [] => mret tt
  | chunks :: rounds' => atcmd_select_cb (Some (chunks, RD_again)) None;; uart_rounds rounds'
  end.

Lemma uart_rounds_string rounds s :
  (∀ rc s', llparse_string (concat (concat rounds)) s = Ret rc s' → 0 ≤ rc) →
  uart_rounds rounds s = (llparse_string (concat (concat rounds));; mret tt) s.
Proof.
  revert s. induction rounds as [|chunks rounds IH]; intros s; [done|]. cbn [uart_rounds concat].
  rewrite concat_app. intros H. unfold atcmd_select_cb.
  rewrite (bind_cong _ _ _ _ (bind_cong _ _ _ _ (read_loop_chunks chunks s))).
  rewrite (bind_cong _ _ _ _ (string_app (concat chunks) (concat (concat rounds)) s)). rewrite string_app in H.
  unfold mbind, M_bind in *. destruct (llparse_string (concat chunks) s) as [rc s1|]; [|done].
  destruct (Z.ltb_spec rc 0) as [Hneg|_]; [specialize (H rc s1 eq_refl); lia|]. by apply IH.
Qed.

Lemma response_string v cmd cb rest ls s :
  collecting v cmd s → busy_atcmds s = cmd :: rest → ac_cb cmd = Some cb → ac_text cmd ≠ b "OK" →
  llp_idle (llp s) → mlbuf s = [] → mlbuf_len s = 0 →
  response v cmd [] ls → cstring (joined ls) → Z.of_nat (length (joined ls)) < MLPARSE_BUF_SIZE →
  llparse_string (concat (frame <$> (ls ++ [b "OK"]))) s =
  (complete (set_ret 0 cmd) cb (response_text (joined ls) (b "OK"));; modify line_done;; mret 0)
    (at_line (b "OK") (set_busy_atcmds (set_ret 0 cmd :: rest) (gathered (joined ls) s))).
Proof.
  intros Hs Hb Hcb Ht Hi Em El Hr Hc Hl.
  assert (s = gathered [] s) as Es by (destruct s; cbn in *; by subst).
  rewrite frames_deliver; [|by eapply response_frames|done].
  rewrite deliver_app, Es at 1. rewrite (bind_step _ _ _ _ _ (deliver_gather v cmd ls [] s Hs Hi Hr)).
  cbn [deliver]. run. unfold at_line at 1. cbn [line_cb gsmd_sink llp_of llp_put].
  apply bind_cong2. rewrite (ok_completes v cmd cb rest (joined ls)) by done. done.
Qed.

(** [C2] The modem's response reaches the command: when the UART delivers an optional
    information response and lines of text and then OK, framed, cut into chunks and rounds of
    the loop in any way, with no other event in between, the callback of the oldest executing
    command is called once, with the lines joined by newlines - or with the result code if
    there are none - and with the result 0; the buffer is then cleared, the command leaves the
    queue and its timer is removed. *)
Theorem response_delivered v cmd cb rest ls rounds s :
  collecting v cmd s → busy_atcmds s = cmd :: rest → ac_cb cmd = Some cb → ac_text cmd ≠ b "OK" →
  llp_idle (llp s) → mlbuf s = [] → mlbuf_len s = 0 →
  response v cmd [] ls → cstring (joined ls) → Z.of_nat (length (joined ls)) < MLPARSE_BUF_SIZE →
  concat (concat rounds) = concat (frame <$> (ls ++ [b "OK"])) →
  uart_rounds rounds s =
  (complete (set_ret 0 cmd) cb (response_text (joined ls) (b "OK"));; modify line_done)
    (at_line (b "OK") (set_busy_atcmds (set_ret 0 cmd :: rest) (gathered (joined ls) s))).
Proof.
  intros Hs Hb Hcb Ht Hi Em El Hr Hc Hl Hcut. set (t := at_line _ _).
  pose proof (response_string v cmd cb rest ls s Hs Hb Hcb Ht Hi Em El Hr Hc Hl) as E. fold t in E.
  rewrite uart_rounds_string; rewrite Hcut.
  - rewrite (bind_cong _ _ _ _ E). unfold mbind, M_bind. by destruct (complete _ _ _ t).
  - intros rc s'. rewrite E. intros (? & ? & _ & (? & ? & _ & [<- _]%Ret_inj)%bind_Ret)%bind_Ret. done.
Qed.

(** ** Examples *)

Module Examples.

Definition cimi (cur : nat) (left : Z) : gsmd_atcmd :=
  Atcmd 1 CtxGsmd (Some CB_gsmd_get_imsi_cb) NO_RESULT left 0 None discard_timer cur (b "AT+CIMI" ++ [0]).

Definition st (pending busy : list gsmd_atcmd) : gsmd :=
  Gsmd 0 true true (LLP LLPARSE_STATE_IDLE LGSM_ATCMD_F_EXTENDED []) [] pending busy
    (Some machine_generic) (Some vendor_ti) (DevState 0 0 0 false false None) [] [] false 0 false false []
    [] None (TV 100 0) [] 10 [] [].

Definition digits : list Z := b "262011234567890".

Lemma collecting_ex busy cmd : collecting vendor_ti cmd (st [] (cmd :: busy)).
Proof. by split. Qed.

Lemma digits_line : text_line (cimi 8 0) digits ∧ plain vendor_ti digits.
Proof.
  split.
  - split_and!; try done; try (apply Nat.leb_le; reflexivity); by repeat constructor.
  - split_and!; try done; reflexivity.
Qed.

Lemma response_ex : response vendor_ti (cimi 8 0) [] [digits].
Proof.
  constructor; [split; [apply digits_line|left; apply digits_line]|by vm_compute|constructor].
Qed.

(** The modem answers AT+CIMI, in three chunks of two rounds, and the daemon stores the number. *)
Definition cut_up : list (list (list Z)) :=
  let bytes := concat (frame <$> ([digits] ++ [b "OK"])) in
  [[take 5 bytes; take 10 (drop 5 bytes)]; [drop 15 bytes]].

Lemma response_delivered_witness : ∃ s', uart_rounds cut_up (st [] [cimi 8 0]) = Ret tt s' ∧
  imsi s' = digits ∧ busy_atcmds s' = [] ∧ llp s' = LLP LLPARSE_STATE_IDLE LGSM_ATCMD_F_EXTENDED [].
Proof.
  eexists. split.
  - rewrite (response_delivered vendor_ti (cimi 8 0) CB_gsmd_get_imsi_cb [] [digits] cut_up (st [] [cimi 8 0])
      (collecting_ex [] _) eq_refl eq_refl ltac:(discriminate) ltac:(by split) eq_refl eq_refl response_ex
      ltac:(by repeat constructor) ltac:(by vm_compute) ltac:(by vm_compute)).
    vm_compute. reflexivity.
  - vm_compute. split_and!; reflexivity.
Defined.

Lemma unsent_ex : unsent (b "AT+CIMI") (cimi 0 8).
Proof.
  split_and!; try done; [by repeat constructor|]. apply (bool_decide_eq_false_1 (LF ∈ b "AT+CIMI")). reflexivity.
Qed.

Lemma command_written_witness : ∃ s' c', write_pending 100 true (st [cimi 0 8] []) = Ret 0 s' ∧
  uart_out s' = b "AT+CIMI" ++ [CR] ∧ busy_atcmds s' = [c'] ∧ ac_timeout c' = Some 10.
Proof.
  destruct (command_written (cimi 0 8) [] (b "AT+CIMI") 100 (st [cimi 0 8] []) eq_refl eq_refl unsent_ex
    ltac:(by vm_compute) eq_refl) as (s' & c' & H1 & H2 & _ & H3 & _ & H4 & _).
  exists s', c'. split_and!; [exact H1|exact H2|exact H3|exact H4].
Defined.

(** One byte short: AT+CIM, a carriage return, and nothing more. *)
Lemma short_write_witness : ∃ s', write_pending 6 true (st [cimi 0 8] []) = Ret 0 s' ∧
  uart_out s' = b "AT+CIM" ++ [CR].
Proof.
  destruct (short_write (cimi 0 8) [] (b "AT+CIMI") 6 (st [cimi 0 8] []) eq_refl eq_refl unsent_ex
    ltac:(by split; vm_compute)) as (s' & c' & H1 & H2 & _).
  exists s'. split; [exact H1|exact H2].
Defined.

Lemma cancel_atcmd_spec_witness :
  cancel_atcmd (cimi 0 8) (st [] [cimi 8 0]) =
  complete (cimi 8 0) CB_gsmd_get_imsi_cb (b "ERROR") (set_pending_atcmds [cimi 0 8] (st [] [cimi 8 0])).
Proof.
  exact (proj1 (cancel_atcmd_spec (cimi 0 8) (cimi 8 0) [] CB_gsmd_get_imsi_cb (st [] [cimi 8 0]) eq_refl eq_refl)).
Defined.

Lemma atcmd_fill_spec_witness :
  atcmd_fill (b "AT") 4 None CtxNull 0 None (st [] []) =
  Ret (Some (Atcmd 10 CtxNull None NO_RESULT 4 0 None discard_timer 0 (b "AT" ++ [0; 0]))) (set_next_ref 11 (st [] [])).
Proof.
  exact (proj1 (atcmd_fill_spec (b "AT") 4 None CtxNull 0 None (st [] [])) eq_refl).
Defined.

Definition run_state {A} (m : G A) (s : gsmd) : gsmd := match m s with Ret _ s' => s' | Stop _ => s end.

Lemma ml_parse_fifo_witness :
  ac_ref <$> busy_atcmds (run_state (ml_parse (b "OK")) (st [] [cimi 8 0; cimi 8 0])) = [1].
Proof.
  assert (∃ rc, ml_parse (b "OK") (st [] [cimi 8 0; cimi 8 0]) =
    Ret rc (run_state (ml_parse (b "OK")) (st [] [cimi 8 0; cimi 8 0]))) as [rc E]
    by (eexists; vm_compute; reflexivity).
  exact (proj1 (ml_parse_fifo _ _ _ _ E)).
Defined.

Lemma atcmd_terminate_matching_spec_witness : ∃ n s',
  atcmd_terminate_matching (CtxUser 5) (st [Atcmd 2 (CtxUser 5) (Some CB_null_cmd_cb) 0 8 0 None discard_timer 0 []] [cimi 8 0])
  = Ret n s' ∧ Forall (λ cmd, ac_ctx cmd ≠ CtxUser 5) (busy_atcmds s' ++ pending_atcmds s').
Proof.
  assert (∃ n s', atcmd_terminate_matching (CtxUser 5)
    (st [Atcmd 2 (CtxUser 5) (Some CB_null_cmd_cb) 0 8 0 None discard_timer 0 []] [cimi 8 0]) = Ret n s')
    as (n & s' & E) by (do 2 eexists; vm_compute; reflexivity).
  exists n, s'. split; [exact E|]. apply (atcmd_terminate_matching_spec 5 _ n s' E).
Defined.
End Examples.
