(* ===== verification/Usock.v ===== *)
(** * Requests of the clients (the handlers of src/target/gsm/src/gsmd/usock.c)

    Each handler gets the client, the header and the bytes of a message, and
    submits a command; the dispatch on the message type, and the client's socket. *)

From S2P Require Import Prelude CString Enums Wire LLParse Timers State Queue.
From S2P Require Import Events SmsCb Unsolicited Vendor UsockCb Main AtCmd.

(** [atcmd_fill] of a constant, its length and the NUL. *)
Definition fill_const (text : list Z) (cb : atcmd_cb) (c : ctx) (id : Z) : G (option gsmd_atcmd) :=
  atcmd_fill text (Z.of_nat (length text) + 1) (Some cb) c id None.

Definition submit_const (text : list Z) (cb : atcmd_cb) (c : ctx) (id : Z) : G Z :=
  cmd ← fill_const text cb c id; submit_or_nomem cmd.

(** A text made by [sprintf], in a buffer of exactly its length. *)
Definition submit_sprintf (text0 arg : list Z) (cb : atcmd_cb) (c : ctx) (id : Z) : G Z :=
  cmd ← fill_sprintf text0 (1 + Z.of_nat (length text0) + Z.of_nat (length arg)) cb c id (text0 ++ arg);
  submit_or_nomem cmd.

Definition hdr_id (h : gsmd_msg_hdr) : Z := default 0 (h_id h).
Definition short (m : list Z) (n : nat) : bool := (length m <? sizeof_hdr + n)%nat.

(** ** Pass-through and subscriptions *)

Definition usock_rcv_passthrough (c : ctx) (h : gsmd_msg_hdr) (m : list Z) : G Z :=
  text ← req_str m sizeof_hdr;
  cmd ← atcmd_fill text (h_len h) (Some CB_usock_cmd_cb) c (hdr_id h) None;
  submit_or_nomem cmd.

Definition set_subscriptions (mask : Z) (gu : gsmd_user) : gsmd_user :=
  User (gu_ref gu) (gu_finished_ucmds gu) (gu_write gu) mask.

Definition usock_rcv_event (c : ctx) (h : gsmd_msg_hdr) (m : list Z) : G Z :=
  if short m 4 then mret (- EINVAL)
  else if negb (h_msg_subtype h =? GSMD_EVT_SUBSCRIPTIONS) then mret (- EINVAL)
  else
    mask ← req32 m sizeof_hdr;
    gu ← user_of c;
    modify (λ s, set_users (update_user (gu_ref gu) (set_subscriptions (u32 mask)) (users s)) s);;
    mret 0.

(** ** Calls *)

(** [ga->number[GSMD_ADDR_MAXLEN] = 0]. *)
Definition dial_number (m : list Z) : list Z :=
  until0 (take GSMD_ADDR_MAXLEN (drop (sizeof_hdr + 1) m)).

Definition rcv_dial (c : ctx) (h : gsmd_msg_hdr) (m : list Z) : G Z :=
  if short m sizeof_addr then mret (- EINVAL)
  else
    let number := dial_number m in
    cmd ← fill_sprintf (b "ATD") (5 + Z.of_nat (length number)) CB_usock_cmd_cb c (hdr_id h)
            (b "ATD" ++ number ++ b ";");
    submit_or_nomem cmd.

Definition rcv_hangup (c : ctx) (h : gsmd_msg_hdr) : G Z :=
  s ← get;
  cmd ← fill_const (b "ATH") (if ds_ringing (dev_state s) then CB_usock_ringing_cb
                              else CB_usock_cmd_cb) c (hdr_id h);
  match cmd with
  | Some cmd => cancel_atcmd cmd
  | None => mret (- ENOMEM)
  end.

Definition rcv_dtmf (c : ctx) (h : gsmd_msg_hdr) (m : list Z) : G Z :=
  if short m 1 then mret (- EINVAL)
  else
    len ← req8 m sizeof_hdr;
    if short m (1 + Z.to_nat len) then mret (- EINVAL)
    else if negb (len =? 1) then mret (- EINVAL)
    else
      d ← req8 m (sizeof_hdr + 1);
      cmd ← fill_sprintf (b "AT+VTS=") (1 + 7 + len * 2) CB_usock_cmd_cb c (hdr_id h)
              (b "AT+VTS=" ++ [d] ++ b ";");
      submit_or_nomem cmd.

(** The digits after [AT+CHLD=]. *)
Definition chld_text (proc idx : Z) : option (list Z) :=
  if (proc =? GSMD_CALL_CTRL_R_HLDS) || (proc =? GSMD_CALL_CTRL_UDUB) then Some (dec 0)
  else if proc =? GSMD_CALL_CTRL_R_ACTS_A_HLD_WAIT then Some (dec 1)
  else if proc =? GSMD_CALL_CTRL_R_ACT_X then Some (dec 1 ++ dec idx)
  else if proc =? GSMD_CALL_CTRL_H_ACTS_A_HLD_WAIT then Some (dec 2)
  else if proc =? GSMD_CALL_CTRL_H_ACTS_EXCEPT_X then Some (dec 2 ++ dec idx)
  else if proc =? GSMD_CALL_CTRL_M_HELD then Some (dec 3)
  else None.

Definition rcv_ctrl (c : ctx) (h : gsmd_msg_hdr) (m : list Z) : G Z :=
  if short m 5 then mret (- EINVAL)
  else
    cmd ← atcmd_fill (b "AT+CHLD=") (1 + 8 + 2) (Some CB_voicecall_ctrl_cb) c (hdr_id h) None;
    match cmd with
    | None => mret (- ENOMEM)
    | Some cmd =>
        proc ← req32 m sizeof_hdr;
        idx ← req8 m (sizeof_hdr + 4);
        match chld_text proc idx with
        | None => mret (- EINVAL)
        | Some t =>
            cmd ← deref (sprintf_buf (b "AT+CHLD=" ++ t) cmd) "sprintf beyond cmd->buf";
            atcmd_submit cmd
        end
    end.

(** Call forwarding: the mode after the reason. *)
Definition rcv_forward (c : ctx) (h : gsmd_msg_hdr) (m : list Z) (mode : list Z) (cb : atcmd_cb) : G Z :=
  if short m 4 then mret (- EINVAL)
  else
    reason ← req32 m sizeof_hdr;
    submit_sprintf (b "AT+CCFC=") (dec reason ++ b "," ++ mode) cb c (hdr_id h).

Definition rcv_fwd_reg (c : ctx) (h : gsmd_msg_hdr) (m : list Z) : G Z :=
  if short m 4 then mret (- EINVAL)
  else
    reason ← req32 m sizeof_hdr;
    number ← req_str m (sizeof_hdr + 5);
    let buf := dec reason ++ b ",3," ++ quoted number in
    must (Z.of_nat (length buf) <? 64) "sprintf beyond buf";;
    submit_sprintf (b "AT+CCFC=") buf CB_usock_cmd_cb c (hdr_id h).

Definition usock_rcv_voicecall (c : ctx) (h : gsmd_msg_hdr) (m : list Z) : G Z :=
  let st := h_msg_subtype h in
  if st =? GSMD_VOICECALL_DIAL then rcv_dial c h m
  else if st =? GSMD_VOICECALL_HANGUP then rcv_hangup c h
  else if st =? GSMD_VOICECALL_ANSWER then submit_const (b "ATA") CB_usock_ringing_cb c (hdr_id h)
  else if st =? GSMD_VOICECALL_DTMF then rcv_dtmf c h m
  else if st =? GSMD_VOICECALL_GET_STAT then
    submit_const (b "AT+CLCC") CB_voicecall_get_stat_cb c (hdr_id h)
  else if st =? GSMD_VOICECALL_CTRL then rcv_ctrl c h m
  else if st =? GSMD_VOICECALL_FWD_DIS then rcv_forward c h m (b "0") CB_usock_cmd_cb
  else if st =? GSMD_VOICECALL_FWD_EN then rcv_forward c h m (b "1") CB_usock_cmd_cb
  else if st =? GSMD_VOICECALL_FWD_STAT then rcv_forward c h m (b "2") CB_voicecall_fwd_stat_cb
  else if st =? GSMD_VOICECALL_FWD_REG then rcv_fwd_reg c h m
  else if st =? GSMD_VOICECALL_FWD_ERAS then rcv_forward c h m (b "4") CB_usock_cmd_cb
  else mret (- EINVAL).

(** ** PIN *)

Definition PIN_BUF : Z := 9 + 8 + 3 + 8 + 2.

Definition strlcat_buf (src : list Z) (cmd : gsmd_atcmd) : gsmd_atcmd :=
  Atcmd (ac_ref cmd) (ac_ctx cmd) (ac_cb cmd) (ac_ret cmd) (ac_buflen cmd) (ac_id cmd)
    (ac_timeout cmd) (ac_create_timer cmd) (ac_cur cmd)
    (fst (strlcat (ac_buf cmd) src (Z.to_nat (ac_buflen cmd)))).

Definition wants_newpin (type : Z) : bool := (type =? GSMD_PIN_SIM_PUK) || (type =? GSMD_PIN_SIM_PUK2).

Definition pin_input (m : list Z) (cmd : gsmd_atcmd) : G gsmd_atcmd :=
  type ← req32 m sizeof_hdr;
  pin ← req_str m (sizeof_hdr + 4);
  let cmd := strlcat_buf pin cmd in
  cmd ← (if wants_newpin type then
           newpin ← req_str m (sizeof_hdr + 13);
           mret (strlcat_buf newpin (strlcat_buf ([DQ] ++ b "," ++ [DQ]) cmd))
         else mret cmd);
  mret (strlcat_buf [DQ] cmd).

Definition SIZEOF_PIN : nat := 22.

Definition usock_rcv_pin (c : ctx) (h : gsmd_msg_hdr) (m : list Z) : G Z :=
  let st := h_msg_subtype h in
  if st =? GSMD_PIN_INPUT then
    if (h_len h <? Z.of_nat SIZEOF_PIN) || short m SIZEOF_PIN then mret (- EINVAL)
    else
      cmd ← atcmd_fill (b "AT+CPIN=" ++ [DQ]) PIN_BUF (Some CB_pin_cmd_cb) c 0 None;
      match cmd with
      | None => mret (- ENOMEM)
      | Some cmd => cmd ← pin_input m cmd; atcmd_submit cmd
      end
  else if st =? GSMD_PIN_GET_STATUS then
    cmd ← fill_const (b "AT+CPIN?") CB_get_cpin_cb c 0;
    submit_unchecked cmd
  else mret (- EINVAL).

(** ** The phone and the modem *)

Definition usock_rcv_phone (c : ctx) (h : gsmd_msg_hdr) (m : list Z) : G Z :=
  let st := h_msg_subtype h in
  if st =? GSMD_PHONE_POWERUP then submit_const (b "AT+CFUN=1") CB_phone_powerup_cb c 0
  else if st =? GSMD_PHONE_POWERDOWN then
    cmd ← fill_const (b "AT+CFUN=0") CB_phone_powerdown_cb c 0; set_on 0;; submit_or_nomem cmd
  else if st =? GSMD_PHONE_POWER_STATUS then
    submit_const (b "AT+CFUN?") CB_phone_power_status_cb c 0
  else if st =? GSMD_PHONE_GET_IMSI then
    s ← get; gsmd_ucmd_submit c GSMD_MSG_PHONE GSMD_PHONE_GET_IMSI 0 (cstr (imsi s))
  else if st =? GSMD_PHONE_GET_MANUF then submit_const (b "AT+CGMI") CB_phone_get_manuf_cb c 0
  else if st =? GSMD_PHONE_GET_MODEL then submit_const (b "AT+CGMM") CB_phone_get_model_cb c 0
  else if st =? GSMD_PHONE_GET_REVISION then
    submit_const (b "AT+CGMR") CB_phone_get_revision_cb c 0
  else if st =? GSMD_PHONE_GET_SERIAL then submit_const (b "AT+CGSN") CB_phone_get_serial_cb c 0
  else if st =? GSMD_PHONE_GET_BATTERY then
    submit_const (b "AT+CBC") CB_phone_get_battery_cb c 0
  else if st =? GSMD_PHONE_VIB_ENABLE then
    submit_const (b "AT+CVIB=1") CB_phone_vibrator_enable_cb c 0
  else if st =? GSMD_PHONE_VIB_DISABLE then
    cmd ← fill_const (b "AT+CVIB=0") CB_phone_vibrator_disable_cb c 0;
    set_vibrator 0;;
    submit_or_nomem cmd
  else mret (- EINVAL).

Definition usock_rcv_modem (h : gsmd_msg_hdr) : G Z :=
  s ← get;
  m ← deref (machinepl s) "no machine plugin";
  match power_fn m with
  | Some power => power (h_msg_subtype h);; mret 0
  | None => mret 0
  end.

(** ** The network

    The lengths of these requests are not tested, and the texts are built in an
    array of 21 bytes. *)

Definition SIZEOF_OPER_NUMERIC : nat := 6.
Definition NETWORK_BUF : Z := 15 + 6.

Definition submit_buffer (text : list Z) (cb : atcmd_cb) (c : ctx) : G Z :=
  must (Z.of_nat (length text) <? NETWORK_BUF) "sprintf beyond buffer";;
  cmd ← fill_const text cb c 0;
  submit_or_nomem cmd.

Definition rcv_register (c : ctx) (m : list Z) : G Z :=
  o0 ← req8 m sizeof_hdr;
  if negb (o0 =? 0) then
    oper ← req_prefix m sizeof_hdr SIZEOF_OPER_NUMERIC;
    submit_buffer (b "AT+COPS=1,2," ++ quoted oper) CB_null_cmd_cb c
  else submit_buffer (b "AT+COPS=0") CB_null_cmd_cb c.

Definition rcv_vmail_set (c : ctx) (m : list Z) : G Z :=
  number ← req_str m (sizeof_hdr + 2);
  type ← req8 m (sizeof_hdr + 1);
  submit_buffer (b "AT+CSVM=1," ++ quoted number ++ b "," ++ dec type) CB_network_vmail_cb c.

(** A command that sets the format, whose allocation is not tested, and the query. *)
Definition submit_two (set query : list Z) (cb : atcmd_cb) (c : ctx) : G Z :=
  cmd ← fill_const set CB_null_cmd_cb c 0;
  submit_unchecked cmd;;
  submit_const query cb c 0.

Definition usock_rcv_network (c : ctx) (h : gsmd_msg_hdr) (m : list Z) : G Z :=
  let st := h_msg_subtype h in
  if st =? GSMD_NETWORK_REGISTER then rcv_register c m
  else if st =? GSMD_NETWORK_DEREGISTER then submit_const (b "AT+COPS=2") CB_null_cmd_cb c 0
  else if st =? GSMD_NETWORK_QUERY_REG then
    submit_const (b "AT+CREG?") CB_network_query_reg_cb c 0
  else if st =? GSMD_NETWORK_VMAIL_GET then submit_const (b "AT+CSVM?") CB_network_vmail_cb c 0
  else if st =? GSMD_NETWORK_VMAIL_SET then rcv_vmail_set c m
  else if st =? GSMD_NETWORK_SIGQ_GET then submit_const (b "AT+CSQ") CB_network_sigq_cb c 0
  else if st =? GSMD_NETWORK_OPER_GET then
    submit_two (b "AT+COPS=3,0") (b "AT+COPS?") CB_network_oper_cb c
  else if st =? GSMD_NETWORK_OPER_N_GET then
    submit_two (b "AT+COPS=3,2") (b "AT+COPS?") CB_network_oper_n_cb c
  else if st =? GSMD_NETWORK_OPER_LIST then submit_const (b "AT+COPS=?") CB_network_opers_cb c 0
  else if st =? GSMD_NETWORK_PREF_LIST then
    submit_two (b "AT+CPOL=,0") (b "AT+CPOL?") CB_network_pref_opers_cb c
  else if st =? GSMD_NETWORK_PREF_DEL then
    index ← req32 m sizeof_hdr;
    submit_buffer (b "AT+CPOL=" ++ dec index) CB_null_cmd_cb c
  else if st =? GSMD_NETWORK_PREF_ADD then
    oper ← req_prefix m sizeof_hdr SIZEOF_OPER_NUMERIC;
    submit_buffer (b "AT+CPOL=,2," ++ quoted oper) CB_null_cmd_cb c
  else if st =? GSMD_NETWORK_PREF_SPACE then
    submit_const (b "AT+CPOL=?") CB_network_pref_num_cb c 0
  else if st =? GSMD_NETWORK_GET_NUMBER then
    submit_const (b "AT+CNUM") CB_network_ownnumbers_cb c 0
  else mret (- EINVAL).

(** ** The phone book *)

(** A failed allocation that no test follows: the handler returns 0. *)
Definition submit_or_0 (cmd : option gsmd_atcmd) : G Z :=
  match cmd with Some cmd => atcmd_submit cmd | None => mret 0 end.

Definition rcv_pb_storage (c : ctx) (h : gsmd_msg_hdr) (m : list Z) : G Z :=
  if short m 3 then mret (- EINVAL)
  else
    storage ← req_str m sizeof_hdr;
    cmd ← fill_sprintf (b "AT+CPBS=" ++ [DQ]) (1 + 9 + 2 + 1) CB_usock_cmd_cb c (hdr_id h)
            (b "AT+CPBS=" ++ quoted storage);
    submit_or_nomem cmd.

Definition rcv_pb_find (c : ctx) (h : gsmd_msg_hdr) (m : list Z) : G Z :=
  if short m (GSMD_PB_TEXT_MAXLEN + 1) then mret (- EINVAL)
  else
    text ← req_str m sizeof_hdr;
    cmd ← fill_sprintf (b "AT+CPBF=" ++ [DQ]) (1 + 9 + Z.of_nat (length text) + 1)
            CB_phonebook_find_cb c (hdr_id h) (b "AT+CPBF=" ++ quoted text);
    submit_or_nomem cmd.

Definition rcv_pb_index (c : ctx) (h : gsmd_msg_hdr) (m : list Z) (text : list Z) (cb : atcmd_cb) : G Z :=
  if short m 4 then mret (- EINVAL)
  else
    index ← req32 m sizeof_hdr;
    submit_sprintf text (dec index) cb c (hdr_id h).

Definition rcv_pb_readrg (c : ctx) (h : gsmd_msg_hdr) (m : list Z) : G Z :=
  if short m 2 then mret (- EINVAL)
  else
    index1 ← req8 m sizeof_hdr;
    index2 ← req8 m (sizeof_hdr + 1);
    submit_sprintf (b "AT+CPBR=") (dec index1 ++ b "," ++ dec index2) CB_phonebook_readrg_cb c
      (hdr_id h).

Definition SIZEOF_PHONEBOOK : nat := 62.

Definition rcv_pb_write (c : ctx) (h : gsmd_msg_hdr) (m : list Z) : G Z :=
  if short m SIZEOF_PHONEBOOK then mret (- EINVAL)
  else
    index ← req8 m sizeof_hdr;
    numb ← req_str m (sizeof_hdr + 1);
    type ← req8 m (sizeof_hdr + 46);
    text ← req_str m (sizeof_hdr + 47);
    let buf := dec (s8 index) ++ b "," ++ quoted numb ++ b "," ++ dec type ++ b "," ++ quoted text in
    must (Z.of_nat (length buf) <? 1024) "sprintf beyond buf";;
    submit_sprintf (b "AT+CPBW=") buf CB_phonebook_write_cb c (hdr_id h).

Definition usock_rcv_phonebook (c : ctx) (h : gsmd_msg_hdr) (m : list Z) : G Z :=
  let st := h_msg_subtype h in
  if st =? GSMD_PHONEBOOK_LIST_STORAGE then
    cmd ← fill_const (b "AT+CPBS=?") CB_phonebook_list_storage_cb c (hdr_id h); submit_or_0 cmd
  else if st =? GSMD_PHONEBOOK_SET_STORAGE then rcv_pb_storage c h m
  else if st =? GSMD_PHONEBOOK_FIND then rcv_pb_find c h m
  else if st =? GSMD_PHONEBOOK_READ then rcv_pb_index c h m (b "AT+CPBR=") CB_phonebook_read_cb
  else if st =? GSMD_PHONEBOOK_READRG then rcv_pb_readrg c h m
  else if st =? GSMD_PHONEBOOK_WRITE then rcv_pb_write c h m
  else if st =? GSMD_PHONEBOOK_DELETE then rcv_pb_index c h m (b "AT+CPBW=") CB_phonebook_delete_cb
  else if st =? GSMD_PHONEBOOK_GET_SUPPORT then
    cmd ← fill_const (b "AT+CPBR=?") CB_phonebook_get_support_cb c (hdr_id h); submit_or_0 cmd
  else mret (- EINVAL).

(** ** The dispatch *)

Inductive umh : Type :=
  | H_passthrough | H_event | H_voicecall | H_pin | H_phone | H_network | H_sms | H_cb
  | H_phonebook | H_modem.

(** [pcmd_type_handlers]: entries without an initialiser are NULL. *)
Definition pcmd_type_handlers (msg_type : Z) : option umh :=
  if msg_type =? GSMD_MSG_PASSTHROUGH then Some H_passthrough
  else if msg_type =? GSMD_MSG_EVENT then Some H_event
  else if msg_type =? GSMD_MSG_VOICECALL then Some H_voicecall
  else if msg_type =? GSMD_MSG_PIN then Some H_pin
  else if msg_type =? GSMD_MSG_PHONE then Some H_phone
  else if msg_type =? GSMD_MSG_NETWORK then Some H_network
  else if msg_type =? GSMD_MSG_SMS then Some H_sms
  else if msg_type =? GSMD_MSG_CB then Some H_cb
  else if msg_type =? GSMD_MSG_PHONEBOOK then Some H_phonebook
  else if msg_type =? GSMD_MSG_MODEM then Some H_modem
  else None.

Definition run_umh (u : umh) (c : ctx) (h : gsmd_msg_hdr) (m : list Z) : G Z :=
  match u with
  | H_passthrough => usock_rcv_passthrough c h m
  | H_event => usock_rcv_event c h m
  | H_voicecall => usock_rcv_voicecall c h m
  | H_pin => usock_rcv_pin c h m
  | H_phone => usock_rcv_phone c h m
  | H_network => usock_rcv_network c h m
  | H_sms => usock_rcv_sms c h m
  | H_cb => usock_rcv_cb c h m
  | H_phonebook => usock_rcv_phonebook c h m
  | H_modem => usock_rcv_modem h
  end.

Definition usock_rcv_pcmd (c : ctx) (m : list Z) : G Z :=
  version ← req8 m 0;
  if negb (version =? GSMD_PROTO_VERSION) then mret (- EINVAL)
  else
    msg_type ← req8 m 1;
    if NUM_GSMD_MSGS <=? msg_type then mret (- EINVAL)
    else
      match pcmd_type_handlers msg_type with
      | None => mret (- EINVAL)
      | Some u => h ← deref (dec_hdr m) "incomplete header"; run_umh u c h m
      end.

(** ** The client's socket *)

(** The result of [read]: the end of the file, an error, or a message. *)
Inductive rcv : Type := RCV_eof | RCV_error | RCV_data (m : list Z).

Definition remove_user (r : Z) : G unit :=
  modify (λ s, set_users (filter (λ u, gu_ref u ≠ r) (users s)) s).

Definition user_read (r : Z) (rd : rcv) : G Z :=
  match rd with
  | RCV_eof => atcmd_terminate_matching (CtxUser r);; remove_user r;; mret 0
  | RCV_error => mret (-1)
  | RCV_data m => usock_rcv_pcmd (CtxUser r) m
  end.

(** The bytes of a message on the socket. *)
Definition wire (u : gsmd_ucmd) : mem :=
  enc_hdr (uc_hdr u) ++ take (Z.to_nat (h_len (uc_hdr u))) (uc_buf u).
Definition wire_len (u : gsmd_ucmd) : Z := Z.of_nat sizeof_hdr + h_len (uc_hdr u).

(** The loop over the finished messages, given the result of each [write]: what
    remains queued, the bytes written, and an error. *)
Fixpoint flush_loop (q : list gsmd_ucmd) (wr : list Z) (out : mem) : list gsmd_ucmd * mem * option Z :=
  match q with
  | [] => ([], out, None)
  | u :: q' =>
      let rc := default 0 (head wr) in
      if rc <? 0 then (q, out, Some rc)
      else if rc =? 0 then (q, out, None)
      else if negb (rc =? wire_len u) then (q, out ++ take (Z.to_nat rc) (wire u), None)
      else flush_loop q' (tail wr) (out ++ wire u)
  end.

Definition set_queue (q : list gsmd_ucmd) (gu : gsmd_user) : gsmd_user :=
  User (gu_ref gu) q (if is_empty q then false else gu_write gu) (gu_subscriptions gu).
Definition set_queue_only (q : list gsmd_ucmd) (gu : gsmd_user) : gsmd_user :=
  User (gu_ref gu) q (gu_write gu) (gu_subscriptions gu).

(** Returns the bytes written too. *)
Definition user_write (r : Z) (wr : list Z) : G (Z * mem) :=
  gu ← user_of (CtxUser r);
  match flush_loop (gu_finished_ucmds gu) wr [] with
  | (q, out, Some rc) =>
      modify (λ s, set_users (update_user r (set_queue_only q) (users s)) s);; mret (rc, out)
  | (q, out, None) =>
      modify (λ s, set_users (update_user r (set_queue q) (users s)) s);; mret (0, out)
  end.

(** A readable socket is read only, whatever else it is. *)
Definition gsmd_usock_user_cb (r : Z) (rd : option rcv) (wr : option (list Z)) : G (Z * mem) :=
  match rd, wr with
  | Some rd, _ => rc ← user_read r rd; mret (rc, [])
  | None, Some wr => user_write r wr
  | None, None => mret (0, [])
  end.

(** A connection: [accepted] is whether [accept] succeeds; when it fails the
    freed client is used. *)
Definition gsmd_usock_cb (accepted : bool) : G Z :=
  ok ← talloc;
  if ok : bool then
    must accepted "use of the client after talloc_free";;
    r ← fresh_ref;
    modify (λ s, set_users (User r [] false 4294967295 :: users s) s);;
    mret 0
  else mret (- ENOMEM).

(** ** The effects of a request

    Those of the handlers, and the cancelling of commands that hanging up does. *)

Class HandlerEffects (d : ctx) (R : gsmd → gsmd → Prop) : Prop := {
  h_eff :: Effects d R;
  h_cancel c : cmd_new d c → keeps R (cancel_atcmd c)
}.
#[export] Hint Extern 1 (HandlerEffects _ _) => typeclasses eauto : keeps.

Lemma keeps_cancel_atcmd `{!HandlerEffects d R} c : cmd_new d c → keeps R (cancel_atcmd c).
Proof. apply h_cancel. Qed.
Lemma keeps_fill_const `{!Effects d R} t cb c i : keeps R (fill_const t cb c i).
Proof. unfold fill_const. solve_keeps. Qed.
Lemma fill_const_new d t cb c i o : returns (fill_const t cb c i) o → ctx_in d c → opt_new d o.
Proof. unfold fill_const. eauto with keeps. Qed.
#[export] Hint Resolve keeps_cancel_atcmd keeps_fill_const fill_const_new : keeps.
Lemma keeps_submit_const `{!Effects d R} t cb c i : ctx_in d c → keeps R (submit_const t cb c i).
Proof. intros ?. unfold submit_const. solve_keeps. Qed.
Lemma keeps_submit_sprintf `{!Effects d R} t a cb c i : ctx_in d c → keeps R (submit_sprintf t a cb c i).
Proof. intros ?. unfold submit_sprintf. solve_keeps. Qed.
#[export] Hint Resolve keeps_submit_const keeps_submit_sprintf : keeps.

Lemma keeps_usock_rcv_passthrough `{!Effects d R} c h m : ctx_in d c → keeps R (usock_rcv_passthrough c h m).
Proof. intros ?. unfold usock_rcv_passthrough. solve_keeps. Qed.
Lemma keeps_usock_rcv_event `{!Effects d R} c h m : keeps R (usock_rcv_event c h m).
Proof. unfold usock_rcv_event. solve_keeps. apply keeps_modify. intros s. by apply eff_users. Qed.
Lemma keeps_rcv_dial `{!Effects d R} c h m : ctx_in d c → keeps R (rcv_dial c h m).
Proof. intros ?. unfold rcv_dial. solve_keeps. Qed.
Lemma keeps_rcv_hangup `{!HandlerEffects d R} c h : ctx_in d c → keeps R (rcv_hangup c h).
Proof.
  intros ?. unfold rcv_hangup. solve_keeps.
Qed.
Lemma keeps_rcv_dtmf `{!Effects d R} c h m : ctx_in d c → keeps R (rcv_dtmf c h m).
Proof. intros ?. unfold rcv_dtmf. solve_keeps. Qed.
Lemma keeps_rcv_ctrl `{!Effects d R} c h m : ctx_in d c → keeps R (rcv_ctrl c h m).
Proof. intros ?. unfold rcv_ctrl. solve_keeps. Qed.
Lemma keeps_rcv_forward `{!Effects d R} c h m t cb : ctx_in d c → keeps R (rcv_forward c h m t cb).
Proof. intros ?. unfold rcv_forward. solve_keeps. Qed.
Lemma keeps_rcv_fwd_reg `{!Effects d R} c h m : ctx_in d c → keeps R (rcv_fwd_reg c h m).
Proof. intros ?. unfold rcv_fwd_reg. solve_keeps. Qed.
#[export] Hint Resolve keeps_usock_rcv_passthrough keeps_usock_rcv_event keeps_rcv_dial keeps_rcv_hangup
  keeps_rcv_dtmf keeps_rcv_ctrl keeps_rcv_forward keeps_rcv_fwd_reg : keeps.
Lemma keeps_usock_rcv_voicecall `{!HandlerEffects d R} c h m : ctx_in d c →
  keeps R (usock_rcv_voicecall c h m).
Proof. intros ?. unfold usock_rcv_voicecall. solve_keeps. Qed.

Lemma keeps_pin_input `{!PreOrder R} m c : keeps R (pin_input m c).
Proof. unfold pin_input, req8, req32, req_str. solve_keeps. Qed.
Lemma pin_input_new d m c c' : returns (pin_input m c) c' → cmd_new d c → cmd_new d c'.
Proof.
  unfold pin_input. intros (t & _ & (p & _ & (c1 & H & <-%returns_mret)%returns_bind)%returns_bind)%returns_bind Hc.
  destruct (wants_newpin t); [apply returns_bind in H as (? & _ & <-%returns_mret) | apply returns_mret in H as <-]; done.
Qed.
#[export] Hint Resolve keeps_pin_input pin_input_new : keeps.
Lemma keeps_usock_rcv_pin `{!Effects d R} c h m : ctx_in d c → keeps R (usock_rcv_pin c h m).
Proof. intros ?. unfold usock_rcv_pin. solve_keeps. Qed.
Lemma keeps_usock_rcv_phone `{!Effects d R} c h m : ctx_in d c → keeps R (usock_rcv_phone c h m).
Proof. intros ?. unfold usock_rcv_phone. solve_keeps. Qed.
Lemma keeps_power_fn `{!Effects d R} m p n : power_fn m = Some p → keeps R (p n).
Proof. destruct m; intros [= <-]; unfold gta01_power, telit_power; solve_keeps. Qed.
#[export] Hint Resolve keeps_power_fn : keeps.
Lemma keeps_usock_rcv_modem `{!Effects d R} h : keeps R (usock_rcv_modem h).
Proof. unfold usock_rcv_modem. solve_keeps. Qed.
Lemma keeps_submit_buffer `{!Effects d R} t cb c : ctx_in d c → keeps R (submit_buffer t cb c).
Proof. intros ?. unfold submit_buffer. solve_keeps. Qed.
Lemma keeps_submit_two `{!Effects d R} t q cb c : ctx_in d c → keeps R (submit_two t q cb c).
Proof. intros ?. unfold submit_two. solve_keeps. Qed.
#[export] Hint Resolve keeps_usock_rcv_voicecall keeps_usock_rcv_pin keeps_usock_rcv_phone
  keeps_usock_rcv_modem keeps_submit_buffer keeps_submit_two : keeps.
Lemma keeps_usock_rcv_network `{!Effects d R} c h m : ctx_in d c → keeps R (usock_rcv_network c h m).
Proof. intros ?. unfold usock_rcv_network, rcv_register, rcv_vmail_set. solve_keeps. Qed.
Lemma keeps_submit_or_0 `{!Effects d R} c : opt_new d c → keeps R (submit_or_0 c).
Proof. intros ?. unfold submit_or_0. solve_keeps. Qed.
#[export] Hint Resolve keeps_usock_rcv_network keeps_submit_or_0 : keeps.
Lemma keeps_usock_rcv_phonebook `{!Effects d R} c h m : ctx_in d c → keeps R (usock_rcv_phonebook c h m).
Proof.
  intros ?. unfold usock_rcv_phonebook, rcv_pb_storage, rcv_pb_find, rcv_pb_index, rcv_pb_readrg,
    rcv_pb_write. solve_keeps.
Qed.
#[export] Hint Resolve keeps_usock_rcv_phonebook : keeps.
Lemma keeps_usock_rcv_pcmd `{!HandlerEffects d R} c m : ctx_in d c → keeps R (usock_rcv_pcmd c m).
Proof. intros ?. unfold usock_rcv_pcmd, run_umh. solve_keeps. Qed.
#[export] Hint Resolve keeps_usock_rcv_pcmd : keeps.
