(* ===== verification/Requests.v ===== *)
(** * What becomes of a request (usock.c, sms_cb.c)

    Requests that are refused, the commands that others queue, and the replies on
    the client's socket. *)

From S2P Require Import Prelude CString Enums Wire LLParse Pdu Timers State Queue Events OpCache.
From S2P Require Import SmsCb Unsolicited Vendor UsockCb Main AtCmd Usock.

(** ** The dispatch *)

Lemma dec_hdr_bytes m h : dec_hdr m = Some h →
  rd8 m 0 = Some (h_version h) ∧ rd8 m 1 = Some (h_msg_type h) ∧ (sizeof_hdr ≤ length m)%nat.
Proof.
  unfold dec_hdr. intros (v & Hv & (t & Ht & (st & _ & (p & _ & (i & _ & (n & Hn & [= <-])%bind_Some)
    %bind_Some)%bind_Some)%bind_Some)%bind_Some)%bind_Some.
  split_and!; try done. unfold rd16 in Hn. unfold sizeof_hdr.
  assert (length (drop 6 m) = (length m - 6)%nat) as E by apply length_drop.
  destruct (drop 6 m) as [|b0 [|b1 l]]; [done..|]. cbn [length] in E. lia.
Qed.

Lemma pcmd_handler m h c u s : dec_hdr m = Some h → h_version h = GSMD_PROTO_VERSION →
  pcmd_type_handlers (h_msg_type h) = Some u → usock_rcv_pcmd c m s = run_umh u c h m s.
Proof.
  intros Hh Hv Hu. destruct (dec_hdr_bytes m h Hh) as (H0 & H1 & _). unfold usock_rcv_pcmd, req8.
  rewrite H0, Hv. run. rewrite Z.eqb_refl. cbn [negb]. rewrite H1. run. destruct (Z.leb_spec NUM_GSMD_MSGS (h_msg_type h)) as [Hle|_].
  - unfold pcmd_type_handlers in Hu. unfold NUM_GSMD_MSGS in Hle.
    repeat match type of Hu with (if ?a =? ?k then _ else _) = _ => destruct (Z.eqb_spec a k) as [E|_];
      [exfalso; rewrite E in Hle; by apply Hle|] end. done.
  - rewrite Hu, Hh. by run.
Qed.

(** The types and subtypes that are implemented. *)
Definition subtypes (msg_type : Z) : option (list Z) :=
  if msg_type =? GSMD_MSG_EVENT then Some [GSMD_EVT_SUBSCRIPTIONS]
  else if msg_type =? GSMD_MSG_VOICECALL then
    Some [GSMD_VOICECALL_DIAL; GSMD_VOICECALL_HANGUP; GSMD_VOICECALL_ANSWER; GSMD_VOICECALL_DTMF;
          GSMD_VOICECALL_GET_STAT; GSMD_VOICECALL_CTRL; GSMD_VOICECALL_FWD_DIS; GSMD_VOICECALL_FWD_EN;
          GSMD_VOICECALL_FWD_STAT; GSMD_VOICECALL_FWD_REG; GSMD_VOICECALL_FWD_ERAS]
  else if msg_type =? GSMD_MSG_PIN then Some [GSMD_PIN_INPUT; GSMD_PIN_GET_STATUS]
  else if msg_type =? GSMD_MSG_PHONE then Some [1; 2; 3; 4; 5; 6; 7; 8; 9; 10; 11]
  else if msg_type =? GSMD_MSG_NETWORK then Some [1; 2; 3; 4; 5; 6; 7; 9; 10; 11; 12; 13; 14; 15]
  else if msg_type =? GSMD_MSG_SMS then Some [1; 2; 3; 4; 5; 6; 7; 8; 9]
  else if msg_type =? GSMD_MSG_CB then Some [GSMD_CB_SUBSCRIBE; GSMD_CB_UNSUBSCRIBE]
  else if msg_type =? GSMD_MSG_PHONEBOOK then Some [1; 2; 3; 4; 5; 6; 7; 8]
  else None.

Definition implemented (h : gsmd_msg_hdr) : bool :=
  (h_version h =? GSMD_PROTO_VERSION) &&
  ((h_msg_type h =? GSMD_MSG_PASSTHROUGH) || (h_msg_type h =? GSMD_MSG_MODEM) ||
   match subtypes (h_msg_type h) with
   | Some l => existsb (Z.eqb (h_msg_subtype h)) l
   | None => false
   end).

Lemma not_implemented_refused u c h m : 
  pcmd_type_handlers (h_msg_type h) = Some u → 
  h_msg_type h ≠ GSMD_MSG_PASSTHROUGH → h_msg_type h ≠ GSMD_MSG_MODEM →
  match subtypes (h_msg_type h) with Some l => existsb (Z.eqb (h_msg_subtype h)) l | None => false end = false →
  ∀ s, ∃ e, e < 0 ∧ run_umh u c h m s = Ret e s.
Proof.
  unfold pcmd_type_handlers. intros Hu Hp Hm Hs s. revert Hu.
  repeat match goal with |- (if ?a =? ?k then _ else _) = _ → _ => destruct (Z.eqb_spec a k) as [E|_] end;
    intros [= <-]; try done; rewrite E in Hs; revert Hs; cbn [subtypes]; 
    match goal with |- context [subtypes ?k] => let r := eval vm_compute in (subtypes k) in change (subtypes k) with r end;
    cbn [existsb]; rewrite !orb_false_iff; intros Hs; destruct_and!;
    cbn [run_umh];
    unfold usock_rcv_event, usock_rcv_voicecall, usock_rcv_pin, usock_rcv_phone, usock_rcv_network,
      usock_rcv_sms, usock_rcv_cb, usock_rcv_phonebook; cbv zeta.
  1: { destruct (short m 4); [by exists (- EINVAL)|].
       assert ((h_msg_subtype h =? GSMD_EVT_SUBSCRIPTIONS) = false) as -> by assumption. by exists (- EINVAL). }
  all: repeat match goal with |- context [if ?a =? ?k then _ else _] =>
    replace (a =? k) with false by (symmetry; assumption) end; eexists; (split; [|reflexivity]); done.
Qed.

(** [C40] A request of another protocol version, of an unknown type, or of a subtype
    that is not implemented, is refused with an error and changes nothing. *)
Theorem bad_request_unchanged c m h s : dec_hdr m = Some h → implemented h = false →
  ∃ e, e < 0 ∧ usock_rcv_pcmd c m s = Ret e s.
Proof.
  intros Hh Hi. destruct (dec_hdr_bytes m h Hh) as (H0 & H1 & _). unfold implemented in Hi.
  destruct (Z.eqb_spec (h_version h) GSMD_PROTO_VERSION) as [Ev|Ev]; cbn [andb] in Hi.
  - destruct (pcmd_type_handlers (h_msg_type h)) as [u|] eqn:Hu.
    + rewrite (pcmd_handler m h c u s Hh Ev Hu). apply orb_false_iff in Hi as [[Hp Hm]%orb_false_iff Hi].
      apply not_implemented_refused; [done|by apply Z.eqb_neq..|done].
    + exists (- EINVAL). split; [done|]. unfold usock_rcv_pcmd, req8. rewrite H0, Ev. run. rewrite Z.eqb_refl.
      cbn [negb]. rewrite H1. run. rewrite Hu. by destruct (_ <=? _).
  - exists (- EINVAL). split; [done|]. unfold usock_rcv_pcmd, req8. rewrite H0. run.
    by destruct (Z.eqb_spec (h_version h) GSMD_PROTO_VERSION).
Qed.

(** ** Requests that queue a command *)

Lemma until0_bytes l : Forall is_byte l → cstring (until0 l).
Proof.
  intros Hl. pose proof (until0_no_nul l) as Hn. unfold cstring.
  assert (Forall is_byte (until0 l)) as Hb.
  { clear Hn. induction Hl as [|c l Hc Hl IH]; [constructor|]. cbn [until0]. destruct (c =? 0); by constructor. }
  rewrite Forall_forall in *. intros c Hc. specialize (Hb c Hc). specialize (Hn c Hc). unfold is_byte in Hb. cbn in Hn. lia.
Qed.

Lemma length_until0 l : (length (until0 l) ≤ length l)%nat.
Proof. induction l as [|c l IH]; [done|]. cbn [until0]. destruct (c =? 0); cbn [length]; lia. Qed.

(** The state after a command is queued: it may wake the queue up. *)
Definition queued (cmd : gsmd_atcmd) (s : gsmd) : gsmd :=
  set_uart_write (uart_write s || is_empty (busy_atcmds s))
    (set_pending_atcmds (pending_atcmds s ++ [cmd]) (set_next_ref (next_ref s + 1) s)).

Lemma fill_sprintf_run text0 rlen cb c id text s : oracle s = [] →
  (length text0 < Z.to_nat rlen)%nat → (length text < Z.to_nat rlen)%nat → 
  ∃ cmd, fill_sprintf text0 rlen cb c id text s = Ret (Some cmd) (set_next_ref (next_ref s + 1) s) ∧
    ac_buf cmd = text ++ 0 :: drop (S (length text)) (text0 ++ replicate (Z.to_nat rlen - length text0) 0) ∧
    ac_ref cmd = next_ref s ∧ ac_ctx cmd = c ∧ ac_cb cmd = Some cb ∧ ac_cur cmd = 0%nat ∧ ac_buflen cmd = rlen.
Proof.
  intros Ho H0 H1. unfold fill_sprintf. rewrite (bind_step _ _ _ _ _ (atcmd_fill_run text0 rlen (Some cb) c id None s Ho ltac:(lia))).
  unfold sprintf_buf. cbn [ac_buf filled]. rewrite length_app, length_replicate.
  destruct (Nat.ltb_spec (length text) (length text0 + (Z.to_nat rlen - length text0))); [|lia]. run.
  eexists. split; [reflexivity|]. by split_and!.
Qed.

Lemma dial_number_cstring m : Forall is_byte m → cstring (dial_number m) ∧ (length (dial_number m) ≤ GSMD_ADDR_MAXLEN)%nat.
Proof.
  intros Hm. split; [by apply until0_bytes, Forall_take, Forall_drop|]. unfold dial_number.
  etrans; [apply length_until0|]. rewrite length_take. lia.
Qed.

(** A request to dial queues one command, behind all others: ATD, the number of the
    request as far as its terminator - at most 32 characters - and a semicolon; the
    response will go to the client. *)
Theorem dial_queued c m h pl s :
  dec_hdr m = Some h → h_version h = GSMD_PROTO_VERSION → h_msg_type h = GSMD_MSG_VOICECALL →
  h_msg_subtype h = GSMD_VOICECALL_DIAL → (sizeof_hdr + sizeof_addr ≤ length m)%nat → Forall is_byte m →
  machinepl s = Some pl → has_ex_submit pl = false → oracle s = [] →
  ∃ cmd, usock_rcv_pcmd c m s = Ret 0 (queued cmd s) ∧
    ac_text cmd = b "ATD" ++ until0 (take GSMD_ADDR_MAXLEN (drop (sizeof_hdr + 1) m)) ++ b ";" ∧
    ac_ctx cmd = c ∧ ac_cb cmd = Some CB_usock_cmd_cb ∧ ac_cur cmd = 0%nat.
Proof.
  intros Hh Hv Ht Hst Hl Hm Hpl Hx Ho. rewrite (pcmd_handler m h c H_voicecall s Hh Hv) by (by rewrite Ht).
  cbn [run_umh]. unfold usock_rcv_voicecall. rewrite Hst. cbn [Z.eqb GSMD_VOICECALL_DIAL Pos.eqb].
  destruct (dial_number_cstring m Hm) as [Hc Hn]. unfold rcv_dial, short. cbv zeta.
  destruct (Nat.ltb_spec (length m) (sizeof_hdr + sizeof_addr)); [lia|].
  change (until0 (take _ _)) with (dial_number m). set (n := dial_number m) in *.
  edestruct (fill_sprintf_run (b "ATD") (5 + Z.of_nat (length n)) CB_usock_cmd_cb c (hdr_id h)
    (b "ATD" ++ n ++ b ";") s Ho) as (cmd & E & Eb & _ & Ec & Ecb & Ecur & _).
  { cbn [length b]. change (length (b "ATD")) with 3%nat. lia. }
  { rewrite !length_app. change (length (b "ATD")) with 3%nat. change (length (b ";")) with 1%nat. lia. }
  exists cmd. rewrite (bind_step _ _ _ _ _ E). cbn [submit_or_nomem].
  rewrite (atcmd_submit_run cmd pl) by done. split_and!; try done.
  unfold ac_text. rewrite Eb. apply until0_cstring. apply cstring_app; split; [by repeat constructor|].
  apply cstring_app; split; [done|by repeat constructor].
Qed.

(** ** Sending a short message *)

Lemma submit_len_ok gss : submit_ok gss →
  sms_pdu_make_smssubmit_len gss = Some (Z.of_nat (length (submit_header gss ++ submit_data gss))).
Proof.
  intros Hs. unfold sms_pdu_make_smssubmit_len.
  rewrite (proj2 (Nat.leb_le _ _)) by (apply length_submit_header, Hs). f_equal.
  rewrite length_app, Nat2Z.inj_add. destruct (submit_data_length gss Hs) as [_ ->]. done.
Qed.

Lemma length_hex l : length (l ≫= hex2) = (2 * length l)%nat.
Proof. induction l as [|c l IH]; [done|]. cbn [mbind list_bind]. rewrite length_app, IH. cbn [length hex2]. lia. Qed.

Lemma length_dec n : 0 ≤ n < 1000 → (length (dec n) ≤ 3)%nat.
Proof.
  intros Hn. assert (forallb (λ k, (length (dec (Z.of_nat k)) <=? 3)%nat) (seq 0 1000) = true) as H
    by (vm_compute; reflexivity).
  rewrite forallb_forall in H. specialize (H (Z.to_nat n)). rewrite Z2Nat.id in H by lia.
  apply Nat.leb_le, H, in_seq. lia.
Qed.

(** A request to send a message queues one command, which announces the length of
    the PDU without its first octet and holds, after a newline, the PDU in
    hexadecimal and Ctrl-Z; that PDU decodes to the number, coding scheme, length and
    data of the request. *)
Lemma sms_send_run c m h gss pl s :
  dec_hdr m = Some h → h_version h = GSMD_PROTO_VERSION → h_msg_type h = GSMD_MSG_SMS →
  h_msg_subtype h = GSMD_SMS_SEND → (sizeof_hdr + sizeof_sms_submit ≤ length m)%nat →
  dec_sms_submit (drop sizeof_hdr m) = Some gss → submit_ok gss →
  flag_sms_text s = false → machinepl s = Some pl → has_ex_submit pl = false → oracle s = [] →
  ∃ cmd octets, usock_rcv_pcmd c m s = Ret 0 (queued cmd s) ∧
    ac_buf cmd = b "AT+CMGS=" ++ dec (Z.of_nat (length octets) - 1) ++ [LF] ++ (octets ≫= hex2) ++ [CTRL_Z] ++ [0] ∧
    ac_ctx cmd = c ∧ ac_cb cmd = Some CB_sms_send_cb ∧ ac_cur cmd = 0%nat ∧
    ∀ dst, dst_ok dst → sms_pdu_to_msg dst octets (Z.of_nat (length octets) - 1) (Z.of_nat (length octets)) =
      Ok (submit_msg dst gss).
Proof.
  intros Hh Hv Ht Hst Hl Hd Hs Hf Hpl Hx Ho. rewrite (pcmd_handler m h c H_sms s Hh Hv) by (by rewrite Ht).
  cbn [run_umh]. unfold usock_rcv_sms. rewrite Hst. cbn [Z.eqb GSMD_SMS_SEND GSMD_SMS_LIST GSMD_SMS_READ Pos.eqb].
  cbv zeta. destruct (Nat.ltb_spec (length m) (sizeof_hdr + sizeof_sms_submit)); [lia|].
  set (octets := submit_header gss ++ submit_data gss).
  destruct (submit_decodes sms_list_undef gss Hs sms_list_undef_ok) as [Hlen _]. fold octets in Hlen.
  set (text := b "AT+CMGS=" ++ dec (Z.of_nat (length octets) - 1) ++ [] ++ [LF] ++ (octets ≫= hex2)).
  assert (send_text m sizeof_hdr (b "AT+CMGS=") [] s = Ret text s) as Et.
  { unfold send_text. run. rewrite Hf. unfold req_submit. rewrite Hd. run.
    rewrite (submit_len_ok gss Hs). run. unfold sms_pdu_make_smssubmit. rewrite (smssubmit_octets_ok gss Hs).
    cbn [mbind option_bind]. by run. }
  assert (Z.of_nat (length text) + 2 ≤ 1024) as Htext.
  { pose proof (length_dec (Z.of_nat (length octets) - 1) ltac:(lia)). unfold text. rewrite !length_app, length_hex.
    cbn [length]. change (length (b "AT+CMGS=")) with 8%nat. lia. }
  rewrite (bind_step _ _ _ _ _ Et). unfold fill_message. destruct (Z.leb_spec (Z.of_nat (length text) + 2) 1024); [|lia].
  run. pose proof (atcmd_fill_run (text ++ [CTRL_Z]) (Z.of_nat (length text) + 2) (Some CB_sms_send_cb) c (default 0 (h_id h))
    None s Ho ltac:(rewrite length_app; cbn [length]; lia)) as E.
  eexists _, octets. rewrite (bind_step _ _ _ _ _ E). cbn [submit_or_nomem].
  rewrite (atcmd_submit_run _ pl) by done. split; [reflexivity|]. split_and!; try done.
  - cbn [ac_buf filled]. rewrite length_app. cbn [length].
    replace (Z.to_nat (Z.of_nat (length text) + 2) - (length text + 1))%nat with 1%nat by lia.
    unfold text. by rewrite <- !app_assoc.
  - intros dst Hdst. by apply submit_decodes.
Qed.

(** ** Replies *)

(** How many messages are accepted whole. *)
Fixpoint whole (q : list gsmd_ucmd) (wr : list Z) : nat :=
  match q, wr with
  | u :: q', rc :: wr' => if rc =? wire_len u then S (whole q' wr') else 0
  | _, _ => 0
  end.

(** What the [write] of the next message makes of it. *)
Definition partial (q : list gsmd_ucmd) (rc : Z) : mem * option Z :=
  match q with
  | [] => ([], None)
  | u :: _ => if rc <? 0 then ([], Some rc) else (take (Z.to_nat rc) (wire u), None)
  end.

Lemma flush_loop_run q : ∀ wr out, Forall (λ u, 0 ≤ h_len (uc_hdr u)) q →
  let k := whole q wr in
  let '(bytes, err) := partial (drop k q) (default 0 (wr !! k)) in
  flush_loop q wr out = (drop k q, out ++ concat (wire <$> take k q) ++ bytes, err).
Proof.
  induction q as [|u q IH]; intros wr out; cbn [whole].
  { intros _. cbn. by rewrite app_nil_r. }
  intros [Hu Hq]%Forall_cons. assert (0 < wire_len u) by (unfold wire_len, sizeof_hdr; lia).
  cbn [flush_loop]. destruct wr as [|rc wr]; cbn [head default]; unfold id.
  - cbn. by rewrite app_nil_r.
  - destruct (Z.eqb_spec rc (wire_len u)) as [->|Hne].
    + destruct (Z.ltb_spec (wire_len u) 0); [lia|]. destruct (Z.eqb_spec (wire_len u) 0); [lia|].
      cbn [negb tail]. specialize (IH wr (out ++ wire u) Hq). cbv zeta in IH |- *. cbn [drop take fmap list_fmap concat].
      change ((wire_len u :: wr) !! S (whole q wr)) with (wr !! whole q wr).
      destruct (partial _ _) as [bytes err]. rewrite IH. by rewrite <- !app_assoc.
    + cbn [drop take]. cbv zeta. cbn [partial]. change ((rc :: wr) !! 0%nat) with (Some rc). cbn [default].
      unfold partial, id. cbn [fmap list_fmap concat app]. destruct (Z.ltb_spec rc 0); [by rewrite ?app_nil_r|].
      destruct (Z.eqb_spec rc 0) as [->|]; cbn [negb take Z.to_nat]; [by rewrite ?app_nil_r|].
      by destruct (Z.eqb_spec rc (wire_len u)).
Qed.

(** [C37] Replies reach a client whole and in the order they were queued: what goes to
    its socket is the messages that were accepted in full, then a part of at most one
    more. That one stays at the head of the queue with all of its bytes, so that it
    is sent again from its beginning; and the socket is polled as long as the queue
    is not empty. *)
Theorem user_write_spec r gu wr s :
  find_user r (users s) = Some gu →
  Forall (λ u, 0 ≤ h_len (uc_hdr u)) (gu_finished_ucmds gu) →
  let q := gu_finished_ucmds gu in
  let k := whole q wr in
  let '(bytes, err) := partial (drop k q) (default 0 (wr !! k)) in
  ∃ s', user_write r wr s = Ret (default 0 err, concat (wire <$> take k q) ++ bytes) s' ∧
    s' = set_users (update_user r
           (λ gu', User (gu_ref gu') (drop k q)
              (if is_empty (drop k q) then false else gu_write gu') (gu_subscriptions gu')) (users s)) s.
Proof.
  intros Hu Hq q k. pose proof (flush_loop_run q wr [] Hq) as H. fold k in H. cbv zeta in H.
  destruct (partial (drop k q) (default 0 (wr !! k))) as [bytes err] eqn:Hp.
  eexists. split; [|reflexivity]. unfold user_write, user_of. run. rewrite Hu. run. fold q. rewrite H.
  destruct err as [rc|]; run; [|done]. f_equal.
  unfold set_queue_only. assert (is_empty (drop k q) = false) as ->; [|done].
  revert Hp. unfold partial. by destruct (drop k q).
Qed.

(** ** Examples *)

Module Examples.

Definition header (type subtype : Z) : list Z := [GSMD_PROTO_VERSION; type; subtype; 0; 9; 0; 0; 0].
Definition pad (n : nat) (l : list Z) : list Z := l ++ replicate (n - length l) 0.

(** A daemon with a client and nothing to do. *)
Definition st (us : list gsmd_user) : gsmd :=
  Gsmd 0 true false (LLP LLPARSE_STATE_IDLE LGSM_ATCMD_F_EXTENDED []) us [] []
    (Some machine_generic) (Some vendor_ti) (DevState 0 0 0 false false None) [] [] false 0 false false []
    [] None (TV 100 0) [] 10 [] [].

Lemma bad_request_unchanged_witness : ∃ e, e < 0 ∧
  usock_rcv_pcmd (CtxUser 5) (header GSMD_MSG_VOICECALL GSMD_VOICECALL_VOL_SET) (st []) = Ret e (st []).
Proof.
  apply (bad_request_unchanged (CtxUser 5) _ (Hdr 1 GSMD_MSG_VOICECALL GSMD_VOICECALL_VOL_SET (Some 0) (Some 9) 0));
    reflexivity.
Defined.

Definition dial : list Z := header GSMD_MSG_VOICECALL GSMD_VOICECALL_DIAL ++ 145 :: pad 33 (b "+4917").

Lemma dial_bytes : Forall is_byte dial.
Proof.
  apply Forall_forall. intros c Hc%list_elem_of_In.
  assert (forallb (λ c, (0 <=? c) && (c <? 256)) dial = true) as H by (vm_compute; reflexivity).
  rewrite forallb_forall in H. specialize (H c Hc). apply andb_true_iff in H as [H1%Z.leb_le H2%Z.ltb_lt]. by split.
Qed.

Lemma dial_queued_witness : ∃ cmd, usock_rcv_pcmd (CtxUser 5) dial (st []) = Ret 0 (queued cmd (st [])) ∧
  ac_text cmd = b "ATD+4917;".
Proof.
  destruct (dial_queued (CtxUser 5) dial (Hdr 1 GSMD_MSG_VOICECALL GSMD_VOICECALL_DIAL (Some 0) (Some 9) 0)
    machine_generic (st []) eq_refl eq_refl eq_refl eq_refl ltac:(apply Nat.leb_le; reflexivity) dial_bytes
    eq_refl eq_refl eq_refl) as (cmd & H1 & H2 & _).
  exists cmd. split; [exact H1|exact H2].
Defined.

Definition message : gsmd_sms_submit :=
  Submit 145 (b "4917") 3 ALPHABET_8BIT 0 (b "Hi!" ++ replicate 168 0) 0.
Definition submit_body : list Z :=
  145 :: pad 33 (b "4917") ++ [3; ALPHABET_8BIT] ++ replicate 37 0 ++ b "Hi!" ++ replicate 168 0.
Definition send : list Z := header GSMD_MSG_SMS GSMD_SMS_SEND ++ submit_body.

Lemma message_ok : submit_ok message.
Proof.
  split.
  - by repeat constructor.
  - apply Nat.leb_le. reflexivity.
  - discriminate.
  - right. by left.
  - reflexivity.
  - discriminate.
  - discriminate.
Qed.

Lemma sms_send_example : ∃ cmd octets,
  usock_rcv_pcmd (CtxUser 5) send (st []) = Ret 0 (queued cmd (st [])) ∧
  ac_buf cmd = b "AT+CMGS=" ++ dec (Z.of_nat (length octets) - 1) ++ [LF] ++ (octets ≫= hex2) ++ [CTRL_Z] ++ [0].
Proof.
  destruct (sms_send_run (CtxUser 5) send (Hdr 1 GSMD_MSG_SMS GSMD_SMS_SEND (Some 0) (Some 9) 0) message
    machine_generic (st []) eq_refl eq_refl eq_refl eq_refl ltac:(apply Nat.leb_le; reflexivity)
    ltac:(vm_compute; reflexivity) message_ok eq_refl eq_refl eq_refl eq_refl) as (cmd & octets & H1 & H2 & _).
  exists cmd, octets. split; [exact H1|exact H2].
Defined.

Definition reply (n : Z) : gsmd_ucmd := Ucmd (Hdr 1 GSMD_MSG_PASSTHROUGH 2 None (Some n) 3) (cstr (b "OK")).

Lemma user_write_spec_witness : ∃ s',
  user_write 5 [11; 4] (st [User 5 [reply 1; reply 2; reply 3] true 0]) =
    Ret (0, wire (reply 1) ++ take 4 (wire (reply 2))) s' ∧
  users s' = [User 5 [reply 2; reply 3] true 0].
Proof.
  destruct (user_write_spec 5 (User 5 [reply 1; reply 2; reply 3] true 0) [11; 4]
    (st [User 5 [reply 1; reply 2; reply 3] true 0]) eq_refl ltac:(repeat constructor; discriminate))
    as (s' & H1 & H2).
  exists s'. split; [exact H1|]. rewrite H2. reflexivity.
Defined.
End Examples.
