(* ===== verification/Codes.v ===== *)
(** * Unsolicited result codes, end to end (unsolicited.c, sms_cb.c, the vendor plugins)

    The table that the daemon looks lines up in once it is set up: whose parser each
    result code reaches. *)

From S2P Require Import Prelude CString Enums Wire LLParse Timers State Queue Events OpCache.
From S2P Require Import SmsCb Unsolicited Vendor UsockCb Main AtCmd Engine.

(** The table after the start and the first set-up of the modem. *)
Definition codes (v : vendor) : list (list Z * unsol_parser) :=
  gsm0705_unsolicit ++ vendor_unsolicit v ++ gsm0707_unsolicit.

(** The entry of exactly that name which was registered last. *)
Fixpoint exact_parser (tbl : list (list Z * unsol_parser)) (name : list Z) : option unsol_parser :=
  match tbl with
  | [] => None
  | (n, p) :: tbl' => if bool_decide (n = name) then Some p else exact_parser tbl' name
  end.

(** The first entry whose name begins another name. *)
Fixpoint first_prefix (tbl : list (list Z * unsol_parser)) (name : list Z) : option unsol_parser :=
  match tbl with
  | [] => None
  | (n, p) :: tbl' => if bool_decide (take (length n) name = n) then Some p else first_prefix tbl' name
  end.

(** A result code's own colon keeps it from being taken for a longer one. *)
Lemma strn_eq_colon p n rest : cstring p → ch ":" ∉ p →
  strn_eq (length p) (n ++ [ch ":"] ++ rest) p = bool_decide (take (length p) n = p).
Proof.
  intros Hp Hc. apply eq_bool_prop_intro. rewrite !Is_true_true, strn_eq_prefix, bool_decide_eq_true by done. split.
  - intros [y E]. destruct (le_lt_dec (length p) (length n)) as [Hle|Hlt].
    + assert (take (length p) (n ++ [ch ":"] ++ rest) = take (length p) (p ++ y)) as E' by (by rewrite E).
      rewrite take_app_le, take_app_length in E' by done. done.
    + exfalso. apply Hc. apply (list_elem_of_lookup_2 _ (length n)).
      assert ((n ++ [ch ":"] ++ rest) !! length n = (p ++ y) !! length n) as E' by (by rewrite E).
      rewrite lookup_app_r, Nat.sub_diag, (lookup_app_l p y) in E' by lia. by rewrite <- E'.
  - intros E. exists (drop (length p) n ++ [ch ":"] ++ rest). rewrite (app_assoc p). rewrite <- E at 1. by rewrite take_drop.
Qed.

Definition names_ok (tbl : list (list Z * unsol_parser)) : Prop :=
  Forall (λ e, cstring (fst e) ∧ ch ":" ∉ fst e) tbl.

Lemma find_first_prefix tbl n rest : names_ok tbl →
  find_parser tbl (n ++ [ch ":"] ++ rest) = first_prefix tbl n.
Proof.
  induction 1 as [|[name p] tbl [Hc Hn] _ IH]; [done|]. cbn [find_parser first_prefix fst] in *.
  rewrite strn_eq_colon by done. by case_bool_decide.
Qed.

(** Both conditions are decidable, and hold of the five tables. *)
Definition name_ok (l : list Z) : bool := forallb (λ c, (0 <? c) && (c <? 256) && negb (c =? ch ":")) l.
Definition same_parser (x y : option unsol_parser) : bool := bool_decide (x = y) && bool_decide (is_Some y).

Lemma name_ok_spec l : name_ok l = true → cstring l ∧ ch ":" ∉ l.
Proof.
  unfold name_ok, cstring. rewrite forallb_forall. intros H. split.
  - apply Forall_forall. intros c Hc%list_elem_of_In. specialize (H c Hc).
    apply andb_true_iff in H as [[H1 H2]%andb_true_iff _]. apply Z.ltb_lt in H1, H2. lia.
  - intros Hc%list_elem_of_In. specialize (H _ Hc). by rewrite andb_false_r in H.
Qed.

Lemma codes_checked v :
  forallb (λ e, name_ok (fst e) &&
    same_parser (first_prefix (codes v) (fst e)) (exact_parser (codes v) (fst e))) (codes v) = true.
Proof. destruct v; vm_compute; reflexivity. Qed.

Lemma register_run arr s : (length arr + length (unsolicit s) < 256)%nat →
  unsolicited_register_array arr s = Ret 0 (set_unsolicit (arr ++ unsolicit s) s).
Proof.
  intros Hl. unfold unsolicited_register_array. run.
  destruct (Z.ltb_spec UNSOLICIT_SIZE (Z.of_nat (length arr) + (Z.of_nat (length (unsolicit s)) + 1)));
    [unfold UNSOLICIT_SIZE in *; lia|done].
Qed.

Lemma codes_registered v s : vendorpl s = Some v → unsolicit s = [] →
  (unsolicited_init;; unsolicited_register_array gsm0705_unsolicit) s = Ret 0 (set_unsolicit (codes v) s).
Proof.
  intros Hv Hu. unfold unsolicited_init. run.
  rewrite (bind_step _ _ _ _ _ (register_run gsm0707_unsolicit s ltac:(rewrite Hu; apply Nat.ltb_lt; reflexivity))).
  run. cbn [set_unsolicit vendorpl]. rewrite Hv. run.
  rewrite (bind_step _ _ _ _ _ (register_run (vendor_unsolicit v) (set_unsolicit (gsm0707_unsolicit ++ unsolicit s) s)
    ltac:(cbn [set_unsolicit unsolicit]; rewrite Hu; destruct v; apply Nat.ltb_lt; reflexivity))). run.
  rewrite register_run; [|cbn [set_unsolicit unsolicit]; rewrite Hu; destruct v; apply Nat.ltb_lt; reflexivity].
  cbn [set_unsolicit unsolicit]. rewrite Hu, app_nil_r. done.
Qed.

Lemma codes_exact v name p rest : (name, p) ∈ codes v →
  find_parser (codes v) (name ++ [ch ":"] ++ rest) = exact_parser (codes v) name ∧
  is_Some (exact_parser (codes v) name).
Proof.
  intros H. pose proof (codes_checked v) as Hc. rewrite forallb_forall in Hc.
  rewrite find_first_prefix.
  - specialize (Hc (name, p) ltac:(by apply list_elem_of_In)). apply andb_true_iff in Hc as [_ Hc].
    unfold same_parser in Hc. by apply andb_true_iff in Hc as [?%bool_decide_eq_true ?%bool_decide_eq_true].
  - apply Forall_forall. intros e He%list_elem_of_In. specialize (Hc e He).
    apply andb_true_iff in Hc as [Hc _]. by apply name_ok_spec.
Qed.

(** Every unsolicited result code reaches its own parser: once the tables of the
    daemon, of any vendor plugin and of the short messages are registered, a line
    made of the name of an entry, a colon and any text is given to the parser that
    was registered last under exactly that name, although some names begin others
    (+CMT and +CMTI). *)
Theorem dispatch_exact v name p rest s :
  vendorpl s = Some v → unsolicit s = [] → (name, p) ∈ codes v →
  ∃ s' q, (unsolicited_init;; unsolicited_register_array gsm0705_unsolicit) s = Ret 0 s' ∧
    find_parser (unsolicit s') (name ++ [ch ":"] ++ rest) = Some q ∧
    exact_parser (codes v) name = Some q.
Proof.
  intros Hv Hu H. destruct (codes_exact v name p rest H) as [E [q Hq]].
  exists (set_unsolicit (codes v) s), q. split_and!; [by apply codes_registered|by rewrite <- Hq, <- E|done].
Qed.

Lemma dispatch_exact_witness :
  let s := Gsmd 0 true false (LLP LLPARSE_STATE_IDLE 1 []) [] [] [] None (Some vendor_ti)
    (DevState 0 0 0 false false None) [] [] false 0 false false [] [] None (TV 0 0) [] 1 [] [] in
  ∃ s', (unsolicited_init;; unsolicited_register_array gsm0705_unsolicit) s = Ret 0 s' ∧
    find_parser (unsolicit s') (b "+CMTI" ++ [ch ":"] ++ b " 1") = Some P_cmti_parse.
Proof.
  intros s. destruct (dispatch_exact vendor_ti (b "+CMTI") P_cmti_parse (b " 1") s eq_refl eq_refl ltac:(by left))
    as (s' & q & H1 & H2 & H3).
  exists s'. split; [exact H1|]. rewrite H2, <- H3. vm_compute. reflexivity.
Defined.
