(* ===== verification/Daemon.v ===== *)
(** * The daemon (select.c, and gsmd.c 395-535)

    The start of the process, the loop over the file descriptors, and the timers'
    signal, as a step relation; the invariants of every state it reaches. *)

From S2P Require Import Prelude CString Enums Wire LLParse Timers State Queue Events OpCache.
From S2P Require Import SmsCb Unsolicited Vendor UsockCb Main AtCmd Engine Usock.

(** ** The file descriptors

    The UART is registered first, then the listening socket; a client's descriptor
    is appended to the list when it connects, while the client goes to the head of
    [users]; so [gsmd_fds] is a function of the clients. *)

Inductive gsmd_fd : Type := FD_uart | FD_sock | FD_user (r : Z).

#[export] Instance gsmd_fd_eq_dec : EqDecision gsmd_fd.
Proof. solve_decision. Defined.

Definition user_refs (s : gsmd) : list Z := gu_ref <$> users s.

Definition gsmd_fds (s : gsmd) : list gsmd_fd :=
  FD_uart :: FD_sock :: (FD_user <$> reverse (user_refs s)).

(** A descriptor that [select] reports, with the results of the system calls its
    callback makes: what is readable, and what is writable. *)
Inductive ready : Type :=
  | R_uart (rd : option (list (list Z) * read_end)) (wr : option (Z * bool))
  | R_sock (accepted : bool)
  | R_user (r : Z) (rd : option rcv) (wr : option (list Z)).

Definition ready_fd (e : ready) : gsmd_fd :=
  match e with
  | R_uart _ _ => FD_uart
  | R_sock _ => FD_sock
  | R_user r _ _ => FD_user r
  end.

(** Writability is reported only if [ufd->when] asked for it. *)
Definition asked (s : gsmd) (e : ready) : bool :=
  match e with
  | R_uart _ (Some _) => uart_write s
  | R_user r _ (Some _) =>
      match find_user r (users s) with Some gu => gu_write gu | None => false end
  | _ => true
  end.

(** [ufd->cb(ufd->fd, flags, ufd->data)]. *)
Definition fd_cb (e : ready) : G unit :=
  match e with
  | R_uart rd wr => atcmd_select_cb rd wr;; mret tt
  | R_sock accepted => gsmd_usock_cb accepted;; mret tt
  | R_user r rd wr => gsmd_usock_user_cb r rd wr;; mret tt
  end.

(** [llist_for_each_entry_safe]: an entry was saved before the callback of the one
    in front of it ran, and dangles if that callback removed it.  Entries appended
    meanwhile are not ready. *)
Fixpoint select_loop (evs : list ready) (fds : list gsmd_fd) : G unit :=
  match fds with
  | [] => mret tt
  | ufd :: fds' =>
      s ← get;
      must (bool_decide (ufd ∈ gsmd_fds s)) "the next descriptor was freed by a callback";;
      match find (λ e, bool_decide (ready_fd e = ufd)) evs with
      | Some e => fd_cb e
      | None => mret tt
      end;;
      select_loop evs fds'
  end.

Definition gsmd_select_main (evs : list ready) : G unit :=
  s ← get; select_loop evs (gsmd_fds s).

(** ** The start *)

(** The process's static state: zero, the buffer of [gsmd_initialize] allocated and
    not cleared; [now] and [mem] are the clock and the allocator's answers. *)
Definition boot (now0 : timeval) (mem : list bool) : gsmd :=
  Gsmd 0 false false (LLP LLPARSE_STATE_IDLE 0 []) [] [] [] None None
    (DevState 0 0 0 false false None) [] [] false 0 false false [] [] None now0 [] 1 mem [].

(** What the command line and the environment give: the text of [/proc/cpuinfo], the
    options -m, -v and -w, and the result of the machine's [ioctl]. *)
Record config : Type := Config {
  cf_cpuinfo : list Z;
  cf_machine : option (list Z);
  cf_vendor : option (list Z);
  cf_wait : option Z;
  cf_ioctl : Z }.

Definition gsmd_main (cf : config) : G unit :=
  let '(mname, vnames) := gsmd_machine_plugin_init (cf_cpuinfo cf) (cf_machine cf) (cf_vendor cf) in
  match machine_of_name mname with
  | None => halt (Exited 1)
  | Some pl =>
      gsmd_machine_plugin_find [pl];;
      rc ← machine_init pl (cf_ioctl cf);
      if rc <? 0 then halt (Exited 1)
      else
        match cf_wait cf with
        | Some w => if 0 <=? w then modify (set_interpreter_ready (w =? 0)) else mret tt
        | None => mret tt
        end;;
        atcmd_init;;
        uart_put [CR];;
        gsmd_vendor_plugin_find (load_vendors vnames);;
        unsolicited_init;;
        s ← get;
        (if interpreter_ready s then gsmd_initsettings;; gsmd_alive_start;; mret tt else mret tt);;
        gsmd_opname_init;;
        mret tt
  end.

(** ** The steps *)

Definition timer_fuel (s : gsmd) : nat := S (2 * length (timer_list s)).

Inductive step (s : gsmd) : gsmd → Prop :=
  | step_select evs s' : Forall (λ e, asked s e = true) evs →
      gsmd_select_main evs s = Ret tt s' → step s s'
  | step_alarm s' : gsmd_timer_check_n_run (timer_fuel s) s = Ret tt s' → step s s'
  | step_time t : step s (set_clock t s)
  | step_memory l : step s (set_oracle l s).

Inductive reachable (cf : config) : gsmd → Prop :=
  | reach_start t l s : gsmd_main cf (boot t l) = Ret tt s → reachable cf s
  | reach_step s s' : reachable cf s → step s s' → reachable cf s'.

(** ** The invariant *)

(** A command's client is connected. *)
Definition ctx_ok (us : list Z) (c : ctx) : Prop :=
  match c with CtxUser r => r ∈ us | _ => True end.

Definition commands (s : gsmd) : list gsmd_atcmd := busy_atcmds s ++ pending_atcmds s.

Record core (s : gsmd) : Prop := {
  core_users : NoDup (user_refs s);
  core_users_old : Forall (λ r, r < next_ref s) (user_refs s);
  core_timers : NoDup (tmr_ref <$> timer_list s);
  core_timers_old : Forall (λ t, tmr_ref t < next_ref s) (timer_list s);
  core_ctx : Forall (λ c, ctx_ok (user_refs s) (ac_ctx c)) (commands s);
  core_unsolicit : (length (unsolicit s) < 256)%nat;
  core_operators : op_wf (operators s) }.

(** The operations on behalf of a client keep it as long as the client is
    connected, and connect or disconnect nobody. *)
Definition irel (d : ctx) (s s' : gsmd) : Prop :=
  (user_refs s' = user_refs s ∧ machinepl s' = machinepl s) ∧
  (ctx_ok (user_refs s) d → core s → core s').

#[export] Instance irel_preorder d : PreOrder (irel d).
Proof.
  split; [by intros s | intros s t u [[E1 F1] H1] [[E2 F2] H2]].
  split; [split; congruence|]. rewrite E1 in H2. auto.
Qed.

Lemma ctx_in_ok us d c : ctx_in d c → ctx_ok us d → ctx_ok us c.
Proof. by intros [->|[->| ->]]. Qed.

Lemma irel_append d c s : cmd_new d c →
  irel d s (set_uart_write (uart_write s || is_empty (busy_atcmds s))
              (set_pending_atcmds (pending_atcmds s ++ [c]) s)).
Proof.
  intros [Hc _]. split; [done|]. intros Hd [H1 H2 H3 H4 H5 H6 H7]. split; try done.
  unfold commands. cbn. rewrite app_assoc. apply Forall_app. split; [done|]. constructor; [|done].
  by eapply ctx_in_ok.
Qed.

Lemma Forall_lt_succ {A} (f : A → Z) n l : Forall (λ x, f x < n) l → Forall (λ x, f x < n + 1) l.
Proof. intros H. eapply Forall_impl; [exact H|]. cbn. intros x. lia. Qed.

Lemma irel_effects d e : (d = e ∨ e = CtxNull) → Effects e (irel d).
Proof.
  intros Hde. split; try by typeclasses eauto.
  all: try (intros; split; [done|]; intros _ [H1 H2 H3 H4 H5 H6 H7]; by split).
  - intros s. split; [done|]. intros _ [H1 H2 H3 H4 H5 H6 H7]. split; try done.
    + by apply (Forall_lt_succ id).
    + by apply (Forall_lt_succ tmr_ref).
  - intros r f s Hf. pose proof (update_user_refs r f (users s) Hf) as E. split; [done|].
    intros _ [H1 H2 H3 H4 H5 H6 H7]. unfold user_refs in *. split; try done; unfold user_refs; cbn; by rewrite E.
  - intros c [Hc Ht]. apply keeps_append_run. intros s. apply irel_append. split; [|done].
    destruct Hde as [->| ->]; [done|]. destruct Hc as [->|[->| ->]]; [right; by right|right; by left|right; by right].
  - intros op s. split; [done|]. intros _ [H1 H2 H3 H4 H5 H6 H7]. split; try done. cbn. by apply op_wf_add.
  - intros arr s Ha. split; [done|]. intros _ [H1 H2 H3 H4 H5 H6 H7]. split; try done. cbn.
    by rewrite length_app.
Qed.

#[export] Instance irel_own d : Effects d (irel d).
Proof. apply irel_effects. by left. Qed.
#[export] Instance irel_null d : Effects CtxNull (irel d).
Proof. apply irel_effects. by right. Qed.

Lemma timers_unlinked (P : gsmd_timer timer_cb → Prop) r s :
  NoDup (tmr_ref <$> timer_list s) → Forall P (timer_list s) →
  NoDup (tmr_ref <$> unlinked r s) ∧ Forall P (unlinked r s) ∧ r ∉ (tmr_ref <$> unlinked r s).
Proof.
  intros Hd Hp. split_and!.
  - eapply sublist_NoDup; [exact Hd|]. apply fmap_sublist, sublist_filter.
  - rewrite Forall_forall in *. intros t [_ Ht]%list_elem_of_filter. by apply Hp.
  - intros (t & -> & [Ht _]%list_elem_of_filter)%list_elem_of_fmap. unfold has_ref in Ht.
    by rewrite Z.eqb_refl in Ht.
Qed.

Lemma timers_app t (l : list (gsmd_timer timer_cb)) :
  NoDup (tmr_ref <$> l) → tmr_ref t ∉ (tmr_ref <$> l) → NoDup (tmr_ref <$> (l ++ [t])).
Proof.
  intros Hd Ht. rewrite fmap_app. apply NoDup_app. split_and!; [done| |apply NoDup_singleton].
  intros r Hin. cbn. by intros ->%list_elem_of_singleton.
Qed.

Lemma old_not_new (l : list (gsmd_timer timer_cb)) n : Forall (λ t, tmr_ref t < n) l →
  n ∉ (tmr_ref <$> l).
Proof. intros Hl (t & -> & Ht)%list_elem_of_fmap. rewrite Forall_forall in Hl. specialize (Hl t Ht). cbn in Hl. lia. Qed.

#[export] Instance irel_timers d : TimerEffects CtxNull (irel d).
Proof.
  split; [typeclasses eauto| | | |].
  - intros it s. split; [done|]. intros _ [H1 H2 H3 H4 H5 H6 H7]. by split.
  - intros r s. split; [done|]. intros _ [H1 H2 H3 H4 H5 H6 H7].
    destruct (timers_unlinked _ r s H3 H4) as (Hn & Hf & _). by split.
  - intros t s Ht. split; [done|]. intros _ [H1 H2 H3 H4 H5 H6 H7]. split; try done; cbn.
    + by apply (Forall_lt_succ id).
    + apply timers_app; [done|]. rewrite Ht. by apply old_not_new.
    + apply Forall_app. split; [by apply (Forall_lt_succ tmr_ref)|]. constructor; [lia|done].
  - intros t s (u & Hu & Eu)%existsb_exists. split; [done|]. intros _ [H1 H2 H3 H4 H5 H6 H7].
    destruct (timers_unlinked _ (tmr_ref t) s H3 H4) as (Hn & Hf & Hx). split; try done; cbn.
    + by apply timers_app.
    + apply Forall_app. split; [done|]. constructor; [|done]. apply list_elem_of_In in Hu.
      rewrite Forall_forall in H4. specialize (H4 u Hu). unfold has_ref in Eu. apply Z.eqb_eq in Eu. lia.
Qed.

Lemma commands_first f s : (∀ c, same_text c (f c)) → Forall (λ c, ctx_ok (user_refs s) (ac_ctx c)) (commands s) →
  Forall (λ c, ctx_ok (user_refs s) (ac_ctx c)) (on_first f (busy_atcmds s) ++ pending_atcmds s).
Proof.
  unfold commands. intros Hf. destruct (busy_atcmds s) as [|c l]; [done|]. cbn. rewrite !Forall_cons.
  destruct (Hf c) as (_ & -> & _). done.
Qed.

#[export] Instance irel_line d : LineEffects (irel d).
Proof.
  split; [typeclasses eauto| |
    intros; split; [done|]; intros _ [H1 H2 H3 H4 H5 H6 H7]; by split..].
  intros f s Hf. split; [done|]. intros _ [H1 H2 H3 H4 H5 H6 H7]. split; try done.
  exact (commands_first f s Hf H5).
Qed.

#[export] Instance irel_engine d : EngineEffects (irel d).
Proof.
  split; [typeclasses eauto|]. apply keeps_finish_run. intros s. split; [done|].
  intros _ [H1 H2 H3 H4 H5 H6 H7]. split; try done. unfold commands in *. cbn.
  destruct (busy_atcmds s) as [|c l]; [done|]. by apply Forall_cons in H5 as [_ H5].
Qed.

Lemma irel_push d c s : cmd_new d c → irel d s (set_pending_atcmds (c :: pending_atcmds s) s).
Proof.
  intros [Hc _]. split; [done|]. intros Hd [H1 H2 H3 H4 H5 H6 H7]. split; try done. unfold commands in *. cbn.
  apply Forall_app in H5 as [? ?]. apply Forall_app. split; [done|]. constructor; [|done]. by eapply ctx_in_ok.
Qed.

#[export] Instance irel_handler d : HandlerEffects d (irel d).
Proof.
  split; [typeclasses eauto|]. intros c Hc. unfold cancel_atcmd. solve_keeps.
  - by apply (keeps_atcmd_submit (d := d)).
  - apply keeps_modify. intros s. by apply irel_push.
Qed.

(** ** What each event keeps *)

Lemma keeps_llparse_string (R : gsmd → gsmd → Prop) `{!EngineEffects R} bs :
  (∀ p s, R s (set_llp p s)) → keeps R (llparse_string bs).
Proof.
  intros Hp. induction bs as [|c bs IH]; cbn [llparse_string]; [solve_keeps|].
  apply keeps_bind; [typeclasses eauto| |intros rc; destruct (rc <? 0); [solve_keeps|done]].
  unfold llparse_step. cbn [llp_of llp_put gsmd_sink line_cb prompt_cb].
  apply keeps_bind; [typeclasses eauto|solve_keeps|]. intros s. destruct (llparse_byte _ c) as [p rc].
  apply keeps_bind; [typeclasses eauto|apply keeps_modify; intros; apply Hp|]. intros _. solve_keeps.
Qed.

Lemma keeps_read_loop (R : gsmd → gsmd → Prop) `{!EngineEffects R} chunks :
  (∀ p s, R s (set_llp p s)) → keeps R (read_loop chunks).
Proof.
  intros Hp. induction chunks as [|bs chunks IH]; cbn [read_loop]; [solve_keeps|].
  apply keeps_bind; [typeclasses eauto|by apply keeps_llparse_string|].
  intros rc. destruct (rc <? 0); [solve_keeps|done].
Qed.

Lemma create_timer_func_same s o t s' : create_timer_func t s = Ret o s' → qrel s s' ∧ irel CtxNull s s'.
Proof.
  unfold create_timer_func. destruct (timer_args t) as [tv cb].
  intros H. split; [by_keeps qrel H | by_keeps (irel CtxNull) H].
Qed.

Lemma start_waiting_irel pos l s a s' : pending_atcmds s = pos :: l → start_waiting pos s = Ret a s' →
  irel CtxNull s s'.
Proof.
  intros Hp (o & s1 & [[_ [new Hn]] H1]%create_timer_func_same & H)%bind_Ret.
  etrans; [exact H1|]. apply Ret_inj in H as [_ <-]. split; [done|]. rewrite Hp in Hn.
  intros _ [G1 G2 G3 G4 G5 G6 G7]. split; try done. unfold commands in *. cbn. rewrite Hn in *. cbn in *.
  rewrite <- app_assoc. cbn. rewrite !Forall_app, Forall_cons in *. done.
Qed.

Lemma uart_put_irel bytes s : irel CtxNull s (set_uart_out (uart_out s ++ bytes) s).
Proof. split; [done|]. intros _ []; by split. Qed.
Lemma keeps_uart_put bytes : keeps (irel CtxNull) (uart_put bytes).
Proof. apply keeps_modify. intros s. apply uart_put_irel. Qed.
Lemma keeps_uart_flag (b : bool) : keeps (irel CtxNull) (modify (set_uart_write b)).
Proof. apply keeps_modify. intros s. split; [done|]. intros _ []; by split. Qed.
Lemma keeps_wait : keeps (irel CtxNull) atcmd_wait_pending_queue.
Proof. apply keeps_uart_flag. Qed.
#[export] Hint Resolve keeps_uart_put keeps_uart_flag keeps_wait : keeps.

Lemma first_irel c pos l s : pending_atcmds s = pos :: l → ac_ctx c = ac_ctx pos →
  irel CtxNull s (set_pending_atcmds (c :: l) s).
Proof.
  intros Hp Hc. split; [done|]. intros _ [G1 G2 G3 G4 G5 G6 G7]. split; try done.
  unfold commands in *. cbn. rewrite Hp in G5. rewrite Forall_app, Forall_cons in *. by rewrite Hc.
Qed.

Lemma write_first_irel room cr_sent pos l s rc s' : pending_atcmds s = pos :: l →
  write_first room cr_sent pos s = Ret rc s' → irel CtxNull s s'.
Proof.
  intros Hp. unfold write_first. destruct (next_line pos) as [cr len].
  destruct (_ =? 0); [intros H; by_keeps (irel CtxNull) H|].
  destruct (_ <? 0); [by intros [_ <-]%Ret_inj|].
  set (pos' := set_progress _ pos). intros (? & s1 & [_ <-]%Ret_inj & H)%bind_Ret. revert H. run.
  cbn [pending_atcmds set_uart_out]. rewrite Hp. cbn [on_first].
  set (s1 := set_uart_out _ s). set (s2 := set_pending_atcmds _ s1).
  assert (irel CtxNull s s2) as H12.
  { etrans; [apply uart_put_irel|]. by apply (first_irel pos' pos l s1). }
  intros (? & s3 & H3 & H)%bind_Ret. assert (irel CtxNull s2 s3 ∧ pending_atcmds s3 = pos' :: l) as [H23 Hp3].
  { destruct cr_sent; apply Ret_inj in H3 as [_ <-]; [|done]. split; [apply uart_put_irel | done]. }
  etrans; [exact H12|]. etrans; [exact H23|]. destruct (_ =? 0).
  - apply bind_Ret in H as (? & s4 & H4 & H). apply (start_waiting_irel _ l) in H4; [|done].
    etrans; [exact H4|]. by_keeps (irel CtxNull) H.
  - destruct (_ <? _); by_keeps (irel CtxNull) H.
Qed.

Lemma keeps_write_pending room cr : keeps (irel CtxNull) (write_pending room cr).
Proof.
  intros s rc s'. unfold write_pending. run. destruct (interpreter_ready s); [|by intros [_ <-]%Ret_inj].
  destruct (pending_atcmds s) as [|pos l] eqn:Hp.
  - intros H. by_keeps (irel CtxNull) H.
  - by apply (write_first_irel _ _ _ l).
Qed.
#[export] Hint Resolve keeps_write_pending : keeps.

Lemma irel_llp d p s : irel d s (set_llp p s).
Proof. split; [done|]. intros _ []; by split. Qed.

Lemma keeps_atcmd_select_cb rd wr : keeps (irel CtxNull) (atcmd_select_cb rd wr).
Proof.
  unfold atcmd_select_cb. cbv zeta.
  destruct rd as [[chunks fin]|]; [|destruct wr as [[??]|]; solve_keeps].
  apply keeps_bind; [typeclasses eauto|apply keeps_read_loop; [typeclasses eauto|apply irel_llp]|].
  intros r. solve_keeps.
Qed.
#[export] Hint Resolve keeps_atcmd_select_cb : keeps.

(** A client that connects. *)
Lemma core_connect accepted s rc s' : gsmd_usock_cb accepted s = Ret rc s' → core s → core s'.
Proof.
  unfold gsmd_usock_cb. intros (ok & s1 & H1 & H)%bind_Ret Hs.
  assert (irel CtxNull s s1) as [_ K1] by by_keeps (irel CtxNull) H1.
  destruct ok; [|by apply Ret_inj in H as [_ <-]; apply K1]. destruct accepted; [|done]. revert H. run.
  intros (r & s2 & [<- <-]%Ret_inj & H)%bind_Ret. revert H. run. intros [_ <-]%Ret_inj.
  destruct (K1 I Hs) as [G1 G2 G3 G4 G5 G6 G7]. unfold user_refs in *. split; try done; unfold user_refs; cbn in *.
  - constructor; [|done]. intros Hin. rewrite Forall_forall in G2. specialize (G2 _ Hin). lia.
  - constructor; [lia|]. by apply (Forall_lt_succ id).
  - by apply (Forall_lt_succ tmr_ref).
  - eapply Forall_impl; [exact G5|]. intros c. unfold ctx_ok. destruct (ac_ctx c); [done..|]. by right.
Qed.

(** A client that goes away. *)
Lemma filter_users r (us : list gsmd_user) : gu_ref <$> filter (λ u, gu_ref u ≠ r) us = filter (λ x, x ≠ r) (gu_ref <$> us).
Proof.
  induction us as [|u us IH]; [done|]. cbn [fmap list_fmap]. destruct (decide (gu_ref u = r)) as [E|E].
  - rewrite !filter_cons_False by (intros H; by apply H). exact IH.
  - rewrite !filter_cons_True by done. cbn [fmap list_fmap]. by f_equal.
Qed.

Lemma keeps_terminate (R : gsmd → gsmd → Prop) `{!Effects d R} c :
  (∀ s, R s (set_busy_atcmds (orphan c <$> busy_atcmds s) s)) →
  (∀ s, R s (set_pending_atcmds (filter (λ cmd, ac_ctx cmd ≠ c) (pending_atcmds s)) s)) →
  keeps R (atcmd_terminate_matching c).
Proof. intros Hb Hp. unfold atcmd_terminate_matching. solve_keeps; by apply keeps_modify. Qed.

Lemma irel_terminate r : keeps (irel CtxNull) (atcmd_terminate_matching (CtxUser r)).
Proof.
  apply (keeps_terminate (d := CtxNull) _); intros s; (split; [done|]);
    intros _ [H1 H2 H3 H4 H5 H6 H7]; (split; try done); unfold commands in *; cbn;
    rewrite Forall_app in *; destruct H5 as [Hb Hp]; (split; [|]); try done.
  - apply Forall_fmap. eapply Forall_impl; [exact Hb|]. intros c. cbn. unfold orphan. by case_bool_decide.
  - rewrite Forall_forall in *. intros c [_ Hc]%list_elem_of_filter. by apply Hp.
Qed.

Lemma core_disconnect r s n s' s'' : atcmd_terminate_matching (CtxUser r) s = Ret n s' →
  remove_user r s' = Ret tt s'' → core s → core s''.
Proof.
  intros H [_ <-]%Ret_inj Hs. destruct (irel_terminate r _ _ _ H) as [_ K].
  destruct (K I Hs) as [G1 G2 G3 G4 G5 G6 G7]. apply terminated_clear in H.
  unfold user_refs in *. split; try done; unfold user_refs; cbn; rewrite filter_users.
  - by apply NoDup_filter.
  - rewrite Forall_forall in *. intros x [_ Hx]%list_elem_of_filter. by apply G2.
  - rewrite Forall_forall in *. intros c Hc. specialize (G5 c Hc). specialize (H c Hc).
    unfold ctx_ok in *. destruct (ac_ctx c); [done..|]. apply list_elem_of_filter. split; [congruence|done].
Qed.

(** ** The parser and the plugins *)

#[export] Instance erel_handler d : HandlerEffects d erel.
Proof.
  split; [typeclasses eauto|]. intros c Hc. unfold cancel_atcmd. solve_keeps.
  apply keeps_modify. intros s. unfold erel. by cbn.
Qed.

Lemma erel_put bytes : keeps erel (uart_put bytes).
Proof. apply keeps_modify. intros s. unfold erel. by cbn. Qed.
Lemma erel_flag (v : bool) : keeps erel (modify (set_uart_write v)).
Proof. apply keeps_modify. intros s. unfold erel. by cbn. Qed.
Lemma erel_wait : keeps erel atcmd_wait_pending_queue.
Proof. apply erel_flag. Qed.
#[export] Hint Resolve erel_put erel_flag erel_wait : keeps.

Lemma erel_write_pending room cr : keeps erel (write_pending room cr).
Proof.
  unfold write_pending, write_first, start_waiting, create_timer_func. solve_keeps.
  all: try (apply keeps_modify; intros s; unfold erel; by cbn).
  Unshelve. exact CtxNull.
Qed.
#[export] Hint Resolve erel_write_pending : keeps.

Lemma llp_kept_wf p q : llp_kept p q → llp_wf p → llp_wf q.
Proof. intros (E1 & E2 & _). unfold llp_wf. by rewrite E1, E2. Qed.

Lemma read_loop_wf chunks s r s' : read_loop chunks s = Ret r s' → llp_wf (llp s) → llp_wf (llp s').
Proof.
  revert s. induction chunks as [|bs chunks IH]; intros s; cbn [read_loop]; [by intros [_ <-]%Ret_inj|].
  intros (rc & s1 & H1 & H)%bind_Ret Hs. apply llparse_string_keeps_wf in H1; [|exact Hs].
  destruct (rc <? 0); [by apply Ret_inj in H as [_ <-] | by apply (IH s1)].
Qed.

Lemma uart_cb_wf rd wr s rc s' : atcmd_select_cb rd wr s = Ret rc s' → llp_wf (llp s) → llp_wf (llp s').
Proof.
  unfold atcmd_select_cb. cbv zeta.
  assert (∀ s rc s', match wr with Some (room, cr) => write_pending room cr | None => mret 0 end s = Ret rc s' →
    llp_wf (llp s) → llp_wf (llp s')) as Hw.
  { clear. intros s rc s' H. apply llp_kept_wf. assert (erel s s') as [? _]; [|done].
    destruct wr as [[room cr]|]; by_keeps erel H. }
  destruct rd as [[chunks fin]|]; [|apply Hw].
  intros (r & s1 & H1 & H)%bind_Ret Hs. apply (read_loop_wf _ _ _ _ H1) in Hs.
  destruct r; [by apply Ret_inj in H as [_ <-]|].
  destruct fin; [by apply (Hw s1) in H | by apply Ret_inj in H as [_ <-]..].
Qed.

Lemma keeps_connect accepted : keeps erel (gsmd_usock_cb accepted).
Proof.
  unfold gsmd_usock_cb. solve_keeps. apply keeps_modify. intros s. unfold erel. by cbn.
  Unshelve. all: exact CtxNull.
Qed.

Lemma keeps_user_write r wr : keeps erel (user_write r wr).
Proof.
  unfold user_write. solve_keeps.
  all: try (apply keeps_modify; intros s; unfold erel; by cbn).
  Unshelve. all: exact CtxNull.
Qed.

Lemma keeps_user_cb r rd wr : keeps erel (gsmd_usock_user_cb r rd wr).
Proof.
  unfold gsmd_usock_user_cb, user_read, remove_user. solve_keeps.
  all: try apply keeps_user_write; try (apply keeps_modify; intros s; unfold erel; by cbn).
  apply (keeps_terminate (d := CtxNull) _); intros s; unfold erel; by cbn.
Qed.

(** ** One callback of the loop *)

(** The invariant: [core], the parser's, and a machine plugin. *)
Record daemon_wf (s : gsmd) : Prop := {
  wf_core : core s;
  wf_llp : llp_wf (llp s);
  wf_machine : is_Some (machinepl s) }.

Lemma erel_wf s s' : erel s s' → core s' → daemon_wf s → daemon_wf s'.
Proof. intros (H1 & H2 & _) Hc [_ H4 H5]. split; [done|by eapply llp_kept_wf|by rewrite H2]. Qed.

(** Who is connected afterwards: a client leaves only in its own callback. *)
Definition only_leaves (e : ready) (s s' : gsmd) : Prop :=
  ∀ r, r ∈ user_refs s → FD_user r ≠ ready_fd e → r ∈ user_refs s'.

Lemma fd_user_in s r : FD_user r ∈ gsmd_fds s ↔ r ∈ user_refs s.
Proof.
  unfold gsmd_fds. rewrite !elem_of_cons, list_elem_of_fmap. split.
  - intros [?|[?|(x & [= ->] & Hx)]]; [done..|]. by rewrite elem_of_reverse in Hx.
  - intros Hr. right. right. exists r. by rewrite elem_of_reverse.
Qed.

Lemma user_read_keeps r rd s rc s' : r ∈ user_refs s → user_read r rd s = Ret rc s' → core s →
  core s' ∧ only_leaves (R_user r (Some rd) None) s s'.
Proof.
  unfold user_read, only_leaves. intros Hr. destruct rd as [| |m].
  - intros (n & s1 & H1 & ([] & s2 & H2 & [_ <-]%Ret_inj)%bind_Ret)%bind_Ret Hs.
    split; [by eapply core_disconnect|]. intros x Hx Hn. destruct (irel_terminate _ _ _ _ H1) as [[E _] _].
    apply Ret_inj in H2 as [_ <-]. unfold user_refs in *. cbn [set_users users].
    rewrite filter_users. apply list_elem_of_filter. rewrite E. split; [cbn in Hn; congruence|done].
  - by intros [_ <-]%Ret_inj.
  - intros H Hs. assert (irel (CtxUser r) s s') as [[E _] K] by by_keeps (irel (CtxUser r)) H.
    split; [by apply K|]. intros x Hx _. by rewrite E.
Qed.

Lemma user_write_irel r wr : keeps (irel CtxNull) (user_write r wr).
Proof.
  unfold user_write. solve_keeps.
  all: try (apply keeps_modify; intros s; by apply eff_users).
  Unshelve. all: exact CtxNull.
Qed.

Lemma user_cb_keeps r rd wr s rc s' : r ∈ user_refs s → gsmd_usock_user_cb r rd wr s = Ret rc s' →
  core s → core s' ∧ only_leaves (R_user r rd wr) s s'.
Proof.
  unfold gsmd_usock_user_cb. intros Hr. destruct rd as [rd|]; [|destruct wr as [wr|]].
  - intros (? & s1 & H & [_ <-]%Ret_inj)%bind_Ret. by apply (user_read_keeps r rd _ _ _ Hr H).
  - intros H Hs. destruct (user_write_irel r wr _ _ _ H) as [[E _] K].
    split; [by apply K|]. intros x Hx _. by rewrite E.
  - intros [_ <-]%Ret_inj Hs. split; [done|by intros x].
Qed.

Lemma connect_users accepted s rc s' r : gsmd_usock_cb accepted s = Ret rc s' →
  r ∈ user_refs s → r ∈ user_refs s'.
Proof.
  unfold gsmd_usock_cb. intros (ok & s1 & H1 & H)%bind_Ret Hr.
  assert (irel CtxNull s s1) as [[E _] _] by by_keeps (irel CtxNull) H1. rewrite <- E in Hr.
  destruct ok; [|by apply Ret_inj in H as [_ <-]]. destruct accepted; [|done]. revert H. run.
  intros (x & s2 & [<- <-]%Ret_inj & [_ <-]%Ret_inj)%bind_Ret. by right.
Qed.

Lemma fd_cb_keeps e s s' : ready_fd e ∈ gsmd_fds s → fd_cb e s = Ret tt s' → daemon_wf s →
  daemon_wf s' ∧ only_leaves e s s'.
Proof.
  intros Hin H [Hc Hl Hm]. destruct e as [rd wr|acc|r rd wr]; cbn [fd_cb] in H;
    apply bind_Ret in H as (rc & s1 & H & [_ <-]%Ret_inj).
  - assert (irel CtxNull s s1) as [[E M] K] by by_keeps (irel CtxNull) H. split; [split|].
    + by apply K.
    + by eapply uart_cb_wf.
    + by rewrite M.
    + intros r Hr _. by rewrite E.
  - split.
    + eapply erel_wf; [by eapply (keeps_connect acc) | by eapply core_connect|by split].
    + intros r Hr _. by eapply connect_users.
  - assert (r ∈ user_refs s) as Hr by by apply fd_user_in.
    destruct (user_cb_keeps _ _ _ _ _ _ Hr H Hc) as [Hc' Ho].
    split; [|done]. eapply erel_wf; [by eapply (keeps_user_cb r rd wr)|done|by split].
Qed.

(** ** The loop *)

(** The specification: the callbacks of the ready descriptors, in the order of the
    list. *)
Fixpoint serve (evs : list ready) (fds : list gsmd_fd) : G unit :=
  match fds with
  | [] => mret tt
  | ufd :: fds' =>
      match find (λ e, bool_decide (ready_fd e = ufd)) evs with
      | Some e => fd_cb e
      | None => mret tt
      end;;
      serve evs fds'
  end.

Lemma find_ready evs ufd e : find (λ e, bool_decide (ready_fd e = ufd)) evs = Some e → ready_fd e = ufd.
Proof. by intros [_ H%bool_decide_eq_true_1]%find_some. Qed.

Lemma gsmd_fds_nodup s : NoDup (user_refs s) → NoDup (gsmd_fds s).
Proof.
  intros Hd. unfold gsmd_fds. rewrite !NoDup_cons, !not_elem_of_cons. split_and!; [done|..].
  - by intros (x & ? & _)%list_elem_of_fmap.
  - by intros (x & ? & _)%list_elem_of_fmap.
  - apply NoDup_fmap_2; [by intros ?? [= ->] | by rewrite reverse_Permutation].
Qed.

Lemma still_registered e s s' fd : only_leaves e s s' → fd ∈ gsmd_fds s → fd ≠ ready_fd e →
  fd ∈ gsmd_fds s'.
Proof.
  intros Ho Hin Hn. destruct fd as [| |r]; [by left|by right; left|].
  apply fd_user_in. apply Ho; [by apply fd_user_in|done].
Qed.

Lemma select_loop_serve evs fds s : daemon_wf s → NoDup fds → Forall (.∈ gsmd_fds s) fds →
  select_loop evs fds s = serve evs fds s.
Proof.
  revert s. induction fds as [|ufd fds IH]; intros s Hs; [done|].
  rewrite NoDup_cons, Forall_cons. intros [Hn Hd] [Hin Hf]. cbn [select_loop serve]. run.
  rewrite bool_decide_true by done. run. apply bind_ext. intros [] s1 H.
  destruct (find _ evs) as [e|] eqn:He; [|apply Ret_inj in H as [_ <-]; by apply IH].
  apply find_ready in He as <-. destruct (fd_cb_keeps e s s1 Hin H Hs) as [Hs1 Ho].
  apply IH; [done..|]. rewrite Forall_forall in *. intros fd Hfd. eapply still_registered; [done|by apply Hf|].
  by intros ->.
Qed.

Lemma select_loop_wf evs fds s s' : select_loop evs fds s = Ret tt s' → daemon_wf s → daemon_wf s'.
Proof.
  revert s. induction fds as [|ufd fds IH]; intros s; cbn [select_loop]; [by intros [_ <-]%Ret_inj|].
  run. case_bool_decide as Hin; [|done]. run. intros ([] & s1 & H1 & H)%bind_Ret Hs. apply (IH s1); [done|].
  destruct (find _ evs) as [e|] eqn:He; [|by apply Ret_inj in H1 as [_ <-]].
  apply find_ready in He as <-. by destruct (fd_cb_keeps e s s1 Hin H1 Hs).
Qed.

(** ** The signal of the interval timer *)

Definition nrel (s s' : gsmd) : Prop := next_ref s ≤ next_ref s'.
#[export] Instance nrel_preorder : PreOrder nrel.
Proof. split; [intros s; unfold nrel; lia | unfold nrel; intros s t u; lia]. Qed.
#[export] Instance nrel_effects d : Effects d nrel.
Proof.
  split; try by typeclasses eauto.
  all: try (intros; unfold nrel; cbn; lia).
  intros c _. apply keeps_append_run. intros s. unfold nrel. cbn. lia.
Qed.

Lemma fire_irel t : keeps (irel CtxNull) (unlink_timer (tmr_ref t);; run_timer t).
Proof.
  intros s [] s' (? & s1 & H1 & H)%bind_Ret. pose proof H1 as [H0 Es1]%unlink_timer_run.
  apply (keeps_unlink_timer (R := irel CtxNull)) in H1.
  unfold run_timer, gsmd_timer_host in H. destruct (tmr_cb t); unfold poweroff_timeout in H;
    try (etrans; [exact H1|]; by_keeps (irel CtxNull) H).
  revert H. unfold alive_interval_tmr_cb. intros (? & s2 & H2 & (? & s3 & H3 & [_ <-]%Ret_inj)%bind_Ret)%bind_Ret.
  assert (trel s1 s2) as [Et _] by by_keeps trel H2. assert (nrel s1 s2) as Hn by by_keeps nrel H2.
  assert (irel CtxNull s1 s2) as H12 by by_keeps (irel CtxNull) H2.
  destruct H1 as [[E1 M1] K1], H12 as [[E2 M2] K2]. apply gsmd_timer_register_run in H3 as (e & it & ->).
  split; [split; [change (user_refs s2 = user_refs s) | change (machinepl s2 = machinepl s)]; congruence|].
  intros _ Hs. destruct (K2 I (K1 I Hs)) as [G1 G2 G3 G4 G5 G6 G7]. split; try done; cbn; rewrite Et in *.
  - apply timers_app; [done|]. rewrite Es1. cbn.
    apply (timers_unlinked (λ _, True)); [apply Hs|by apply Forall_forall].
  - apply Forall_app. split; [done|]. constructor; [|done]. cbn.
    apply existsb_exists in H0 as (u & Hu & Eu). apply list_elem_of_In in Hu.
    pose proof (core_timers_old s Hs) as Ho. rewrite Forall_forall in Ho. specialize (Ho u Hu).
    unfold has_ref in Eu. apply Z.eqb_eq in Eu. unfold nrel in Hn. rewrite Es1 in Hn. cbn in Hn. lia.
Qed.

Lemma keeps_fire_all l : keeps (irel CtxNull) (fire_all l).
Proof.
  induction l as [|t l IH]; cbn [fire_all]; [solve_keeps|].
  intros s [] s' (u & s1 & H1 & ([] & s2 & H2 & H)%bind_Ret)%bind_Ret. etrans; [|by apply (IH s2 tt)].
  apply (fire_irel t s tt). apply bind_Ret. exists u, s1. by split.
Qed.

Lemma erel_fire_all l : keeps erel (fire_all l).
Proof. induction l as [|t l IH]; cbn [fire_all]; solve_keeps; auto. Unshelve. all: exact CtxNull. Qed.

Lemma check_n_run_daemon s : core s →
  gsmd_timer_check_n_run (timer_fuel s) s =
  (fire_all (filter (λ t, expired (clock s) t = true) (timer_list s));;
   calc_next_expiration;; mret tt) s.
Proof.
  intros Hs. unfold gsmd_timer_check_n_run. run. apply bind_cong.
  apply (run_from_fires _ _ _ [] (timer_list s)); [done|done|apply Hs|].
  pose proof (length_filter (λ t, expired (clock s) t = true) (timer_list s)). unfold timer_fuel.
  cbn [now gsmd_timers]. lia.
Qed.

Lemma alarm_wf s s' : gsmd_timer_check_n_run (timer_fuel s) s = Ret tt s' → daemon_wf s → daemon_wf s'.
Proof.
  intros H Hs. rewrite check_n_run_daemon in H by apply Hs.
  apply bind_Ret in H as ([] & s1 & H1 & H).
  assert (irel CtxNull s1 s') as [_ K] by by_keeps (irel CtxNull) H.
  assert (erel s1 s') as He by by_keeps erel H.
  apply (erel_wf s); [|apply K; [done|]; by apply (keeps_fire_all _ _ _ _ H1), Hs|done].
  etrans; [by eapply erel_fire_all|done].
Qed.

(** ** The start *)

Lemma wf_from s s' : irel CtxNull s s' → llp_kept (llp s) (llp s') → daemon_wf s → daemon_wf s'.
Proof.
  intros [[_ M] K] Hl [Hc Hw Hm]. split; [by apply K|by eapply llp_kept_wf|by rewrite M].
Qed.

Lemma wf_both {A} (m : G A) s a s' : keeps (irel CtxNull) m → keeps erel m → m s = Ret a s' →
  daemon_wf s → daemon_wf s'.
Proof. intros H1 H2 H. apply wf_from; [by eapply H1|]. by destruct (H2 _ _ _ H). Qed.

Lemma vendor_find_wf l s rc s' : gsmd_vendor_plugin_find l s = Ret rc s' → daemon_wf s → daemon_wf s'.
Proof.
  assert (∀ l s rc s', vendor_find_loop l s = Ret rc s' → daemon_wf s → daemon_wf s') as Hl.
  { clear. induction l as [|pl l IH]; intros s rc s'; cbn [vendor_find_loop]; [by intros [_ <-]%Ret_inj|].
    intros (x & s1 & H1 & H)%bind_Ret Hs.
    assert (daemon_wf s1) as Hs1.
    { destruct pl; apply Ret_inj in H1 as [_ <-]; try done.
      apply (wf_from s); [|by repeat split|done]. split; [done|]. intros _ []; by split. }
    destruct (x =? 1); [|by apply (IH _ _ _ H)]. apply bind_Ret in H as (? & s2 & H2 & [_ <-]%Ret_inj).
    apply Ret_inj in H2 as [_ <-]. apply (wf_from s1); [|by repeat split|done]. split; [done|]. intros _ []; by split. }
  unfold gsmd_vendor_plugin_find. run. destruct (vendorpl s); [by intros [_ <-]%Ret_inj|apply Hl].
Qed.

Lemma keeps_unsolicited_init `{!Effects d R} : keeps R unsolicited_init.
Proof. unfold unsolicited_init. solve_keeps. Qed.

Lemma main_wf cf t l s : gsmd_main cf (boot t l) = Ret tt s → daemon_wf s.
Proof.
  unfold gsmd_main. destruct (gsmd_machine_plugin_init _ _ _) as [mname vnames].
  destruct (machine_of_name mname) as [pl|]; [|done]. run.
  intros (rc0 & s1 & [_ <-]%Ret_inj & (rc & s2 & H2 & H)%bind_Ret)%bind_Ret.
  destruct (rc <? 0); [done|]. revert H.
  assert (∀ s3, (match cf_wait cf with Some w => if 0 <=? w then modify (set_interpreter_ready (w =? 0)) else mret tt
    | None => mret tt end) s2 = Ret tt s3 → ∃ v, s3 = set_interpreter_ready v (set_machinepl (Some pl) (boot t l))) as Hready.
  { intros s3 H3. assert (∃ v, s2 = set_interpreter_ready v (set_machinepl (Some pl) (boot t l))) as [v ->].
    { destruct pl; cbn in H2; apply bind_Ret in H2 as (? & ? & [_ <-]%Ret_inj & [_ <-]%Ret_inj); by eexists. }
    destruct (cf_wait cf) as [w|]; [destruct (0 <=? w)|]; apply Ret_inj in H3 as [_ <-]; by eexists. }
  intros ([] & s3 & [v ->]%Hready & H)%bind_Ret. clear Hready H2 s2. revert H. run.
  intros ([] & s4 & [_ <-]%Ret_inj & H)%bind_Ret. apply bind_Ret in H as ([] & s5 & [_ <-]%Ret_inj & H).
  match type of H with _ ?s5 = _ => assert (daemon_wf s5) as H5 end.
  { split; [|split; [apply Nat.le_0_l|done]|by eexists]. split; cbn; try constructor. lia. }
  apply bind_Ret in H as (? & s6 & H6%vendor_find_wf & H); [|done].
  apply bind_Ret in H as ([] & s7 & H7 & H).
  eapply wf_both in H7; [|apply (keeps_unsolicited_init (d := CtxNull))|apply (keeps_unsolicited_init (d := CtxNull))|done].
  revert H. run. intros ([] & s8 & H8 & H)%bind_Ret.
  eapply (wf_both (if interpreter_ready s7 then _ else _)) in H8; [|unshelve solve_keeps; exact CtxNull..|done].
  apply bind_Ret in H as (? & s9 & H9 & [_ <-]%Ret_inj). unfold gsmd_opname_init in H9. revert H9. run.
  intros [_ <-]%Ret_inj. apply (wf_from s8); [|by repeat split|done]. split; [done|].
  intros _ [G1 G2 G3 G4 G5 G6 G7]. split; try done. constructor.
Qed.

Lemma step_wf s s' : step s s' → daemon_wf s → daemon_wf s'.
Proof.
  intros [evs s'' _ H | s'' H | t | l] Hs.
  - unfold gsmd_select_main in H. revert H. run. intros H. by eapply select_loop_wf.
  - by apply (alarm_wf s).
  - apply (wf_from s); [|by repeat split|done]. split; [done|]. intros _ []; by split.
  - apply (wf_from s); [|by repeat split|done]. split; [done|]. intros _ []; by split.
Qed.

Lemma reachable_wf cf s : reachable cf s → daemon_wf s.
Proof. induction 1; [by eapply main_wf | by eapply step_wf]. Qed.

(** ** What holds of every reachable state *)

Lemma find_user_connected r us : r ∈ (gu_ref <$> us) → ∃ gu, gu ∈ us ∧ find_user r us = Some gu.
Proof.
  unfold find_user. induction us as [|u us IH]; [by intros ?%not_elem_of_nil|]. cbn [fmap list_fmap find].
  intros Hin. destruct (Z.eqb_spec (gu_ref u) r) as [E|E]; [exists u; split; [by left|done]|].
  apply elem_of_cons in Hin as [?|Hin]; [congruence|]. destruct (IH Hin) as (gu & ? & ?).
  exists gu. split; [by right|done].
Qed.

(** [C4] In every state the daemon reaches, the clients are distinct and the client of
    every queued command is still connected, so that using a command's client never
    follows a dangling pointer; the timers are distinct; the table of unsolicited
    result codes has at most 255 entries; the operators have distinct codes; the line
    parser is inside its buffer; and a machine plugin is loaded. *)
Theorem reachable_invariant cf s : reachable cf s →
  NoDup (user_refs s) ∧
  (∀ cmd r, cmd ∈ busy_atcmds s ++ pending_atcmds s → ac_ctx cmd = CtxUser r →
     ∃ gu, gu ∈ users s ∧ user_of (ac_ctx cmd) s = Ret gu s) ∧
  NoDup (refs s) ∧ (length (unsolicit s) ≤ 255)%nat ∧ op_wf (operators s) ∧
  llp_wf (llp s) ∧ is_Some (machinepl s).
Proof.
  intros [[H1 H2 H3 H4 H5 H6 H7] Hl Hm]%reachable_wf. split_and!; try done; [|lia].
  intros cmd r Hin Hc. rewrite Forall_forall in H5. specialize (H5 cmd Hin). rewrite Hc in *. cbn in H5.
  destruct (find_user_connected _ _ H5) as (gu & Hu & Hf). exists gu. split; [done|].
  unfold user_of. run. by rewrite Hf.
Qed.

(** [C31] A round of the select loop serves the ready descriptors in the order of
    the list; the entry the loop saves before a callback is never one that the
    callback frees. *)
Theorem select_main_serves cf s evs : reachable cf s →
  gsmd_select_main evs s = serve evs (gsmd_fds s) s.
Proof.
  intros Hs%reachable_wf. unfold gsmd_select_main. run.
  apply select_loop_serve; [done|apply gsmd_fds_nodup, Hs|by apply Forall_forall].
Qed.

(** [C32] When the interval timer goes off, in any state the daemon reaches, the
    callbacks of exactly the expired timers run, in order; the traversal neither
    stops early nor follows a timer that a callback removed, and afterwards no
    expired timer is left. *)
Theorem daemon_alarm cf s : reachable cf s →
  let due := filter (λ t, expired (clock s) t = true) (timer_list s) in
  gsmd_timer_check_n_run (timer_fuel s) s = (fire_all due;; calc_next_expiration;; mret tt) s ∧
  ∀ s', fire_all due s = Ret tt s' → Forall (λ t, expired (clock s) t = false) (timer_list s').
Proof.
  intros [Hs _ _]%reachable_wf due. split; [by apply check_n_run_daemon|].
  intros s' Hf. change (timer_list s') with (timers s').
  refine (fire_all_clears_aux (clock s) (timer_list s) [] [] s _ _ _ _ s' Hf);
    [by rewrite app_nil_r|done|apply Hs|constructor].
Qed.

Module Examples.

(** A GTA01 with a TI modem that is ready at once. *)
Definition cfg : config := Config [] (Some (b "gta01")) (Some (b "ti")) None 0.
Definition started : gsmd :=
  match gsmd_main cfg (boot (TV 100 0) []) with Ret _ s => s | Stop _ => boot (TV 0 0) [] end.

Lemma started_reachable : reachable cfg started.
Proof. apply (reach_start _ (TV 100 0) []). vm_compute. reflexivity. Qed.

(** Two clients have connected, and the first asks for the modem's manufacturer. *)
Definition events : list (list ready) :=
  [[R_sock true]; [R_sock true];
   [R_user 5 (Some (RCV_data ([GSMD_PROTO_VERSION; GSMD_MSG_PHONE; GSMD_PHONE_GET_MANUF] ++ replicate 9 0))) None]].
Definition after_round (s : gsmd) (evs : list ready) : gsmd :=
  match gsmd_select_main evs s with Ret _ s' => s' | Stop _ => s end.
Definition busy_state : gsmd := foldl after_round started events.

Definition round_ok (s : gsmd) (evs : list ready) : bool :=
  forallb (asked s) evs && match gsmd_select_main evs s with Ret _ _ => true | Stop _ => false end.

Lemma reach_round cf s evs : reachable cf s → round_ok s evs = true → reachable cf (after_round s evs).
Proof.
  intros Hs [Ha Hr]%andb_true_iff. apply (reach_step _ s); [done|]. apply (step_select _ evs).
  - apply Forall_forall. intros e He. rewrite forallb_forall in Ha. by apply Ha, list_elem_of_In.
  - unfold after_round. by destruct (gsmd_select_main evs s) as [[] ?|].
Qed.

Lemma busy_reachable : reachable cfg busy_state.
Proof.
  unfold busy_state, events. cbn [foldl].
  do 3 (apply reach_round; [|vm_compute; reflexivity]). exact started_reachable.
Qed.

Lemma reachable_invariant_witness :
  (∃ gu, gu ∈ users busy_state ∧ user_of (CtxUser 5) busy_state = Ret gu busy_state).
Proof.
  destruct (reachable_invariant cfg busy_state busy_reachable) as (_ & H & _).
  set (cmd := List.last (pending_atcmds busy_state) (List.hd (Atcmd 0 CtxNull None 0 0 0 None discard_timer 0 [])
    (pending_atcmds busy_state))).
  specialize (H cmd 5). assert (ac_ctx cmd = CtxUser 5) as E by (vm_compute; reflexivity).
  rewrite <- E. apply H; [|exact E]. apply (list_elem_of_lookup_2 _ 3). vm_compute. reflexivity.
Defined.

Lemma select_main_serves_witness :
  gsmd_select_main [R_sock true] busy_state = serve [R_sock true] (gsmd_fds busy_state) busy_state.
Proof. apply (select_main_serves cfg busy_state [R_sock true] busy_reachable). Defined.

(** Five minutes later the inquiry is due. *)
Definition later : gsmd := set_clock (TV 400 0) busy_state.
Lemma later_reachable : reachable cfg later.
Proof. eapply reach_step; [exact busy_reachable | apply step_time]. Qed.

Definition due (s : gsmd) : list (gsmd_timer timer_cb) :=
  filter (λ t, expired (clock s) t = true) (timer_list s).

Lemma daemon_alarm_witness :
  length (due later) = 1%nat ∧
  gsmd_timer_check_n_run (timer_fuel later) later =
  (fire_all (due later);; calc_next_expiration;; mret tt) later.
Proof.
  split; [vm_compute; reflexivity|]. apply (proj1 (daemon_alarm cfg later later_reachable)).
Defined.
End Examples.
