(* ===== verification/Wakeup.v ===== *)
(** * Waking the queue up (atcmd.c 143-472, 551-751)

    [GSMD_FD_WRITE] on the UART is how the daemon remembers that a command waits to
    be sent: when it is cleared too early, the queue stalls.  The operations that
    keep it right, and two that do not. *)

From S2P Require Import Prelude CString Enums Wire LLParse Timers State Queue Events OpCache.
From S2P Require Import SmsCb Unsolicited Vendor UsockCb Main AtCmd Engine Usock Daemon.

(** The first line of the command has been sent, with its newline, and the modem has not
    asked for the next one yet. *)
Definition at_prompt (c : gsmd_atcmd) : bool :=
  (0 <? ac_cur c)%nat && bool_decide (ac_buf c !! (ac_cur c - 1)%nat = Some LF).

(** While nothing is executing, a command that is waiting will be written, or written on, as
    soon as the UART allows, unless it waits for the modem's prompt. *)
Definition awake (s : gsmd) : Prop :=
  busy_atcmds s = [] → ∀ c l, pending_atcmds s = c :: l → uart_write s = true ∨ at_prompt c = true.

Definition wrel (s s' : gsmd) : Prop := awake s → awake s'.

#[export] Instance wrel_preorder : PreOrder wrel.
Proof. split; [intros s H; exact H | intros s t u H1 H2 H; by apply H2, H1]. Qed.

Lemma wrel_same s s' : busy_atcmds s' = busy_atcmds s → pending_atcmds s' = pending_atcmds s →
  uart_write s' = uart_write s → wrel s s'.
Proof. unfold wrel, awake. by intros -> -> ->. Qed.

#[export] Instance wrel_effects d : Effects d wrel.
Proof.
  split; try by typeclasses eauto.
  all: try by intros; apply wrel_same.
  intros c _. apply keeps_append_run. intros s _ Hb c' l _. left. cbn in *. rewrite Hb.
  by rewrite orb_true_r.
Qed.
#[export] Instance wrel_timers d : TimerEffects d wrel.
Proof. split; [typeclasses eauto | by intros; apply wrel_same..]. Qed.
#[export] Instance wrel_line : LineEffects wrel.
Proof.
  split; [typeclasses eauto| |by intros; apply wrel_same..|].
  - intros f s Hf Hs Hb. cbn in Hb. apply Hs. by destruct (busy_atcmds s).
  - intros s _ _ c l _. by left.
Qed.
#[export] Instance wrel_engine : EngineEffects wrel.
Proof.
  split; [typeclasses eauto|]. apply keeps_finish_run. intros s _ Hb c l Hp. cbn in *. left.
  rewrite Hb, Hp. cbn. by rewrite orb_true_r.
Qed.
#[export] Instance wrel_rearm : RearmEffects wrel.
Proof. split; [typeclasses eauto | by intros; apply wrel_same]. Qed.

(** Cancelling puts the new command first, but only behind an executing one. *)
#[export] Instance wrel_handler d : HandlerEffects d wrel.
Proof.
  split; [typeclasses eauto|]. intros c Hc s rc s'. unfold cancel_atcmd. run.
  destruct (busy_atcmds s) as [|cur rest] eqn:Hb.
  - intros H. apply (keeps_atcmd_submit (d := d) (R := wrel)) in H; done.
  - intros (? & s1 & [_ <-]%Ret_inj & H0)%bind_Ret Hs. revert H0. run. intros H.
    apply (keeps_atcmd_done (R := wrel)) in H. apply H. intros Hb'. cbn in Hb'. by rewrite Hb in Hb'.
Qed.

(** ** Writing *)

(** The [write] of the command's line fails or accepts at least one byte, and of the last line
    not all bytes but one. *)
Definition write_moves (room : Z) (s : gsmd) : Prop :=
  ∀ pos l, pending_atcmds s = pos :: l →
    let '(cr, len) := next_line pos in
    uart_write_rc room len ≠ 0 ∧ (cr = false → uart_write_rc room len ≠ len - 1).

Lemma strchr_before s c r : strchr s c = Some r → (length s - length r = length (before s c))%nat.
Proof. intros [E _]%strchr_split. rewrite E at 1. rewrite length_app. lia. Qed.

(** A line that is written whole ends with the newline. *)
Lemma line_written pos len : next_line pos = (true, len) → at_prompt (set_progress (len + 1) pos) = true.
Proof.
  unfold next_line. destruct (strchr (ac_rest pos) LF) as [r|] eqn:E; [|done]. intros [= <-].
  rewrite (strchr_before _ _ _ E). apply strchr_split in E as (E & t & ->). unfold at_prompt.
  cbn [set_progress ac_cur ac_buf]. apply andb_true_iff. split; [apply Nat.ltb_lt; lia|]. apply bool_decide_eq_true.
  replace (_ - 1)%nat with (ac_cur pos + length (before (ac_rest pos) LF))%nat by lia.
  rewrite <- lookup_drop. unfold ac_rest in *. revert E. generalize (before (until0 (drop (ac_cur pos) (ac_buf pos))) LF).
  generalize (drop (ac_cur pos) (ac_buf pos)). intros d w E.
  assert (∀ d i x, until0 d !! i = Some x → d !! i = Some x) as H.
  { clear. induction d as [|c d IH]; intros i x; cbn; [done|]. case_match; [done|]. destruct i; [done|]. apply IH. }
  apply H. rewrite E. by apply list_lookup_middle.
Qed.

Lemma busy_awake s : busy_atcmds s ≠ [] → awake s.
Proof. by intros H ?. Qed.

Lemma start_waiting_busy pos s a s' : start_waiting pos s = Ret a s' → busy_atcmds s' ≠ [].
Proof.
  unfold start_waiting. intros (o & s1 & _ & [_ <-]%Ret_inj)%bind_Ret. cbn. by destruct (busy_atcmds s1).
Qed.

Lemma write_first_awake room cr_sent pos l s rc s' : pending_atcmds s = pos :: l → uart_write s = true →
  write_moves room s → write_first room cr_sent pos s = Ret rc s' → awake s'.
Proof.
  intros Hp Hw Hm. specialize (Hm pos l Hp). unfold write_first. destruct (next_line pos) as [cr len] eqn:En.
  destruct Hm as [Hn Hlast]. set (n := uart_write_rc room len) in *. destruct (Z.eqb_spec n 0); [done|].
  destruct (Z.ltb_spec n 0) as [|Hpos]; [intros [_ <-]%Ret_inj; intros ? ? ? ?; by left|].
  assert (n ≤ len) as Hle by (unfold n, uart_write_rc in *; destruct (_ <? _); lia).
  set (rc' := if negb cr || (n =? len) then n + 1 else n). set (pos' := set_progress rc' pos). intros (? & s1 & [_ <-]%Ret_inj & H)%bind_Ret. revert H. run.
  cbn [pending_atcmds set_uart_out]. rewrite Hp. cbn [on_first].
  intros (? & s3 & H3 & H)%bind_Ret.
  assert (pending_atcmds s3 = pos' :: l ∧ uart_write s3 = true) as [Hp3 Hw3] by (destruct cr_sent; by apply Ret_inj in H3 as [_ <-]).
  assert (cr = false → ac_buflen pos = len + 1) as Hlen.
  { intros ->. unfold next_line in En. destruct (strchr _ _); [done|]. injection En as <-. lia. }
  destruct (Z.eqb_spec (ac_buflen pos') 0) as [_|Hrest].
  { apply bind_Ret in H as (? & s4 & H4%start_waiting_busy & H). apply bind_Ret in H as (? & ? & [_ <-]%Ret_inj & [_ <-]%Ret_inj).
    by apply busy_awake. }
  destruct (Z.ltb_spec rc' len) as [|Hge]; [apply Ret_inj in H as [_ <-]; intros _ c l' _; by left|].
  apply bind_Ret in H as (? & ? & [_ <-]%Ret_inj & [_ <-]%Ret_inj).
  intros _ c l'. cbn. rewrite Hp3. intros [= <- <-]. right. unfold pos', rc' in *. destruct cr; cbn [negb orb] in *.
  - destruct (Z.eqb_spec n len) as [->|]; [|lia]. by apply line_written.
  - specialize (Hlast eq_refl). specialize (Hlen eq_refl). cbn [set_progress ac_buflen] in Hrest. lia.
Qed.

Lemma write_pending_awake room cr s rc s' : write_moves room s → uart_write s = true →
  write_pending room cr s = Ret rc s' → wrel s s'.
Proof.
  intros Hm Hw. unfold write_pending. run. destruct (interpreter_ready s); [|by intros [_ <-]%Ret_inj].
  destruct (pending_atcmds s) as [|pos l] eqn:Hp.
  - intros (? & ? & [_ <-]%Ret_inj & [_ <-]%Ret_inj)%bind_Ret _ _ c l. cbn. by rewrite Hp.
  - intros H _. by eapply write_first_awake.
Qed.

(** ** A client that goes away *)

Definition sticky (s s' : gsmd) : Prop := uart_write s = true → uart_write s' = true.
#[export] Instance sticky_preorder : PreOrder sticky.
Proof. split; [intros s H; exact H | intros s t u H1 H2 H; by apply H2, H1]. Qed.
#[export] Instance sticky_effects d : Effects d sticky.
Proof.
  split; try by typeclasses eauto.
  all: try by intros; unfold sticky; cbn.
  intros c _. apply keeps_append_run. intros s H. cbn. by rewrite H.
Qed.
#[export] Instance sticky_engine : EngineEffects sticky.
Proof.
  split; [split; [split; [typeclasses eauto|..]|..]|]; try by intros; unfold sticky; cbn.
  apply keeps_finish_run. intros s H. cbn. by rewrite H.
Qed.

(** The command at the head is not one of this client's that waits for the prompt. *)
Definition not_prompted (r : Z) (s : gsmd) : Prop :=
  ∀ c l, pending_atcmds s = c :: l → ac_ctx c = CtxUser r → at_prompt c = false.

Lemma terminate_awake r s n s' : atcmd_terminate_matching (CtxUser r) s = Ret n s' →
  not_prompted r s → busy_atcmds s = [] → awake s → awake s'.
Proof.
  intros H Hn Hb Hs. pose proof H as (_ & Eb & new & Ep & _)%terminate_run; [|done..].
  assert (sticky s s') as Hst.
  { revert H. assert (keeps sticky (atcmd_terminate_matching (CtxUser r))) as K; [|apply K].
    apply (keeps_terminate (d := CtxNull) _); intros t H; exact H. }
  intros Hb' c' l' Hp'. destruct (pending_atcmds s) as [|c l] eqn:Hp.
  { revert H. unfold atcmd_terminate_matching. run. rewrite Hb. cbn [shut_down_all]. run.
    cbn [set_busy_atcmds pending_atcmds]. rewrite Hp. cbn [shut_down_all]. run. intros [_ <-]%Ret_inj.
    cbn in Hp'. rewrite Hp in Hp'. done. }
  destruct (Hs Hb c l Hp) as [Hw|Hc]; [left; by apply Hst|]. right.
  assert (ac_ctx c ≠ CtxUser r) as Hr by (intros E; by rewrite (Hn c l) in Hc).
  rewrite filter_cons_True in Ep by done. rewrite Ep in Hp'. by injection Hp' as <- _.
Qed.

Lemma disconnect_awake r s rc s' : not_prompted r s → user_read r RCV_eof s = Ret rc s' → wrel s s'.
Proof.
  unfold user_read. intros Hn (n & s1 & H & ([] & s2 & [_ <-]%Ret_inj & [_ <-]%Ret_inj)%bind_Ret)%bind_Ret Hs.
  apply (wrel_same s1); [done..|]. destruct (busy_atcmds s) as [|c l] eqn:Hb.
  - by eapply terminate_awake.
  - apply busy_awake. apply terminate_run in H as (_ & -> & _); [|done..]. by rewrite Hb.
Qed.

(** ** The loop

    What is asked of the system calls and of the clients: the writes make progress, and no
    client goes away while its command waits for the prompt. *)
Definition lets_through (e : ready) (s : gsmd) : Prop :=
  match e with
  | R_uart None (Some (room, _)) => write_moves room s
  | R_uart (Some (chunks, RD_eof)) (Some (room, _)) => ∀ s', read_loop chunks s = Ret None s' → write_moves room s'
  | R_user r (Some RCV_eof) _ => not_prompted r s
  | _ => True
  end.

(** ... of each event of a round, when its callback runs. *)
Fixpoint smooth_round (evs : list ready) (fds : list gsmd_fd) (s : gsmd) : Prop :=
  match fds with
  | [] => True
  | ufd :: fds' =>
      match find (λ e, bool_decide (ready_fd e = ufd)) evs with
      | Some e => lets_through e s ∧ ∀ s', fd_cb e s = Ret tt s' → smooth_round evs fds' s'
      | None => smooth_round evs fds' s
      end
  end.

(** The states the daemon reaches by the steps of [Daemon.step] when all rounds are smooth. *)
Inductive smooth_step (s : gsmd) : gsmd → Prop :=
  | smooth_select evs s' : Forall (λ e, asked s e = true) evs → smooth_round evs (gsmd_fds s) s →
      gsmd_select_main evs s = Ret tt s' → smooth_step s s'
  | smooth_alarm s' : gsmd_timer_check_n_run (timer_fuel s) s = Ret tt s' → smooth_step s s'
  | smooth_time t : smooth_step s (set_clock t s)
  | smooth_memory l : smooth_step s (set_oracle l s).

Inductive smooth (cf : config) : gsmd → Prop :=
  | smooth_start t l s : gsmd_main cf (boot t l) = Ret tt s → smooth cf s
  | smooth_go s s' : smooth cf s → smooth_step s s' → smooth cf s'.

Lemma smooth_reachable cf s : smooth cf s → reachable cf s.
Proof.
  induction 1 as [t l s H|s s' _ IH H]; [by apply (reach_start _ t l)|]. apply (reach_step _ s); [done|].
  destruct H; [by eapply step_select|by apply step_alarm|apply step_time|apply step_memory].
Qed.

Lemma keeps_fire_all_awake l : keeps wrel (fire_all l).
Proof. induction l as [|t l IH]; cbn [fire_all]; solve_keeps; auto. Unshelve. all: exact CtxNull. Qed.

Lemma keeps_user_awake r rd wr : rd ≠ Some RCV_eof → keeps wrel (gsmd_usock_user_cb r rd wr).
Proof.
  intros Hrd. unfold gsmd_usock_user_cb, user_read, user_write. destruct rd as [[| |m]|]; [done|..].
  all: solve_keeps; try (apply keeps_modify; by intros; apply wrel_same). Unshelve. all: exact CtxNull.
Qed.

Lemma fd_cb_awake e s s' : lets_through e s → (∀ rd wr, e = R_uart rd wr → asked s e = true) →
  fd_cb e s = Ret tt s' → wrel s s'.
Proof.
  intros He Hask H. destruct e as [rd wr|acc|r rd wr]; cbn [fd_cb] in H; apply bind_Ret in H as (rc & s1 & H & [_ <-]%Ret_inj).
  - specialize (Hask rd wr eq_refl). unfold atcmd_select_cb in H. destruct rd as [[chunks fin]|].
    + apply bind_Ret in H as (r & s2 & H1 & H). etrans.
      { apply (keeps_read_loop wrel) in H1; [exact H1|by intros; apply wrel_same]. }
      destruct r; [by apply Ret_inj in H as [_ <-]|]. destruct fin; try by apply Ret_inj in H as [_ <-].
      destruct wr as [[room cr]|]; [|by apply Ret_inj in H as [_ <-]]. cbn in Hask. eapply write_pending_awake; [by apply He| |exact H].
      apply (keeps_read_loop sticky) in H1; [by apply H1|by intros ? ? ?].
    + destruct wr as [[room cr]|]; [|by apply Ret_inj in H as [_ <-]]. by eapply write_pending_awake.
  - unfold gsmd_usock_cb in H. revert H.
    match goal with |- ?m _ = _ → _ => enough (keeps wrel m) as K by apply K end.
    solve_keeps. apply keeps_modify. by intros; apply wrel_same. Unshelve. all: exact CtxNull.
  - assert (rd = Some RCV_eof ∨ rd ≠ Some RCV_eof) as [->|Hrd] by (destruct rd as [[]|]; auto).
    + unfold gsmd_usock_user_cb in H. apply bind_Ret in H as (? & s2 & H & [_ <-]%Ret_inj).
      by eapply disconnect_awake.
    + assert (keeps wrel (gsmd_usock_user_cb r rd wr)) as K by by apply keeps_user_awake.
      by eapply K.
Qed.

(** The UART comes first in a round, as [select] saw it. *)
Lemma serve_awake evs fds s s' : (∀ rd wr, R_uart rd wr ∈ evs → FD_uart ∈ fds → asked s (R_uart rd wr) = true ∧ head fds = Some FD_uart) →
  NoDup fds → smooth_round evs fds s → serve evs fds s = Ret tt s' → wrel s s'.
Proof.
  revert s. induction fds as [|ufd fds IH]; intros s Hask Hnd Hs; cbn [serve]; [by intros [_ <-]%Ret_inj|].
  apply NoDup_cons in Hnd as [Hn Hnd]. intros ([] & s1 & H1 & H)%bind_Ret. cbn [smooth_round] in Hs.
  assert (∀ rd wr t, R_uart rd wr ∈ evs → FD_uart ∈ fds → asked t (R_uart rd wr) = true ∧ head fds = Some FD_uart) as Hlater.
  { intros rd wr t Hin Hfd. destruct (Hask rd wr Hin) as [_ [= ->]]; [by right|done]. }
  destruct (find _ evs) as [e|] eqn:He.
  - destruct Hs as [Hl Hs]. etrans; [|apply (IH s1); [|done|by apply Hs|done]; intros rd wr; by apply Hlater].
    pose proof (find_ready _ _ _ He) as Hr. apply find_some in He as [Hin%list_elem_of_In _].
    eapply fd_cb_awake; [done| |done]. intros rd wr ->. apply (Hask rd wr); [done|]. cbn in Hr. subst. by left.
  - apply Ret_inj in H1 as [_ <-]. apply (IH s); [|done|done|done]. intros rd wr. by apply Hlater.
Qed.

Lemma smooth_step_awake cf s s' : reachable cf s → smooth_step s s' → wrel s s'.
Proof.
  intros Hre%reachable_wf [evs s1 Ha Hs H|s1 H|t|l]; [| |by apply wrel_same..].
  - unfold gsmd_select_main in H. revert H. run. rewrite select_loop_serve; [|done|apply gsmd_fds_nodup, Hre|by apply Forall_forall].
    apply serve_awake; [|apply gsmd_fds_nodup, Hre|done]. intros rd wr Hin _. split; [|done].
    by apply (proj1 (Forall_forall _ _) Ha).
  - rewrite check_n_run_daemon in H by apply Hre. apply bind_Ret in H as ([] & s2 & H1 & H).
    etrans; [by eapply keeps_fire_all_awake|]. by_keeps wrel H.
Qed.

Lemma main_awake cf t l s : gsmd_main cf (boot t l) = Ret tt s → awake s.
Proof.
  unfold gsmd_main. destruct (gsmd_machine_plugin_init _ _ _) as [mname vnames].
  destruct (machine_of_name mname) as [pl|]; [|done].
  match goal with |- ?m _ = _ → _ => enough (keeps wrel m) as K by (intros H; by apply K in H; apply H) end.
  assert (∀ l, keeps wrel (vendor_find_loop l)) as Hv.
  { intros vs. induction vs as [|v vs IH]; cbn [vendor_find_loop]; [solve_keeps|].
    unfold vendor_detect, qc_detect. solve_keeps; first [done | apply keeps_modify; by intros; apply wrel_same]. }
  assert (keeps wrel atcmd_init) as Hi by (apply keeps_modify; intros s0 _ _ c l0; done).
  unfold gsmd_machine_plugin_find, machine_init, gsmd_vendor_plugin_find, gsmd_opname_init, uart_put.
  solve_keeps; try apply (keeps_unsolicited_init (d := CtxNull)); auto; try (apply keeps_modify; by intros; apply wrel_same).
  Unshelve. all: exact CtxNull.
Qed.

(** [C3] No lost wake-up: from its start on, whatever the rounds of the loop, the alarms, the
    clock and the allocator do, while a command waits and none is executing the UART is polled
    for writing, unless the first line of the command was sent and the modem has not yet asked
    for the next.  Provided that each write takes at least one byte of its line, and of a
    last line not all but one ([short_write] shows what happens then), or fails; and that no
    client goes away while its command waits for the prompt ([disconnect_stalls]). *)
Theorem no_lost_wakeup cf s : smooth cf s → awake s.
Proof.
  induction 1 as [t l s H | s s' Hs IH H]; [by eapply main_awake|].
  eapply smooth_step_awake; [by apply smooth_reachable|done|done].
Qed.

Module Examples.
Import Daemon.Examples.

(** The daemon on a machine without a plugin of its own, after the modem has
    answered every command of the set-up. *)
Definition generic : config := Config [] (Some (b "generic")) (Some (b "telit")) None 0.
Definition fresh_start : gsmd :=
  match gsmd_main generic (boot (TV 100 0) []) with Ret _ s => s | Stop _ => boot (TV 0 0) [] end.
Definition write_it : list ready := [R_uart None (Some (1000, true))].
Definition line (l : list Z) : list ready := [R_uart (Some ([frame l], RD_again)) None].
Definition answered (s : gsmd) : gsmd := after_round (after_round s write_it) (line (b "OK")).
Definition set_up : gsmd := Nat.iter 14 answered fresh_start.

(** A client's request, as bytes. *)
Definition passthrough (text : list Z) : list Z :=
  [GSMD_PROTO_VERSION; GSMD_MSG_PASSTHROUGH; 1; 0; 7; 0; Z.of_nat (length text) + 1; 0] ++ text ++ [0].
Definition two_lines : list Z := b "AT+CMGS=4" ++ [LF] ++ b "0011".
Definition get_manuf : list Z := [GSMD_PROTO_VERSION; GSMD_MSG_PHONE; GSMD_PHONE_GET_MANUF] ++ replicate 5 0.
Definition ask (r : Z) (m : list Z) : list ready := [R_user r (Some (RCV_data m)) None].
Definition hang_up (r : Z) : list ready := [R_user r (Some RCV_eof) None].
Definition two_clients : gsmd := foldl after_round set_up [[R_sock true]; [R_sock true]].

(** A message's first line is written and its client goes away, another command waiting. *)
Definition stalled : gsmd :=
  foldl after_round two_clients [ask 30 (passthrough two_lines); ask 31 get_manuf; write_it; hang_up 30].

(** A message's first line is written, and then another client asks for something. *)
Definition hurried : gsmd :=
  foldl after_round two_clients [ask 30 (passthrough two_lines); write_it; ask 31 get_manuf; write_it].

Lemma fresh_start_reachable : reachable generic fresh_start.
Proof. apply (reach_start _ (TV 100 0) []). vm_compute. reflexivity. Qed.

Fixpoint rounds_ok (s : gsmd) (l : list (list ready)) : bool :=
  match l with [] => true | evs :: l' => round_ok s evs && rounds_ok (after_round s evs) l' end.

Lemma reach_rounds cf l : ∀ s, reachable cf s → rounds_ok s l = true → reachable cf (foldl after_round s l).
Proof.
  induction l as [|evs l IH]; intros s Hs; [done|]. cbn [rounds_ok foldl]. intros [H1 H2]%andb_true_iff.
  apply IH; [by apply reach_round|done].
Qed.

Definition set_up_rounds : list (list ready) := concat (replicate 14 [write_it; line (b "OK")]).

Lemma two_clients_reachable : reachable generic two_clients.
Proof.
  assert (two_clients = foldl after_round fresh_start (set_up_rounds ++ [[R_sock true]; [R_sock true]])) as ->
    by (vm_compute; reflexivity).
  apply reach_rounds; [exact fresh_start_reachable | vm_compute; reflexivity].
Qed.
End Examples.

Definition is_stalled (s : gsmd) : bool :=
  is_empty (busy_atcmds s) && negb (uart_write s) &&
  match pending_atcmds s with c :: _ => negb (at_prompt c) | [] => false end.

Lemma stalled_not_awake s : is_stalled s = true → ¬ awake s.
Proof.
  unfold is_stalled, awake. destruct (busy_atcmds s); [|done]. destruct (pending_atcmds s) as [|c l]; [by rewrite andb_false_r|].
  destruct (uart_write s); [done|]. intros Hc%negb_true_iff H. destruct (H eq_refl c l eq_refl); congruence.
Qed.

(** A client that goes away after the first line of its message was written, and
    before the prompt, stalls the queue: a command of another client waits, nothing
    is executing, and the UART is not polled for writing. *)
Theorem disconnect_stalls :
  reachable Examples.generic Examples.stalled ∧ ¬ awake Examples.stalled.
Proof.
  split.
  - apply Examples.reach_rounds; [exact Examples.two_clients_reachable | vm_compute; reflexivity].
  - apply stalled_not_awake. vm_compute. reflexivity.
Qed.

(** While a message waits for the modem's prompt nothing is executing, so any
    request wakes the queue up, and the text of the message is written although the
    modem has not asked for it. *)
Theorem text_before_prompt :
  reachable Examples.generic Examples.hurried ∧
  (∃ sent, uart_out Examples.hurried = sent ++ b "AT+CMGS=4" ++ [CR] ++ b "0011" ++ [CR]).
Proof.
  split.
  - apply Examples.reach_rounds; [exact Examples.two_clients_reachable | vm_compute; reflexivity].
  - exists (uart_out Examples.two_clients). vm_compute. reflexivity.
Qed.

Module Witnesses.
Import Daemon.Examples Wakeup.Examples.

(** A round in which only the UART is ready for writing. *)
Lemma smooth_write s : write_moves 1000 s → smooth_round write_it (gsmd_fds s) s.
Proof.
  intros H. unfold gsmd_fds. cbn. split; [exact H|]. intros s' _. generalize (reverse (user_refs s)). intros us.
  by induction us.
Qed.

Lemma moves_first s : match pending_atcmds s with
    | pos :: _ => let '(cr, len) := next_line pos in
        negb (uart_write_rc 1000 len =? 0) && (cr || negb (uart_write_rc 1000 len =? len - 1))
    | [] => true end = true → write_moves 1000 s.
Proof.
  intros H pos l Hp. rewrite Hp in H. destruct (next_line pos) as [cr len]. apply andb_true_iff in H as [H1 H2].
  apply negb_true_iff, Z.eqb_neq in H1. split; [done|]. intros ->. by apply negb_true_iff, Z.eqb_neq in H2.
Qed.

(** The daemon starts, the first command is written and is not answered, time passes, and the
    alarm discards the command. *)
Definition written : gsmd := after_round fresh_start write_it.
Definition later : gsmd := set_clock (TV 400 0) written.
Definition discarded : gsmd :=
  match gsmd_timer_check_n_run (timer_fuel later) later with Ret _ s => s | Stop _ => later end.

Lemma no_lost_wakeup_witness :
  length (busy_atcmds written) = 1%nat ∧ busy_atcmds discarded = [] ∧ awake fresh_start ∧ awake written ∧ awake discarded.
Proof.
  assert (smooth generic fresh_start) as H by (apply (smooth_start _ (TV 100 0) []); vm_compute; reflexivity).
  assert (smooth generic written) as H1.
  { apply (smooth_go _ _ _ H), (smooth_select _ write_it).
    - constructor; [vm_compute; reflexivity|constructor].
    - apply smooth_write, moves_first. vm_compute. reflexivity.
    - vm_compute. reflexivity. }
  split; [vm_compute; reflexivity|]. split; [vm_compute; reflexivity|].
  split_and!; apply (no_lost_wakeup generic); [exact H|exact H1|].
  apply (smooth_go _ later); [apply (smooth_go _ _ _ H1), smooth_time|]. apply smooth_alarm. vm_compute. reflexivity.
Defined.
End Witnesses.
