(* ===== verification/ClientLib.v ===== *)
(** * The client library's core (src/target/gsm/src/libgsmd: libgsmd.c, libgsmd_event.c, libgsmd_passthrough.c)

    Sending a message to the daemon, taking what the daemon sent apart into
    messages, and the table of handlers those go to.  The handlers of the
    application are a parameter. *)

From S2P Require Import Prelude CString Enums Wire.

(** ** The state *)

(** The library's own handler, or one of the application's, by its name. *)
Inductive msg_handler (A : Type) : Type :=
  | evt_demux_msghandler_ref
  | app_handler (a : A).
Arguments evt_demux_msghandler_ref {A}.
Arguments app_handler {A} a.

(** [struct lgsm_handle] and the static variables of the library; what [send]
    answers, in order (when the list is used up everything is accepted), and what
    went to the socket; the answers of [malloc]; the application's own state. *)
Record lgsm (A W : Type) : Type := Lgsm {
  lh_handler : list (option (msg_handler A));
  netreg_state : Z;
  evt_handlers : list (option A);
  next_msg_id : Z;
  sends : list Z;
  sent : list Z;
  heap : list bool;
  app_state : W }.
Arguments Lgsm {A W}.
Arguments lh_handler {A W}.
Arguments netreg_state {A W}.
Arguments evt_handlers {A W}.
Arguments next_msg_id {A W}.
Arguments sends {A W}.
Arguments sent {A W}.
Arguments heap {A W}.
Arguments app_state {A W}.

(** Storing into a message at an offset. *)
Definition poke (off : nat) (bytes m : list Z) : list Z :=
  take off m ++ bytes ++ drop (off + length bytes) m.

Section client.
Context {A W : Type}.
Abbreviation L := (lgsm A W).

Definition set_handlers (l : list (option (msg_handler A))) (s : L) : L :=
  Lgsm l (netreg_state s) (evt_handlers s) (next_msg_id s) (sends s) (sent s) (heap s) (app_state s).
Definition set_netreg (st : Z) (s : L) : L :=
  Lgsm (lh_handler s) st (evt_handlers s) (next_msg_id s) (sends s) (sent s) (heap s) (app_state s).
Definition set_evt_handlers (l : list (option A)) (s : L) : L :=
  Lgsm (lh_handler s) (netreg_state s) l (next_msg_id s) (sends s) (sent s) (heap s) (app_state s).
Definition set_heap (l : list bool) (s : L) : L :=
  Lgsm (lh_handler s) (netreg_state s) (evt_handlers s) (next_msg_id s) (sends s) (sent s) l (app_state s).

(** A message goes out: [n] bytes of it are accepted. *)
Definition put_sent (bytes : list Z) (s : L) : L :=
  Lgsm (lh_handler s) (netreg_state s) (evt_handlers s) (u16 (next_msg_id s + 1)) (tail (sends s))
    (sent s ++ bytes) (heap s) (app_state s).

(** ** Sending *)

Definition malloc : M L bool :=
  s ← get; modify (set_heap (tail (heap s)));; mret (default true (head (heap s))).

Definition lgsm_gmh_fill (type subtype : Z) (payload_len : nat) : M L (option (list Z)) :=
  ok ← malloc;
  if ok : bool then
    mret (Some ([GSMD_PROTO_VERSION; u8 type; u8 subtype; 0; 0; 0] ++
                le16 (Z.of_nat payload_len) ++ replicate payload_len 0))
  else mret None.

(** What [send] makes of [n] bytes: an error, or a number of bytes accepted. *)
Definition send_rc (answers : list Z) (n : Z) : Z :=
  let r := default n (head answers) in if r <? 0 then -1 else Z.min r n.

(** The result of [send], and the message with its number. *)
Definition lgsm_send (gmh : list Z) : M L (Z * list Z) :=
  s ← get;
  let gmh := poke 4 (le16 (next_msg_id s)) gmh in
  len ← deref (rd16 gmh 6) "no header";
  let n := Z.of_nat sizeof_hdr + len in
  must (n <=? Z.of_nat (length gmh)) "send beyond the message";;
  let rc := send_rc (sends s) n in
  modify (put_sent (take (Z.to_nat rc) gmh));;
  mret (rc, gmh).

(** The test of the result against the length that had to be sent: it is unsigned. *)
Definition less_than_sent (rc n : Z) : bool := u32 rc <? n.

(** The end of most requests, [n] being what the result is compared with. *)
Definition send_checked (n : Z) (gmh : list Z) : M L Z :=
  r ← lgsm_send gmh;
  mret (if less_than_sent (fst r) n then - EIO else 0).

Definition lgsm_send_simple (type sub_type : Z) : M L Z :=
  gmh ← lgsm_gmh_fill type sub_type 0;
  match gmh with
  | None => mret (- ENOMEM)
  | Some gmh => r ← lgsm_send gmh; mret (fst r)
  end.

(** ** The handlers *)

Definition lgsm_register_handler (type : Z) (handler : msg_handler A) : M L Z :=
  if NUM_GSMD_MSGS <=? type then mret (- EINVAL)
  else
    must (0 <=? type) "lh->handler[type]";;
    modify (λ s, set_handlers (<[Z.to_nat type := Some handler]> (lh_handler s)) s);;
    mret 0.

Definition lgsm_unregister_handler (type : Z) : M L unit :=
  if type <? NUM_GSMD_MSGS then
    must (0 <=? type) "lh->handler[type]";;
    modify (λ s, set_handlers (<[Z.to_nat type := None]> (lh_handler s)) s)
  else mret tt.

Definition lgsm_evt_handler_register (evt_type : Z) (handler : A) : M L Z :=
  if NUM_GSMD_EVT <=? evt_type then mret (- EINVAL)
  else
    must (0 <=? evt_type) "evt_handlers[evt_type]";;
    modify (λ s, set_evt_handlers (<[Z.to_nat evt_type := Some handler]> (evt_handlers s)) s);;
    mret 0.

Definition lgsm_evt_handler_unregister (evt_type : Z) : M L unit :=
  if evt_type <? NUM_GSMD_EVT then
    must (0 <=? evt_type) "evt_handlers[evt_type]";;
    modify (λ s, set_evt_handlers (<[Z.to_nat evt_type := None]> (evt_handlers s)) s)
  else mret tt.

Definition LGSM_NETREG_ST_NOTREG : Z := 0.

Definition lgsm_evt_init : M L Z :=
  modify (set_netreg LGSM_NETREG_ST_NOTREG);;
  lgsm_register_handler GSMD_MSG_EVENT evt_demux_msghandler_ref.

Definition lgsm_evt_exit : M L unit := lgsm_unregister_handler GSMD_MSG_EVENT.

(** ** Receiving

    The application's handlers: of a message, given its bytes, and of an event, given
    its number and its data. *)

Variable app_msg : A → list Z → M L Z.
Variable app_evt : A → Z → list Z → M L Z.

Definition evt_demux_msghandler (gmh : list Z) : M L Z :=
  h ← deref (dec_hdr gmh) "no header";
  let aux := drop sizeof_hdr gmh in
  if h_len h <? Z.of_nat sizeof_evt_auxdata then mret (- EIO)
  else if negb (h_msg_type h =? GSMD_MSG_EVENT) || (NUM_GSMD_EVT <=? h_msg_subtype h)
  then mret (- EINVAL)
  else
    (if h_msg_subtype h =? GSMD_EVT_NETREG then
       st ← deref (rd32 aux 0) "aux->u.netreg.state beyond the message"; modify (set_netreg st)
     else mret tt);;
    s ← get;
    handler ← deref (evt_handlers s !! Z.to_nat (h_msg_subtype h)) "evt_handlers[gmh->msg_subtype]";
    match handler with
    | Some a => app_evt a (h_msg_subtype h) aux
    | None => mret 0
    end.

Definition run_handler (handler : msg_handler A) (gmh : list Z) : M L Z :=
  match handler with
  | evt_demux_msghandler_ref => evt_demux_msghandler gmh
  | app_handler a => app_msg a gmh
  end.

(** [buf] is what follows in memory, of which [len] bytes were received. *)
Fixpoint packet_loop (fuel : nat) (buf : list Z) (len rc : Z) : M L Z :=
  match fuel with
  | O => undefined "out of fuel"
  | S f =>
      if len =? 0 then mret rc
      else if u32 len <? Z.of_nat sizeof_hdr then mret (- EINVAL)
      else
        h ← deref (dec_hdr buf) "read beyond the packet";
        let n := Z.of_nat sizeof_hdr + h_len h in
        if u32 (len - Z.of_nat sizeof_hdr) <? h_len h then mret (- EINVAL)
        else if NUM_GSMD_MSGS <=? h_msg_type h then mret (- EINVAL)
        else
          s ← get;
          handler ← deref (lh_handler s !! Z.to_nat (h_msg_type h)) "lh->handler[gmh->msg_type]";
          rc' ← match handler with
                | Some handler => run_handler handler (take (Z.to_nat n) buf)
                | None => mret 0
                end;
          packet_loop f (drop (Z.to_nat n) buf) (s32 (len - n)) (Z.lor rc rc')
  end.

Definition lgsm_handle_packet (buf : list Z) (len : Z) : M L Z :=
  packet_loop (S (length buf)) buf len 0.

(** ** Waiting for an answer *)

(** What comes next: [select] or [read] fail or find the end of the file, or bytes. *)
Inductive arrival : Type := ARR_fail (rc : Z) | ARR_data (l : list Z).

(** [None]: still waiting when all that arrived is read.  [gmh] is the buffer, of
    [rlen] bytes. *)
Fixpoint lgsm_blocking_wait_packet (id : Z) (gmh : list Z) (arr : list arrival)
    : M L (option (Z * list Z)) :=
  match arr with
  | [] => mret None
  | ARR_fail rc :: _ => mret (Some (rc, gmh))
  | ARR_data l :: arr' =>
      let l := take (length gmh) l in
      let gmh := l ++ drop (length l) gmh in
      gid ← deref (rd16 gmh 4) "no header";
      if gid =? id then mret (Some (Z.of_nat (length l), gmh))
      else
        lgsm_handle_packet gmh (Z.of_nat (length l));;
        lgsm_blocking_wait_packet id gmh arr'
  end.

(** ** Passing a command through *)

Definition PT_BUF_SIZE : nat := 1024.

(** A text of exactly 1024 bytes is let through and its NUL does not fit. *)
Definition lgsm_passthrough_send (tx : list Z) : M L Z :=
  let len := length tx in
  if (PT_BUF_SIZE <? len)%nat then mret (- EINVAL)
  else
    must (len <? PT_BUF_SIZE)%nat "strcpy beyond passthrough_buf";;
    r ← lgsm_send ([GSMD_PROTO_VERSION; GSMD_MSG_PASSTHROUGH; GSMD_PASSTHROUGH_REQ; 0; 0; 0] ++
                   le16 (Z.of_nat (len + 1)) ++ tx ++ [0]);
    if less_than_sent (fst r) (Z.of_nat (len + sizeof_hdr)) then mret (- EIO)
    else deref (rd16 (snd r) 4) "no header".

(** The result and what is in [rx], of [rx_len] bytes: [None] while waiting. *)
Definition lgsm_passthrough (tx : list Z) (rx : mem) (rbuf : list Z) (arr : list arrival)
    : M L (option (Z * mem)) :=
  rc ← lgsm_passthrough_send tx;
  if rc <? 0 then mret (Some (rc, rx))
  else
    r ← lgsm_blocking_wait_packet rc rbuf arr;
    match r with
    | None => mret None
    | Some (rc, rgmh) =>
        if rc <=? 0 then mret (Some (rc, rx))
        else if rc <? Z.of_nat sizeof_hdr then mret (Some (- EINVAL, rx))
        else
          len ← deref (rd16 rgmh 6) "no header";
          if rc <? Z.of_nat sizeof_hdr + len then mret (Some (- EINVAL, rx))
          else
            must (0 <? length rx)%nat "rx[--*rx_len]";;
            let rx_len := (length rx - 1)%nat in
            let rx := put rx_len [Some 0] rx in
            let n := Nat.min (Z.to_nat len) rx_len in
            mret (Some (Z.of_nat n, put 0 (known (take n (drop sizeof_hdr rgmh))) rx))
    end.

(** ** The handle *)

(** [opened] is the result of [socket] and [connect]; [false] is NULL.  The static
    variables stay as they are. *)
Definition lgsm_init (device : list Z) (opened : Z) : M L bool :=
  ok ← malloc;
  must ok "memset of NULL";;
  modify (λ s, set_handlers (replicate (Z.to_nat NUM_GSMD_MSGS) None) (set_netreg 0 s));;
  if negb (str_eq device (b "gsmd")) then mret false
  else if opened <? 0 then mret false
  else lgsm_evt_init;; mret true.

(** [read] of one message into the static buffer; nothing calls it. *)
Definition lgsm_get_packet (rd : arrival) : M L Z :=
  match rd with
  | ARR_fail rc => mret rc
  | ARR_data l =>
      v ← deref (rd8 l 0) "buf"; t ← deref (rd8 l 1) "buf";
      if negb (v =? GSMD_PROTO_VERSION) then mret (- EINVAL)
      else if t =? GSMD_MSG_PASSTHROUGH then mret 0 else mret (- EINVAL)
  end.

(** ** Messages in a buffer *)

(** A whole message of a known type. *)
Definition is_message (m : list Z) : Prop :=
  match dec_hdr m with
  | Some h => Z.of_nat (length m) = Z.of_nat sizeof_hdr + h_len h ∧ h_msg_type h < NUM_GSMD_MSGS
  | None => False
  end.

(** What ends the cutting up of a buffer: its end, a part of a message, or a
    message of an unknown type. *)
Definition stops (rest : list Z) : Prop :=
  match dec_hdr rest with
  | Some h => Z.of_nat (length rest) < Z.of_nat sizeof_hdr + h_len h ∨ NUM_GSMD_MSGS ≤ h_msg_type h
  | None => (length rest < sizeof_hdr)%nat
  end.

(** One message goes to the handler of its type at that time. *)
Definition deliver_one (m : list Z) : M L Z :=
  h ← deref (dec_hdr m) "read beyond the packet";
  s ← get;
  handler ← deref (lh_handler s !! Z.to_nat (h_msg_type h)) "lh->handler[gmh->msg_type]";
  match handler with
  | Some handler => run_handler handler m
  | None => mret 0
  end.

Fixpoint deliver (msgs : list (list Z)) (rc : Z) : M L Z :=
  match msgs with
  | [] => mret rc
  | m :: msgs => rc' ← deliver_one m; deliver msgs (Z.lor rc rc')
  end.

Lemma dec_hdr_long buf : (sizeof_hdr ≤ length buf)%nat → Forall is_byte buf →
  ∃ h, dec_hdr buf = Some h ∧ 0 ≤ h_len h < 65536 ∧ 0 ≤ h_msg_type h < 256 ∧
    ∀ n, (sizeof_hdr ≤ n)%nat → dec_hdr (take n buf) = Some h.
Proof.
  unfold sizeof_hdr. intros Hl Hb.
  do 8 (destruct buf as [|? buf]; [cbn in Hl; lia|]).
  repeat (apply Forall_cons in Hb as [? Hb]). unfold is_byte in *.
  eexists. split; [reflexivity|]. cbn [h_len h_msg_type]. split; [lia|]. split; [lia|].
  intros n Hn. do 8 (destruct n as [|n]; [lia|]). reflexivity.
Qed.

Lemma dec_hdr_short buf : (length buf < sizeof_hdr)%nat → dec_hdr buf = None.
Proof.
  unfold sizeof_hdr. intros Hl.
  do 8 (destruct buf as [|? buf]; [reflexivity|]). cbn in Hl. lia.
Qed.

Lemma packet_loop_spec f : ∀ buf, (length buf < f)%nat → Forall is_byte buf →
  Z.of_nat (length buf) ≤ INT_MAX →
  ∃ msgs rest, buf = concat msgs ++ rest ∧ Forall is_message msgs ∧ stops rest ∧
    ∀ rc s, packet_loop f buf (Z.of_nat (length buf)) rc s =
      (rc' ← deliver msgs rc; mret (match rest with [] => rc' | _ => - EINVAL end)) s.
Proof.
  induction f as [|f IH]; intros buf Hf Hb Hmax; [lia|]. unfold INT_MAX in Hmax.
  destruct (decide (length buf < sizeof_hdr)%nat) as [Hs|Hs].
  { exists [], buf. split; [done|]. split; [done|]. split; [unfold stops; by rewrite dec_hdr_short|].
    intros rc s. cbn [packet_loop deliver]. destruct buf as [|c buf]; [done|].
    destruct (Z.eqb_spec (Z.of_nat (length (c :: buf))) 0); [cbn in *; lia|].
    rewrite wrapu_small by lia.
    destruct (Z.ltb_spec (Z.of_nat (length (c :: buf))) (Z.of_nat sizeof_hdr)); [done|lia]. }
  destruct (dec_hdr_long buf ltac:(lia) Hb) as (h & Hh & Hlen & Hty & Htake).
  destruct (decide (Z.of_nat (length buf) < Z.of_nat sizeof_hdr + h_len h ∨ NUM_GSMD_MSGS ≤ h_msg_type h)) as [Hst|Hst].
  { exists [], buf. split; [done|]. split; [done|]. split; [unfold stops; by rewrite Hh|].
    intros rc s. cbn [packet_loop deliver]. run.
    destruct (Z.eqb_spec (Z.of_nat (length buf)) 0); [unfold sizeof_hdr in *; lia|].
    rewrite !wrapu_small by (unfold sizeof_hdr in *; lia).
    destruct (Z.ltb_spec (Z.of_nat (length buf)) (Z.of_nat sizeof_hdr)); [lia|]. rewrite Hh. run.
    destruct buf as [|c buf]; [done|].
    destruct (Z.ltb_spec (Z.of_nat (length (c :: buf)) - Z.of_nat sizeof_hdr) (h_len h)); [done|].
    destruct (Z.leb_spec NUM_GSMD_MSGS (h_msg_type h)); [done|lia]. }
  set (n := Z.to_nat (Z.of_nat sizeof_hdr + h_len h)).
  assert (n ≤ length buf)%nat as Hn by lia.
  assert (sizeof_hdr ≤ n)%nat as Hn8 by lia.
  destruct (IH (drop n buf)) as (msgs & rest & E & Hm & Hr & Hrun).
  { rewrite length_drop. unfold sizeof_hdr in *. lia. }
  { by apply Forall_drop. }
  { rewrite length_drop. unfold INT_MAX. lia. }
  exists (take n buf :: msgs), rest. cbn [concat]. rewrite <- app_assoc, <- E, take_drop.
  split; [done|]. split; [|split; [done|]].
  { constructor; [|done]. unfold is_message. rewrite (Htake n Hn8), length_take. lia. }
  intros rc s. cbn [packet_loop deliver]. run.
  destruct (Z.eqb_spec (Z.of_nat (length buf)) 0); [unfold sizeof_hdr in *; lia|].
  rewrite !wrapu_small by (unfold sizeof_hdr in *; lia).
  destruct (Z.ltb_spec (Z.of_nat (length buf)) (Z.of_nat sizeof_hdr)); [lia|]. rewrite Hh. run.
  destruct (Z.ltb_spec (Z.of_nat (length buf) - Z.of_nat sizeof_hdr) (h_len h)); [lia|].
  destruct (Z.leb_spec NUM_GSMD_MSGS (h_msg_type h)); [lia|]. fold n.
  unfold deliver_one. rewrite (Htake n Hn8). run.
  destruct (lh_handler s !! Z.to_nat (h_msg_type h)) as [handler|]; [|done]. run.
  apply bind_ext. intros rc' s' _. rewrite wraps_small by (unfold sizeof_hdr in *; lia).
  replace (Z.of_nat (length buf) - (Z.of_nat sizeof_hdr + h_len h)) with (Z.of_nat (length (drop n buf)))
    by (rewrite length_drop; lia).
  apply Hrun.
Qed.

(** [C28] Whatever bytes arrive, the library cuts them into the longest sequence of whole
    messages of known types and gives each, in order, to the handler its type has
    at that moment; the results are combined bit by bit.  A part of a message, or a
    message of an unknown type, ends it with an error, and the bytes from there on
    are lost. *)
Theorem handle_packet_messages buf : Forall is_byte buf → Z.of_nat (length buf) ≤ INT_MAX →
  ∃ msgs rest, buf = concat msgs ++ rest ∧ Forall is_message msgs ∧ stops rest ∧
    ∀ s, lgsm_handle_packet buf (Z.of_nat (length buf)) s =
      (rc ← deliver msgs 0; mret (match rest with [] => rc | _ => - EINVAL end)) s.
Proof.
  intros Hb Hl. destruct (packet_loop_spec (S (length buf)) buf ltac:(lia) Hb Hl)
    as (msgs & rest & E & Hm & Hs & Hrun).
  exists msgs, rest. split_and!; try done. intros s. apply Hrun.
Qed.
(** ** The tables are never left *)

(** Both tables have the size they are declared with. *)
Definition tables_wf (s : L) : Prop :=
  length (lh_handler s) = Z.to_nat NUM_GSMD_MSGS ∧ length (evt_handlers s) = Z.to_nat NUM_GSMD_EVT.

(** The application's handlers return, and keep the tables. *)
Definition app_ok : Prop :=
  (∀ a m s, is_message m → tables_wf s → wp (app_msg a m) s (λ _, tables_wf)) ∧
  (∀ a e d s, 0 ≤ e < NUM_GSMD_EVT → (sizeof_evt_auxdata ≤ length d)%nat → tables_wf s →
     wp (app_evt a e d) s (λ _, tables_wf)).

Lemma wp_deref {B C} (o : option B) why (k : B → M L C) s Q b :
  o = Some b → wp (k b) s Q → wp (deref o why ≫= k) s Q.
Proof. by intros ->. Qed.

Lemma rd32_long l : (4 ≤ length l)%nat → ∃ x, rd32 l 0 = Some x.
Proof. do 4 (destruct l as [|? l]; [cbn; lia|]). intros _. by eexists. Qed.

Lemma dec_hdr_byte_range m h : Forall is_byte m → dec_hdr m = Some h →
  0 ≤ h_msg_type h < 256 ∧ 0 ≤ h_msg_subtype h < 256 ∧ (sizeof_hdr ≤ length m)%nat.
Proof.
  intros Hb Hh. destruct (decide (length m < sizeof_hdr)%nat); [by rewrite dec_hdr_short in Hh|].
  split; [|split; [|lia]]; do 8 (destruct m as [|? m]; [done|]); injection Hh as <-; cbn [h_msg_type h_msg_subtype];
    rewrite !Forall_cons in Hb; unfold is_byte in Hb; tauto.
Qed.

Lemma evt_demux_safe m s : app_ok → Forall is_byte m → is_message m → tables_wf s →
  wp (evt_demux_msghandler m) s (λ _, tables_wf).
Proof.
  intros [_ Happ] Hb Hm Hwf. unfold is_message in Hm. unfold evt_demux_msghandler.
  destruct (dec_hdr m) as [h|] eqn:Hh; [|done]. destruct Hm as [Hlen _].
  destruct (dec_hdr_byte_range m h Hb Hh) as (_ & Hst & _). eapply wp_deref; [done|]. cbv zeta.
  destruct (Z.ltb_spec (h_len h) (Z.of_nat sizeof_evt_auxdata)); [exact Hwf|].
  destruct (negb _ || _) eqn:Hbad; [exact Hwf|]. apply orb_false_iff in Hbad as [_ Hsub%Z.leb_gt].
  assert (sizeof_evt_auxdata ≤ length (drop sizeof_hdr m))%nat as Haux by (rewrite length_drop; lia).
  destruct (rd32_long (drop sizeof_hdr m)) as [st Hst']; [unfold sizeof_evt_auxdata in *; lia|].
  assert (∀ t, tables_wf t → wp (s ← get;
    handler ← deref (evt_handlers s !! Z.to_nat (h_msg_subtype h)) "evt_handlers[gmh->msg_subtype]";
    match handler with
    | Some a => app_evt a (h_msg_subtype h) (drop sizeof_hdr m)
    | None => mret 0
    end) t (λ _, tables_wf)) as Hrest.
  { intros t Ht. destruct (lookup_lt_is_Some_2 (evt_handlers t) (Z.to_nat (h_msg_subtype h))) as [o Ho].
    { destruct Ht as [_ ->]. lia. }
    change (wp ((deref (evt_handlers t !! Z.to_nat (h_msg_subtype h)) "evt_handlers[gmh->msg_subtype]") ≫=
      λ handler, match handler with Some a => app_evt a (h_msg_subtype h) (drop sizeof_hdr m) | None => mret 0 end)
      t (λ _, tables_wf)).
    eapply wp_deref; [exact Ho|]. destruct o as [a|]; [|exact Ht]. apply Happ; [lia|done..]. }
  destruct (h_msg_subtype h =? GSMD_EVT_NETREG).
  - rewrite Hst'. by apply (Hrest (set_netreg st s)).
  - by apply (Hrest s).
Qed.

Lemma deliver_one_safe m s : app_ok → Forall is_byte m → is_message m → tables_wf s →
  wp (deliver_one m) s (λ _, tables_wf).
Proof.
  intros Happ Hb Hm Hwf. pose proof Hm as Hm'. unfold is_message in Hm'. unfold deliver_one.
  destruct (dec_hdr m) as [h|] eqn:Hh; [|done]. destruct Hm' as [_ Hty].
  destruct (dec_hdr_byte_range m h Hb Hh) as (Hty0 & _ & _).
  destruct (lookup_lt_is_Some_2 (lh_handler s) (Z.to_nat (h_msg_type h))) as [o Ho].
  { destruct Hwf as [-> _]. lia. }
  eapply wp_deref; [done|]. unfold wp. run. rewrite Ho. run.
  destruct o as [[|a]|]; cbn [run_handler]; [by apply evt_demux_safe | by apply Happ | exact Hwf].
Qed.

Lemma deliver_safe msgs : ∀ rc s, app_ok → Forall (Forall is_byte) msgs → Forall is_message msgs →
  tables_wf s → wp (deliver msgs rc) s (λ _, tables_wf).
Proof.
  induction msgs as [|m msgs IH]; intros rc s Happ Hb Hm Hwf; [exact Hwf|].
  apply Forall_cons in Hb as [Hb1 Hb2]. apply Forall_cons in Hm as [Hm1 Hm2]. cbn [deliver].
  apply wp_bind. eapply wp_mono; [by apply deliver_one_safe|]. intros rc' s' Hs'. by apply IH.
Qed.

(** [C30] Bytes from the socket, whatever they are, are taken apart without a read outside
    them and without an index outside the tables of handlers: the library returns,
    and the tables keep their size, as long as the application's handlers do. *)
Theorem handle_packet_safe buf s : app_ok → Forall is_byte buf → Z.of_nat (length buf) ≤ INT_MAX →
  tables_wf s → wp (lgsm_handle_packet buf (Z.of_nat (length buf))) s (λ _, tables_wf).
Proof.
  intros Happ Hb Hl Hwf. destruct (packet_loop_spec (S (length buf)) buf ltac:(lia) Hb Hl)
    as (msgs & rest & E & Hm & _ & Hrun).
  unfold lgsm_handle_packet, wp. rewrite Hrun.
  assert (Forall (Forall is_byte) msgs) as Hbs.
  { subst buf. apply Forall_app in Hb as [Hb _]. clear -Hb. induction msgs as [|m msgs IH]; [constructor|].
    cbn [concat] in Hb. apply Forall_app in Hb as [? ?]. constructor; auto. }
  pose proof (deliver_safe msgs 0 s Happ Hbs Hm Hwf) as H. unfold wp in H.
  unfold mbind, M_bind. destruct (deliver msgs 0 s); [exact H|done].
Qed.

(** ** An event *)

Lemma deliver_event m h s : dec_hdr m = Some h → h_msg_type h = GSMD_MSG_EVENT →
  0 ≤ h_msg_subtype h < NUM_GSMD_EVT → Z.of_nat sizeof_evt_auxdata ≤ h_len h →
  Z.of_nat (length m) = Z.of_nat sizeof_hdr + h_len h →
  lh_handler s !! Z.to_nat GSMD_MSG_EVENT = Some (Some evt_demux_msghandler_ref) → tables_wf s →
  deliver_one m s =
    (match evt_handlers s !!! Z.to_nat (h_msg_subtype h) with
     | Some a => app_evt a (h_msg_subtype h) (drop sizeof_hdr m)
     | None => mret 0
     end) (if h_msg_subtype h =? GSMD_EVT_NETREG
           then set_netreg (default 0 (rd32 m sizeof_hdr)) s else s).
Proof.
  intros Hh Hty Hst Hlen Hm Hdem Hwf. unfold deliver_one. rewrite Hh. run. rewrite Hty, Hdem. run.
  cbn [run_handler]. unfold evt_demux_msghandler. rewrite Hh. run.
  destruct (Z.ltb_spec (h_len h) (Z.of_nat sizeof_evt_auxdata)); [lia|].
  rewrite Hty. cbn [Z.eqb Pos.eqb GSMD_MSG_EVENT negb orb].
  destruct (Z.leb_spec NUM_GSMD_EVT (h_msg_subtype h)); [lia|].
  assert (is_Some (evt_handlers s !! Z.to_nat (h_msg_subtype h))) as [o Ho].
  { apply lookup_lt_is_Some_2. destruct Hwf as [_ ->]. lia. }
  rewrite (list_lookup_total_correct _ _ _ Ho).
  destruct (rd32_long (drop sizeof_hdr m)) as [st Hst'].
  { rewrite length_drop. unfold sizeof_evt_auxdata, sizeof_hdr in *. lia. }
  assert (rd32 m sizeof_hdr = Some st) as Hst2 by (rewrite <- Hst'; unfold rd32; by rewrite drop_drop, Nat.add_0_r).
  destruct (h_msg_subtype h =? GSMD_EVT_NETREG).
  - rewrite Hst', Hst2. run. cbn [evt_handlers set_netreg default]. rewrite Ho. by run.
  - run. rewrite Ho. by run.
Qed.

(** ** Sending *)

Lemma send_rc_range answers n : 0 ≤ n → -1 ≤ send_rc answers n ≤ n.
Proof. intros Hn. unfold send_rc. destruct (Z.ltb_spec (default n (head answers)) 0); lia. Qed.

Lemma send_checked_run n m len s : rd16 (poke 4 (le16 (next_msg_id s)) m) 6 = Some len →
  Z.of_nat sizeof_hdr + len ≤ Z.of_nat (length (poke 4 (le16 (next_msg_id s)) m)) →
  0 ≤ len < 65536 → n < 2 ^ 32 - 1 →
  let rc := send_rc (sends s) (Z.of_nat sizeof_hdr + len) in
  send_checked n m s =
    Ret (if (0 <=? rc) && (rc <? n) then - EIO else 0)
      (put_sent (take (Z.to_nat rc) (poke 4 (le16 (next_msg_id s)) m)) s).
Proof.
  intros Hr Hl Hlen Hn rc. unfold send_checked, lgsm_send. run. rewrite Hr. run.
  rewrite (proj2 (Z.leb_le _ _)) by done. run. fold rc. cbn [fst]. unfold mret, M_ret. f_equal.
  unfold less_than_sent. pose proof (send_rc_range (sends s) (Z.of_nat sizeof_hdr + len) ltac:(unfold sizeof_hdr; lia)) as Hrc.
  fold rc in Hrc. destruct (Z.leb_spec 0 rc); cbn [andb].
  - rewrite wrapu_small by (unfold sizeof_hdr in *; lia). done.
  - replace rc with (-1) by lia. change (u32 (-1)) with (2 ^ 32 - 1).
    destruct (Z.ltb_spec (2 ^ 32 - 1) n); [lia|done].
Qed.
End client.
