(* ===== verification/ClientReq.v ===== *)
(** * The client library's requests (src/target/gsm/src/libgsmd: libgsmd_phone.c, _modem.c, _voicecall.c, _network.c, _sms.c, _phonebook.c, _pin.c)

    Each function builds one message and sends it.  A structure of the application
    is given by its members, an array by its bytes; a string by its bytes before the
    NUL. *)

From S2P Require Import Prelude CString Enums Wire SmsText ClientLib.

Section requests.
Context {A W : Type}.
Abbreviation L := (lgsm A W).

(** The common shape: fill a message in, send it, compare the result with [n]. *)
Definition request_n (n : Z) (type subtype : Z) (len : nat) (fill : list Z → list Z) : M L Z :=
  gmh ← lgsm_gmh_fill type subtype len;
  match gmh with
  | None => mret (- ENOMEM)
  | Some gmh => send_checked n (fill gmh)
  end.

Definition request (type subtype : Z) (len : nat) (fill : list Z → list Z) : M L Z :=
  request_n (Z.of_nat (len + sizeof_hdr)) type subtype len fill.

(** Storing at an offset of the message's data. *)
Definition data (off : nat) (bytes : list Z) (gmh : list Z) : list Z := poke (sizeof_hdr + off) bytes gmh.

(** [memcpy] of [n] bytes of an array of the application. *)
Definition readable (n : nat) (src : list Z) : M L (list Z) :=
  must (n <=? length src)%nat "memcpy beyond the source";; mret (take n src).

(** [strncpy] into a zeroed field of [n] bytes. *)
Definition strncpy (n : nat) (src : list Z) : list Z := take n src.

Definition request_int (type subtype : Z) (i : Z) : M L Z := request type subtype 4 (data 0 (le32 i)).

(** ** The phone and the modem *)

Definition lgsm_phone_power (power : Z) : M L Z :=
  lgsm_send_simple GSMD_MSG_PHONE (if negb (power =? 0) then GSMD_PHONE_POWERUP else GSMD_PHONE_POWERDOWN).
Definition lgsm_get_power_status : M L Z := lgsm_send_simple GSMD_MSG_PHONE GSMD_PHONE_POWER_STATUS.
Definition lgsm_get_imsi : M L Z := lgsm_send_simple GSMD_MSG_PHONE GSMD_PHONE_GET_IMSI.
Definition lgsm_get_manufacturer : M L Z := lgsm_send_simple GSMD_MSG_PHONE GSMD_PHONE_GET_MANUF.
Definition lgsm_get_model : M L Z := lgsm_send_simple GSMD_MSG_PHONE GSMD_PHONE_GET_MODEL.
Definition lgsm_get_revision : M L Z := lgsm_send_simple GSMD_MSG_PHONE GSMD_PHONE_GET_REVISION.
Definition lgsm_get_serial : M L Z := lgsm_send_simple GSMD_MSG_PHONE GSMD_PHONE_GET_SERIAL.
Definition lgsm_get_battery : M L Z := lgsm_send_simple GSMD_MSG_PHONE GSMD_PHONE_GET_BATTERY.
Definition lgsm_phone_vibrator (enable : Z) : M L Z :=
  lgsm_send_simple GSMD_MSG_PHONE (if negb (enable =? 0) then GSMD_PHONE_VIB_ENABLE else GSMD_PHONE_VIB_DISABLE).
Definition lgsm_modem_power (power : Z) : M L Z :=
  lgsm_send_simple GSMD_MSG_MODEM (if negb (power =? 0) then GSMD_MODEM_POWERUP else GSMD_MODEM_POWERDOWN).

(** ** Calls *)

(** [addr] is the memory from [number->addr] on, as far as it may be read: the
    [memcpy] takes one byte more than that array has. *)
Definition lgsm_voice_out_init (type : Z) (addr : list Z) : M L Z :=
  gmh ← lgsm_gmh_fill GSMD_MSG_VOICECALL GSMD_VOICECALL_DIAL sizeof_addr;
  match gmh with
  | None => mret (- ENOMEM)
  | Some gmh =>
      number ← readable (GSMD_ADDR_MAXLEN + 1) addr;
      send_checked (Z.of_nat (sizeof_addr + sizeof_hdr))
        (data (1 + GSMD_ADDR_MAXLEN) [0] (data 1 number (data 0 [u8 type] gmh)))
  end.

(** The result is compared with the size of the data, counted twice in part, and not
    with that of the message. *)
Definition lgsm_voice_dtmf (dtmf_char : Z) : M L Z :=
  request_n (2 + 1 + 1) GSMD_MSG_VOICECALL GSMD_VOICECALL_DTMF 2 (λ gmh, data 1 [dtmf_char] (data 0 [1] gmh)).

Definition lgsm_voice_in_accept : M L Z := lgsm_send_simple GSMD_MSG_VOICECALL GSMD_VOICECALL_ANSWER.
Definition lgsm_voice_hangup : M L Z := lgsm_send_simple GSMD_MSG_VOICECALL GSMD_VOICECALL_HANGUP.
(** The volume is not sent. *)
Definition lgsm_voice_volume_set (volume : Z) : M L Z :=
  lgsm_send_simple GSMD_MSG_VOICECALL GSMD_VOICECALL_VOL_SET.
Definition lgsm_voice_get_status : M L Z := lgsm_send_simple GSMD_MSG_VOICECALL GSMD_VOICECALL_GET_STAT.

Definition lgsm_voice_ctrl (proc idx : Z) : M L Z :=
  request GSMD_MSG_VOICECALL GSMD_VOICECALL_CTRL 5 (λ gmh, data 4 [u8 idx] (data 0 (le32 proc) gmh)).

Definition lgsm_voice_fwd_disable (reason : Z) : M L Z :=
  request_int GSMD_MSG_VOICECALL GSMD_VOICECALL_FWD_DIS reason.
Definition lgsm_voice_fwd_enable (reason : Z) : M L Z :=
  request_int GSMD_MSG_VOICECALL GSMD_VOICECALL_FWD_EN reason.
Definition lgsm_voice_fwd_stat (reason : Z) : M L Z :=
  request_int GSMD_MSG_VOICECALL GSMD_VOICECALL_FWD_STAT reason.
Definition lgsm_voice_fwd_erase (reason : Z) : M L Z :=
  request_int GSMD_MSG_VOICECALL GSMD_VOICECALL_FWD_ERAS reason.

Definition lgsm_voice_fwd_reg (reason : Z) (number : list Z) : M L Z :=
  gmh ← lgsm_gmh_fill GSMD_MSG_VOICECALL GSMD_VOICECALL_FWD_REG (4 + sizeof_addr);
  match gmh with
  | None => mret (- ENOMEM)
  | Some gmh =>
      must (length number <? GSMD_ADDR_MAXLEN + 1)%nat "strcpy beyond gcfr->addr.number";;
      send_checked (Z.of_nat (4 + sizeof_addr + sizeof_hdr)) (data 5 (number ++ [0]) (data 0 (le32 reason) gmh))
  end.

(** ** The network *)

Definition SIZEOF_OPER : nat := 6.

Definition lgsm_get_netreg_state : M L (Z * Z) := s ← get; mret (0, netreg_state s).
Definition lgsm_oper_get : M L Z := lgsm_send_simple GSMD_MSG_NETWORK GSMD_NETWORK_OPER_GET.
Definition lgsm_oper_n_get : M L Z := lgsm_send_simple GSMD_MSG_NETWORK GSMD_NETWORK_OPER_N_GET.
Definition lgsm_opers_get : M L Z := lgsm_send_simple GSMD_MSG_NETWORK GSMD_NETWORK_OPER_LIST.

Definition request_oper (subtype : Z) (oper : list Z) : M L Z :=
  gmh ← lgsm_gmh_fill GSMD_MSG_NETWORK subtype SIZEOF_OPER;
  match gmh with
  | None => mret (- ENOMEM)
  | Some gmh =>
      oper ← readable SIZEOF_OPER oper;
      send_checked (Z.of_nat (SIZEOF_OPER + sizeof_hdr)) (data 0 oper gmh)
  end.

Definition lgsm_netreg_register (oper : list Z) : M L Z := request_oper GSMD_NETWORK_REGISTER oper.
Definition lgsm_netreg_deregister : M L Z := lgsm_send_simple GSMD_MSG_NETWORK GSMD_NETWORK_DEREGISTER.
Definition lgsm_netreg_query : M L Z := lgsm_send_simple GSMD_MSG_NETWORK GSMD_NETWORK_QUERY_REG.
Definition lgsm_signal_quality : M L Z := lgsm_send_simple GSMD_MSG_NETWORK GSMD_NETWORK_SIGQ_GET.
Definition lgsm_prefoper_list : M L Z := lgsm_send_simple GSMD_MSG_NETWORK GSMD_NETWORK_PREF_LIST.
Definition lgsm_prefoper_delete (index : Z) : M L Z := request_int GSMD_MSG_NETWORK GSMD_NETWORK_PREF_DEL index.
Definition lgsm_prefoper_add (oper : list Z) : M L Z := request_oper GSMD_NETWORK_PREF_ADD oper.
Definition lgsm_prefoper_get_space : M L Z := lgsm_send_simple GSMD_MSG_NETWORK GSMD_NETWORK_PREF_SPACE.
Definition lgsm_get_subscriber_num : M L Z := lgsm_send_simple GSMD_MSG_NETWORK GSMD_NETWORK_GET_NUMBER.
Definition lgsm_voicemail_get : M L Z := lgsm_send_simple GSMD_MSG_NETWORK GSMD_NETWORK_VMAIL_GET.

(** The address that a number makes in zeroed memory: [None] for a number that is
    refused. *)
Definition zero_addr : gsmd_addr := Addr (Some 0) (known (replicate (GSMD_ADDR_MAXLEN + 1) 0)).

Definition number_bytes (src : list Z) (skipplus : bool) : M L (option (list Z)) :=
  r ← deref (lgsm_number2addr zero_addr src skipplus) "strcpy beyond dst->number";
  bytes ← deref (mapM id (enc_addr (fst r))) "indeterminate byte";
  mret (if snd r =? 0 then Some bytes else None).

Definition request_addr (n : nat) (type subtype : Z) (len : nat) (src : list Z) (skipplus : bool)
    (fill : list Z → list Z) : M L Z :=
  gmh ← lgsm_gmh_fill type subtype len;
  match gmh with
  | None => mret (- ENOMEM)
  | Some gmh =>
      addr ← number_bytes src skipplus;
      match addr with
      | None => mret (- EINVAL)
      | Some addr => send_checked (Z.of_nat (len + sizeof_hdr)) (fill (data n addr gmh))
      end
  end.

Definition lgsm_voicemail_set (number : list Z) : M L Z :=
  request_addr 1 GSMD_MSG_NETWORK GSMD_NETWORK_VMAIL_SET (1 + sizeof_addr) number false (data 0 [1]).

(** ** Short messages *)

Definition lgsm_sms_list (stat : Z) : M L Z := request_int GSMD_MSG_SMS GSMD_SMS_LIST stat.
Definition lgsm_sms_read (index : Z) : M L Z := request_int GSMD_MSG_SMS GSMD_SMS_READ index.
Definition lgsm_sms_delete (index delflg : Z) : M L Z :=
  request GSMD_MSG_SMS GSMD_SMS_DELETE 2 (λ gmh, data 1 [u8 delflg] (data 0 [u8 index] gmh)).

(** [lg_addr] is a string of at most 12 characters, [lg_data] has 141 bytes. *)
Record lgsm_sms : Type := LgsmSms {
  lg_addr : list Z;
  lg_alpha : Z;
  lg_data : list Z;
  lg_length : Z;
  lg_ask_ds : Z }.

(** Everything but the address, of a [struct gsmd_sms_submit] at [off]. *)
Definition fill_submit (off : nat) (sms : lgsm_sms) (gmh : list Z) : list Z :=
  data (off + 73) (take LGSM_SMS_DATA_MAXLEN (lg_data sms))
    (data (off + 35) [u8 (lg_alpha sms)]
      (data (off + 34) [u8 (lg_length sms)]
        (data (off + 36) (le32 0)
          (data (off + 240) (le32 (lg_ask_ds sms)) gmh)))).

Definition lgsm_sms_send (sms : lgsm_sms) : M L Z :=
  request_addr 0 GSMD_MSG_SMS GSMD_SMS_SEND sizeof_sms_submit (lg_addr sms) true (fill_submit 0 sms).

Definition lgsm_sms_write (stat : Z) (sms : lgsm_sms) : M L Z :=
  request_addr 1 GSMD_MSG_SMS GSMD_SMS_WRITE (1 + sizeof_sms_submit) (lg_addr sms) true
    (λ gmh, fill_submit 1 sms (data 0 [u8 stat] gmh)).

Definition lgsm_sms_get_storage : M L Z := lgsm_send_simple GSMD_MSG_SMS GSMD_SMS_GET_MSG_STORAGE.
Definition lgsm_sms_set_storage (mem1 mem2 mem3 : Z) : M L Z :=
  request GSMD_MSG_SMS GSMD_SMS_SET_MSG_STORAGE 12
    (λ gmh, data 8 (le32 mem3) (data 4 (le32 mem2) (data 0 (le32 mem1) gmh))).
Definition lgsm_sms_get_smsc : M L Z := lgsm_send_simple GSMD_MSG_SMS GSMD_SMS_GET_SERVICE_CENTRE.
Definition lgsm_sms_set_smsc (number : list Z) : M L Z :=
  request_addr 0 GSMD_MSG_SMS GSMD_SMS_SET_SERVICE_CENTRE sizeof_addr number false id.
Definition lgsm_cb_subscribe : M L Z := lgsm_send_simple GSMD_MSG_CB GSMD_CB_SUBSCRIBE.
Definition lgsm_cb_unsubscribe : M L Z := lgsm_send_simple GSMD_MSG_CB GSMD_CB_UNSUBSCRIBE.

(** ** The phone book *)

Definition PB_TEXT : nat := 15.
Definition PB_NUMB : nat := 45.

(** [memcpy] of a whole array, the last byte of which becomes NUL. *)
Definition copy_text (n off : nat) (src gmh : list Z) : list Z :=
  data (off + (n - 1)) [0] (data off (take n src) gmh).

Definition lgsm_pb_list_storage : M L Z := lgsm_send_simple GSMD_MSG_PHONEBOOK GSMD_PHONEBOOK_LIST_STORAGE.
Definition lgsm_pb_set_storage (storage : list Z) : M L Z :=
  request GSMD_MSG_PHONEBOOK GSMD_PHONEBOOK_SET_STORAGE 3
    (λ gmh, data 2 [0] (data 0 (strncpy 2 storage) gmh)).
Definition lgsm_pb_find_entry (findtext : list Z) : M L Z :=
  request GSMD_MSG_PHONEBOOK GSMD_PHONEBOOK_FIND PB_TEXT (copy_text PB_TEXT 0 findtext).
Definition lgsm_pb_read_entry (index : Z) : M L Z := request_int GSMD_MSG_PHONEBOOK GSMD_PHONEBOOK_READ index.
Definition lgsm_pb_read_entries (index1 index2 : Z) : M L Z :=
  request GSMD_MSG_PHONEBOOK GSMD_PHONEBOOK_READRG 2 (λ gmh, data 1 [u8 index2] (data 0 [u8 index1] gmh)).
Definition lgsm_pb_del_entry (index : Z) : M L Z := request_int GSMD_MSG_PHONEBOOK GSMD_PHONEBOOK_DELETE index.
Definition lgsm_pb_write_entry (index : Z) (numb : list Z) (type : Z) (text : list Z) : M L Z :=
  request GSMD_MSG_PHONEBOOK GSMD_PHONEBOOK_WRITE (1 + PB_NUMB + 1 + PB_TEXT)
    (λ gmh, copy_text PB_TEXT (1 + PB_NUMB + 1) text
              (data (1 + PB_NUMB) [u8 type] (copy_text PB_NUMB 1 numb (data 0 [u8 index] gmh)))).
Definition lgsm_pb_get_support : M L Z := lgsm_send_simple GSMD_MSG_PHONEBOOK GSMD_PHONEBOOK_GET_SUPPORT.

(** ** The PIN *)

Definition pin_type_names : list (list Z) :=
  [b "READY"; b "SIM PIN"; b "SIM PUK"; b "Phone-to-SIM PIN"; b "Phone-to-very-first SIM PIN";
   b "Phone-to-very-first SIM PUK"; b "SIM PIN2"; b "SIM PUK2"; b "Network personalization PIN";
   b "Network personalizaiton PUK"; b "Network subset personalisation PIN";
   b "Network subset personalisation PUK"; b "Service provider personalisation PIN";
   b "Service provider personalisation PUK"; b "Corporate personalisation PIN";
   b "Corporate personalisation PUK"].

Definition lgsm_pin_name (ptype : Z) : list Z :=
  if NUM_GSMD_PIN <=? u32 ptype then b "unknown" else default [] (pin_type_names !! Z.to_nat (u32 ptype)).

Definition lgsm_pin_status : M L Z := lgsm_send_simple GSMD_MSG_PIN GSMD_PIN_GET_STATUS.

Definition PIN_FIELD : nat := GSMD_PIN_MAXLEN + 1.

Definition lgsm_pin (type : Z) (pin : list Z) (newpin : option (list Z)) : M L Z :=
  if (GSMD_PIN_MAXLEN <? length pin)%nat ||
     match newpin with Some n => (GSMD_PIN_MAXLEN <? length n)%nat | None => false end ||
     (NUM_GSMD_PIN <=? u32 type)
  then mret (- EINVAL)
  else
    gmh ← lgsm_gmh_fill GSMD_MSG_PIN GSMD_PIN_INPUT (4 + PIN_FIELD + PIN_FIELD);
    match gmh with
    | None => mret (- ENOMEM)
    | Some gmh =>
        let gmh := data 4 (strncpy PIN_FIELD pin) (data 0 (le32 type) gmh) in
        if (type =? GSMD_PIN_SIM_PUK) || (type =? GSMD_PIN_SIM_PUK2) then
          match newpin with
          | None => mret (- EINVAL)
          | Some newpin =>
              r ← lgsm_send (data (4 + PIN_FIELD) (strncpy PIN_FIELD newpin) gmh); mret (fst r)
          end
        else r ← lgsm_send gmh; mret (fst r)
    end.
End requests.
