(* ===== verification/EndToEnd.v ===== *)
(** * From the library to the modem (libgsmd, usock.c, sms_cb.c, atcmd.c)

    The client library and the daemon put together: the AT commands that a call of
    the library queues in the daemon, and the handlers that the daemon's messages
    reach in the application. *)

From S2P Require Import Prelude CString Enums Wire LLParse ExtRsp Pdu SmsText Timers State Queue Events.
From S2P Require Import SmsCb Unsolicited Vendor UsockCb Main AtCmd Usock Requests ClientLib ClientReq.

(** ** The daemon's side: operations that queue commands *)

(** A daemon that takes requests: its machine has no wake-up command, and
    allocations succeed. *)
Definition serving (g : gsmd) : Prop :=
  (∃ pl, machinepl g = Some pl ∧ has_ex_submit pl = false) ∧ oracle g = [].

(** [op] queues the commands [texts], in order and behind all others, and their
    responses go to [c]; nothing else is started or answered. *)
Definition queues (c : ctx) (op : G Z) (texts : list (list Z)) : Prop :=
  ∀ g, serving g → ∃ g' cmds, op g = Ret 0 g' ∧ serving g' ∧
    pending_atcmds g' = pending_atcmds g ++ cmds ∧ ac_text <$> cmds = texts ∧
    Forall (λ cmd, ac_ctx cmd = c ∧ ac_cur cmd = 0%nat) cmds ∧
    busy_atcmds g' = busy_atcmds g ∧ users g' = users g ∧ flag_sms_text g' = flag_sms_text g.

Lemma queues_ext c op op' texts : (∀ g, op g = op' g) → queues c op' texts → queues c op texts.
Proof. intros E H g Hg. destruct (H g Hg) as (g' & cmds & H'). exists g', cmds. by rewrite E. Qed.

(** A state that differs in what [queues] does not speak of. *)
Lemma queues_modify c f op texts :
  (∀ g, machinepl (f g) = machinepl g ∧ oracle (f g) = oracle g ∧ pending_atcmds (f g) = pending_atcmds g ∧
        busy_atcmds (f g) = busy_atcmds g ∧ users (f g) = users g ∧ flags (f g) = flags g) →
  queues c op texts → queues c (modify f;; op) texts.
Proof.
  intros Hf H g Hg. destruct (Hf g) as (E1 & E2 & E3 & E4 & E5 & E6).
  destruct (H (f g)) as (g' & cmds & H1 & H2 & H3 & H4 & H5 & H6 & H7 & H8).
  { unfold serving in *. by rewrite E1, E2. }
  exists g', cmds. rewrite <- E3, <- E4, <- E5. unfold flag_sms_text in *. rewrite <- E6. by split_and!.
Qed.

Lemma queues_seq c op1 op2 t1 t2 : queues c op1 t1 → queues c op2 t2 → queues c (op1;; op2) (t1 ++ t2).
Proof.
  intros Ha Hb g Hg. destruct (Ha g Hg) as (g1 & k1 & E1 & S1 & P1 & T1 & F1 & B1 & U1 & L1).
  destruct (Hb g1 S1) as (g2 & k2 & E2 & S2 & P2 & T2 & F2 & B2 & U2 & L2).
  exists g2, (k1 ++ k2). rewrite (bind_step _ _ _ _ _ E1). split_and!; try done.
  - by rewrite P2, P1, app_assoc.
  - by rewrite fmap_app, T1, T2.
  - by apply Forall_app.
  - by rewrite B2.
  - by rewrite U2.
  - by rewrite L2.
Qed.

(** Making a command and submitting it. *)
Lemma queues_fill c text rlen cb id : Z.of_nat (length text) < rlen → cstring text →
  queues c (cmd ← atcmd_fill text rlen cb c id None; submit_or_nomem cmd) [text].
Proof.
  intros Hl Ht g [(pl & Hpl & Hx) Ho].
  rewrite (bind_step _ _ _ _ _ (atcmd_fill_run text rlen cb c id None g Ho Hl)). cbn [submit_or_nomem].
  rewrite (atcmd_submit_run _ pl) by done. eexists _, [_]. split; [reflexivity|]. split; [by split; [exists pl|]|].
  split; [reflexivity|]. split_and!; try done.
  - cbn [fmap list_fmap]. f_equal. unfold ac_text. cbn [ac_buf filled].
    replace (Z.to_nat rlen - length text)%nat with (S (Z.to_nat rlen - length text - 1)) by lia.
    cbn [replicate]. by apply until0_cstring.
  - by constructor.
Qed.

Lemma queues_const c text cb id : cstring text → queues c (submit_const text cb c id) [text].
Proof. intros Ht. unfold submit_const, fill_const. apply queues_fill; [lia|done]. Qed.

Lemma queues_buf1024 c text cb id : cstring text → Z.of_nat (length text) < 1024 →
  queues c (cmd ← fill_buf1024 text cb c id; submit_or_nomem cmd) [text].
Proof.
  intros Ht Hl. unfold fill_buf1024. rewrite (proj2 (Z.ltb_lt _ _)) by done.
  eapply queues_ext; [|apply (queues_fill c text (Z.of_nat (length text) + 1) cb id); [lia|done]].
  intros g. by run.
Qed.

Lemma queues_fill_sprintf c text0 rlen cb id text :
  Z.of_nat (length text0) < rlen → Z.of_nat (length text) < rlen → cstring text →
  queues c (cmd ← fill_sprintf text0 rlen cb c id text; submit_or_nomem cmd) [text].
Proof.
  intros H0 H1 Ht g [(pl & Hpl & Hx) Ho].
  destruct (fill_sprintf_run text0 rlen cb c id text g Ho ltac:(lia) ltac:(lia))
    as (cmd & E & Eb & _ & Ec & _ & Ecur & _).
  rewrite (bind_step _ _ _ _ _ E). cbn [submit_or_nomem]. rewrite (atcmd_submit_run _ pl) by done.
  eexists _, [cmd]. split; [reflexivity|]. split; [by split; [exists pl|]|]. split; [reflexivity|].
  split_and!; try done.
  - cbn [fmap list_fmap]. f_equal. unfold ac_text. rewrite Eb. by apply until0_cstring.
  - by constructor.
Qed.

Lemma queues_sprintf c text0 arg cb id : cstring (text0 ++ arg) →
  queues c (submit_sprintf text0 arg cb c id) [text0 ++ arg].
Proof.
  intros Ht. unfold submit_sprintf.
  apply queues_fill_sprintf; [| |exact Ht].
  all: rewrite ?length_app, ?Nat2Z.inj_add; lia.
Qed.

Lemma queues_buffer c text cb : cstring text → Z.of_nat (length text) < NETWORK_BUF →
  queues c (submit_buffer text cb c) [text].
Proof.
  intros Ht Hl. unfold submit_buffer, fill_const. rewrite (proj2 (Z.ltb_lt _ _)) by done.
  eapply queues_ext; [|apply (queues_fill c text (Z.of_nat (length text) + 1) (Some cb) 0); [lia|done]].
  intros g. by run.
Qed.

Lemma queues_unchecked c text cb id : cstring text →
  queues c (cmd ← fill_const text cb c id; submit_unchecked cmd) [text].
Proof.
  intros Ht g Hg. destruct (queues_fill c text (Z.of_nat (length text) + 1) (Some cb) id ltac:(lia) Ht g Hg)
    as (g' & cmds & E & H). exists g', cmds. split; [|exact H]. rewrite <- E.
  destruct Hg as [_ Ho]. unfold fill_const.
  by rewrite !(bind_step _ _ _ _ _ (atcmd_fill_run text (Z.of_nat (length text) + 1) (Some cb) c id None g Ho ltac:(lia))).
Qed.

Lemma queues_or_0 c text cb id : cstring text →
  queues c (cmd ← fill_const text cb c id; submit_or_0 cmd) [text].
Proof.
  intros Ht g Hg. destruct (queues_fill c text (Z.of_nat (length text) + 1) (Some cb) id ltac:(lia) Ht g Hg)
    as (g' & cmds & E & H). exists g', cmds. split; [|exact H]. rewrite <- E.
  destruct Hg as [_ Ho]. unfold fill_const.
  by rewrite !(bind_step _ _ _ _ _ (atcmd_fill_run text (Z.of_nat (length text) + 1) (Some cb) c id None g Ho ltac:(lia))).
Qed.

Lemma queues_two c set query cb : cstring set → cstring query → queues c (submit_two set query cb c) [set; query].
Proof.
  intros H1 H2. unfold submit_two. change [set; query] with ([set] ++ [query]).
  eapply queues_ext; [|apply queues_seq; [apply queues_unchecked, H1 | apply queues_const, H2]].
  intros g. by rewrite bind_assoc.
Qed.

(** Strings of digits. *)
Lemma dec_cstring n : INT_MIN ≤ n ≤ INT_MAX → cstring (dec n) ∧ (length (dec n) ≤ 11)%nat.
Proof.
  unfold INT_MIN, INT_MAX. intros Hn.
  assert (∀ k, 0 ≤ k < 10 ^ 10 → cstring (dec_digits 10 k []) ∧ (length (dec_digits 10 k []) ≤ 10)%nat) as H.
  { intros k Hk. destruct (dec_digits_spec 10 k []) as (s & -> & Hs & _ & Hl & _); [done|lia|].
    rewrite app_nil_r. split; [|done]. by apply dig_cstring. }
  unfold dec. destruct (Z.ltb_spec n 0).
  - destruct (H (- n)) as [H1 H2]; [change (10 ^ 10) with 10000000000; lia|]. split; [|cbn [length]; lia].
    apply Forall_cons. split; [done|done].
  - destruct (H n) as [H1 H2]; [change (10 ^ 10) with 10000000000; lia|]. split; [done|lia].
Qed.

(** ** The message between them *)

(** A request as it is on the socket. *)
Definition message (type subtype id : Z) (payload : list Z) : list Z :=
  [GSMD_PROTO_VERSION; type; subtype; 0] ++ le16 id ++ le16 (Z.of_nat (length payload)) ++ payload.

Lemma rcv_message c u type subtype id payload g : pcmd_type_handlers type = Some u →
  ∃ h, h_msg_subtype h = subtype ∧ (Z.of_nat (length payload) < 65536 → h_len h = Z.of_nat (length payload)) ∧
    usock_rcv_pcmd c (message type subtype id payload) g = run_umh u c h (message type subtype id payload) g.
Proof.
  intros Hu. eexists. split; [|split]; [| |by apply (pcmd_handler (message type subtype id payload) _ c u); [reflexivity|..]].
  - reflexivity.
  - intros Hl. cbn [h_len]. unfold le16. zdiv.
Qed.

(** Nothing fails on the library's side. *)
Definition quiet {A W} (s : lgsm A W) : Prop := sends s = [] ∧ heap s = [].

Section both.
Context {A W : Type}.
Abbreviation L := (lgsm A W).
Implicit Types (s : L).

(** The library's call sends one message, whose number is the next one. *)
Definition says (op : M L Z) (type subtype : Z) (payload : list Z) : Prop :=
  ∀ s, quiet s → ∃ rc, 0 ≤ rc ∧
    op s = Ret rc (put_sent (message type subtype (next_msg_id s) payload) s).

Lemma gmh_fill_run type subtype len s : quiet s → u8 type = type → u8 subtype = subtype →
  lgsm_gmh_fill type subtype len s =
  Ret (Some (message type subtype 0 (replicate len 0))) s.
Proof.
  intros [_ Hh] Ht Hs. unfold lgsm_gmh_fill, malloc. run. rewrite Hh, Ht, Hs. cbn [head default tail]. run.
  unfold message. rewrite length_replicate. unfold id.
  assert (set_heap [] s = s) as -> by (destruct s; cbn in Hh; by subst). reflexivity.
Qed.

Lemma lgsm_send_run type subtype payload s : quiet s → Z.of_nat (length payload) < 65536 →
  lgsm_send (message type subtype 0 payload) s =
  Ret (Z.of_nat (sizeof_hdr + length payload), message type subtype (next_msg_id s) payload)
    (put_sent (message type subtype (next_msg_id s) payload) s).
Proof.
  intros [Hs _] Hl. unfold lgsm_send. run.
  change (poke 4 (le16 (next_msg_id s)) (message type subtype 0 payload))
    with (message type subtype (next_msg_id s) payload).
  assert (rd16 (message type subtype (next_msg_id s) payload) 6 = Some (Z.of_nat (length payload))) as ->.
  { unfold message, rd16, le16. cbn [app drop]. f_equal. zdiv. }
  run. assert (length (message type subtype (next_msg_id s) payload) = (sizeof_hdr + length payload)%nat) as Hm.
  { unfold message. by rewrite !length_app. }
  rewrite Hm, (proj2 (Z.leb_le _ _)) by lia. run. unfold send_rc. rewrite Hs. cbn [head default].
  destruct (Z.ltb_spec (Z.of_nat sizeof_hdr + Z.of_nat (length payload)) 0); [lia|].
  rewrite Z.min_id, take_ge by lia. unfold mret, M_ret. do 2 f_equal. lia.
Qed.

Lemma says_simple type subtype : u8 type = type → u8 subtype = subtype →
  says (lgsm_send_simple type subtype) type subtype [].
Proof.
  intros Ht Hs s Hq. unfold lgsm_send_simple.
  rewrite (bind_step _ _ _ _ _ (gmh_fill_run type subtype 0 s Hq Ht Hs)).
  rewrite (bind_step _ _ _ _ _ (lgsm_send_run type subtype [] s Hq ltac:(done))).
  by eexists; split; [|reflexivity].
Qed.

Lemma send_checked_all n type subtype payload s : quiet s → Z.of_nat (length payload) < 65536 →
  n ≤ Z.of_nat (length payload + sizeof_hdr) → 
  send_checked n (message type subtype 0 payload) s =
  Ret 0 (put_sent (message type subtype (next_msg_id s) payload) s).
Proof.
  intros Hq Hl Hn. unfold send_checked. rewrite (bind_step _ _ _ _ _ (lgsm_send_run type subtype payload s Hq Hl)).
  cbn [fst]. unfold less_than_sent. rewrite wrapu_small by (unfold sizeof_hdr; lia).
  destruct (Z.ltb_spec (Z.of_nat (sizeof_hdr + length payload)) n); [lia|done].
Qed.

(** A request whose data is filled in. *)
Lemma says_request_n n type subtype len fill payload : u8 type = type → u8 subtype = subtype →
  Z.of_nat (length payload) < 65536 → n ≤ Z.of_nat (length payload + sizeof_hdr) →
  fill (message type subtype 0 (replicate len 0)) = message type subtype 0 payload →
  says (request_n n type subtype len fill) type subtype payload.
Proof.
  intros Ht Hs Hl Hn Hf s Hq. unfold request_n.
  rewrite (bind_step _ _ _ _ _ (gmh_fill_run type subtype len s Hq Ht Hs)), Hf.
  exists 0. split; [done|]. by apply send_checked_all.
Qed.

Lemma says_int type subtype i : u8 type = type → u8 subtype = subtype →
  says (request_int type subtype i) type subtype (le32 i).
Proof. intros Ht Hs. by apply says_request_n. Qed.

(** ** A call of the library and what it makes the daemon do *)

Definition reaches (to_client : bool) (op : M L Z) (texts : list (list Z)) : Prop :=
  ∀ c s g, quiet s → serving g → ∃ rc s' m g' cmds,
    op s = Ret rc s' ∧ 0 ≤ rc ∧ sent s' = sent s ++ m ∧
    usock_rcv_pcmd (CtxUser c) m g = Ret 0 g' ∧
    pending_atcmds g' = pending_atcmds g ++ cmds ∧ ac_text <$> cmds = texts ∧
    Forall (λ cmd, ac_ctx cmd = (if to_client then CtxUser c else CtxGsmd) ∧ ac_cur cmd = 0%nat) cmds ∧
    busy_atcmds g' = busy_atcmds g ∧ users g' = users g.

Lemma reaches_intro (d : bool) op type subtype payload u texts : says op type subtype payload →
  pcmd_type_handlers type = Some u → Z.of_nat (length payload) < 65536 →
  (∀ c id h, h_msg_subtype h = subtype → h_len h = Z.of_nat (length payload) →
     queues (if d then CtxUser c else CtxGsmd) (run_umh u (CtxUser c) h (message type subtype id payload)) texts) →
  reaches d op texts.
Proof.
  intros Hs Hu Hl Hq c s g Hs0 Hg. destruct (Hs s Hs0) as (rc & Hrc & E).
  destruct (rcv_message (CtxUser c) u type subtype (next_msg_id s) payload g Hu) as (h & Hst & Hlen & Er).
  destruct (Hq c (next_msg_id s) h Hst (Hlen Hl) g Hg) as (g' & cmds & E' & _ & P & T & F & B & U & _).
  exists rc, (put_sent (message type subtype (next_msg_id s) payload) s),
    (message type subtype (next_msg_id s) payload), g', cmds.
  by rewrite Er.
Qed.

(** ** What each call asks of the modem *)

Definition int_ok (i : Z) : Prop := INT_MIN ≤ i ≤ INT_MAX.

Inductive to_modem : bool → M L Z → list (list Z) → Prop :=
  | TM_phone_power p : to_modem true (lgsm_phone_power p) [if p =? 0 then b "AT+CFUN=0" else b "AT+CFUN=1"]
  | TM_power_status : to_modem true lgsm_get_power_status [b "AT+CFUN?"]
  | TM_manufacturer : to_modem true lgsm_get_manufacturer [b "AT+CGMI"]
  | TM_model : to_modem true lgsm_get_model [b "AT+CGMM"]
  | TM_revision : to_modem true lgsm_get_revision [b "AT+CGMR"]
  | TM_serial : to_modem true lgsm_get_serial [b "AT+CGSN"]
  | TM_battery : to_modem true lgsm_get_battery [b "AT+CBC"]
  | TM_vibrator e : to_modem true (lgsm_phone_vibrator e) [if e =? 0 then b "AT+CVIB=0" else b "AT+CVIB=1"]
  | TM_accept : to_modem true lgsm_voice_in_accept [b "ATA"]
  | TM_dtmf d : 0 < d < 256 → to_modem true (lgsm_voice_dtmf d) [b "AT+VTS=" ++ [d] ++ b ";"]
  | TM_get_status : to_modem true lgsm_voice_get_status [b "AT+CLCC"]
  | TM_ctrl proc idx t : int_ok proc → 0 ≤ idx < 10 → chld_text proc idx = Some t →
      to_modem true (lgsm_voice_ctrl proc idx) [b "AT+CHLD=" ++ t]
  | TM_fwd_disable r : int_ok r → to_modem true (lgsm_voice_fwd_disable r) [b "AT+CCFC=" ++ dec r ++ b ",0"]
  | TM_fwd_enable r : int_ok r → to_modem true (lgsm_voice_fwd_enable r) [b "AT+CCFC=" ++ dec r ++ b ",1"]
  | TM_fwd_stat r : int_ok r → to_modem true (lgsm_voice_fwd_stat r) [b "AT+CCFC=" ++ dec r ++ b ",2"]
  | TM_fwd_erase r : int_ok r → to_modem true (lgsm_voice_fwd_erase r) [b "AT+CCFC=" ++ dec r ++ b ",4"]
  | TM_oper_get : to_modem true lgsm_oper_get [b "AT+COPS=3,0"; b "AT+COPS?"]
  | TM_oper_n_get : to_modem true lgsm_oper_n_get [b "AT+COPS=3,2"; b "AT+COPS?"]
  | TM_opers_get : to_modem true lgsm_opers_get [b "AT+COPS=?"]
  | TM_deregister : to_modem true lgsm_netreg_deregister [b "AT+COPS=2"]
  | TM_query : to_modem true lgsm_netreg_query [b "AT+CREG?"]
  | TM_signal : to_modem true lgsm_signal_quality [b "AT+CSQ"]
  | TM_pref_list : to_modem true lgsm_prefoper_list [b "AT+CPOL=,0"; b "AT+CPOL?"]
  | TM_pref_delete i : int_ok i → to_modem true (lgsm_prefoper_delete i) [b "AT+CPOL=" ++ dec i]
  | TM_pref_space : to_modem true lgsm_prefoper_get_space [b "AT+CPOL=?"]
  | TM_number : to_modem true lgsm_get_subscriber_num [b "AT+CNUM"]
  | TM_voicemail_get : to_modem true lgsm_voicemail_get [b "AT+CSVM?"]
  | TM_sms_read i : int_ok i → to_modem true (lgsm_sms_read i) [b "AT+CMGR=" ++ dec i]
  | TM_sms_delete i f : 0 ≤ i < 256 → 0 ≤ f < 256 →
      to_modem true (lgsm_sms_delete i f) [b "AT+CMGD=" ++ dec i ++ b "," ++ dec f]
  | TM_storage : to_modem true lgsm_sms_get_storage [b "AT+CPMS?"]
  | TM_set_storage m1 m2 m3 n1 n2 n3 :
      ts0705_memtype_name !! m1 = Some n1 → ts0705_memtype_name !! m2 = Some n2 →
      ts0705_memtype_name !! m3 = Some n3 →
      to_modem true (lgsm_sms_set_storage (Z.of_nat m1) (Z.of_nat m2) (Z.of_nat m3))
        [b "AT+CPMS=" ++ quoted n1 ++ b "," ++ quoted n2 ++ b "," ++ quoted n3]
  | TM_smsc : to_modem true lgsm_sms_get_smsc [b "AT+CSCA?"]
  | TM_cb_subscribe : to_modem false lgsm_cb_subscribe [b "AT+CSCB=1"]
  | TM_cb_unsubscribe : to_modem false lgsm_cb_unsubscribe [b "AT+CSCB=0"]
  | TM_pb_storages : to_modem true lgsm_pb_list_storage [b "AT+CPBS=?"]
  | TM_pb_read i : int_ok i → to_modem true (lgsm_pb_read_entry i) [b "AT+CPBR=" ++ dec i]
  | TM_pb_range i j : 0 ≤ i < 256 → 0 ≤ j < 256 →
      to_modem true (lgsm_pb_read_entries i j) [b "AT+CPBR=" ++ dec i ++ b "," ++ dec j]
  | TM_pb_delete i : int_ok i → to_modem true (lgsm_pb_del_entry i) [b "AT+CPBW=" ++ dec i]
  | TM_pb_support : to_modem true lgsm_pb_get_support [b "AT+CPBR=?"]
  | TM_pin_status : to_modem true lgsm_pin_status [b "AT+CPIN?"].

(** Reading the numbers of a request back. *)
Lemma req8_message type subtype id payload k x g (f : Z → G Z) : payload !! k = Some x →
  (y ← req8 (message type subtype id payload) (sizeof_hdr + k); f y) g = f x g.
Proof. intros Hk. unfold req8. change (rd8 (message type subtype id payload) (sizeof_hdr + k)) with (payload !! k). by rewrite Hk. Qed.

Lemma req32_message type subtype id payload k x rest g B (f : Z → G B) : drop k payload = le32 x ++ rest →
  int_ok x → (y ← req32 (message type subtype id payload) (sizeof_hdr + k); f y) g = f x g.
Proof.
  intros Hk Hx. unfold req32. 
  assert (rd32 (message type subtype id payload) (sizeof_hdr + k) = rd32 (drop k payload) 0) as ->.
  { unfold rd32. reflexivity. }
  by rewrite Hk, rd32_le32.
Qed.

Lemma short_message type subtype id payload n : (n ≤ length payload)%nat →
  short (message type subtype id payload) n = false.
Proof.
  intros Hn. unfold short. apply Nat.ltb_ge. unfold message. rewrite !length_app. cbn [length le16].
  unfold sizeof_hdr. lia.
Qed.
End both.

(** Choosing the handler's branch when the numbers that choose it are known. *)
Ltac branch :=
  repeat match goal with
  | |- context [?a =? ?k] => let r := eval vm_compute in (a =? k) in
      match r with true => idtac | false => idtac end; change (a =? k) with r
  end; cbv beta iota zeta delta [negb].

Ltac nat_test := repeat match goal with
  | |- context [(?a <? ?k)%nat] => let r := eval vm_compute in (a <? k)%nat in
      match r with true => idtac | false => idtac end; change (a <? k)%nat with r
  end; cbv beta iota zeta.

Ltac handler_by u says_tac :=
  eapply (reaches_intro _ _ _ _ _ u); [says_tac | reflexivity | reflexivity|];
  intros c id h Hst Hlen; cbn [run_umh];
  unfold usock_rcv_voicecall, usock_rcv_pin, usock_rcv_phone, usock_rcv_network, usock_rcv_sms,
    usock_rcv_cb, usock_rcv_phonebook; rewrite Hst; branch; nat_test.
Ltac handler u := handler_by u ltac:(first [apply says_simple; reflexivity | apply says_int; reflexivity]).
Ltac handler_with u p := handler_by u ltac:(apply (says_request_n _ _ _ _ _ p); (reflexivity || done)).

(** Reading a number at an offset, then going on. *)
Ltac read32 i := eapply queues_ext;
  [intros g; apply (req32_message _ _ _ _ 0 i [] g); [reflexivity|assumption]|]; cbv beta.
Ltac read8 k i := eapply queues_ext; [intros g; apply (req8_message _ _ _ _ k i g); reflexivity|]; cbv beta.

Ltac dec_ok := repeat (apply cstring_app; split); first [by repeat constructor | apply dec_cstring; assumption | idtac].

(** Two commands of the phone note the change before they are queued. *)
Lemma queues_set_dev c text cb id f : cstring text →
  queues c (cmd ← fill_const text cb c id; set_dev f;; submit_or_nomem cmd) [text].
Proof.
  intros Ht g Hg. pose proof (proj2 Hg) as Ho.
  destruct (queues_fill c text (Z.of_nat (length text) + 1) (Some cb) id ltac:(lia) Ht g Hg) as (g' & cmds & E & H).
  revert E. unfold fill_const.
  rewrite !(bind_step _ _ _ _ _ (atcmd_fill_run text (Z.of_nat (length text) + 1) (Some cb) c id None g Ho ltac:(lia))).
  destruct Hg as [(pl & Hpl & Hx) _]. unfold set_dev. run. cbn [submit_or_nomem].
  rewrite !(atcmd_submit_run _ pl) by done. intros [= <-].
  eexists _, cmds. split; [reflexivity|]. exact H.
Qed.

(** A request without parameters. *)
Ltac fixed u :=
  handler u;
  first [apply queues_const | apply queues_two | apply queues_unchecked | apply queues_or_0 | apply queues_fill; [done|]];
  by repeat constructor.

Ltac constant :=
  first [fixed H_phone | fixed H_voicecall | fixed H_network | fixed H_sms | fixed H_phonebook | fixed H_cb | fixed H_pin].

Section theorem.
Context {A W : Type}.
Abbreviation L := (lgsm A W).

Lemma reaches_forward st mode cb (op : M L Z) r :
  (∀ c h m, h_msg_subtype h = st → usock_rcv_voicecall c h m = rcv_forward c h m mode cb) →
  says op GSMD_MSG_VOICECALL st (le32 r) → cstring mode → int_ok r →
  reaches true op [b "AT+CCFC=" ++ dec r ++ b "," ++ mode].
Proof.
  intros Hst Hs Hm Hr. eapply (reaches_intro _ _ _ _ _ H_voicecall); [done|reflexivity|reflexivity|].
  intros c id h Eh _. cbn [run_umh]. rewrite (Hst _ _ _ Eh). unfold rcv_forward.
  rewrite short_message by (cbn; lia). read32 r. apply queues_sprintf. dec_ok.
Qed.

Ltac forward st mode cb :=
  apply (reaches_forward st mode cb);
  [intros c h m Hst; unfold usock_rcv_voicecall; rewrite Hst; branch; reflexivity
  |by apply says_int|by repeat constructor|assumption].

Lemma short_text pre i n : int_ok i → Z.of_nat (length pre) + 11 < n → Z.of_nat (length (pre ++ dec i)) < n.
Proof. intros Hi Hn. pose proof (proj2 (dec_cstring i Hi)). rewrite length_app. lia. Qed.

Lemma memtype_run type subtype id payload k m n rest g B (f : list Z → G B) :
  drop k payload = le32 (Z.of_nat m) ++ rest → (m < 7)%nat → ts0705_memtype_name !! m = Some n →
  (x ← memtype_name (message type subtype id payload) (sizeof_hdr + k); f x) g = f n g.
Proof.
  intros Hk Hm Hn. unfold memtype_name. rewrite bind_assoc.
  rewrite (req32_message _ _ _ _ k (Z.of_nat m) rest) by (done || unfold int_ok, INT_MIN, INT_MAX; lia).
  rewrite (proj2 (Z.leb_le _ _)) by lia. run. rewrite Nat2Z.id, Hn. by run.
Qed.

Lemma queues_storage c h id m1 m2 m3 n1 n2 n3 :
  ts0705_memtype_name !! m1 = Some n1 → ts0705_memtype_name !! m2 = Some n2 →
  ts0705_memtype_name !! m3 = Some n3 →
  queues c (text ← cpms_text (message GSMD_MSG_SMS GSMD_SMS_SET_MSG_STORAGE id
              (le32 (Z.of_nat m1) ++ le32 (Z.of_nat m2) ++ le32 (Z.of_nat m3)));
            cmd ← fill_buf1024 text None c h; submit_or_nomem cmd)
    [b "AT+CPMS=" ++ quoted n1 ++ b "," ++ quoted n2 ++ b "," ++ quoted n3].
Proof.
  intros H1 H2 H3.
  assert (∀ m n, ts0705_memtype_name !! m = Some n → (m < 7)%nat ∧ cstring n ∧ (length n ≤ 4)%nat) as Hn.
  { intros m n Hm. split; [by apply lookup_lt_Some in Hm|].
    do 7 (destruct m as [|m]; [injection Hm as <-; split; [apply (proj1 (bool_decide_eq_true _)); reflexivity|by apply Nat.leb_le]|]).
    done. }
  destruct (Hn _ _ H1) as (L1 & C1 & K1), (Hn _ _ H2) as (L2 & C2 & K2), (Hn _ _ H3) as (L3 & C3 & K3).
  set (texts := [_]). eapply queues_ext; [|apply queues_buf1024].
  - intros g. unfold cpms_text. rewrite bind_assoc.
    rewrite (memtype_run _ _ _ _ 0 m1 n1 (le32 (Z.of_nat m2) ++ le32 (Z.of_nat m3))) by (done || lia). rewrite bind_assoc.
    rewrite (memtype_run _ _ _ _ 4 m2 n2 (le32 (Z.of_nat m3))) by (done || lia). rewrite bind_assoc.
    rewrite (memtype_run _ _ _ _ 8 m3 n3 []) by (done || lia). reflexivity.
  - repeat (apply cstring_app; split); (done || by repeat constructor).
  - unfold quoted. rewrite !length_app. change (length (b "AT+CPMS=")) with 8%nat. change (length (b ",")) with 1%nat.
    cbn [length]. lia.
Qed.

Lemma queues_ctrl c h id proc idx t : int_ok proc → 0 ≤ idx < 10 → chld_text proc idx = Some t →
  queues c (rcv_ctrl c h (message GSMD_MSG_VOICECALL GSMD_VOICECALL_CTRL id (le32 proc ++ [idx])))
    [b "AT+CHLD=" ++ t].
Proof.
  intros Hp Hi Ht.
  assert (cstring t ∧ (length t ≤ 2)%nat) as [Hc Hl].
  { assert (∃ d, 48 ≤ d ≤ 57 ∧ dec idx = [d]) as (d & Hd & E).
    { exists (48 + idx). split; [lia|]. unfold dec. destruct (Z.ltb_spec idx 0); [lia|]. cbn [dec_digits].
      destruct (Z.ltb_spec idx 10); [|lia]. by rewrite Z.mod_small. }
    revert Ht. unfold chld_text. rewrite E.
    repeat match goal with |- (if ?b then _ else _) = _ → _ => destruct b end; intros [= <-];
      (split; [repeat constructor; cbn; lia | cbn; lia]). }
  eapply queues_ext; [|apply (queues_fill_sprintf c (b "AT+CHLD=") (1 + 8 + 2) CB_voicecall_ctrl_cb (hdr_id h))].
  - intros g. unfold rcv_ctrl, fill_sprintf. rewrite short_message by (cbn; lia). rewrite bind_assoc.
    apply bind_ext. intros [cmd|] g1 _; [|reflexivity].
    rewrite (req32_message _ _ _ _ 0 proc [idx] g1) by done.
    rewrite (req8_message _ _ _ _ 4 idx g1) by done. rewrite Ht. by rewrite bind_assoc.
  - done.
  - rewrite length_app, Nat2Z.inj_add. change (Z.of_nat (length (b "AT+CHLD="))) with 8. lia.
  - apply cstring_app. split; [by repeat constructor|done].
Qed.

End theorem.
