(* ===== verification/TextRequests.v ===== *)
(** * Numbers and texts from the library to the modem (libgsmd, usock.c, sms_cb.c)

    The calls of the library that carry a number, a text or a message, followed
    through the daemon; and what goes wrong on the way. *)

From S2P Require Import Prelude CString Enums Wire LLParse ExtRsp Pdu SmsText Timers State Queue Events.
From S2P Require Import SmsCb Unsolicited Vendor UsockCb Main AtCmd Usock Requests ClientLib ClientReq EndToEnd.

Lemma length_le32 x : length (le32 x) = 4%nat.
Proof. done. Qed.
Lemma length_lit s : length (b s) = String.length s.
Proof. unfold b. rewrite length_fmap. induction s as [|c s IH]; [done|]. cbn. by rewrite IH. Qed.
#[export] Hint Rewrite length_le32 length_lit : len.

Ltac lens :=
  autorewrite with len; cbn [length String.length] in *;
  unfold PIN_FIELD, GSMD_ADDR_MAXLEN, GSMD_PIN_MAXLEN, PB_TEXT, PB_NUMB, SIZEOF_OPER, SIZEOF_OPER_NUMERIC,
    sizeof_addr, sizeof_hdr, SIZEOF_PIN, SIZEOF_PHONEBOOK in *; lia.

(** A text made of constants, numbers and strings is a C string. *)
Ltac strings := unfold quoted; repeat (apply cstring_app; split);
  first [assumption | by repeat constructor | apply dec_cstring; assumption | idtac].

Section texts.
Context {A W : Type}.
Abbreviation L := (lgsm A W).
Implicit Types (s : L).

(** ** Filling a message in *)

Lemma data_message off bytes type subtype id payload : (off + length bytes ≤ length payload)%nat →
  data off bytes (message type subtype id payload) =
  message type subtype id (take off payload ++ bytes ++ drop (off + length bytes) payload).
Proof.
  intros Hl. unfold message at 2. rewrite !length_app, length_take, length_drop.
  replace (off `min` length payload + (length bytes + (length payload - (off + length bytes))))%nat
    with (length payload) by lia.
  reflexivity.
Qed.

(** Going through the bytes of a payload from the left. *)
Lemma data_here l off bytes rest type subtype id : length l = off → (length bytes ≤ length rest)%nat →
  data off bytes (message type subtype id (l ++ rest)) =
  message type subtype id (l ++ bytes ++ drop (length bytes) rest).
Proof.
  intros Hl Hb. rewrite data_message by (rewrite length_app; lia). f_equal.
  rewrite <- Hl, take_app_length. f_equal. f_equal.
  rewrite drop_app. rewrite (drop_ge l) by lia. cbn [app]. f_equal. lia.
Qed.

Lemma data_first bytes type subtype id payload : (length bytes ≤ length payload)%nat →
  data 0 bytes (message type subtype id payload) = message type subtype id (bytes ++ drop (length bytes) payload).
Proof. intros Hl. apply (data_here [] 0 bytes payload); done. Qed.

Lemma req_str_message type subtype id payload k t rest g B (f : list Z → G B) :
  drop k payload = t ++ 0 :: rest → cstring t →
  (y ← req_str (message type subtype id payload) (sizeof_hdr + k); f y) g = f t g.
Proof.
  intros Hk Ht. unfold req_str, cstr_at.
  change (drop (sizeof_hdr + k) (message type subtype id payload)) with (drop k payload). rewrite Hk.
  rewrite bool_decide_eq_true_2 by (apply elem_of_app; right; by left).
  by rewrite until0_cstring.
Qed.

Lemma req_prefix_message type subtype id payload n t rest g B (f : list Z → G B) :
  payload = t ++ rest → length t = n → cstring t →
  (y ← req_prefix (message type subtype id payload) sizeof_hdr n; f y) g = f t g.
Proof.
  intros -> Hn Ht. unfold req_prefix.
  change (drop sizeof_hdr (message type subtype id (t ++ rest))) with (t ++ rest).
  rewrite length_app. rewrite (proj2 (Nat.leb_le n _)) by lia. rewrite orb_true_r. run.
  by rewrite take_app_le, take_ge, until0_id by (done || lia).
Qed.

Lemma message_length type subtype id payload :
  length (message type subtype id payload) = (sizeof_hdr + length payload)%nat.
Proof. unfold message. by rewrite !length_app. Qed.

(** A call whose message is filled in after a test. *)
Lemma says_checked (n : Z) type subtype len payload (fill : list Z → M L Z) :
  u8 type = type → u8 subtype = subtype → Z.of_nat (length payload) < 65536 →
  n ≤ Z.of_nat (length payload + sizeof_hdr) →
  (∀ s, fill (message type subtype 0 (replicate len 0)) s = send_checked n (message type subtype 0 payload) s) →
  says (gmh ← lgsm_gmh_fill type subtype len;
        match gmh with None => mret (- ENOMEM) | Some gmh => fill gmh end) type subtype payload.
Proof.
  intros Ht Hs Hl Hn Hf s Hq. rewrite (bind_step _ _ _ _ _ (gmh_fill_run type subtype len s Hq Ht Hs)), Hf.
  exists 0. split; [done|]. by apply send_checked_all.
Qed.

(** ** Numbers *)

Definition plus_sign (plus : bool) : list Z := if plus then [ch "+"] else [].
Definition toa (plus : bool) : Z := if plus then 145 else 129.
Definition digits_ok (n : list Z) : Prop := Forall is_dig n.

Lemma digits_cstring n : digits_ok n → cstring n.
Proof. apply dig_cstring. Qed.

Lemma digits_isdigit n : digits_ok n → forallb isdigit n = true.
Proof. induction 1 as [|c n Hc _ IH]; [done|]. cbn [forallb]. by rewrite isdigit_dig, IH. Qed.

Lemma mapM_known l : mapM id (known l) = Some l.
Proof.
  induction l as [|c l IH]; [done|]. unfold known in *. cbn [fmap list_fmap mapM]. unfold id in *.
  cbn [mbind option_bind]. by rewrite IH.
Qed.

Lemma number_bytes_run plus n (skip : bool) s : digits_ok n → (length (plus_sign plus ++ n) ≤ GSMD_ADDR_MAXLEN)%nat →
  number_bytes (plus_sign plus ++ n) skip s =
  Ret (if plus && negb skip then None
       else Some (toa plus :: n ++ replicate (GSMD_ADDR_MAXLEN + 1 - length n) 0)) s.
Proof.
  intros Hn Hl. unfold number_bytes, lgsm_number2addr.
  destruct (Nat.ltb_spec (GSMD_ADDR_MAXLEN + 1) (length (plus_sign plus ++ n) + 1)); [lia|].
  assert (bool_decide (head (plus_sign plus ++ n) = Some (ch "+")) = plus) as ->.
  { destruct plus; [reflexivity|]. apply bool_decide_eq_false. cbn [plus_sign app].
    destruct Hn as [|c n' Hc _]; [done|]. intros [= ->]. unfold is_dig in Hc. change (ch "+") with 43 in Hc. lia. }
  assert (∀ t, (length t ≤ GSMD_ADDR_MAXLEN)%nat → strcpy (addr_number zero_addr) t =
    Some (known (t ++ replicate (GSMD_ADDR_MAXLEN + 1 - length t) 0))) as Hcpy.
  { intros t Ht. unfold strcpy. cbn [addr_number zero_addr]. rewrite length_known, length_replicate.
    destruct (Nat.ltb_spec (length t) (GSMD_ADDR_MAXLEN + 1)); [|lia]. f_equal. unfold known.
    rewrite fmap_app. f_equal.
    replace (GSMD_ADDR_MAXLEN + 1 - length t)%nat with (S (GSMD_ADDR_MAXLEN + 1 - S (length t))) by lia.
    cbn [replicate fmap list_fmap]. f_equal. by rewrite <- fmap_drop, drop_replicate. }
  destruct plus; cbn [andb plus_sign app].
  - destruct skip; cbn [drop negb].
    + cbn [plus_sign app length] in Hl. rewrite (Hcpy (drop 0 n)) by (rewrite drop_0; lia). rewrite drop_0.
      cbn [mbind option_bind]. run. cbn [fst snd].
      rewrite digits_isdigit by done. 
      change (enc_addr _) with (known (toa true :: n ++ replicate (GSMD_ADDR_MAXLEN + 1 - length n) 0)).
      rewrite mapM_known. by run.
    + rewrite (Hcpy (ch "+" :: n)) by done. cbn [mbind option_bind]. run. cbn [fst snd].
      assert (forallb isdigit (ch "+" :: n) = false) as -> by done.
      change (enc_addr _) with (known (toa true :: (ch "+" :: n) ++ replicate (GSMD_ADDR_MAXLEN + 1 - length (ch "+" :: n)) 0)).
      rewrite mapM_known. by run.
  - rewrite (Hcpy n) by done. cbn [mbind option_bind]. run. cbn [fst snd]. rewrite digits_isdigit by done.
    change (enc_addr _) with (known (toa false :: n ++ replicate (GSMD_ADDR_MAXLEN + 1 - length n) 0)).
    rewrite mapM_known. by run.
Qed.

(** A number is sent as its type and its digits; one with a plus sign that the caller
    does not skip is refused before anything is sent. *)
Lemma says_addr off type subtype len plus n (skip : bool) fill payload :
  u8 type = type → u8 subtype = subtype → digits_ok n → (length (plus_sign plus ++ n) ≤ GSMD_ADDR_MAXLEN)%nat →
  plus && negb skip = false → length payload = len → Z.of_nat len < 65536 →
  fill (data off (toa plus :: n ++ replicate (GSMD_ADDR_MAXLEN + 1 - length n) 0)
          (message type subtype 0 (replicate len 0))) = message type subtype 0 payload →
  says (request_addr (A:=A) (W:=W) off type subtype len (plus_sign plus ++ n) skip fill) type subtype payload.
Proof.
  intros Ht Hs Hn Hl Hp Hlen Hmax Hf. apply (says_checked (Z.of_nat (len + sizeof_hdr))); [done..|lia|lia|].
  intros s. rewrite (bind_step _ _ _ _ _ (number_bytes_run plus n skip s Hn Hl)), Hp, Hf. done.
Qed.

(** Reading what a request holds at an offset of its data: an integer, or a string. *)
Ltac read_int k i rest := eapply queues_ext;
  [intros g; apply (req32_message _ _ _ _ k i rest g); [reflexivity|assumption]|]; cbv beta.
Ltac read_str k t rest tac := eapply queues_ext;
  [intros g; apply (req_str_message _ _ _ _ k t rest g); [tac|assumption]|]; cbv beta.

(** ** What each call asks of the modem *)

(** An array that holds a string, and what follows the NUL. *)
Definition holds (t rest : list Z) : list Z := t ++ 0 :: rest.

Inductive text_request : M L Z → list (list Z) → Prop :=
  | TR_passthrough t : cstring t → (length t < PT_BUF_SIZE)%nat → text_request (lgsm_passthrough_send t) [t]
  | TR_dial type n rest : cstring n → (length n ≤ GSMD_ADDR_MAXLEN)%nat →
      (GSMD_ADDR_MAXLEN < length (holds n rest))%nat →
      text_request (lgsm_voice_out_init type (holds n rest)) [b "ATD" ++ n ++ b ";"]
  | TR_fwd_reg r n : int_ok r → cstring n → (length n ≤ GSMD_ADDR_MAXLEN)%nat →
      text_request (lgsm_voice_fwd_reg r n) [b "AT+CCFC=" ++ dec r ++ b ",3," ++ quoted n]
  | TR_register oper : cstring oper → length oper = SIZEOF_OPER →
      text_request (lgsm_netreg_register oper) [b "AT+COPS=1,2," ++ quoted oper]
  | TR_pref_add oper : cstring oper → length oper = SIZEOF_OPER →
      text_request (lgsm_prefoper_add oper) [b "AT+CPOL=,2," ++ quoted oper]
  | TR_voicemail n : digits_ok n → (length n ≤ 4)%nat →
      text_request (lgsm_voicemail_set n) [b "AT+CSVM=1," ++ quoted n ++ b ",129"]
  | TR_smsc n : digits_ok n → (length n ≤ GSMD_ADDR_MAXLEN)%nat →
      text_request (lgsm_sms_set_smsc n) [b "AT+CSCA=" ++ quoted n ++ b ",129"]
  | TR_pb_storage t : cstring t → length t = 2%nat →
      text_request (lgsm_pb_set_storage t) [b "AT+CPBS=" ++ quoted t]
  | TR_pb_find t rest : cstring t → length (holds t rest) = PB_TEXT →
      text_request (lgsm_pb_find_entry (holds t rest)) [b "AT+CPBF=" ++ quoted t]
  | TR_pb_write i n nrest type t trest : -128 ≤ i < 128 → 0 ≤ type < 256 → cstring n → cstring t →
      length (holds n nrest) = PB_NUMB → length (holds t trest) = PB_TEXT →
      text_request (lgsm_pb_write_entry i (holds n nrest) type (holds t trest))
        [b "AT+CPBW=" ++ dec i ++ b "," ++ quoted n ++ b "," ++ dec type ++ b "," ++ quoted t]
  | TR_pin type pin newpin : 0 ≤ type < NUM_GSMD_PIN → wants_newpin type = false → cstring pin →
      (length pin ≤ GSMD_PIN_MAXLEN)%nat →
      match newpin with Some n => (length n ≤ GSMD_PIN_MAXLEN)%nat | None => True end →
      text_request (lgsm_pin type pin newpin) [b "AT+CPIN=" ++ quoted pin]
  | TR_puk type pin newpin : wants_newpin type = true → cstring pin → cstring newpin →
      (length pin ≤ GSMD_PIN_MAXLEN)%nat → (length newpin ≤ GSMD_PIN_MAXLEN)%nat →
      text_request (lgsm_pin type pin (Some newpin)) [b "AT+CPIN=" ++ quoted pin ++ b "," ++ quoted newpin].

Lemma until0_padded n rest k : cstring n → (length n ≤ k)%nat → until0 (take k (holds n rest)) = n.
Proof.
  intros Hn Hk. unfold holds. rewrite take_app, take_ge by lia.
  destruct (k - length n)%nat as [|j]; [by rewrite app_nil_r; apply until0_id|]. by apply until0_cstring.
Qed.

Lemma passthrough_reaches t : cstring t → (length t < PT_BUF_SIZE)%nat →
  reaches (A:=A) (W:=W) true (lgsm_passthrough_send t) [t].
Proof.
  unfold PT_BUF_SIZE. intros Ht Hl. assert (length (t ++ [0]) = (length t + 1)%nat) as Hp by by rewrite length_app.
  apply (reaches_intro true _ GSMD_MSG_PASSTHROUGH GSMD_PASSTHROUGH_REQ (t ++ [0]) H_passthrough); [|done|rewrite Hp; lia|].
  - intros s Hq. unfold lgsm_passthrough_send, PT_BUF_SIZE.
    destruct (Nat.ltb_spec 1024 (length t)); [lia|]. rewrite (proj2 (Nat.ltb_lt _ _)) by lia. run.
    assert ([GSMD_PROTO_VERSION; GSMD_MSG_PASSTHROUGH; GSMD_PASSTHROUGH_REQ; 0; 0; 0] ++ le16 (Z.of_nat (length t + 1)) ++ t ++ [0] =
      message GSMD_MSG_PASSTHROUGH GSMD_PASSTHROUGH_REQ 0 (t ++ [0])) as -> by (unfold message; by rewrite Hp).
    rewrite (bind_step _ _ _ _ _ (lgsm_send_run _ _ _ s Hq ltac:(rewrite Hp; lia))). cbn [fst snd].
    unfold less_than_sent. rewrite wrapu_small by (rewrite Hp; unfold sizeof_hdr; lia).
    rewrite (proj2 (Z.ltb_ge _ _)) by (rewrite Hp; lia).
    eexists. split; [|reflexivity]. pose proof (Z.mod_pos_bound (next_msg_id s) 256 ltac:(lia)).
    pose proof (Z.mod_pos_bound (next_msg_id s / 256) 256 ltac:(lia)). cbn. lia.
  - intros c id h _ Hh. cbn [run_umh]. unfold usock_rcv_passthrough. read_str 0%nat t (@nil Z) ltac:(reflexivity).
    apply queues_fill; [rewrite Hh, Hp; lia|done].
Qed.

Lemma dial_reaches type n rest : cstring n → (length n ≤ GSMD_ADDR_MAXLEN)%nat →
  (GSMD_ADDR_MAXLEN < length (holds n rest))%nat →
  reaches (A:=A) (W:=W) true (lgsm_voice_out_init type (holds n rest)) [b "ATD" ++ n ++ b ";"].
Proof.
  intros Hn Hl Hr. set (addr := holds n rest) in *.
  set (p := u8 type :: take GSMD_ADDR_MAXLEN addr ++ [0]).
  assert (length p = sizeof_addr) as Hp.
  { unfold p. cbn [length]. rewrite length_app, length_take. cbn [length]. unfold GSMD_ADDR_MAXLEN, sizeof_addr in *. lia. }
  apply (reaches_intro true _ GSMD_MSG_VOICECALL GSMD_VOICECALL_DIAL p H_voicecall); [|done|by rewrite Hp|].
  - apply (says_checked (Z.of_nat (sizeof_addr + sizeof_hdr))); [done|done|by rewrite Hp|by rewrite Hp|].
    intros s. unfold readable. rewrite (proj2 (Nat.leb_le _ _)) by lia. run. f_equal.
    rewrite data_first by lens. cbn [length app].
    rewrite (data_here [u8 type] 1 _ (drop 1 (replicate sizeof_addr 0))) by lens.
    destruct (lookup_lt_is_Some_2 addr GSMD_ADDR_MAXLEN Hr) as [x Hx].
    rewrite (drop_ge (drop 1 _)) by lens. rewrite app_nil_r.
    change (GSMD_ADDR_MAXLEN + 1)%nat with (S GSMD_ADDR_MAXLEN). rewrite (take_S_r _ _ _ Hx).
    change ([u8 type] ++ take GSMD_ADDR_MAXLEN addr ++ [x]) with ((u8 type :: take GSMD_ADDR_MAXLEN addr) ++ [x]).
    by rewrite data_here by lens.
  - intros c id h Hst _. cbn [run_umh]. unfold usock_rcv_voicecall. rewrite Hst. branch. unfold rcv_dial.
    rewrite short_message by lia. 
    assert (dial_number (message GSMD_MSG_VOICECALL GSMD_VOICECALL_DIAL id p) = n) as ->.
    { unfold dial_number. change (drop (sizeof_hdr + 1) _) with (take GSMD_ADDR_MAXLEN addr ++ [0]).
      rewrite take_app_le by lens. rewrite take_ge by lens. by apply until0_padded. }
    apply queues_fill_sprintf.
    + change (Z.of_nat (length (b "ATD"))) with 3. lia.
    + rewrite !length_app. change (length (b "ATD")) with 3%nat. change (length (b ";")) with 1%nat. lia.
    + repeat (apply cstring_app; split); (done || by repeat constructor).
Qed.

Lemma fwd_reg_reaches r n : int_ok r → cstring n → (length n ≤ GSMD_ADDR_MAXLEN)%nat →
  reaches (A:=A) (W:=W) true (lgsm_voice_fwd_reg r n) [b "AT+CCFC=" ++ dec r ++ b ",3," ++ quoted n].
Proof.
  intros Hr Hn Hl. set (p := (le32 r ++ [0]) ++ holds n (replicate (GSMD_ADDR_MAXLEN - length n) 0)).
  assert (length p = (4 + sizeof_addr)%nat) as Hp by (unfold p, holds; lens).
  apply (reaches_intro true _ GSMD_MSG_VOICECALL GSMD_VOICECALL_FWD_REG p H_voicecall); [|done|by rewrite Hp|].
  - apply (says_checked (Z.of_nat (4 + sizeof_addr + sizeof_hdr))); [done|done|by rewrite Hp|by rewrite Hp|].
    intros s. rewrite (proj2 (Nat.ltb_lt _ _)) by lia. run. f_equal.
    rewrite data_first by lens. rewrite (data_here (le32 r ++ [0]) 5 (n ++ [0]) (replicate 33 0)) by lens.
    unfold p, holds. do 2 f_equal. rewrite <- app_assoc. f_equal. cbn [app]. f_equal. autorewrite with len.
    rewrite drop_replicate. f_equal. cbn [length]. unfold GSMD_ADDR_MAXLEN. lia.
  - intros c id h Hst _. cbn [run_umh]. unfold usock_rcv_voicecall. rewrite Hst. branch. unfold rcv_fwd_reg.
    rewrite short_message by lens. read_int 0%nat r (0 :: holds n (replicate (GSMD_ADDR_MAXLEN - length n) 0)).
    read_str 5%nat n (replicate (GSMD_ADDR_MAXLEN - length n) 0) ltac:(reflexivity).
    rewrite (proj2 (Z.ltb_lt _ _)). 
    2: { pose proof (proj2 (dec_cstring r Hr)). unfold quoted. lens. }
    eapply queues_ext; [intros g; apply bind_must_true|]. apply queues_sprintf. strings.
Qed.

Lemma says_oper subtype oper : u8 subtype = subtype → length oper = SIZEOF_OPER →
  says (request_oper (A:=A) (W:=W) subtype oper) GSMD_MSG_NETWORK subtype oper.
Proof.
  intros Hs Hl. apply (says_checked (Z.of_nat (SIZEOF_OPER + sizeof_hdr))); [done|done|by rewrite Hl|by rewrite Hl|].
  intros s. unfold readable. rewrite (proj2 (Nat.leb_le _ _)) by lia. run. rewrite take_ge by lia. f_equal.
  rewrite data_first by lens. rewrite drop_ge by lens. by rewrite app_nil_r.
Qed.

Lemma register_reaches oper : cstring oper → length oper = SIZEOF_OPER →
  reaches (A:=A) (W:=W) true (lgsm_netreg_register oper) [b "AT+COPS=1,2," ++ quoted oper].
Proof.
  intros Hc Hl. apply (reaches_intro true _ GSMD_MSG_NETWORK GSMD_NETWORK_REGISTER oper H_network);
    [by apply says_oper|done|by rewrite Hl|].
  intros c id h Hst _. cbn [run_umh]. unfold usock_rcv_network. rewrite Hst. branch. unfold rcv_register.
  destruct oper as [|x oper]; [done|]. pose proof Hc as Hc'. apply Forall_cons in Hc' as [Hx _].
  read8 0%nat x. destruct (Z.eqb_spec x 0); [lia|]. cbn [negb].
  eapply queues_ext; [intros g; apply (req_prefix_message _ _ _ _ _ (x :: oper) []); by rewrite ?app_nil_r|].
  cbv beta. apply queues_buffer; [strings|]. unfold quoted, NETWORK_BUF. lens.
Qed.

Lemma pref_add_reaches oper : cstring oper → length oper = SIZEOF_OPER →
  reaches (A:=A) (W:=W) true (lgsm_prefoper_add oper) [b "AT+CPOL=,2," ++ quoted oper].
Proof.
  intros Hc Hl. apply (reaches_intro true _ GSMD_MSG_NETWORK GSMD_NETWORK_PREF_ADD oper H_network);
    [by apply says_oper|done|by rewrite Hl|].
  intros c id h Hst _. cbn [run_umh]. unfold usock_rcv_network. rewrite Hst. branch.
  eapply queues_ext; [intros g; apply (req_prefix_message _ _ _ _ _ oper []); by rewrite ?app_nil_r|].
  cbv beta. apply queues_buffer; [strings|]. unfold quoted, NETWORK_BUF. lens.
Qed.

Definition addr_field (plus : bool) (n : list Z) : list Z :=
  toa plus :: holds n (replicate (GSMD_ADDR_MAXLEN - length n) 0).

Lemma addr_field_eq plus n : (length n ≤ GSMD_ADDR_MAXLEN)%nat →
  toa plus :: n ++ replicate (GSMD_ADDR_MAXLEN + 1 - length n) 0 = addr_field plus n.
Proof.
  intros Hl. unfold addr_field, holds. do 2 f_equal.
  by replace (GSMD_ADDR_MAXLEN + 1 - length n)%nat with (S (GSMD_ADDR_MAXLEN - length n)) by lia.
Qed.

Lemma length_addr_field plus n : (length n ≤ GSMD_ADDR_MAXLEN)%nat → length (addr_field plus n) = sizeof_addr.
Proof. intros Hl. unfold addr_field, holds. lens. Qed.

Lemma voicemail_says n : digits_ok n → (length n ≤ GSMD_ADDR_MAXLEN)%nat →
  says (lgsm_voicemail_set (A:=A) (W:=W) n) GSMD_MSG_NETWORK GSMD_NETWORK_VMAIL_SET (1 :: addr_field false n).
Proof.
  intros Hn Hl. apply (says_addr 1 _ _ _ false n false); [done..| |done|].
  { cbn [length]. by rewrite length_addr_field. }
  rewrite addr_field_eq by done. rewrite (data_here [0] 1 _ (replicate 34 0)) by (rewrite ?length_addr_field by done; lens).
  rewrite length_addr_field by done. rewrite drop_ge by lens. rewrite app_nil_r.
  rewrite data_first by lens. reflexivity.
Qed.

Lemma voicemail_reaches n : digits_ok n → (length n ≤ 4)%nat →
  reaches (A:=A) (W:=W) true (lgsm_voicemail_set n) [b "AT+CSVM=1," ++ quoted n ++ b ",129"].
Proof.
  intros Hn Hl. pose proof (digits_cstring n Hn).
  apply (reaches_intro true _ GSMD_MSG_NETWORK GSMD_NETWORK_VMAIL_SET (1 :: addr_field false n) H_network);
    [apply voicemail_says; [done|unfold GSMD_ADDR_MAXLEN; lia]|done| |].
  { cbn [length]. rewrite length_addr_field; [done|unfold GSMD_ADDR_MAXLEN; lia]. }
  intros c id h Hst _. cbn [run_umh]. unfold usock_rcv_network. rewrite Hst. branch. unfold rcv_vmail_set.
  read_str 2%nat n (replicate (GSMD_ADDR_MAXLEN - length n) 0) ltac:(reflexivity).
  read8 1%nat 129. apply queues_buffer; [change (dec 129) with (b "129"); strings|].
  unfold quoted, NETWORK_BUF. lens.
Qed.

Lemma smsc_says n : digits_ok n → (length n ≤ GSMD_ADDR_MAXLEN)%nat →
  says (lgsm_sms_set_smsc (A:=A) (W:=W) n) GSMD_MSG_SMS GSMD_SMS_SET_SERVICE_CENTRE (addr_field false n).
Proof.
  intros Hn Hl. pose proof (length_addr_field false n Hl) as Ha.
  apply (says_addr 0 _ _ _ false n false); [done..|]. rewrite addr_field_eq by done.
  rewrite data_first by lens. rewrite Ha, drop_ge by lens. by rewrite app_nil_r.
Qed.

Lemma smsc_reaches n : digits_ok n → (length n ≤ GSMD_ADDR_MAXLEN)%nat →
  reaches (A:=A) (W:=W) true (lgsm_sms_set_smsc n) [b "AT+CSCA=" ++ quoted n ++ b ",129"].
Proof.
  intros Hn Hl. pose proof (digits_cstring n Hn). pose proof (length_addr_field false n Hl) as Ha.
  apply (reaches_intro true _ GSMD_MSG_SMS GSMD_SMS_SET_SERVICE_CENTRE (addr_field false n) H_sms);
    [by apply smsc_says|done|by rewrite Ha|].
  intros c id h Hst _. cbn [run_umh]. unfold usock_rcv_sms. rewrite Hst. branch. rewrite message_length, Ha. nat_test.
  eapply queues_ext.
  { intros g. unfold csca_text. rewrite bind_assoc, (req8_message _ _ _ _ 0 129) by done. rewrite bind_assoc.
    rewrite (req_str_message _ _ _ _ 1 n (replicate (GSMD_ADDR_MAXLEN - length n) 0)) by done. reflexivity. }
  apply queues_buf1024; [change (dec 129) with (b "129"); strings|].
  unfold quoted. change (dec 129) with (b "129"). lens.
Qed.

(** ** The phone book and the PIN *)

Lemma pb_storage_reaches t : cstring t → length t = 2%nat →
  reaches (A:=A) (W:=W) true (lgsm_pb_set_storage t) [b "AT+CPBS=" ++ quoted t].
Proof.
  intros Ht Hl. destruct t as [|x [|y [|]]]; try done.
  apply (reaches_intro true _ GSMD_MSG_PHONEBOOK GSMD_PHONEBOOK_SET_STORAGE [x; y; 0] H_phonebook); [|done..|].
  { by apply says_request_n. }
  intros c id h Hst _. cbn [run_umh]. unfold usock_rcv_phonebook. rewrite Hst. branch. unfold rcv_pb_storage.
  rewrite short_message by lens. read_str 0%nat [x; y] (@nil Z) ltac:(reflexivity).
  apply queues_fill_sprintf; [done|done|strings].
Qed.

(** An array of the application arrives with its last byte replaced. *)
Definition closed (src : list Z) : list Z := take (length src - 1) src ++ [0].

Lemma length_closed src : src ≠ [] → length (closed src) = length src.
Proof. intros Hs. destruct src; [done|]. unfold closed. autorewrite with len. cbn [length]. lia. Qed.

Lemma closed_holds t rest : ∃ rest', closed (holds t rest) = holds t rest' ∧ length rest' = length rest.
Proof.
  unfold closed, holds. rewrite length_app. cbn [length].
  replace (length t + S (length rest) - 1)%nat with (length t + length rest)%nat by lia. rewrite take_app_add.
  destruct rest as [|x rest]; [exists []; cbn [length take]; by rewrite app_nil_r|].
  exists (take (length rest) (x :: rest) ++ [0]). split; [by rewrite <- app_assoc|]. 
  rewrite length_app, length_take. cbn [length]. lia.
Qed.

Lemma copy_text_run n l src rest type subtype id off : length src = n → (0 < n)%nat → length l = off →
  (n ≤ length rest)%nat →
  copy_text n off src (message type subtype id (l ++ rest)) =
  message type subtype id ((l ++ closed src) ++ drop n rest).
Proof.
  intros Hn H0 Hl Hr. unfold copy_text. rewrite (take_ge src) by lia.
  rewrite data_here by (done || lia). rewrite Hn.
  destruct (lookup_lt_is_Some_2 src (n - 1)) as [x Hx]; [lia|].
  assert (src = take (n - 1) src ++ [x]) as Hsrc.
  { rewrite <- (take_S_r _ _ _ Hx). rewrite take_ge; [done|lia]. }
  rewrite Hsrc at 1. rewrite <- (app_assoc _ [x]), (app_assoc l).
  rewrite (data_here (l ++ take (n - 1) src) (off + (n - 1)) [0] ([x] ++ drop n rest)).
  - unfold closed. rewrite Hn. cbn [length drop app]. by rewrite <- !app_assoc.
  - rewrite length_app, length_take. lia.
  - cbn. lia.
Qed.

Lemma holds_nonempty t rest : holds t rest ≠ [].
Proof. unfold holds. by destruct t. Qed.

Lemma pb_find_reaches t rest : cstring t → length (holds t rest) = PB_TEXT →
  reaches (A:=A) (W:=W) true (lgsm_pb_find_entry (holds t rest)) [b "AT+CPBF=" ++ quoted t].
Proof.
  intros Ht Hl. destruct (closed_holds t rest) as (rest' & E & _).
  assert (length (closed (holds t rest)) = PB_TEXT) as Hp by (by rewrite length_closed by apply holds_nonempty).
  apply (reaches_intro true _ GSMD_MSG_PHONEBOOK GSMD_PHONEBOOK_FIND (closed (holds t rest)) H_phonebook); [|done|by rewrite Hp|].
  { apply says_request_n; [done|done|by rewrite Hp|by rewrite Hp|].
    rewrite (copy_text_run PB_TEXT [] _ (replicate PB_TEXT 0)) by (done || lens). by rewrite drop_ge, app_nil_r by lens. }
  intros c id h Hst _. cbn [run_umh]. unfold usock_rcv_phonebook. rewrite Hst. branch. unfold rcv_pb_find.
  rewrite short_message by (rewrite Hp; by apply Nat.leb_le). read_str 0%nat t rest' ltac:(exact E).
  apply queues_fill_sprintf; [lens|unfold quoted; lens|strings].
Qed.

Lemma pb_write_reaches i n nrest type t trest : -128 ≤ i < 128 → 0 ≤ type < 256 → cstring n → cstring t →
  length (holds n nrest) = PB_NUMB → length (holds t trest) = PB_TEXT →
  reaches (A:=A) (W:=W) true (lgsm_pb_write_entry i (holds n nrest) type (holds t trest))
    [b "AT+CPBW=" ++ dec i ++ b "," ++ quoted n ++ b "," ++ dec type ++ b "," ++ quoted t].
Proof.
  intros Hi Hty Hn Ht Hnl Htl. destruct (closed_holds n nrest) as (nrest' & En & Ln), (closed_holds t trest) as (trest' & Et & Lt).
  set (p := [u8 i] ++ closed (holds n nrest) ++ [u8 type] ++ closed (holds t trest)).
  assert (length p = SIZEOF_PHONEBOOK) as Hp.
  { unfold p. rewrite !length_app, !length_closed, Hnl, Htl by apply holds_nonempty. done. }
  apply (reaches_intro true _ GSMD_MSG_PHONEBOOK GSMD_PHONEBOOK_WRITE p H_phonebook); [|done|by rewrite Hp|].
  { apply says_request_n; [done|done|by rewrite Hp|by rewrite Hp|].
    rewrite data_first by lens.
    rewrite (copy_text_run PB_NUMB [u8 i] (holds n nrest)) by (done || lens).
    rewrite data_here. 
    2: { rewrite length_app, length_closed, Hnl by apply holds_nonempty. done. }
    2: lens.
    rewrite app_assoc. rewrite (copy_text_run PB_TEXT _ (holds t trest)).
    - rewrite drop_ge by lens. rewrite app_nil_r. unfold p. by rewrite <- !app_assoc.
    - done.
    - lens.
    - rewrite !length_app, length_closed, Hnl by apply holds_nonempty. done.
    - lens. }
  intros c id h Hst _. cbn [run_umh]. unfold usock_rcv_phonebook. rewrite Hst. branch. unfold rcv_pb_write.
  rewrite short_message by (rewrite Hp; by apply Nat.leb_le).
  read8 0%nat (u8 i).
  read_str 1%nat n (nrest' ++ [u8 type] ++ closed (holds t trest))
    ltac:(unfold p; rewrite En; unfold holds; cbn [drop app]; by rewrite <- app_assoc).
  assert (length ([u8 i] ++ closed (holds n nrest)) = 46%nat) as H46.
  { rewrite length_app, length_closed, Hnl by apply holds_nonempty. done. }
  assert (p = ([u8 i] ++ closed (holds n nrest)) ++ [u8 type] ++ closed (holds t trest)) as Hp'.
  { unfold p. by rewrite <- app_assoc. }
  eapply queues_ext; [intros g; apply (req8_message _ _ _ _ 46 (u8 type) g); rewrite Hp', <- H46; by apply list_lookup_middle|].
  cbv beta.
  read_str 47%nat t trest'
    ltac:(rewrite Hp', <- (Nat.add_1_r 46), <- H46, <- drop_drop, drop_app_length; exact Et).
  rewrite (wrapu_small 8 type) by lia. 
  assert (s8 (u8 i) = i) as -> by (unfold wraps, wrapu; change (2 ^ 8) with 256; change (2 ^ (8 - 1)) with 128; zdiv).
  assert (int_ok i ∧ int_ok type) as [Hi' Hty'] by (unfold int_ok, INT_MIN, INT_MAX; lia).
  rewrite (proj2 (Z.ltb_lt _ _)).
  2: { pose proof (proj2 (dec_cstring i Hi')). pose proof (proj2 (dec_cstring type Hty')). unfold quoted.
       unfold holds in Hnl, Htl. rewrite length_app in Hnl, Htl. lens. }
  eapply queues_ext; [intros g; apply bind_must_true|]. apply queues_sprintf. strings.
Qed.

(** A field of the PIN message. *)
Definition pin_field (pin : list Z) : list Z := holds pin (replicate (GSMD_PIN_MAXLEN - length pin) 0).
Definition pin_payload (type : Z) (pin : list Z) (last : list Z) : list Z := le32 type ++ pin_field pin ++ last.

Lemma length_pin_field pin : (length pin ≤ GSMD_PIN_MAXLEN)%nat → length (pin_field pin) = PIN_FIELD.
Proof. intros Hl. unfold pin_field, holds. lens. Qed.

Lemma until0_pin_field n : cstring n → until0 (pin_field n) = n.
Proof. apply until0_cstring. Qed.

Lemma pin_filled type pin ty st : (length pin ≤ GSMD_PIN_MAXLEN)%nat →
  data 4 (strncpy PIN_FIELD pin) (data 0 (le32 type) (message ty st 0 (replicate (4 + PIN_FIELD + PIN_FIELD) 0))) =
  message ty st 0 (pin_payload type pin (replicate PIN_FIELD 0)).
Proof.
  intros Hl. rewrite data_first by lens. unfold strncpy. rewrite take_ge by lens.
  rewrite data_here by (done || lens). unfold pin_payload. do 2 f_equal. unfold pin_field, holds.
  rewrite <- app_assoc. f_equal.
  rewrite !drop_replicate. cbn [app]. change (0 :: ?l) with (replicate 1 0 ++ l). rewrite <- !replicate_add. f_equal. lens.
Qed.

Lemma pin_says type pin newpin : 0 ≤ type < NUM_GSMD_PIN → wants_newpin type = false →
  (length pin ≤ GSMD_PIN_MAXLEN)%nat →
  match newpin with Some n => (length n ≤ GSMD_PIN_MAXLEN)%nat | None => True end →
  says (lgsm_pin (A:=A) (W:=W) type pin newpin) GSMD_MSG_PIN GSMD_PIN_INPUT (pin_payload type pin (replicate PIN_FIELD 0)).
Proof.
  intros Hty Hw Hl Hn s Hq. unfold lgsm_pin, NUM_GSMD_PIN in *. rewrite wrapu_small by lia.
  destruct (Nat.ltb_spec GSMD_PIN_MAXLEN (length pin)); [lia|].
  assert ((match newpin with Some n => GSMD_PIN_MAXLEN <? length n | None => false end)%nat = false) as ->.
  { destruct newpin; [apply Nat.ltb_ge; lia|done]. }
  destruct (Z.leb_spec 16 type); [lia|]. cbn [orb].
  rewrite (bind_step _ _ _ _ _ (gmh_fill_run GSMD_MSG_PIN GSMD_PIN_INPUT (4 + PIN_FIELD + PIN_FIELD) s Hq eq_refl eq_refl)).
  cbv zeta. unfold wants_newpin in Hw. rewrite Hw, pin_filled by done.
  assert (length (pin_payload type pin (replicate PIN_FIELD 0)) = SIZEOF_PIN) as Hp.
  { unfold pin_payload. rewrite !length_app, length_pin_field by done. done. }
  rewrite (bind_step _ _ _ _ _ (lgsm_send_run _ _ _ s Hq ltac:(by rewrite Hp))).
  eexists; split; [|reflexivity]. cbn [fst]. lia.
Qed.

Lemma puk_says type pin newpin : wants_newpin type = true →
  (length pin ≤ GSMD_PIN_MAXLEN)%nat → (length newpin ≤ GSMD_PIN_MAXLEN)%nat →
  says (lgsm_pin (A:=A) (W:=W) type pin (Some newpin)) GSMD_MSG_PIN GSMD_PIN_INPUT (pin_payload type pin (pin_field newpin)).
Proof.
  intros Hw Hl Hn s Hq. assert (0 ≤ type < 16) as Hty.
  { unfold wants_newpin in Hw. apply orb_true_iff in Hw. destruct Hw as [E%Z.eqb_eq|E%Z.eqb_eq]; by rewrite E. }
  unfold lgsm_pin, NUM_GSMD_PIN in *. rewrite wrapu_small by lia.
  destruct (Nat.ltb_spec GSMD_PIN_MAXLEN (length pin)); [lia|].
  destruct (Nat.ltb_spec GSMD_PIN_MAXLEN (length newpin)); [lia|].
  destruct (Z.leb_spec 16 type); [lia|]. cbn [orb].
  rewrite (bind_step _ _ _ _ _ (gmh_fill_run GSMD_MSG_PIN GSMD_PIN_INPUT (4 + PIN_FIELD + PIN_FIELD) s Hq eq_refl eq_refl)).
  cbv zeta. unfold wants_newpin in Hw. rewrite Hw, pin_filled by done.
  assert (length (pin_payload type pin (pin_field newpin)) = SIZEOF_PIN) as Hp.
  { unfold pin_payload. rewrite !length_app, !length_pin_field by done. done. }
  assert (data (4 + PIN_FIELD) (strncpy PIN_FIELD newpin) (message GSMD_MSG_PIN GSMD_PIN_INPUT 0
    (pin_payload type pin (replicate PIN_FIELD 0))) = message GSMD_MSG_PIN GSMD_PIN_INPUT 0
    (pin_payload type pin (pin_field newpin))) as ->.
  { unfold pin_payload. rewrite (app_assoc (le32 type)). unfold strncpy. rewrite take_ge by lens.
    rewrite data_here.
    - rewrite <- app_assoc. do 3 f_equal. unfold pin_field, holds. f_equal. rewrite drop_replicate.
      by replace (PIN_FIELD - length newpin)%nat with (S (GSMD_PIN_MAXLEN - length newpin)) by lens.
    - rewrite length_app, length_pin_field by done. done.
    - lens. }
  rewrite (bind_step _ _ _ _ _ (lgsm_send_run _ _ _ s Hq ltac:(by rewrite Hp))).
  eexists; split; [|reflexivity]. cbn [fst]. lia.
Qed.

(** Appending to a command's text. *)
Lemma strlcat_buf_text src cmd : cstring (ac_text cmd) → cstring src →
  (length (ac_text cmd ++ src) < Z.to_nat (ac_buflen cmd))%nat →
  ac_text (strlcat_buf src cmd) = ac_text cmd ++ src.
Proof.
  intros Hc Hs Hl. unfold strlcat_buf, ac_text in *. cbn [ac_buf]. rewrite length_app in Hl.
  rewrite strlcat_string by (done || lia). rewrite take_ge; [done|]. rewrite length_app. lia.
Qed.

(** A command that is changed before it is submitted. *)
Lemma queues_adjust c text0 rlen cb id (adj : gsmd_atcmd → G gsmd_atcmd) text e :
  Z.of_nat (length text0) < rlen → cstring text0 →
  (∀ cmd g, ac_text cmd = text0 → ac_buflen cmd = rlen → ∃ cmd', adj cmd g = Ret cmd' g ∧ ac_text cmd' = text ∧
     ac_ctx cmd' = ac_ctx cmd ∧ ac_cur cmd' = ac_cur cmd) →
  queues c (cmd ← atcmd_fill text0 rlen (Some cb) c id None;
            match cmd with None => mret e | Some cmd => cmd ← adj cmd; atcmd_submit cmd end) [text].
Proof.
  intros Hl Hc Hadj g [(pl & Hpl & Hx) Ho].
  rewrite (bind_step _ _ _ _ _ (atcmd_fill_run text0 rlen (Some cb) c id None g Ho Hl)).
  edestruct (Hadj (filled text0 rlen (Some cb) c id None g)) as (cmd' & E & T & C & U); [|done|].
  { unfold ac_text. cbn [ac_buf filled].
    replace (Z.to_nat rlen - length text0)%nat with (S (Z.to_nat rlen - length text0 - 1)) by lia.
    cbn [replicate]. by apply until0_cstring. }
  rewrite (bind_step _ _ _ _ _ E), (atcmd_submit_run _ pl) by done.
  eexists _, [cmd']. split; [reflexivity|]. split; [by split; [exists pl|]|]. split; [reflexivity|].
  split_and!; try done; [cbn [fmap list_fmap]; by rewrite T|].
  constructor; [|constructor]. by rewrite C, U.
Qed.

Lemma pin_input_run id type pin last cmd g : int_ok type → cstring pin → (length pin ≤ GSMD_PIN_MAXLEN)%nat →
  (if wants_newpin type then ∃ newpin, last = pin_field newpin ∧ cstring newpin ∧ (length newpin ≤ GSMD_PIN_MAXLEN)%nat
   else True) →
  ac_text cmd = b "AT+CPIN=" ++ [DQ] → ac_buflen cmd = PIN_BUF →
  ∃ cmd', pin_input (message GSMD_MSG_PIN GSMD_PIN_INPUT id (pin_payload type pin last)) cmd g = Ret cmd' g ∧
    ac_text cmd' = b "AT+CPIN=" ++ quoted pin ++
      (if wants_newpin type then b "," ++ quoted (until0 last) else []) ∧
    ac_ctx cmd' = ac_ctx cmd ∧ ac_cur cmd' = ac_cur cmd.
Proof.
  intros Hty Hp Hl Hlast Ht Hb. unfold pin_input.
  rewrite (req32_message _ _ _ _ 0 type (pin_field pin ++ last)) by done.
  rewrite (req_str_message _ _ _ _ 4 pin (replicate (GSMD_PIN_MAXLEN - length pin) 0 ++ last)).
  2: { unfold pin_payload, pin_field, holds. cbn [drop app le32]. by rewrite <- app_assoc. }
  2: done.
  cbv zeta.
  assert (ac_text (strlcat_buf pin cmd) = b "AT+CPIN=" ++ [DQ] ++ pin) as T1.
  { rewrite strlcat_buf_text; rewrite ?Ht, ?Hb; [by rewrite <- app_assoc|strings|done|unfold PIN_BUF; lens]. }
  destruct (wants_newpin type).
  - destruct Hlast as (newpin & -> & Hn & Hnl). rewrite bind_assoc.
    rewrite (req_str_message _ _ _ _ 13 newpin (replicate (GSMD_PIN_MAXLEN - length newpin) 0)); [|..|done].
    2: { unfold pin_payload. rewrite (app_assoc (le32 type)).
         assert (length (le32 type ++ pin_field pin) = 13%nat) as <- by (rewrite length_app, length_pin_field by done; done).
         by rewrite drop_app_length. }
    run. eexists. split; [reflexivity|]. split; [|done].
    rewrite until0_pin_field by done.
    assert (ac_text (strlcat_buf ([DQ] ++ b "," ++ [DQ]) (strlcat_buf pin cmd)) =
      b "AT+CPIN=" ++ [DQ] ++ pin ++ [DQ] ++ b "," ++ [DQ]) as T2.
    { rewrite strlcat_buf_text; rewrite ?T1; [by rewrite <- !app_assoc|strings|strings|].
      cbn [ac_buflen strlcat_buf]. rewrite Hb. unfold PIN_BUF. lens. }
    assert (ac_text (strlcat_buf newpin (strlcat_buf ([DQ] ++ b "," ++ [DQ]) (strlcat_buf pin cmd))) =
      b "AT+CPIN=" ++ [DQ] ++ pin ++ [DQ] ++ b "," ++ [DQ] ++ newpin) as T3.
    { rewrite strlcat_buf_text; rewrite ?T2; [by rewrite <- !app_assoc|strings|strings|].
      cbn [ac_buflen strlcat_buf]. rewrite Hb. unfold PIN_BUF. lens. }
    rewrite strlcat_buf_text; rewrite ?T3; [unfold quoted; by rewrite <- !app_assoc|strings|strings|].
    cbn [ac_buflen strlcat_buf]. rewrite Hb. unfold PIN_BUF. lens.
  - run. eexists. split; [reflexivity|]. split; [|done].
    rewrite strlcat_buf_text; rewrite ?T1; [unfold quoted; by rewrite <- !app_assoc|strings|strings|].
    cbn [ac_buflen strlcat_buf]. rewrite Hb. unfold PIN_BUF. lens.
Qed.

Lemma pin_queues type pin last (op : M L Z) : int_ok type → cstring pin → (length pin ≤ GSMD_PIN_MAXLEN)%nat →
  (if wants_newpin type then ∃ newpin, last = pin_field newpin ∧ cstring newpin ∧ (length newpin ≤ GSMD_PIN_MAXLEN)%nat
   else True) → length last = PIN_FIELD →
  says op GSMD_MSG_PIN GSMD_PIN_INPUT (pin_payload type pin last) →
  reaches (A:=A) (W:=W) true op
    [b "AT+CPIN=" ++ quoted pin ++ (if wants_newpin type then b "," ++ quoted (until0 last) else [])].
Proof.
  intros Hty Hp Hl Hlast Hll Hs.
  assert (length (pin_payload type pin last) = SIZEOF_PIN) as Hpl.
  { unfold pin_payload. rewrite !length_app, length_pin_field, Hll by done. done. }
  apply (reaches_intro true _ _ _ _ H_pin _ Hs); [done|by rewrite Hpl|].
  intros c id h Hst Hh. cbn [run_umh]. unfold usock_rcv_pin. rewrite Hst. branch.
  rewrite short_message by (rewrite Hpl; done). rewrite Hh, Hpl. cbn [orb Z.ltb Z.compare].
  rewrite Z.ltb_irrefl. cbn [orb].
  apply queues_adjust; [done|strings|]. intros cmd g Ht Hb. by apply pin_input_run.
Qed.

End texts.
