(* ===== verification/Delivery.v ===== *)
(** * Messages all the way (libgsmd, usock.c, sms_cb.c, sms_pdu.c)

    A short message from its text in the application to the PDU in the modem's
    command; the daemon's answers and events from its queue to the application's
    handlers; and the requests that are lost or do harm on the way. *)

From S2P Require Import Prelude CString Enums Wire LLParse ExtRsp Pdu SmsText Timers State Queue Events.
From S2P Require Import SmsCb Unsolicited Vendor UsockCb Main AtCmd Usock Requests ClientLib ClientReq.
From S2P Require Import EndToEnd TextRequests.

(** ** Short messages *)

Section messages.
Context {A W : Type}.
Abbreviation L := (lgsm A W).
Implicit Types (s : L).

(** The data of a request to send a message, field by field. *)
Definition submit_bytes (addr : list Z) (len cs : Z) (d : list Z) (ds : Z) : list Z :=
  addr ++ [len; cs] ++ replicate 37 0 ++ d ++ replicate 27 0 ++ le32 ds.

Lemma fill_submit_run addr sms type subtype : length addr = sizeof_addr → (LGSM_SMS_DATA_MAXLEN ≤ length (lg_data sms))%nat →
  fill_submit 0 sms (message type subtype 0 (addr ++ replicate 210 0)) =
  message type subtype 0 (submit_bytes addr (u8 (lg_length sms)) (u8 (lg_alpha sms))
    (take LGSM_SMS_DATA_MAXLEN (lg_data sms)) (lg_ask_ds sms)).
Proof.
  intros Ha Hd. unfold fill_submit, submit_bytes. cbn [Nat.add].
  assert (length (take LGSM_SMS_DATA_MAXLEN (lg_data sms)) = 140%nat) as Hl.
  { rewrite length_take. unfold LGSM_SMS_DATA_MAXLEN in *. lia. }
  change (replicate 210 0) with (replicate 206 0 ++ replicate 4 0). rewrite (app_assoc addr).
  rewrite data_here; [|by rewrite length_app, Ha|cbn; lia]. rewrite (drop_ge (replicate 4 0)) by (cbn; lia). rewrite app_nil_r, <- app_assoc.
  change (replicate 206 0) with ([0; 0] ++ replicate 4 0 ++ replicate 200 0). rewrite <- !app_assoc, (app_assoc addr [0; 0]).
  rewrite (data_here _ 36 (le32 0)); [|by rewrite length_app, Ha|cbn; lia].
  change (drop (length (le32 0)) (replicate 4 0 ++ ?r)) with r. rewrite <- !app_assoc.
  rewrite (data_here addr 34 [u8 (lg_length sms)] ([0; 0] ++ _)); [|done|cbn; lia].
  change (drop (length [_]) ([0; 0] ++ ?r)) with ([0] ++ r).
  rewrite (app_assoc addr [_]). rewrite (data_here _ 35 [u8 (lg_alpha sms)] ([0] ++ _)); [|by rewrite length_app, Ha|cbn; lia].
  change (drop (length [_]) ([0] ++ ?r)) with r. rewrite <- !app_assoc.
  change (le32 0 ++ replicate 200 0 ++ ?r) with (replicate 37 0 ++ replicate 140 0 ++ replicate 27 0 ++ r).
  rewrite (app_assoc addr), (app_assoc _ [_]), (app_assoc _ (replicate 37 0)).
  rewrite (data_here _ 73); [|by rewrite !length_app, Ha|rewrite Hl, length_app, length_replicate; lia].
  rewrite Hl. change (drop 140 (replicate 140 0 ++ ?r)) with r. by rewrite <- !app_assoc.
Qed.

Lemma rd32_at l1 x l2 off : length l1 = off → int_ok x → rd32 (l1 ++ le32 x ++ l2) off = Some x.
Proof.
  intros <- Hx. unfold rd32. rewrite drop_app_length. exact (rd32_le32 x l2 Hx).
Qed.

Lemma dec_submit_bytes plus n len cs d ds : digits_ok n → (length n ≤ GSMD_ADDR_MAXLEN)%nat →
  length d = LGSM_SMS_DATA_MAXLEN → int_ok ds →
  dec_sms_submit (submit_bytes (addr_field plus n) len cs d ds) =
  Some (Submit (toa plus) n len cs 0 (d ++ replicate 27 0 ++ le32 ds) ds).
Proof.
  intros Hn Hl Hd Hds. pose proof (length_addr_field plus n Hl) as Ha. unfold dec_sms_submit, submit_bytes.
  set (p := addr_field plus n ++ _).
  assert (rd8 p 0 = Some (toa plus)) as -> by done. cbn [mbind option_bind].
  assert (cstr_at p 1 = Some n) as ->.
  { unfold cstr_at, p, addr_field, holds. cbn [drop app]. rewrite <- app_assoc. cbn [app].
    rewrite bool_decide_eq_true_2 by (apply elem_of_app; right; by left).
    by rewrite drop_0, until0_cstring by by apply digits_cstring. }
  cbn [mbind option_bind]. unfold p.
  assert (rd8 (addr_field plus n ++ [len; cs] ++ replicate 37 0 ++ d ++ replicate 27 0 ++ le32 ds) 34 = Some len) as ->.
  { apply list_lookup_middle. by rewrite Ha. }
  cbn [mbind option_bind]. rewrite (app_assoc (addr_field plus n) [len; cs]).
  assert (rd8 ((addr_field plus n ++ [len; cs]) ++ replicate 37 0 ++ d ++ replicate 27 0 ++ le32 ds) 35 = Some cs) as ->.
  { unfold rd8. rewrite <- (app_assoc _ [len; cs]). cbn [app].
    change (len :: cs :: ?r) with ([len] ++ cs :: r). rewrite app_assoc. apply list_lookup_middle. by rewrite length_app, Ha. }
  cbn [mbind option_bind]. change (replicate 37 0) with (le32 0 ++ replicate 33 0). rewrite <- (app_assoc (le32 0)).
  set (m := (addr_field plus n ++ [len; cs]) ++ _).
  assert (rd32 m 36 = Some 0) as ->.
  { apply rd32_at; [by rewrite length_app, Ha|by split]. }
  assert (m = (((addr_field plus n ++ [len; cs]) ++ replicate 37 0) ++ d ++ replicate 27 0) ++ le32 ds ++ []) as Em.
  { unfold m. rewrite app_nil_r, <- !app_assoc. reflexivity. }
  assert (rd32 m 240 = Some ds) as ->.
  { rewrite Em. apply rd32_at; [by rewrite !length_app, Ha, Hd|done]. }
  cbn [mbind option_bind]. do 2 f_equal. rewrite Em, app_nil_r, <- (app_assoc _ _ (le32 ds)), <- (app_assoc d).
  assert (length ((addr_field plus n ++ [len; cs]) ++ replicate 37 0) = 73%nat) as <- by (by rewrite !length_app, Ha).
  apply drop_app_length.
Qed.

Lemma length_submit_bytes plus n len cs d ds : (length n ≤ GSMD_ADDR_MAXLEN)%nat →
  length d = LGSM_SMS_DATA_MAXLEN → length (submit_bytes (addr_field plus n) len cs d ds) = sizeof_sms_submit.
Proof. intros Hl Hd. unfold submit_bytes. by rewrite !length_app, length_addr_field, Hd by done. Qed.

(** What an application may ask to be sent. *)
Definition sms_ok (plus : bool) (n : list Z) (sms : lgsm_sms) : Prop :=
  lg_addr sms = plus_sign plus ++ n ∧ digits_ok n ∧ (length (lg_addr sms) ≤ 12)%nat ∧
  lg_alpha sms ∈ [ALPHABET_DEFAULT; ALPHABET_8BIT; ALPHABET_UCS2] ∧
  length (lg_data sms) = LGSM_DATA_SIZE ∧ 0 < lg_length sms < 256 ∧
  sms_data_bytelen (lg_alpha sms) (lg_length sms) ≤ Z.of_nat LGSM_SMS_DATA_MAXLEN ∧ int_ok (lg_ask_ds sms).

Definition submit_of (plus : bool) (n : list Z) (sms : lgsm_sms) : gsmd_sms_submit :=
  Submit (toa plus) n (lg_length sms) (lg_alpha sms) 0
    (take LGSM_SMS_DATA_MAXLEN (lg_data sms) ++ replicate 27 0 ++ le32 (lg_ask_ds sms)) (lg_ask_ds sms).

Lemma submit_of_ok plus n sms : sms_ok plus n sms → submit_ok (submit_of plus n sms).
Proof.
  intros (Ea & Hn & Hl & Hal & Hd & Hlen & Hfit & Hds). rewrite Ea, length_app in Hl.
  assert (length (take LGSM_SMS_DATA_MAXLEN (lg_data sms)) = LGSM_SMS_DATA_MAXLEN) as Hd'.
  { rewrite length_take, Hd. done. }
  split; cbn [submit_of sub_number sub_type sub_coding_scheme sub_length sub_data].
  - apply (Forall_impl _ _ _ Hn). intros c Hc. unfold is_dig, digit in *. lia.
  - unfold GSMD_ADDR_MAXLEN. lia.
  - by destruct plus.
  - done.
  - lia.
  - etrans; [exact Hfit|]. by apply Z.leb_le.
  - rewrite !length_app, Hd'. lia.
Qed.

Lemma sms_send_says plus n sms : sms_ok plus n sms →
  says (lgsm_sms_send (A:=A) (W:=W) sms) GSMD_MSG_SMS GSMD_SMS_SEND
    (submit_bytes (addr_field plus n) (lg_length sms) (lg_alpha sms) (take LGSM_SMS_DATA_MAXLEN (lg_data sms)) (lg_ask_ds sms)).
Proof.
  intros (Ea & Hn & Hl & Hal & Hd & Hlen & Hfit & Hds). unfold lgsm_sms_send. rewrite Ea in *.
  assert (length n ≤ GSMD_ADDR_MAXLEN)%nat as Hln by (rewrite length_app in Hl; unfold GSMD_ADDR_MAXLEN; lia).
  assert (length (take LGSM_SMS_DATA_MAXLEN (lg_data sms)) = LGSM_SMS_DATA_MAXLEN) as Hd'.
  { rewrite length_take, Hd. done. }
  apply says_addr; [done|done|done|unfold GSMD_ADDR_MAXLEN; lia|by destruct plus|by apply length_submit_bytes|done|].
  rewrite addr_field_eq, data_first by (done || (rewrite length_addr_field, length_replicate by done; by apply Nat.leb_le)).
  rewrite length_addr_field by done. change (drop sizeof_addr (replicate sizeof_sms_submit 0)) with (replicate 210 0).
  rewrite fill_submit_run by (rewrite ?length_addr_field, ?Hd by done; by try apply Nat.leb_le).
  rewrite !wrapu_small; [done| |lia].
  rewrite !elem_of_cons in Hal. destruct Hal as [->|[->|[->|H%not_elem_of_nil]]]; done.
Qed.

(** The command for a PDU: its length without the first octet, and on the next line the
    PDU in hexadecimal and Ctrl-Z. *)
Definition cmgs (octets : list Z) : list Z :=
  b "AT+CMGS=" ++ dec (Z.of_nat (length octets) - 1) ++ [LF] ++ (octets ≫= hex2) ++ [CTRL_Z] ++ [0].

Lemma sms_reaches plus n sms c s g : sms_ok plus n sms → quiet s → serving g → flag_sms_text g = false →
  ∃ rc s' m g' cmd octets, lgsm_sms_send sms s = Ret rc s' ∧ sent s' = sent s ++ m ∧
    usock_rcv_pcmd (CtxUser c) m g = Ret 0 g' ∧ pending_atcmds g' = pending_atcmds g ++ [cmd] ∧
    ac_ctx cmd = CtxUser c ∧ ac_buf cmd = cmgs octets ∧
    ∀ dst, dst_ok dst → sms_pdu_to_msg dst octets (Z.of_nat (length octets) - 1) (Z.of_nat (length octets)) =
      Ok (submit_msg dst (submit_of plus n sms)).
Proof.
  intros Hok Hq [(pl & Hpl & Hx) Ho] Hf. pose proof Hok as (Ea & Hn & Hl & _ & Hd & _ & _ & Hds).
  assert (length n ≤ GSMD_ADDR_MAXLEN)%nat as Hln by (rewrite Ea, length_app in Hl; unfold GSMD_ADDR_MAXLEN; lia).
  destruct (sms_send_says plus n sms Hok s Hq) as (rc & Hrc & E).
  set (p := submit_bytes _ _ _ _ _) in E. set (m := message GSMD_MSG_SMS GSMD_SMS_SEND (next_msg_id s) p) in E.
  assert (length (take LGSM_SMS_DATA_MAXLEN (lg_data sms)) = LGSM_SMS_DATA_MAXLEN) as Hd'.
  { rewrite length_take, Hd. done. }
  eassert (dec_hdr m = Some _) as Eh by reflexivity.
  destruct (sms_send_run (CtxUser c) m _ (submit_of plus n sms) pl g Eh) as (cmd & octets & Er & Eb & Ec & _ & _ & Ed);
    [done|done|done| | |by apply (submit_of_ok plus n sms)|done|done|done|done|].
  { unfold m. rewrite message_length. unfold p. by rewrite length_submit_bytes. }
  { change (drop sizeof_hdr m) with p. unfold p. by rewrite dec_submit_bytes. }
  exists rc, (put_sent m s), m, (queued cmd g), cmd, octets. by split_and!.
Qed.

(** A text as the library packs it, for a number. *)
Definition text_sms (addr src rest : list Z) (ask_ds : Z) : lgsm_sms :=
  let '(d, len) := packing_7bit_character src in LgsmSms addr ALPHABET_DEFAULT (d ++ rest) len ask_ds.

Lemma bytelen_octets src :
  sms_data_bytelen ALPHABET_DEFAULT (Z.of_nat (length (padded src))) = Z.of_nat (length (octets 0 src)).
Proof.
  rewrite octets_size by lia. unfold sms_data_bytelen. cbn [ALPHABET_DEFAULT Z.eqb].
  rewrite Z.shiftr_div_pow2 by lia. change (2 ^ 3) with 8. unfold padded.
  destruct (Z.eqb_spec (Z.of_nat (length src) mod 8) 7); rewrite ?length_app; cbn [length]; zdiv.
Qed.

Lemma text_sms_ok plus n src rest ds : digits_ok n → (length (plus_sign plus ++ n) ≤ 12)%nat →
  src ≠ [] → (length src ≤ 160)%nat → (length (octets 0 src) + length rest = LGSM_DATA_SIZE)%nat → int_ok ds →
  sms_ok plus n (text_sms (plus_sign plus ++ n) src rest ds).
Proof.
  intros Hn Hl Hsrc H160 Hrest Hds. unfold text_sms. destruct (packing_run src H160) as [-> Hmax].
  assert (0 < length src)%nat by (destruct src; [done|cbn; lia]).
  assert (Z.of_nat (length (padded src)) ≤ 160 ∧ 0 < Z.of_nat (length (padded src))) as [Hp Hp0].
  { unfold padded. destruct (Z.eqb_spec (Z.of_nat (length src) mod 8) 7); rewrite ?length_app; cbn [length]; zdiv. }
  unfold sms_ok. cbn [lg_addr lg_alpha lg_data lg_length lg_ask_ds].
  do 3 (split; [done|]). split; [by left|]. split; [by rewrite length_app|]. split; [lia|].
  split; [rewrite bytelen_octets; lia|done].
Qed.

(** [C5] A text that the application packs and sends reaches the other side: of at most
    160 seven-bit characters, to a number of at most 12, it becomes one command whose
    PDU, decoded again as a received message is, has that number and unpacks to that
    text (with a NUL after it when its length is 7 modulo 8). *)
Theorem text_message plus n src rest ds c s g :
  digits_ok n → (length (plus_sign plus ++ n) ≤ 12)%nat →
  Forall char7 src → src ≠ [] → (length src ≤ 160)%nat →
  (length (octets 0 src) + length rest = LGSM_DATA_SIZE)%nat → int_ok ds →
  quiet s → serving g → flag_sms_text g = false →
  ∃ rc s' m g' cmd pdu msg d, lgsm_sms_send (text_sms (plus_sign plus ++ n) src rest ds) s = Ret rc s' ∧
    sent s' = sent s ++ m ∧ usock_rcv_pcmd (CtxUser c) m g = Ret 0 g' ∧
    pending_atcmds g' = pending_atcmds g ++ [cmd] ∧ ac_ctx cmd = CtxUser c ∧ ac_buf cmd = cmgs pdu ∧
    sms_pdu_to_msg sms_list_undef pdu (Z.of_nat (length pdu) - 1) (Z.of_nat (length pdu)) = Ok msg ∧
    sl_addr msg = Addr (Some (toa plus)) (stored (undef (GSMD_ADDR_MAXLEN + 1)) n) ∧
    sms_coding_scheme (sl_payload msg) = Some ALPHABET_DEFAULT ∧
    sms_data (sl_payload msg) = stored (undef (GSMD_SMS_DATA_MAXLEN + 1)) d ∧
    (len ← sms_length (sl_payload msg); unpacking_7bit_character false len (d ++ [0])) = Some (padded src).
Proof.
  intros Hn Hl H7 Hsrc H160 Hrest Hds Hq Hg Hf. set (sms := text_sms _ _ _ _).
  pose proof (text_sms_ok plus n src rest ds Hn Hl Hsrc H160 Hrest Hds) as Hok. fold sms in Hok.
  destruct (sms_reaches plus n sms c s g Hok Hq Hg Hf) as (rc & s' & m & g' & cmd & pdu & E1 & E2 & E3 & E4 & E5 & E6 & E7).
  exists rc, s', m, g', cmd, pdu, (submit_msg sms_list_undef (submit_of plus n sms)), (submit_data (submit_of plus n sms)).
  assert (submit_data (submit_of plus n sms) = octets 0 src ∧ sub_length (submit_of plus n sms) = Z.of_nat (length (padded src)) ∧
    sub_coding_scheme (submit_of plus n sms) = ALPHABET_DEFAULT) as (Ed & El & Ecs).
  { unfold sms, text_sms. destruct (packing_run src H160) as [-> Hmax].
    unfold submit_data, submit_of. cbn [sub_coding_scheme sub_length sub_data lg_alpha lg_length lg_data lg_ask_ds].
    rewrite bytelen_octets, Nat2Z.id. split; [|done].
    rewrite take_app_le by (rewrite length_take, length_app; lia).
    rewrite take_take, Nat.min_l by lia. apply take_app_length. }
  split_and!; try done.
  - by apply E7, sms_list_undef_ok.
  - unfold submit_msg. cbn [sl_payload sms_length sms_coding_scheme]. by rewrite Ecs.
  - unfold submit_msg. cbn [sl_payload sms_length mbind option_bind]. rewrite El, Ed. by apply unpacking_octets.
Qed.
End messages.

(** ** From the daemon's queue to the application *)

(** The bytes that arrive for a block of memory: an indeterminate byte arrives as some
    byte. *)
Definition arrives (bytes : list Z) (w : mem) : Prop :=
  Forall2 (λ x o, is_byte x ∧ (o = None ∨ o = Some x)) bytes w.

(** A message that the daemon may queue: its data is as long as its header says. *)
Definition ucmd_ok (u : gsmd_ucmd) : Prop :=
  0 ≤ h_msg_type (uc_hdr u) < NUM_GSMD_MSGS ∧ 0 ≤ h_len (uc_hdr u) < 65536 ∧
  h_len (uc_hdr u) ≤ Z.of_nat (length (uc_buf u)).

Lemma arrives_length bytes w : arrives bytes w → length bytes = length w.
Proof. apply Forall2_length. Qed.

Lemma arrives_bytes bytes w : arrives bytes w → Forall is_byte bytes.
Proof. induction 1 as [|x o bytes w [Hx _] _ IH]; by constructor. Qed.

Lemma arrives_lookup bytes w i x : arrives bytes w → w !! i = Some (Some x) → bytes !! i = Some x.
Proof.
  intros H Hw. destruct (Forall2_lookup_r _ _ _ _ _ H Hw) as (y & Hy & _ & [?|[= ->]]); [done|exact Hy].
Qed.

Lemma length_wire u : ucmd_ok u → Z.of_nat (length (wire u)) = wire_len u.
Proof.
  intros (_ & Hl & Hb). unfold wire, wire_len. rewrite length_app, length_take.
  assert (length (enc_hdr (uc_hdr u)) = sizeof_hdr) as ->.
  { unfold enc_hdr. by rewrite !length_app, !length_known, length_f8, length_f16. }
  lia.
Qed.

Lemma arrives_header bytes u : ucmd_ok u → arrives bytes (wire u) →
  ∃ h, dec_hdr bytes = Some h ∧ h_msg_type h = h_msg_type (uc_hdr u) ∧
    h_msg_subtype h = u8 (h_msg_subtype (uc_hdr u)) ∧ h_len h = h_len (uc_hdr u).
Proof.
  intros Hok Ha. pose proof (arrives_length _ _ Ha) as Hl. pose proof (length_wire u Hok) as Hw.
  destruct Hok as (Ht & Hlen & _). unfold wire_len, sizeof_hdr in Hw. 
  assert (∀ i x, wire u !! i = Some (Some x) → bytes !! i = Some x) as Hat by (intros i x; by apply arrives_lookup).
  assert (wire u !! 1%nat = Some (Some (u8 (h_msg_type (uc_hdr u))))) as H1 by done.
  assert (wire u !! 2%nat = Some (Some (u8 (h_msg_subtype (uc_hdr u))))) as H2 by done.
  assert (wire u !! 6%nat = Some (Some (h_len (uc_hdr u) mod 256)) ∧
          wire u !! 7%nat = Some (Some ((h_len (uc_hdr u) / 256) mod 256))) as [H6 H7].
  { unfold wire, enc_hdr. by destruct (h_pad (uc_hdr u)), (h_id (uc_hdr u)). }
  apply Hat in H1, H2, H6, H7.
  assert (8 ≤ length bytes)%nat as H8 by lia. clear Hl.
  do 8 (destruct bytes as [|? bytes]; [cbn in H8; lia|]).
  cbn in H1, H2, H6, H7. injection H1 as ->. injection H2 as ->. injection H6 as ->. injection H7 as ->.
  eexists. split; [reflexivity|]. cbn [h_msg_type h_msg_subtype h_len]. split; [|split; [done|]].
  - apply wrapu_small. unfold NUM_GSMD_MSGS in Ht. lia.
  - zdiv.
Qed.

Lemma arrives_message bytes u : ucmd_ok u → arrives bytes (wire u) → is_message bytes.
Proof.
  intros Hok Ha. destruct (arrives_header bytes u Hok Ha) as (h & Hh & Ht & _ & Hl).
  pose proof (length_wire u Hok). pose proof (arrives_length _ _ Ha). unfold is_message. rewrite Hh.
  destruct Hok as (? & _). unfold wire_len in *. lia.
Qed.

(** A buffer is cut up in one way. *)
Lemma dec_hdr_app m x h : dec_hdr m = Some h → dec_hdr (m ++ x) = Some h.
Proof.
  intros Hh. destruct (decide (length m < sizeof_hdr)%nat) as [Hs|Hs].
  - by rewrite dec_hdr_short in Hh.
  - unfold sizeof_hdr in Hs. do 8 (destruct m as [|? m]; [cbn in Hs; lia|]). exact Hh.
Qed.

Lemma message_first m1 m2 x1 x2 : is_message m1 → is_message m2 → m1 ++ x1 = m2 ++ x2 → m1 = m2 ∧ x1 = x2.
Proof.
  unfold is_message. destruct (dec_hdr m1) as [h1|] eqn:E1; [|done]. destruct (dec_hdr m2) as [h2|] eqn:E2; [|done].
  intros [H1 _] [H2 _] E. apply (dec_hdr_app _ x1) in E1. apply (dec_hdr_app _ x2) in E2. rewrite E, E2 in E1.
  injection E1 as ->. apply app_inj_1; [lia|exact E].
Qed.

Lemma stops_message m x : is_message m → ¬ stops (m ++ x).
Proof.
  unfold is_message, stops. destruct (dec_hdr m) as [h|] eqn:E; [|done]. intros [Hl Ht].
  rewrite (dec_hdr_app _ x h E), length_app. lia.
Qed.

Lemma cut_unique msgs msgs' rest : Forall is_message msgs → Forall is_message msgs' → stops rest →
  concat msgs' = concat msgs ++ rest → msgs = msgs' ∧ rest = [].
Proof.
  intros Hm. revert msgs'. induction Hm as [|m msgs Hm _ IH]; intros msgs' Hm' Hr E.
  - destruct Hm' as [|m' msgs' Hm' _]; [done|]. cbn [concat app] in E. subst rest. by destruct (stops_message m' (concat msgs')).
  - destruct Hm' as [|m' msgs' Hm1 Hm'].
    + cbn [concat] in E. symmetry in E. apply app_eq_nil in E as [[-> _]%app_eq_nil _]. done.
    + cbn [concat] in E. rewrite <- app_assoc in E. destruct (message_first m' m _ _ Hm1 Hm E) as [-> E'].
      destruct (IH msgs' Hm' Hr E') as [-> ->]. done.
Qed.

Lemma arrives_concat q : ∀ bytes, arrives bytes (concat (wire <$> q)) →
  ∃ msgs, bytes = concat msgs ∧ Forall2 (λ m u, arrives m (wire u)) msgs q.
Proof.
  induction q as [|u q IH]; intros bytes Ha.
  - apply Forall2_nil_inv_r in Ha as ->. by exists [].
  - cbn [fmap list_fmap concat] in Ha. apply Forall2_app_inv_r in Ha as (m & bytes' & H1 & H2 & ->).
    destruct (IH bytes' H2) as (msgs & -> & Hm). exists (m :: msgs). split; [done|by constructor].
Qed.

Section delivery.
Context {A W : Type}.
Variable app_msg : A → list Z → M (lgsm A W) Z.
Variable app_evt : A → Z → list Z → M (lgsm A W) Z.

(** [C27] Messages that the daemon queued reach the application one by one: the bytes that
    a client's queue becomes on the socket are taken apart into exactly those messages,
    in their order, each with the data it was queued with, and each goes to the handler
    that the application has registered for its type by then. *)
Theorem replies_reach_handlers q bytes : Forall ucmd_ok q → arrives bytes (concat (wire <$> q)) →
  Z.of_nat (length bytes) ≤ INT_MAX →
  ∃ msgs, bytes = concat msgs ∧ Forall2 (λ m u, arrives m (wire u)) msgs q ∧
    ∀ s, lgsm_handle_packet app_msg app_evt bytes (Z.of_nat (length bytes)) s = deliver app_msg app_evt msgs 0 s.
Proof.
  intros Hq Ha Hl. destruct (arrives_concat q bytes Ha) as (msgs & E & Hm). exists msgs. split_and!; [done|done|].
  assert (Forall is_message msgs) as Hmsgs.
  { clear E Ha. revert Hq. induction Hm as [|m u msgs q Hu Hm IH]; intros Hq; [constructor|].
    apply Forall_cons in Hq as [Hu' Hq]. constructor; [by apply (arrives_message m u)|by apply IH]. }
  destruct (packet_loop_spec app_msg app_evt (S (length bytes)) bytes ltac:(lia) (arrives_bytes _ _ Ha) Hl)
    as (msgs' & rest & E' & Hm' & Hr & Hrun).
  rewrite E in E'. destruct (cut_unique msgs' msgs rest Hm' Hmsgs Hr E') as [-> ->].
  intros s. unfold lgsm_handle_packet. rewrite Hrun. unfold mbind, M_bind.
  by destruct (deliver app_msg app_evt msgs 0 s).
Qed.

(** An event too short to hold the fixed part of the data is refused. *)
Lemma deliver_short_event m h s : dec_hdr m = Some h → h_msg_type h = GSMD_MSG_EVENT →
  h_len h < Z.of_nat sizeof_evt_auxdata →
  lh_handler s !! Z.to_nat GSMD_MSG_EVENT = Some (Some evt_demux_msghandler_ref) →
  deliver_one app_msg app_evt m s = Ret (- EIO) s.
Proof.
  intros Hh Hty Hlen Hdem. unfold deliver_one. rewrite Hh. run. rewrite Hty, Hdem. run.
  cbn [run_handler]. unfold evt_demux_msghandler. rewrite Hh. run.
  by destruct (Z.ltb_spec (h_len h) (Z.of_nat sizeof_evt_auxdata)); [|lia].
Qed.

(** A buffer that is one message goes to the handler of this message. *)
Lemma handle_one bytes s : is_message bytes → Forall is_byte bytes → Z.of_nat (length bytes) ≤ INT_MAX →
  lgsm_handle_packet app_msg app_evt bytes (Z.of_nat (length bytes)) s =
  (rc ← deliver_one app_msg app_evt bytes; mret (Z.lor 0 rc)) s.
Proof.
  intros Hm Hb Hmax.
  destruct (packet_loop_spec app_msg app_evt (S (length bytes)) bytes ltac:(lia) Hb Hmax)
    as (msgs & rest & E & Hms & Hr & Hrun).
  destruct (cut_unique msgs [bytes] rest Hms ltac:(by constructor) Hr) as [-> ->].
  { cbn [concat]. by rewrite app_nil_r. }
  unfold lgsm_handle_packet. rewrite Hrun. cbn [deliver]. rewrite bind_assoc.
  unfold mbind, M_bind. by destruct (deliver_one app_msg app_evt bytes s).
Qed.

(** The data of a message as they arrive behind its header. *)
Lemma arrives_data bytes u : ucmd_ok u → arrives bytes (wire u) →
  arrives (drop sizeof_hdr bytes) (take (Z.to_nat (h_len (uc_hdr u))) (uc_buf u)).
Proof.
  intros Hok Ha.
  assert (take (Z.to_nat (h_len (uc_hdr u))) (uc_buf u) = drop sizeof_hdr (wire u)) as ->;
    [|by apply Forall2_drop].
  unfold wire. assert (length (enc_hdr (uc_hdr u)) = sizeof_hdr) as <-.
  { unfold enc_hdr. by rewrite !length_app, !length_known, length_f8, length_f16. }
  by rewrite drop_app_length.
Qed.

(** [C29] An event of a known kind that the daemon queued, with data of any length (the messages of
    [+CMT], [+CBM] and [+CDS] follow the fixed part of the data), reaches the
    application's handler for it with all the data it was sent with, and with that
    handler's result; and the registration state that the library answers from is that
    of the last registration event.  Without a handler nothing is called.  Only an event
    with less data than the fixed part is refused, with [-EIO] and no effect.  This is
    of a handle whose handler of events is the library's own ([lgsm_evt_init]). *)
Theorem event_reaches_application u bytes s : ucmd_ok u → arrives bytes (wire u) →
  h_msg_type (uc_hdr u) = GSMD_MSG_EVENT → 0 ≤ h_msg_subtype (uc_hdr u) < NUM_GSMD_EVT →
  lh_handler s !! Z.to_nat GSMD_MSG_EVENT = Some (Some evt_demux_msghandler_ref) → tables_wf s →
  ∃ aux, arrives aux (take (Z.to_nat (h_len (uc_hdr u))) (uc_buf u)) ∧
    lgsm_handle_packet app_msg app_evt bytes (Z.of_nat (length bytes)) s =
    if h_len (uc_hdr u) <? Z.of_nat sizeof_evt_auxdata then Ret (- EIO) s else
    (match evt_handlers s !!! Z.to_nat (h_msg_subtype (uc_hdr u)) with
     | Some a => rc ← app_evt a (h_msg_subtype (uc_hdr u)) aux; mret (Z.lor 0 rc)
     | None => mret 0
     end) (if h_msg_subtype (uc_hdr u) =? GSMD_EVT_NETREG
           then set_netreg (default 0 (rd32 aux 0)) s else s).
Proof.
  intros Hok Ha Hty Hst Hdem Hwf.
  destruct (arrives_header bytes u Hok Ha) as (h & Hh & Ht & Hs & Hl).
  pose proof (length_wire u Hok) as Hw. pose proof (arrives_length _ _ Ha) as Hb.
  rewrite wrapu_small in Hs by (unfold NUM_GSMD_EVT in Hst; lia).
  exists (drop sizeof_hdr bytes). split; [by apply arrives_data|].
  rewrite handle_one; [|by apply (arrives_message bytes u)|by apply (arrives_bytes _ (wire u))|].
  2: { rewrite Hb, Hw. unfold wire_len, sizeof_hdr, INT_MAX. destruct Hok as (_ & ? & _). lia. }
  unfold mbind at 1, M_bind at 1.
  destruct (Z.ltb_spec (h_len (uc_hdr u)) (Z.of_nat sizeof_evt_auxdata)) as [Hlt|Hge].
  { by rewrite (deliver_short_event bytes h s Hh) by (rewrite ?Ht, ?Hl; done). }
  rewrite (deliver_event app_msg app_evt bytes h s Hh) by
    (rewrite ?Ht, ?Hs, ?Hl; first [done | lia | rewrite Hb, Hw; done]).
  rewrite Hs. assert (rd32 bytes sizeof_hdr = rd32 (drop sizeof_hdr bytes) 0) as ->.
  { unfold rd32. by rewrite drop_drop, Nat.add_0_r. }
  destruct (evt_handlers s !!! Z.to_nat (h_msg_subtype (uc_hdr u))) as [a|]; [|done].
  unfold mbind, M_bind. by destruct (app_evt a _ _ _).
Qed.
End delivery.

(** ** Requests that are lost or do harm *)

Section harm.
Context {A W : Type}.
Abbreviation L := (lgsm A W).
Implicit Types (s : L).

(** A request that [send] refuses is reported as sent: the test of the result is
    unsigned, and -1 is not less than a length.  Only a part that was sent is noticed. *)
Theorem failed_send_unnoticed type subtype len fill payload r rs s :
  u8 type = type → u8 subtype = subtype → length payload = len → Z.of_nat len < 65536 →
  fill (message type subtype 0 (replicate len 0)) = message type subtype 0 payload →
  heap s = [] → sends s = r :: rs →
  request type subtype len fill s =
    if r <? 0 then Ret 0 (put_sent [] s)
    else if r <? Z.of_nat (sizeof_hdr + len)
    then Ret (- EIO) (put_sent (take (Z.to_nat r) (message type subtype (next_msg_id s) payload)) s)
    else Ret 0 (put_sent (message type subtype (next_msg_id s) payload) s).
Proof.
  intros Ht Hs Hlen Hmax Hf Hh Hr. unfold request, request_n, lgsm_gmh_fill, malloc. run. rewrite Hh. cbn [head default tail]. run.
  assert (set_heap [] s = s) as -> by (destruct s; cbn in Hh; by subst).
  rewrite Ht, Hs.
  assert ([GSMD_PROTO_VERSION; type; subtype; 0; 0; 0] ++ le16 (Z.of_nat len) ++ replicate len 0 =
    message type subtype 0 (replicate len 0)) as ->.
  { unfold message. by rewrite length_replicate. }
  rewrite Hf. set (m := message type subtype (next_msg_id s) payload).
  assert (length m = (sizeof_hdr + len)%nat) as Hm by (unfold m; by rewrite message_length, Hlen).
  rewrite (send_checked_run _ _ (Z.of_nat len)).
  - change (poke 4 (le16 (next_msg_id s)) (message type subtype 0 payload)) with m. unfold send_rc. rewrite Hr. cbn [head default].
    unfold id. destruct (Z.ltb_spec r 0); [by cbn|].
    destruct (Z.ltb_spec r (Z.of_nat (sizeof_hdr + len))).
    + rewrite Z.min_l by lia. rewrite (proj2 (Z.leb_le 0 r)) by lia. rewrite (proj2 (Z.ltb_lt _ _)) by lia. done.
    + rewrite Z.min_r by lia. rewrite (proj2 (Z.ltb_ge _ _)) by lia. rewrite andb_false_r.
      by rewrite take_ge by (rewrite Hm; lia).
  - change (poke 4 (le16 (next_msg_id s)) (message type subtype 0 payload)) with m.
    unfold m, message, rd16, le16. cbn [app drop]. rewrite Hlen. f_equal. zdiv.
  - change (poke 4 (le16 (next_msg_id s)) (message type subtype 0 payload)) with m. rewrite Hm. lia.
  - lia.
  - unfold sizeof_hdr. lia.
Qed.

(** International numbers cannot be given to the service centre and the voice mail
    box: the plus sign, which only the other callers skip, is taken for a wrong digit. *)
Theorem plus_number_refused n s : digits_ok n → (length n < GSMD_ADDR_MAXLEN)%nat → heap s = [] →
  lgsm_sms_set_smsc (ch "+" :: n) s = Ret (- EINVAL) s ∧ lgsm_voicemail_set (ch "+" :: n) s = Ret (- EINVAL) s.
Proof.
  intros Hn Hl Hh.
  assert (set_heap [] s = s) as Es by (destruct s; cbn in Hh; by subst).
  pose proof (number_bytes_run true n false s Hn ltac:(cbn; lia)) as E.
  unfold lgsm_sms_set_smsc, lgsm_voicemail_set, request_addr, lgsm_gmh_fill, malloc. split.
  all: run; rewrite Hh; cbn [head default tail]; run; rewrite Es; by rewrite (bind_step _ _ _ _ _ E).
Qed.

(** A voice mail number of five digits or more makes the daemon write beyond an array:
    the library accepts and sends it. *)
Theorem voicemail_overflow n c s g : digits_ok n → (4 < length n ≤ GSMD_ADDR_MAXLEN)%nat → quiet s →
  ∃ rc s' m, lgsm_voicemail_set n s = Ret rc s' ∧ 0 ≤ rc ∧ sent s' = sent s ++ m ∧
    usock_rcv_pcmd c m g = Stop (Undefined "sprintf beyond buffer").
Proof.
  intros Hn [H4 Hl] Hq. pose proof (digits_cstring n Hn) as Hc.
  destruct (voicemail_says n Hn Hl s Hq) as (rc & Hrc & E).
  eexists rc, _, _. split; [exact E|]. split; [done|]. split; [reflexivity|].
  destruct (rcv_message c H_network GSMD_MSG_NETWORK GSMD_NETWORK_VMAIL_SET (next_msg_id s) (1 :: addr_field false n) g eq_refl)
    as (h & Hst & _ & Er).
  rewrite Er. cbn [run_umh]. unfold usock_rcv_network. rewrite Hst. branch. unfold rcv_vmail_set.
  rewrite (req_str_message _ _ _ _ 2 n (replicate (GSMD_ADDR_MAXLEN - length n) 0)) by done.
  rewrite (req8_message _ _ _ _ 1 129) by done. unfold submit_buffer.
  rewrite (proj2 (Z.ltb_ge _ _)); [done|]. change (dec 129) with (b "129"). unfold quoted, NETWORK_BUF. lens.
Qed.

Lemma bind_stops {S B C} (m : M S B) (k : B → M S C) t :
  (∃ w, m t = Stop w) → ∃ w, (m ≫= k) t = Stop w.
Proof. intros [w E]. exists w. unfold mbind, M_bind. by rewrite E. Qed.

(** A command without a callback whose client goes away. *)
Lemma shut_down_all_stops c cmd l : cmd ∈ l → ac_ctx cmd = c → ac_cb cmd = None →
  ∀ g, ∃ w, shut_down_all c l g = Stop w.
Proof.
  intros Hin Hc Hcb. induction l as [|x l IH]; [by apply not_elem_of_nil in Hin|].
  intros g. cbn [shut_down_all]. apply elem_of_cons in Hin as [<-|Hin].
  - rewrite bool_decide_eq_true_2 by done. unfold shut_down. rewrite Hcb. by eexists.
  - specialize (IH Hin). case_bool_decide; [|apply IH]. unfold mbind, M_bind at 1.
    destruct (shut_down x g) as [[] g1|w]; [|by exists w]. destruct (IH g1) as [w E]. exists w.
    unfold mbind, M_bind. by rewrite E.
Qed.

(** A client can crash the daemon: it sets the service centre while no command is with
    the modem, and leaves before this one has been sent.  The command has no callback, and
    the clean-up after the client calls it. *)
Theorem smsc_then_leave n c s g : digits_ok n → (length n ≤ GSMD_ADDR_MAXLEN)%nat → quiet s → serving g →
  busy_atcmds g = [] →
  ∃ rc s' m g', lgsm_sms_set_smsc n s = Ret rc s' ∧ sent s' = sent s ++ m ∧
    usock_rcv_pcmd (CtxUser c) m g = Ret 0 g' ∧ ∃ w, user_read c RCV_eof g' = Stop w.
Proof.
  intros Hn Hl Hq [(pl & Hpl & Hx) Ho] Hb. pose proof (digits_cstring n Hn) as Hc.
  destruct (smsc_says n Hn Hl s Hq) as (rc & Hrc & E).
  destruct (rcv_message (CtxUser c) H_sms GSMD_MSG_SMS GSMD_SMS_SET_SERVICE_CENTRE (next_msg_id s) (addr_field false n) g eq_refl)
    as (h & Hst & _ & Er).
  eexists rc, _, _, _. split; [exact E|]. split; [reflexivity|].
  assert (length (addr_field false n) = sizeof_addr) as Ha by by apply length_addr_field.
  split.
  - rewrite Er. cbn [run_umh]. unfold usock_rcv_sms. rewrite Hst. branch. rewrite message_length, Ha. nat_test.
    unfold csca_text. rewrite bind_assoc, (req8_message _ _ _ _ 0 129) by done. rewrite bind_assoc.
    rewrite (req_str_message _ _ _ _ 1 n (replicate (GSMD_ADDR_MAXLEN - length n) 0)) by done.
    rewrite bind_mret. unfold fill_buf1024. rewrite (proj2 (Z.ltb_lt _ _)).
    2: { unfold quoted. change (dec 129) with (b "129"). lens. }
    run. erewrite (bind_step (atcmd_fill _ _ _ _ _ _)) by (apply atcmd_fill_run; [done|lia]).
    cbn [submit_or_nomem]. apply (atcmd_submit_run _ pl); done.
  - unfold user_read, atcmd_terminate_matching. run. cbn [busy_atcmds set_uart_write set_pending_atcmds set_next_ref].
    rewrite Hb. cbn [shut_down_all fmap list_fmap]. run. cbn [pending_atcmds set_busy_atcmds set_uart_write set_pending_atcmds].
    apply bind_stops. eapply shut_down_all_stops; [apply elem_of_app; right; by left|done|done].
Qed.

(** A text of exactly 1024 bytes is let through by the library's test, and its NUL is
    written beyond the buffer. *)
Lemma passthrough_overflow t s : length t = PT_BUF_SIZE →
  lgsm_passthrough_send t s = Stop (Undefined "strcpy beyond passthrough_buf").
Proof. intros Hl. unfold lgsm_passthrough_send. rewrite Hl. reflexivity. Qed.
End harm.

(** ** Examples *)

Module Examples.

(** An application that notes which of its handlers was called. *)
Definition note (a : bool) (x : Z) : M (lgsm bool (list (bool * Z))) Z :=
  modify (λ s, Lgsm (lh_handler s) (netreg_state s) (evt_handlers s) (next_msg_id s) (sends s) (sent s)
                 (heap s) (app_state s ++ [(a, x)]));; mret 0.
Definition on_msg (a : bool) (m : list Z) : M (lgsm bool (list (bool * Z))) Z := note a (Z.of_nat (length m)).
Definition on_evt (a : bool) (e : Z) (aux : list Z) : M (lgsm bool (list (bool * Z))) Z := note a e.

(** A client with a handler for pass-through answers and one for registration events. *)
Definition client (answers : list Z) : lgsm bool (list (bool * Z)) :=
  Lgsm (<[1%nat := Some evt_demux_msghandler_ref]> (<[2%nat := Some (app_handler true)]> (replicate 12 None))) 0
    (<[5%nat := Some false]> (replicate 17 None)) 7 answers [] [] [].

Lemma tables_ok answers : tables_wf (client answers).
Proof. done. Qed.
Lemma client_quiet : quiet (client []).
Proof. done. Qed.
Lemma st_serving : serving (Requests.Examples.st []).
Proof. split; [by exists machine_generic|done]. Qed.

Lemma handlers_ok : app_ok on_msg on_evt.
Proof. split; intros; done. Qed.

Definition answer_bytes (n : Z) : list Z := [1; 2; 2; 0; n; 0; 3; 0] ++ b "OK" ++ [0].
Definition two_answers : list Z := answer_bytes 1 ++ answer_bytes 2.

Lemma two_answers_bytes : Forall is_byte two_answers.
Proof. repeat (apply Forall_cons; split; [by split|]). constructor. Qed.

Lemma handle_packet_messages_witness : ∃ msgs rest, two_answers = concat msgs ++ rest ∧ Forall is_message msgs ∧ stops rest ∧
  ∀ s, lgsm_handle_packet on_msg on_evt two_answers (Z.of_nat (length two_answers)) s =
    (rc ← deliver on_msg on_evt msgs 0; mret (match rest with [] => rc | _ => - EINVAL end)) s.
Proof. apply (handle_packet_messages on_msg on_evt two_answers two_answers_bytes). by apply Z.leb_le. Defined.

Lemma handle_packet_safe_witness :
  wp (lgsm_handle_packet on_msg on_evt two_answers 22) (client []) (λ _, tables_wf).
Proof.
  apply (handle_packet_safe on_msg on_evt two_answers (client []) handlers_ok two_answers_bytes); [by apply Z.leb_le|done].
Defined.



Lemma text_message_witness : ∃ rc s' m g' cmd pdu msg d,
  lgsm_sms_send (text_sms (b "4917") (b "hello") (replicate 136 0) 0) (client []) = Ret rc s' ∧
  sent s' = sent (client []) ++ m ∧ usock_rcv_pcmd (CtxUser 5) m (Requests.Examples.st []) = Ret 0 g' ∧
  pending_atcmds g' = [] ++ [cmd] ∧ ac_buf cmd = cmgs pdu ∧
  sms_pdu_to_msg sms_list_undef pdu (Z.of_nat (length pdu) - 1) (Z.of_nat (length pdu)) = Ok msg ∧
  sms_data (sl_payload msg) = stored (undef 165) d ∧
  (len ← sms_length (sl_payload msg); unpacking_7bit_character false len (d ++ [0])) = Some (b "hello").
Proof.
  destruct (text_message (A:=bool) (W:=list (bool * Z)) false (b "4917") (b "hello") (replicate 136 0) 0 5 (client []) (Requests.Examples.st []))
    as (rc & s' & m & g' & cmd & pdu & msg & d & H1 & H2 & H3 & H4 & _ & H6 & H7 & _ & _ & H10 & H11);
    [by repeat constructor|by apply Nat.leb_le|by repeat constructor|done|by apply Nat.leb_le|reflexivity|by split
    |exact client_quiet|exact st_serving|reflexivity|].
  by exists rc, s', m, g', cmd, pdu, msg, d.
Defined.

Ltac arrive := unfold arrives; vm_compute fmap;
  repeat (apply Forall2_cons; split; [split; [by split|first [by right | by left]]|]); apply Forall2_nil_2.

Lemma replies_reach_handlers_witness : ∃ msgs, two_answers = concat msgs ∧
  Forall2 (λ m u, arrives m (wire u)) msgs [Requests.Examples.reply 1; Requests.Examples.reply 2] ∧
  ∀ s, lgsm_handle_packet on_msg on_evt two_answers (Z.of_nat (length two_answers)) s = deliver on_msg on_evt msgs 0 s.
Proof.
  apply (replies_reach_handlers on_msg on_evt [Requests.Examples.reply 1; Requests.Examples.reply 2] two_answers).
  - repeat (apply Forall_cons; split; [by repeat split|]). constructor.
  - arrive.
  - by apply Z.leb_le.
Defined.

Definition netreg_event : gsmd_ucmd := Ucmd (Hdr 1 GSMD_MSG_EVENT GSMD_EVT_NETREG None None 60) (known (le32 1) ++ undef 56).
Definition netreg_bytes : list Z := [1; 1; 5; 0; 0; 0; 60; 0] ++ le32 1 ++ replicate 56 0.

(** An incoming message, with the message behind the fixed part of the data. *)
Definition in_sms_event : gsmd_ucmd :=
  Ucmd (Hdr 1 GSMD_MSG_EVENT GSMD_EVT_IN_SMS None None 320) (known (le32 1) ++ undef (56 + sizeof_sms_list)).
Definition in_sms_bytes : list Z := [1; 1; 2; 0; 0; 0; 64; 1] ++ le32 1 ++ replicate 316 0.
Definition sms_client : lgsm bool (list (bool * Z)) :=
  Lgsm (lh_handler (client [])) 0 (<[2%nat := Some true]> (evt_handlers (client []))) 7 [] [] [] [].

Lemma event_reaches_application_witness :
  lgsm_handle_packet on_msg on_evt netreg_bytes 68 (client []) =
    Ret 0 (Lgsm (lh_handler (client [])) 1 (evt_handlers (client [])) 7 [] [] [] [(false, 5)]) ∧
  lgsm_handle_packet on_msg on_evt in_sms_bytes 328 sms_client =
    Ret 0 (Lgsm (lh_handler sms_client) 0 (evt_handlers sms_client) 7 [] [] [] [(true, 2)]).
Proof.
  split.
  - destruct (event_reaches_application on_msg on_evt netreg_event netreg_bytes (client [])) as (aux & Ha & E);
      [by repeat split|arrive|reflexivity|by split|reflexivity|exact (tables_ok [])|].
    pose proof (arrives_lookup aux _ 0 1 Ha eq_refl) as H0. pose proof (arrives_lookup aux _ 1 0 Ha eq_refl) as H1.
    pose proof (arrives_lookup aux _ 2 0 Ha eq_refl) as H2. pose proof (arrives_lookup aux _ 3 0 Ha eq_refl) as H3.
    change 68 with (Z.of_nat (length netreg_bytes)). rewrite E.
    destruct aux as [|? [|? [|? [|? aux]]]]; [done..|]. cbn in H0, H1, H2, H3.
    injection H0 as ->. injection H1 as ->. injection H2 as ->. injection H3 as ->. reflexivity.
  - destruct (event_reaches_application on_msg on_evt in_sms_event in_sms_bytes sms_client) as (aux & _ & E);
      [by repeat split|arrive|reflexivity|by split|reflexivity|by split|].
    change 328 with (Z.of_nat (length in_sms_bytes)). rewrite E. reflexivity.
Defined.

Lemma failed_send_unnoticed_witness :
  request GSMD_MSG_SMS GSMD_SMS_READ 4 (data 0 (le32 5)) (client [-1]) = Ret 0 (put_sent [] (client [-1])).
Proof.
  apply (failed_send_unnoticed GSMD_MSG_SMS GSMD_SMS_READ 4 (data 0 (le32 5)) (le32 5) (-1) [] (client [-1])); reflexivity.
Defined.

Lemma plus_number_refused_witness :
  lgsm_sms_set_smsc (b "+4917") (client []) = Ret (- EINVAL) (client []) ∧
  lgsm_voicemail_set (b "+4917") (client []) = Ret (- EINVAL) (client []).
Proof.
  apply (plus_number_refused (b "4917") (client [])); [by repeat constructor|by apply Nat.ltb_lt|reflexivity].
Defined.

Lemma voicemail_overflow_witness : ∃ rc s' m, lgsm_voicemail_set (b "49171") (client []) = Ret rc s' ∧ 0 ≤ rc ∧
  sent s' = sent (client []) ++ m ∧
  usock_rcv_pcmd (CtxUser 5) m (Requests.Examples.st []) = Stop (Undefined "sprintf beyond buffer").
Proof.
  apply (voicemail_overflow (b "49171") (CtxUser 5) (client []) (Requests.Examples.st []));
    [by repeat constructor|split; [by apply Nat.ltb_lt|by apply Nat.leb_le]|exact client_quiet].
Defined.

Lemma smsc_then_leave_witness : ∃ rc s' m g', lgsm_sms_set_smsc (b "4917") (client []) = Ret rc s' ∧
  sent s' = sent (client []) ++ m ∧ usock_rcv_pcmd (CtxUser 5) m (Requests.Examples.st []) = Ret 0 g' ∧
  ∃ w, user_read 5 RCV_eof g' = Stop w.
Proof.
  apply (smsc_then_leave (b "4917") 5 (client []) (Requests.Examples.st []));
    [by repeat constructor|by apply Nat.leb_le|exact client_quiet|exact st_serving|reflexivity].
Defined.
End Examples.
