(* ===== verification/EnvVar.v ===== *)
(** * envedit: the table of variables (src/host/envedit/var.c)

    envedit edits the environment of the boot loader, outside of the phone or on it.
    It keeps the variables in an array of [struct var] in which deleted entries are
    used again.  The state of the program is the record of all its static variables
    and of the world they read. *)

From stdpp Require Import gmap sorting.
From S2P Require Import Prelude CString.

(** ** The state of the program *)

(** [struct var]: the name is NULL in a deleted entry. *)
Record var : Type := Var { v_name : option (list Z); v_value : option (list Z) }.

(** The states of the parser (parse.c). *)
Inductive state : Type := st_0 | st_var | st_spc_var | st_val | st_spc_val | st_spc_val_add.

(** [vars] of length 0 is the NULL pointer.  [p_var] and [p_value] are [var] and [value] of
    parse.c.  A file that is not in [files] cannot be opened; [creatable] says which can
    be opened for writing, and [writable] how many bytes a file takes.  [heap] holds the
    answers of the allocator, which is out of memory for a [false]; when it is used up
    allocations succeed. *)
Record envedit : Type := Envedit {
  vars : list var;
  curr_var : option nat;
  p_state : state;
  p_var : option (list Z);
  p_value : option (list Z);
  p_line : Z;
  env_size : Z;
  env : option (list Z);
  cpp_command : list Z;
  cpp_argv : list (list Z);
  heap : list bool;
  files : list Z → option (list Z);
  stdin : list Z;
  stdin_eof : bool;
  creatable : list Z → bool;
  writable : list Z → Z;
  closes : list Z → bool;
  written : list (list Z * list Z);
  stdout : list Z }.

Definition set_vars v s :=
  Envedit v (curr_var s) (p_state s) (p_var s) (p_value s) (p_line s) (env_size s) (env s) (cpp_command s)
    (cpp_argv s) (heap s) (files s) (stdin s) (stdin_eof s) (creatable s) (writable s) (closes s) (written s) (stdout s).
Definition set_curr_var c s :=
  Envedit (vars s) c (p_state s) (p_var s) (p_value s) (p_line s) (env_size s) (env s) (cpp_command s)
    (cpp_argv s) (heap s) (files s) (stdin s) (stdin_eof s) (creatable s) (writable s) (closes s) (written s) (stdout s).
Definition set_parser st v x s :=
  Envedit (vars s) (curr_var s) st v x (p_line s) (env_size s) (env s) (cpp_command s)
    (cpp_argv s) (heap s) (files s) (stdin s) (stdin_eof s) (creatable s) (writable s) (closes s) (written s) (stdout s).
Definition set_line l s :=
  Envedit (vars s) (curr_var s) (p_state s) (p_var s) (p_value s) l (env_size s) (env s) (cpp_command s)
    (cpp_argv s) (heap s) (files s) (stdin s) (stdin_eof s) (creatable s) (writable s) (closes s) (written s) (stdout s).
Definition set_env_size n s :=
  Envedit (vars s) (curr_var s) (p_state s) (p_var s) (p_value s) (p_line s) n (env s) (cpp_command s)
    (cpp_argv s) (heap s) (files s) (stdin s) (stdin_eof s) (creatable s) (writable s) (closes s) (written s) (stdout s).
Definition set_env_buf e s :=
  Envedit (vars s) (curr_var s) (p_state s) (p_var s) (p_value s) (p_line s) (env_size s) e (cpp_command s)
    (cpp_argv s) (heap s) (files s) (stdin s) (stdin_eof s) (creatable s) (writable s) (closes s) (written s) (stdout s).
Definition set_cpp c a s :=
  Envedit (vars s) (curr_var s) (p_state s) (p_var s) (p_value s) (p_line s) (env_size s) (env s) c
    a (heap s) (files s) (stdin s) (stdin_eof s) (creatable s) (writable s) (closes s) (written s) (stdout s).
Definition set_heap h s :=
  Envedit (vars s) (curr_var s) (p_state s) (p_var s) (p_value s) (p_line s) (env_size s) (env s) (cpp_command s)
    (cpp_argv s) h (files s) (stdin s) (stdin_eof s) (creatable s) (writable s) (closes s) (written s) (stdout s).
Definition set_stdin i e s :=
  Envedit (vars s) (curr_var s) (p_state s) (p_var s) (p_value s) (p_line s) (env_size s) (env s) (cpp_command s)
    (cpp_argv s) (heap s) (files s) i e (creatable s) (writable s) (closes s) (written s) (stdout s).
Definition set_output w o s :=
  Envedit (vars s) (curr_var s) (p_state s) (p_var s) (p_value s) (p_line s) (env_size s) (env s) (cpp_command s)
    (cpp_argv s) (heap s) (files s) (stdin s) (stdin_eof s) (creatable s) (writable s) (closes s) w o.

Abbreviation E := (M envedit).

(** [perror(...); exit(1)]. *)
Definition exit1 {A} : E A := halt (Exited 1).

(** Any of the allocating functions; every caller in var.c exits when it fails. *)
Definition malloc : E bool :=
  s ← get; modify (set_heap (tail (heap s)));; mret (default true (head (heap s))).
Definition malloc_or_exit : E unit := ok ← malloc; if ok : bool then mret tt else exit1.

(** ** Setting and deleting *)

Definition name_is (name : list Z) (v : var) : bool := bool_decide (v_name v = Some name).

(** The loop of [set_var]: where it stops, and the last deleted entry before that. *)
Fixpoint find_slot (name : list Z) (vs : list var) (p : nat) (unused : option nat) : nat * option nat :=
  match vs with
  | [] => (p, unused)
  | v :: vs' =>
      match v_name v with
      | None => find_slot name vs' (S p) (Some p)
      | Some n => if str_eq n name then (p, unused) else find_slot name vs' (S p) unused
      end
  end.

Definition grow (vs : list var) : list var := vs ++ replicate (length vs + 2) (Var None None).

Definition set_var (name value : list Z) : E unit :=
  s ← get;
  let n_vars := length (vars s) in
  let '(p, unused) := find_slot name (vars s) 0 None in
  let p := if Nat.eqb p n_vars then default p unused else p in
  (if Nat.eqb p n_vars then malloc_or_exit;; modify (λ s, set_vars (grow (vars s)) s) else mret tt);;
  s ← get;
  v ← deref (vars s !! p) "p";
  name ← match v_name v with
         | Some n => mret n
         | None => malloc_or_exit;; mret name
         end;
  malloc_or_exit;;
  modify (λ s, set_vars (<[p := Var (Some name) (Some value)]> (vars s)) s).

(** The loop of [del_var]. *)
Fixpoint find_name (name : list Z) (vs : list var) : option nat :=
  match vs with
  | [] => None
  | v :: vs' => if name_is name v then Some 0%nat else S <$> find_name name vs'
  end.

Definition del_var (name : list Z) : E unit :=
  s ← get;
  match find_name name (vars s) with
  | None => mret tt
  | Some p => modify (set_vars (<[p := Var None None]> (vars s)))
  end.

(** ** Going through them in order *)

Definition comp (a b : var) : Z :=
  match v_name a, v_name b with
  | Some x, Some y => strcmp x y
  | Some _, None => 1
  | None, Some _ => -1
  | None, None => 0
  end.

Definition comp_le (a b : var) : Prop := comp a b ≤ 0.

#[export] Instance comp_le_dec a b : Decision (comp_le a b).
Proof. unfold comp_le. apply _. Defined.

(** [qsort] puts the array into the order of [comp]. *)
Definition reset_var : E unit :=
  s ← get;
  match vars s with
  | [] => mret tt
  | _ => modify (λ s, set_curr_var (Some 0%nat) (set_vars (merge_sort comp_le (vars s)) s))
  end.

Fixpoint skip_deleted (vs : list var) (p : nat) : nat :=
  match vs with
  | [] => p
  | v :: vs' => match v_name v with None => skip_deleted vs' (S p) | Some _ => p end
  end.

(** The name and the value, NULL at the end. *)
Definition next_var : E (option (list Z * option (list Z))) :=
  s ← get;
  match vars s with
  | [] => mret None
  | _ =>
      p ← deref (curr_var s) "curr_var";
      let p := skip_deleted (drop p (vars s)) p in
      modify (set_curr_var (Some p));;
      if Nat.eqb p (length (vars s)) then mret None
      else
        v ← deref (vars s !! p) "curr_var->name";
        name ← deref (v_name v) "curr_var->name";
        modify (set_curr_var (Some (S p)));;
        mret (Some (name, v_value v))
  end.

(** The loops of [print_env] and [write_env], with what they keep in local variables. *)
Fixpoint var_loop {A} (fuel : nat) (body : A → list Z → list Z → E A) (a : A) : E A :=
  match fuel with
  | O => undefined "out of fuel"
  | S f =>
      r ← next_var;
      match r with
      | None => mret a
      | Some (name, value) =>
          value ← deref value "value";
          a ← body a name value;
          var_loop f body a
      end
  end.

Definition for_each_var {A} (body : A → list Z → list Z → E A) (a : A) : E A :=
  reset_var;;
  s ← get;
  var_loop (S (length (vars s))) body a.

(** ** The table as a finite map *)

Definition slot (v : var) : option (list Z * list Z) := n ← v_name v; x ← v_value v; Some (n, x).
Definition entries (vs : list var) : list (list Z * list Z) := omap slot vs.
Definition var_ok (v : var) : Prop := is_Some (v_name v) ↔ is_Some (v_value v).

(** An entry has both a name and a value or neither, and no name occurs twice. *)
Definition table_wf (vs : list var) : Prop := Forall var_ok vs ∧ NoDup (entries vs).*1.

Definition table (vs : list var) : gmap (list Z) (list Z) := list_to_map (entries vs).

Lemma slot_var n x : slot (Var (Some n) (Some x)) = Some (n, x).
Proof. done. Qed.

Lemma slot_name v n : var_ok v → v_name v = Some n → ∃ x, slot v = Some (n, x).
Proof. unfold slot. intros [H _] E. destruct (H (mk_is_Some _ _ E)) as [x Ex]. exists x. by rewrite E, Ex. Qed.
Lemma slot_None v : v_name v = None → slot v = None.
Proof. unfold slot. by intros ->. Qed.

Lemma entries_app l1 l2 : entries (l1 ++ l2) = entries l1 ++ entries l2.
Proof. apply omap_app. Qed.
Lemma entries_cons v l : entries (v :: l) = option_list (slot v) ++ entries l.
Proof. unfold entries. cbn. by destruct (slot v). Qed.

Lemma entries_names vs n : table_wf vs → n ∈ (entries vs).*1 ↔ Exists (λ v, v_name v = Some n) vs.
Proof.
  intros [Hok _]. rewrite Exists_exists, list_elem_of_fmap. split.
  - intros ((n', x) & -> & (v & Hv & Hs)%list_elem_of_omap). exists v. split; [done|].
    unfold slot in Hs. destruct (v_name v); [|done]. destruct (v_value v); [|done]. by simplify_eq/=.
  - intros (v & Hv & Hn). destruct (slot_name v n) as [x Hx]; [by eapply Forall_forall in Hok|done|].
    exists (n, x). split; [done|]. apply list_elem_of_omap. eauto.
Qed.

(** Storing an entry somewhere replaces at most what is there. *)
Lemma entries_insert vs i v w : vs !! i = Some v →
  entries vs ≡ₚ option_list (slot v) ++ entries (take i vs ++ drop (S i) vs) ∧
  entries (<[i := w]> vs) ≡ₚ option_list (slot w) ++ entries (take i vs ++ drop (S i) vs).
Proof.
  intros H. assert (i < length vs)%nat as Hi by by apply lookup_lt_Some in H. split.
  - rewrite <- (take_drop_middle _ _ _ H) at 1. rewrite !entries_app, entries_cons. solve_Permutation.
  - rewrite insert_take_drop by done. rewrite !entries_app, entries_cons. solve_Permutation.
Qed.

Lemma table_Permutation l1 l2 : NoDup l1.*1 → l1 ≡ₚ l2 → (list_to_map l1 : gmap (list Z) (list Z)) = list_to_map l2.
Proof. intros Hn Hp. apply list_to_map_proper; done. Qed.

Lemma find_slot_spec name vs p u : table_wf vs →
  let '(q, u') := find_slot name vs p u in
  ((∃ i v, q = p + i ∧ vs !! i = Some v ∧ v_name v = Some name) ∨
   (q = p + length vs ∧ name ∉ (entries vs).*1))%nat ∧
  (u' = u ∨ ∃ i v, u' = Some (p + i)%nat ∧ vs !! i = Some v ∧ v_name v = None).
Proof.
  intros Hwf. assert (∀ v l, table_wf (v :: l) → table_wf l) as Htl.
  { intros v l [Hok Hnd]. apply Forall_cons in Hok as [Hv Hok]. split; [done|].
    unfold entries in *. cbn in Hnd. destruct (slot v); [|done]. by apply NoDup_cons in Hnd as [_ ?]. }
  revert p u; induction vs as [|v vs IH]; intros p u; cbn.
  { split; [right; split; [lia|]; apply not_elem_of_nil|by left]. }
  destruct (v_name v) as [n|] eqn:Hn.
  - destruct (str_eq n name) eqn:He.
    + apply str_eq_true in He as ->. split; [|by left]. left. exists 0%nat, v. split; [lia|]. done.
    + specialize (IH (Htl _ _ Hwf) (S p) u). destruct (find_slot name vs (S p) u) as [q u'].
      destruct IH as [Hq Hu]. split.
      * destruct Hq as [(i & w & -> & Hi & Hw)|[-> Hni]].
        -- left. exists (S i), w. split; [lia|done].
        -- right. split; [lia|]. intros Hin. apply Hni.
           apply (entries_names _ _ Hwf) in Hin. apply (entries_names _ _ (Htl _ _ Hwf)).
           apply Exists_cons in Hin as [Hv|]; [|done]. rewrite Hn in Hv. injection Hv as ->.
           by rewrite (proj2 (str_eq_true name name) eq_refl) in He.
      * destruct Hu as [->|(i & w & -> & Hi & Hw)]; [by left|]. right. exists (S i), w. split; [f_equal; lia|done].
  - specialize (IH (Htl _ _ Hwf) (S p) (Some p)). destruct (find_slot name vs (S p) (Some p)) as [q u'].
    destruct IH as [Hq Hu]. split.
    + destruct Hq as [(i & w & -> & Hi & Hw)|[-> Hni]].
      * left. exists (S i), w. split; [lia|done].
      * right. split; [lia|]. unfold entries in *. cbn. by rewrite (slot_None v Hn).
    + right. destruct Hu as [->|(i & w & -> & Hi & Hw)].
      * exists 0%nat, v. split; [f_equal; lia|done].
      * exists (S i), w. split; [f_equal; lia|done].
Qed.

Lemma entries_empty k : entries (replicate k (Var None None)) = [].
Proof. by induction k. Qed.

Lemma grow_wf vs : table_wf vs → table_wf (grow vs) ∧ entries (grow vs) = entries vs.
Proof.
  intros [Hok Hnd]. assert (entries (grow vs) = entries vs) as He.
  { unfold grow. by rewrite entries_app, entries_empty, app_nil_r. }
  split; [|done]. split; [|by rewrite He]. unfold grow. apply Forall_app. split; [done|].
  apply Forall_replicate. split; by intros [].
Qed.

(** Storing a variable in an entry that is free, or is its own. *)
Lemma store_wf vs p v name value : table_wf vs → vs !! p = Some v →
  (v_name v = Some name ∨ v_name v = None ∧ name ∉ (entries vs).*1) →
  table_wf (<[p := Var (Some name) (Some value)]> vs) ∧
  table (<[p := Var (Some name) (Some value)]> vs) = <[name := value]> (table vs).
Proof.
  intros Hwf Hp Hv. destruct (entries_insert vs p v (Var (Some name) (Some value)) Hp) as [H1 H2].
  rewrite slot_var in H2. cbn in H2. set (rest := entries (take p vs ++ drop (S p) vs)) in *.
  assert (NoDup (entries vs).*1 ∧ (name ∉ rest.*1) ∧ NoDup (rest.*1) ∧
    (<[name := value]> (table vs) = <[name := value]> (list_to_map rest))) as (Hnd & Hni & Hndr & Ht).
  { destruct Hwf as [Hok Hnd]. split; [done|]. assert (NoDup (option_list (slot v) ++ rest).*1) as Hnd' by by rewrite <- H1.
    unfold table. rewrite (table_Permutation _ _ Hnd H1). destruct Hv as [Hn|[Hn Hni]].
    - destruct (slot_name v name) as [x Hx]; [by eapply Forall_lookup_1 in Hok|done|]. rewrite Hx in *. cbn in *.
      apply NoDup_cons in Hnd' as [? ?]. split; [done|split; [done|]]. apply insert_insert_eq.
    - rewrite (slot_None v Hn) in *. cbn in *. split; [by rewrite <- H1|done]. }
  assert (NoDup (entries (<[p:=Var (Some name) (Some value)]> vs)).*1) as Hnd2.
  { rewrite H2. cbn. by apply NoDup_cons. }
  split; [split; [|done]|].
  - apply Forall_insert; [apply Hwf|]. split; by eauto.
  - rewrite Ht. unfold table. by rewrite (table_Permutation _ _ Hnd2 H2).
Qed.

(** ** The operations on the map *)

(** What an operation on the table leaves alone, and when it may give up. *)
Definition only_vars (s s' : envedit) : Prop :=
  ∃ h c v, s' = set_heap h (set_curr_var c (set_vars v s)) ∧ (heap s = [] → h = []).

#[export] Instance only_vars_preorder : PreOrder only_vars.
Proof.
  split.
  - intros s. exists (heap s), (curr_var s), (vars s). by destruct s.
  - intros s1 s2 s3 (h & c & v & -> & H) (h' & c' & v' & -> & H'). exists h', c', v'. split; [done|]. auto.
Qed.

Lemma only_vars_malloc s : only_vars s (set_heap (tail (heap s)) s).
Proof. exists (tail (heap s)), (curr_var s), (vars s). destruct s. split; [done|]. cbn. by intros ->. Qed.
Lemma only_vars_vars v s : only_vars s (set_vars v s).
Proof. exists (heap s), (curr_var s), v. by destruct s. Qed.
Lemma only_vars_curr c s : only_vars s (set_curr_var c s).
Proof. exists (heap s), c, (vars s). by destruct s. Qed.
#[export] Hint Resolve only_vars_malloc only_vars_vars only_vars_curr : core.

Definition no_memory (s : envedit) (c : Z) : Prop := c = 1 ∧ heap s ≠ [].

Lemma malloc_or_exit_spec s :
  wpe malloc_or_exit s (λ _ s', s' = set_heap (tail (heap s)) s) (no_memory s).
Proof.
  unfold wpe, malloc_or_exit, malloc. run_all. destruct (heap s) as [|[] h] eqn:Eh; cbn; [done..|].
  unfold no_memory. by rewrite Eh.
Qed.

(** The entry in which [set_var] stores, after growing the array if need be. *)
Definition target (name : list Z) (vs : list var) : nat * list var :=
  let '(p, unused) := find_slot name vs 0 None in
  let p := if Nat.eqb p (length vs) then default p unused else p in
  (p, if Nat.eqb p (length vs) then grow vs else vs).

Lemma target_spec name vs : table_wf vs → let '(p, vs') := target name vs in
  table_wf vs' ∧ entries vs' = entries vs ∧
  ∃ v, vs' !! p = Some v ∧ (v_name v = Some name ∨ v_name v = None ∧ name ∉ (entries vs).*1).
Proof.
  intros Hwf. unfold target. pose proof (find_slot_spec name vs 0 None Hwf) as H.
  destruct (find_slot name vs 0 None) as [q u]. destruct H as [Hq Hu]. cbn in Hq, Hu.
  destruct (grow_wf vs Hwf) as [Hg Heg].
  destruct (Nat.eqb_spec q (length vs)) as [->|Hne].
  - assert (name ∉ (entries vs).*1) as Hni.
    { destruct Hq as [(i & v & Hqi & Hi%lookup_lt_Some & _)|[_ ?]]; [lia|done]. }
    destruct Hu as [->|(i & v & -> & Hi & Hv)]; cbn.
    + rewrite Nat.eqb_refl. split; [done|split; [done|]]. exists (Var None None). split; [|by right].
      unfold grow. rewrite lookup_app_r, Nat.sub_diag by lia. by apply lookup_replicate_2; lia.
    + rewrite (proj2 (Nat.eqb_neq _ _)) by (apply lookup_lt_Some in Hi; lia). split; [done|split; [done|]].
      exists v. split; [done|by right].
  - rewrite (proj2 (Nat.eqb_neq _ _)) by done. split; [done|split; [done|]].
    destruct Hq as [(i & v & -> & Hi & Hv)|[-> _]]; [|done]. exists v. split; [done|by left].
Qed.

Lemma no_memory_tail s c : no_memory (set_heap (tail (heap s)) s) c → no_memory s c.
Proof. unfold no_memory. cbn. by destruct (heap s) as [|? []]; intros [-> ?]. Qed.

Lemma malloc_then {A} (k : unit → E A) s (Q : A → envedit → Prop) :
  wpe (k tt) (set_heap (tail (heap s)) s) Q (no_memory (set_heap (tail (heap s)) s)) →
  wpe (malloc_or_exit ≫= k) s Q (no_memory s).
Proof.
  intros H. apply wpe_bind. eapply wpe_conseq; [apply malloc_or_exit_spec|].
  intros [] s' ->. eapply wpe_mono; [exact H|done|apply no_memory_tail].
Qed.

Lemma set_var_run name value s : table_wf (vars s) →
  wpe (set_var name value) s (λ _ s', only_vars s s' ∧
    let '(p, vs') := target name (vars s) in vars s' = <[p := Var (Some name) (Some value)]> vs')
    (no_memory s).
Proof.
  intros Hwf. pose proof (target_spec name (vars s) Hwf) as Ht. unfold set_var, target in *.
  apply wpe_bind, wpe_get. cbv beta zeta. destruct (find_slot name (vars s) 0 None) as [q u].
  set (p := if Nat.eqb q _ then _ else _) in *. destruct Ht as (_ & _ & v & Hv & Hn).
  assert (∀ s1, only_vars s s1 → vars s1 !! p = Some v → wpe (s ← get; v ← deref (vars s !! p) "p";
    name ← match v_name v with Some n => mret n | None => malloc_or_exit;; mret name end;
    malloc_or_exit;; modify (λ s, set_vars (<[p := Var (Some name) (Some value)]> (vars s)) s)) s1
    (λ _ s', only_vars s s' ∧ vars s' = <[p := Var (Some name) (Some value)]> (vars s1)) (no_memory s1)) as H.
  { intros s1 H1 Hp. apply wpe_bind, wpe_get. rewrite Hp. apply wpe_bind, wpe_ret.
    assert (∀ s2, only_vars s s2 → vars s2 = vars s1 → wpe (malloc_or_exit;; modify (λ s, set_vars (<[p := Var (Some name) (Some value)]> (vars s)) s)) s2
      (λ _ s', only_vars s s' ∧ vars s' = <[p := Var (Some name) (Some value)]> (vars s1)) (no_memory s2)) as H2.
    { intros s2 E2 Ev2. apply malloc_then, wpe_modify. cbn. rewrite Ev2. split; [|done].
      do 2 (etransitivity; [|apply only_vars_vars || apply only_vars_malloc]). done. }
    destruct Hn as [->|[-> _]].
    - apply wpe_bind, wpe_ret. by apply H2.
    - apply wpe_bind, malloc_then, wpe_ret. eapply wpe_mono; [apply H2; [etransitivity; [done|auto]|done]|done|].
      apply no_memory_tail. }
  destruct (Nat.eqb p (length (vars s))).
  - apply wpe_bind. apply malloc_then, wpe_modify. cbn [vars set_heap set_vars].
    eapply wpe_mono; [apply H; [etransitivity; [apply only_vars_malloc|apply only_vars_vars]|done]|done|apply no_memory_tail].
  - apply wpe_bind, wpe_ret. by apply H.
Qed.

Lemma set_var_spec name value s : table_wf (vars s) →
  wpe (set_var name value) s (λ _ s', only_vars s s' ∧ table_wf (vars s') ∧
    table (vars s') = <[name := value]> (table (vars s))) (no_memory s).
Proof.
  intros Hwf. eapply wpe_conseq; [by apply set_var_run|]. intros [] s' [Ho Hv]. split; [done|].
  pose proof (target_spec name (vars s) Hwf) as Ht. destruct (target name (vars s)) as [p vs].
  destruct Ht as (Hwf' & He & v & Hp & Hn). rewrite Hv. rewrite <- He in Hn.
  replace (table (vars s)) with (table vs) by by unfold table; rewrite He. by eapply store_wf.
Qed.

Lemma find_name_spec name vs : table_wf vs →
  match find_name name vs with
  | Some p => ∃ v, vs !! p = Some v ∧ v_name v = Some name
  | None => name ∉ (entries vs).*1
  end.
Proof.
  intros Hwf. pose proof (entries_names vs name Hwf) as Hn.
  assert (match find_name name vs with
    | Some p => ∃ v, vs !! p = Some v ∧ v_name v = Some name
    | None => ¬ Exists (λ v, v_name v = Some name) vs end) as H.
  { clear. induction vs as [|v vs IH]; cbn; [by intros ?%Exists_nil|]. unfold name_is.
    case_bool_decide; [by exists v|]. destruct (find_name name vs) as [p|]; cbn; [done|].
    by intros [?|?]%Exists_cons. }
  destruct (find_name name vs); [done|]. by rewrite Hn.
Qed.

Lemma del_var_spec name s : table_wf (vars s) →
  wp (del_var name) s (λ _ s', only_vars s s' ∧ table_wf (vars s') ∧
    table (vars s') = delete name (table (vars s))).
Proof.
  intros Hwf. unfold wp, del_var. rewrite bind_get. pose proof (find_name_spec name (vars s) Hwf) as H.
  destruct (find_name name (vars s)) as [p|]; run_all; cbn [vars set_vars].
  - split; [auto|]. destruct H as (v & Hp & Hv). destruct Hwf as [Hok Hnd].
    destruct (slot_name v name) as [x Hx]; [by eapply Forall_lookup_1 in Hok|done|].
    destruct (entries_insert (vars s) p v (Var None None) Hp) as [H1 H2]. rewrite Hx in H1. cbn in H1, H2.
    assert (NoDup (name :: (entries (take p (vars s) ++ drop (S p) (vars s))).*1)) as Hnd'.
    { change (name :: ?l.*1) with ((name, x) :: l).*1. by rewrite <- H1. }
    assert (NoDup (entries (<[p:=Var None None]> (vars s))).*1) as Hnd2.
    { rewrite H2. by apply NoDup_cons in Hnd' as [_ ?]. }
    split; [split; [|done]|].
    + apply Forall_insert; [done|]. split; by intros [].
    + unfold table. rewrite (table_Permutation _ _ Hnd2 H2), (table_Permutation _ _ Hnd H1). cbn.
      rewrite delete_insert_id; [done|]. apply not_elem_of_list_to_map. by apply NoDup_cons in Hnd' as [? _].
  - split; [reflexivity|]. split; [done|]. symmetry. apply delete_id. by apply not_elem_of_list_to_map.
Qed.

(** ** The order *)

Definition key_le (x y : list Z * list Z) : Prop := strcmp (fst x) (fst y) ≤ 0.
#[export] Instance key_le_dec x y : Decision (key_le x y).
Proof. unfold key_le. apply _. Defined.

(** The entries of a map in the order of [strcmp]. *)
Definition sorted_entries (m : gmap (list Z) (list Z)) : list (list Z * list Z) :=
  merge_sort key_le (map_to_list m).

#[export] Instance key_le_total : Total key_le.
Proof. intros x y. unfold key_le. rewrite (strcmp_opp (fst y)). lia. Qed.
#[export] Instance key_le_trans : Transitive key_le.
Proof. intros x y z. apply strcmp_le_trans. Qed.
#[export] Instance comp_le_total : Total comp_le.
Proof.
  intros x y. unfold comp_le, comp. destruct (v_name x), (v_name y); try lia.
  rewrite (strcmp_opp l0). lia.
Qed.
#[export] Instance comp_le_trans : Transitive comp_le.
Proof.
  intros x y z. unfold comp_le, comp. destruct (v_name x), (v_name y), (v_name z); try lia. apply strcmp_le_trans.
Qed.

Lemma sorted_slots vs : StronglySorted comp_le vs → StronglySorted key_le (entries vs).
Proof.
  induction 1 as [|v vs _ IH Hv]; [constructor|]. rewrite entries_cons. destruct (slot v) as [[n x]|] eqn:Es; [|done].
  cbn. constructor; [done|]. apply Forall_forall. intros [n' x'] (w & Hw & Hs)%list_elem_of_omap.
  apply (proj1 (Forall_forall _ _) Hv) in Hw. unfold comp_le, comp, slot in *. unfold key_le. cbn.
  destruct (v_name v), (v_name w); try done. destruct (v_value v), (v_value w); try done. cbn in *. by simplify_eq.
Qed.

Lemma sorted_unique l m : NoDup l.*1 → StronglySorted key_le l → l ≡ₚ map_to_list m → l = sorted_entries m.
Proof.
  intros Hnd Hs Hp. apply (StronglySorted_unique_strong key_le); [|done|apply StronglySorted_merge_sort; apply _|].
  - intros x1 x2 H1 H2 Hle Hge. unfold key_le in *. rewrite strcmp_opp in Hge.
    assert (fst x1 = fst x2) as Hf by (apply strcmp_eq; lia).
    unfold sorted_entries in H2. rewrite merge_sort_Permutation, <- Hp in H2.
    apply list_elem_of_lookup in H1 as [i Hi], H2 as [j Hj].
    assert (i = j) as ->; [|congruence].
    eapply NoDup_lookup; [exact Hnd| |]; rewrite list_lookup_fmap; [by rewrite Hi|rewrite Hj; cbn; by rewrite Hf].
  - unfold sorted_entries. by rewrite merge_sort_Permutation.
Qed.

Lemma sorted_entries_table vs : table_wf vs →
  table_wf (merge_sort comp_le vs) ∧ table (merge_sort comp_le vs) = table vs ∧
  entries (merge_sort comp_le vs) = sorted_entries (table vs).
Proof.
  intros [Hok Hnd]. pose proof (merge_sort_Permutation comp_le vs) as Hp.
  assert (entries (merge_sort comp_le vs) ≡ₚ entries vs) as He by by apply omap_Permutation.
  assert (NoDup (entries (merge_sort comp_le vs)).*1) as Hnd' by by rewrite He.
  split; [split; [by rewrite Hp|done]|]. split; [by apply table_Permutation|].
  apply sorted_unique; [done|apply sorted_slots, StronglySorted_merge_sort; apply _|].
  rewrite He. symmetry. by apply map_to_list_to_map.
Qed.

(** ** The iteration *)

Lemma skip_deleted_spec vs p : table_wf vs →
  match entries vs with
  | [] => skip_deleted vs p = (p + length vs)%nat
  | (n, x) :: es => ∃ i, skip_deleted vs p = (p + i)%nat ∧ vs !! i = Some (Var (Some n) (Some x)) ∧
      entries (drop (S i) vs) = es
  end.
Proof.
  intros [Hok _]. revert p. induction Hok as [|v vs Hv _ IH]; intros p; [cbn; lia|].
  rewrite entries_cons. cbn [skip_deleted]. destruct v as [[n|] o]; unfold slot; cbn.
  - destruct (proj1 Hv (mk_is_Some _ _ eq_refl)) as [x Hx]. cbn in Hx. subst o. cbn.
    exists 0%nat. split; [lia|]. by rewrite drop_0.
  - specialize (IH (S p)). destruct (entries vs) as [|[n x] es]; cbn; [lia|].
    destruct IH as (i & Hi & Hx & He). exists (S i). split; [lia|done].
Qed.

Lemma table_wf_drop p vs : table_wf vs → table_wf (drop p vs).
Proof.
  intros [Hok Hnd]. split; [by apply Forall_drop|]. rewrite <- (take_drop p vs), entries_app, fmap_app in Hnd.
  by apply NoDup_app in Hnd as (_ & _ & ?).
Qed.

Lemma next_var_run s p : table_wf (vars s) → curr_var s = Some p → (p ≤ length (vars s))%nat →
  match entries (drop p (vars s)) with
  | [] => ∃ c, next_var s = Ret None (set_curr_var c s)
  | (n, x) :: es => ∃ q, next_var s = Ret (Some (n, Some x)) (set_curr_var (Some q) s) ∧
      (p < q ≤ length (vars s))%nat ∧ entries (drop q (vars s)) = es
  end.
Proof.
  intros Hwf Hc Hp. pose proof (skip_deleted_spec _ p (table_wf_drop p _ Hwf)) as H. rewrite length_drop in H.
  unfold next_var. run. destruct (vars s) as [|v vs] eqn:Ev.
  { rewrite drop_nil in *. exists (curr_var s). by destruct s. }
  rewrite <- Ev in *. rewrite Hc. run. destruct (entries (drop p (vars s))) as [|[n x] es].
  - rewrite H. replace (p + (length (vars s) - p))%nat with (length (vars s)) by lia. rewrite Nat.eqb_refl.
    by eexists.
  - destruct H as (i & Hi & Hx & He). rewrite lookup_drop in Hx. rewrite drop_drop in He. rewrite Hi.
    pose proof (lookup_lt_Some _ _ _ Hx). rewrite (proj2 (Nat.eqb_neq _ _)) by lia. rewrite Hx. run.
    exists (S (p + i)). split; [by destruct s|]. split; [lia|]. by replace (S (p + i)) with (p + S i)%nat by lia.
Qed.

Section loop.
Context {A : Type} (body : A → list Z → list Z → E A) (F : Z → Prop).

(** What holds of the local variables while [es] are still to come.  *)
Context (I : A → list (list Z * list Z) → envedit → Prop).
Hypothesis body_ok : ∀ a n x es s, I a ((n, x) :: es) s →
  wpe (body a n x) s (λ a' s', I a' es s' ∧ vars s' = vars s ∧ curr_var s' = curr_var s) F.
Hypothesis I_vars : ∀ a es s s', I a es s → s' = set_vars (vars s') (set_curr_var (curr_var s') s) → I a es s'.

Lemma var_loop_spec fuel a s p : table_wf (vars s) → curr_var s = Some p →
  (p ≤ length (vars s))%nat → (length (vars s) - p < fuel)%nat → I a (entries (drop p (vars s))) s →
  wpe (var_loop fuel body a) s (λ a' s', I a' [] s' ∧ vars s' = vars s) F.
Proof.
  revert a s p; induction fuel as [|f IH]; intros a s p Hwf Hc Hp Hf HI; [lia|]. cbn [var_loop].
  pose proof (next_var_run s p Hwf Hc Hp) as Hn. destruct (entries (drop p (vars s))) as [|[n x] es] eqn:He.
  - destruct Hn as [c Hn]. apply wpe_bind. unfold wpe at 1. rewrite Hn. apply wpe_ret.
    split; [|done]. eapply I_vars; [exact HI|by destruct s].
  - destruct Hn as (q & Hn & Hq & Hes). apply wpe_bind. unfold wpe at 1. rewrite Hn.
    apply wpe_bind, wpe_ret, wpe_bind. eapply wpe_conseq; [apply (body_ok a n x es)|].
    { eapply I_vars; [exact HI|by destruct s]. }
    intros a' s' (HI' & Hv & Hc'). cbn in Hv, Hc'. rewrite <- Hv. apply (IH a' s' q); rewrite ?Hv; [done..|lia| |].
    + lia.
    + by rewrite Hes.
Qed.

Lemma for_each_var_spec a s : table_wf (vars s) → I a (sorted_entries (table (vars s))) s →
  wpe (for_each_var body a) s (λ a' s', I a' [] s' ∧ table_wf (vars s') ∧ table (vars s') = table (vars s)) F.
Proof.
  intros Hwf HI. destruct (sorted_entries_table _ Hwf) as (Hwf' & Ht & He). unfold for_each_var, reset_var.
  apply wpe_bind, wpe_bind, wpe_get. destruct (vars s) as [|v vs] eqn:Ev.
  - apply wpe_ret, wpe_bind, wpe_get. cbn [var_loop length]. apply wpe_bind. unfold next_var. apply wpe_bind, wpe_get.
    rewrite Ev. apply wpe_ret, wpe_ret. rewrite Ev. done.
  - rewrite <- Ev in *. apply wpe_modify, wpe_bind, wpe_get. set (s1 := set_curr_var _ _).
    assert (vars s1 = merge_sort comp_le (vars s)) as E1 by done.
    eapply wpe_conseq; [apply (var_loop_spec _ a s1 0)|].
    + by rewrite E1.
    + done.
    + lia.
    + lia.
    + rewrite E1, drop_0, He. eapply I_vars; [exact HI|by destruct s].
    + intros a' s' [HI' Hv]. by rewrite Hv, E1.
Qed.
End loop.

(** ** The table refines a map *)

Inductive edit : Type := Set_var (name value : list Z) | Del_var (name : list Z).

Definition run_edit (e : edit) : E unit :=
  match e with Set_var n x => set_var n x | Del_var n => del_var n end.
Definition apply_edit (m : gmap (list Z) (list Z)) (e : edit) : gmap (list Z) (list Z) :=
  match e with Set_var n x => <[n := x]> m | Del_var n => delete n m end.

Fixpoint run_edits (es : list edit) : E unit :=
  match es with
  | [] => mret tt
  | e :: es' => run_edit e;; run_edits es'
  end.

(** One edit, on every branch. *)
Lemma run_edit_spec e s : table_wf (vars s) →
  wpe (run_edit e) s (λ _ s', only_vars s s' ∧ table_wf (vars s') ∧ table (vars s') = apply_edit (table (vars s)) e)
    (no_memory s).
Proof.
  intros Hwf. destruct e as [n x|n]; [by apply set_var_spec|]. pose proof (del_var_spec n s Hwf) as H.
  unfold wp, wpe in *. cbn [run_edit]. by destruct (del_var n s).
Qed.

Lemma only_vars_memory s s' c : only_vars s s' → no_memory s' c → no_memory s c.
Proof. intros (h & cv & v & -> & H) [-> Hh]. split; [done|]. intros E0. by apply Hh, H. Qed.

Lemma run_edits_spec es s : table_wf (vars s) →
  wpe (run_edits es) s (λ _ s', only_vars s s' ∧ table_wf (vars s') ∧
    table (vars s') = foldl apply_edit (table (vars s)) es) (no_memory s).
Proof.
  revert s; induction es as [|e es IH]; intros s Hwf; cbn [run_edits foldl]; [by apply wpe_ret|].
  apply wpe_bind. eapply wpe_conseq; [by apply run_edit_spec|]. intros [] s1 (Ho & Hwf1 & Ht).
  eapply wpe_mono; [by apply IH| |].
  - intros [] s2 (Ho2 & Hwf2 & Ht2). split; [by etransitivity|]. split; [done|]. by rewrite Ht2, Ht.
  - intros c. by apply only_vars_memory.
Qed.

(** Collecting what the iteration yields. *)
Definition collect : E (list (list Z * list Z)) := for_each_var (λ acc n x, mret (acc ++ [(n, x)])) [].

(** [C8] Whatever is set and deleted, in whatever order, the array behaves as a finite map
    from names to values: what is read back is, in the order of [strcmp], what the map
    holds then; and the program ends early only when there is no memory. *)
Theorem var_table_refines es s : table_wf (vars s) →
  wpe (run_edits es;; collect) s (λ l s', table_wf (vars s') ∧
    l = sorted_entries (foldl apply_edit (table (vars s)) es)) (no_memory s).
Proof.
  intros Hwf. apply wpe_bind. eapply wpe_conseq; [by apply run_edits_spec|]. intros [] s1 (_ & Hwf1 & <-).
  set (all := sorted_entries _).
  eapply wpe_conseq; [apply (for_each_var_spec _ _ (λ acc rest _, acc ++ rest = all))|].
  - intros acc n x rest s2 H. apply wpe_ret. by rewrite <- app_assoc.
  - done.
  - done.
  - done.
  - intros acc s2 (H & Hwf2 & _). by rewrite app_nil_r in H.
Qed.

(** A state before anything is read. *)
Definition fresh (size : Z) (fs : list Z → option (list Z)) : envedit :=
  Envedit [] None st_0 None None 1 size None (b "cpp") [] [] fs [] false (λ _, true) (λ _, 2 ^ 32) (λ _, true) [] [].

Definition some_edits : list edit :=
  [Set_var (b "stdin") (b "usbtty"); Set_var (b "baud") (b "9600"); Set_var (b "ip") (b "1");
   Del_var (b "stdin"); Set_var (b "baud") (b "115200"); Set_var (b "a") (b "b")].

Lemma var_table_refines_witness :
  wpe (run_edits some_edits;; collect) (fresh 64 (λ _, None)) (λ l _,
    l = [(b "a", b "b"); (b "baud", b "115200"); (b "ip", b "1")]) (λ _, False).
Proof.
  assert (table_wf []) as Hwf by by split; constructor.
  eapply wpe_mono; [exact (var_table_refines some_edits (fresh 64 (λ _, None)) Hwf)| |].
  - intros l s' [_ ->]. vm_compute. reflexivity.
  - intros c [_ H]. by apply H.
Defined.
