(* ===== verification/EnvParse.v ===== *)
(** * envedit: the file of changes (src/host/envedit/parse.c)

    The text that names the variables to set and to delete, read one character at a
    time.  A reference reads it line by line; the theorem is that both agree. *)

From stdpp Require Import gmap.
From S2P Require Import Prelude CString EnvVar.

(** ** The parser *)

Definition syntax {A} : E A := exit1.

(** [trim]: the white space at the end goes. *)
Definition trim (s : list Z) : list Z := reverse (skip_space (reverse s)).

(** The parts of [set_parser] that the source assigns one at a time. *)
Definition set_p_state (st : state) : E unit := modify (λ s, set_parser st (p_var s) (p_value s) s).

Definition flush : E unit :=
  s ← get;
  var ← deref (p_var s) "assert(var)";
  match p_value s with
  | None => del_var var
  | Some value => set_var var (trim value)
  end;;
  modify (λ s, set_parser (p_state s) None None s).

(** The result of [realloc] is not tested; a NUL does not make a string longer. *)
Definition add_char (base : option (list Z)) (c : Z) : E (list Z) :=
  ok ← malloc;
  must ok "(*base)[len]";;
  mret (default [] base ++ if c =? 0 then [] else [c]).

Definition add_to_var (c : Z) : E unit :=
  s ← get;
  v ← add_char (p_var s) c;
  modify (λ s, set_parser (p_state s) (Some v) (p_value s) s).

Definition add_to_value (c : Z) : E unit :=
  s ← get;
  v ← add_char (p_value s) c;
  modify (λ s, set_parser (p_state s) (p_var s) (Some v) s).

Definition alpha (c : Z) : bool :=
  (c =? ch "_") || ((ch "A" <=? c) && (c <=? ch "Z")) || ((ch "a" <=? c) && (c <=? ch "z")).
Definition alnum (c : Z) : bool := if isdigit c then true else alpha c.

(** [case st_spc_val:] of [in_line]. *)
Definition in_spc_val (c : Z) : E unit :=
  if isspace c then mret tt
  else add_to_value c;; set_p_state st_val.

Definition in_line (c : Z) : E unit :=
  s ← get;
  match p_state s with
  | st_var =>
      if isspace c then set_p_state st_spc_var
      else if c =? ch "=" then set_p_state st_spc_val
      else if negb (alnum c) then syntax
      else add_to_var c
  | st_spc_var =>
      if isspace c then mret tt
      else if c =? ch "=" then set_p_state st_spc_val
      else syntax
  | st_spc_val_add =>
      (if isspace c then add_to_value SPC;; set_p_state st_spc_val else mret tt);;
      in_spc_val c
  | st_spc_val => in_spc_val c
  | st_val => add_to_value (if negb (isspace c) then c else SPC)
  | st_0 => undefined "abort"
  end.

(** [case st_0:] of [newline]. *)
Definition begin_var (c : Z) : E unit :=
  if isspace c then syntax
  else if negb (alpha c) then syntax
  else add_to_var c;; set_p_state st_var.

(** [case st_spc_val:] of [newline]. *)
Definition end_value (c : Z) : E unit :=
  if negb (isspace c) then flush;; set_p_state st_0;; begin_var c else mret tt.

Definition newline (c : Z) : E unit :=
  s ← get;
  match p_state s with
  | st_0 => begin_var c
  | st_var =>
      if negb (isspace c) then syntax
      else set_p_state st_spc_var;; in_line c
  | st_spc_var => in_line c
  | st_spc_val_add | st_val =>
      value ← deref (p_value s) "trim(value)";
      modify (λ s, set_parser (p_state s) (p_var s) (Some (trim value)) s);;
      add_to_value SPC;;
      set_p_state st_spc_val;;
      end_value c
  | st_spc_val => end_value c
  end.

Definition double_newline : E unit :=
  s ← get;
  match p_state s with
  | st_0 => mret tt
  | st_var | st_spc_var => syntax
  | st_val | st_spc_val => flush;; set_p_state st_0
  | st_spc_val_add => undefined "abort"
  end.

(** The loop of [parse_edit], over what [fgetc] yields. *)
Fixpoint parse_loop (file : list Z) (comment nl : bool) : E unit :=
  match file with
  | [] => mret tt
  | c :: file' =>
      let comment := if c =? ch "#" then true else comment in
      (if c =? LF then modify (λ s, set_line (p_line s + 1) s) else mret tt);;
      if comment && negb (c =? LF) then parse_loop file' comment nl
      else
        let nl := if comment then false else nl in
        if c =? LF then
          (if nl then double_newline else mret tt);;
          parse_loop file' false true
        else
          (if nl then newline c else in_line c);;
          parse_loop file' false false
  end.

(** The [switch] after it. *)
Definition end_edit : E unit :=
  s ← get;
  match p_state s with
  | st_0 => mret tt
  | st_var | st_spc_var => syntax
  | st_val | st_spc_val => flush
  | st_spc_val_add => undefined "abort"
  end.

Definition parse_edit (file : list Z) : E unit := parse_loop file false true;; end_edit.

(** ** The reference, line by line *)

(** What is left of a line when its comment is dropped, and whether it had one. *)
Fixpoint text_lines (t : list Z) : list (list Z * bool) :=
  match t with
  | [] => [([], false)]
  | c :: t' =>
      match text_lines t' with
      | (w, k) :: ls =>
          if c =? LF then ([], false) :: (w, k) :: ls
          else if c =? ch "#" then ([], true) :: ls
          else (c :: w, k) :: ls
      | [] => []
      end
  end.

(** An entry that has begun: its name, and whether white space followed it; or its name
    and the value so far. *)
Inductive pending : Type :=
  | P_none
  | P_name (name : list Z) (spc : bool)
  | P_value (name : list Z) (value : option (list Z)).

Definition blank (c : Z) : Z := if isspace c then SPC else c.

(** The words of a line, with the white space around them dropped. *)
Definition strip (w : list Z) : list Z := trim (blank <$> skip_space w).

(** A further line of a value. *)
Definition join (value : option (list Z)) (w : list Z) : option (list Z) :=
  if bool_decide (strip w = []) then value
  else Some (match value with None => strip w | Some v => v ++ [SPC] ++ strip w end).

Definition edit_of (name : list Z) (value : option (list Z)) : edit :=
  match value with None => Del_var name | Some v => Set_var name v end.

(** After a name and white space: only an equal sign may follow. *)
Definition after_name (name w : list Z) : option pending :=
  match skip_space w with
  | [] => Some (P_name name true)
  | c :: r => if c =? ch "=" then Some (P_value name (join None r)) else None
  end.

(** After the characters [name] of a name. *)
Fixpoint in_name (name w : list Z) : option pending :=
  match w with
  | [] => Some (P_name name false)
  | c :: r =>
      if isspace c then after_name name r
      else if c =? ch "=" then Some (P_value name (join None r))
      else if alnum c then in_name (name ++ [c]) r else None
  end.

Definition start (w : list Z) : option pending :=
  match w with
  | c :: r => if alpha c then in_name [c] r else None
  | [] => None
  end.

(** A line without text ends the entry. *)
Definition blank_step (p : pending) : option (list edit * pending) :=
  match p with
  | P_none => Some ([], P_none)
  | P_name _ _ => None
  | P_value n v => Some ([edit_of n v], P_none)
  end.

(** A line that begins with white space continues the entry, another begins a new one. *)
Definition text_step (p : pending) (w : list Z) : option (list edit * pending) :=
  if match w with c :: _ => isspace c | [] => true end then
    match p with
    | P_none => None
    | P_name n _ => pair [] <$> after_name n w
    | P_value n v => Some ([], P_value n (join v w))
    end
  else
    match p with
    | P_none => pair [] <$> start w
    | P_name n true => pair [] <$> after_name n w
    | P_name n false => None
    | P_value n v => pair [edit_of n v] <$> start w
    end.

Definition line_step (p : pending) (l : list Z * bool) : option (list edit * pending) :=
  match l with
  | ([], true) => Some ([], p)
  | ([], false) => blank_step p
  | (w, _) => text_step p w
  end.

Fixpoint edits_from (p : pending) (ls : list (list Z * bool)) : option (list edit) :=
  match ls with
  | [] => fst <$> blank_step p
  | l :: ls' =>
      '(es, p') ← line_step p l;
      es' ← edits_from p' ls';
      Some (es ++ es')
  end.

(** The changes a text asks for; [None] for a syntax error. *)
Definition edits_of (t : list Z) : option (list edit) := edits_from P_none (text_lines t).

(** ** Running the parser with enough memory *)

(** Everything but the table, the parser and the allocator. *)
Definition world (s : envedit) :=
  (env_size s, env s, cpp_command s, cpp_argv s, files s, (stdin s, stdin_eof s), (creatable s, writable s, closes s),
   (written s, stdout s)).

Lemma only_vars_world s s' : only_vars s s' → world s' = world s ∧ (heap s = [] → heap s' = []) ∧
  p_state s' = p_state s ∧ p_var s' = p_var s ∧ p_value s' = p_value s.
Proof. by intros (h & c & v & -> & H). Qed.

Lemma malloc_run s : heap s = [] → malloc s = Ret true s.
Proof. intros H. destruct s; cbn in *; subst. reflexivity. Qed.

Lemma add_char_run base c s : heap s = [] →
  add_char base c s = Ret (default [] base ++ if c =? 0 then [] else [c]) s.
Proof. intros H. unfold add_char. rewrite (bind_step _ _ _ _ _ (malloc_run s H)). by run. Qed.

Lemma add_to_var_run c s : heap s = [] →
  add_to_var c s =
    Ret tt (set_parser (p_state s) (Some (default [] (p_var s) ++ if c =? 0 then [] else [c])) (p_value s) s).
Proof. intros H. unfold add_to_var. run. by rewrite (bind_step _ _ _ _ _ (add_char_run _ _ _ H)). Qed.

Lemma add_to_value_run c s : heap s = [] →
  add_to_value c s =
    Ret tt (set_parser (p_state s) (p_var s) (Some (default [] (p_value s) ++ if c =? 0 then [] else [c])) s).
Proof. intros H. unfold add_to_value. run. by rewrite (bind_step _ _ _ _ _ (add_char_run _ _ _ H)). Qed.

(** [flush] makes the change that was read. *)
Definition change (name : list Z) (value : option (list Z)) : edit := edit_of name (trim <$> value).

Lemma flush_run s n : heap s = [] → table_wf (vars s) → p_var s = Some n →
  ∃ s', flush s = Ret tt (set_parser (p_state s) None None s') ∧ only_vars s s' ∧ table_wf (vars s') ∧
    table (vars s') = apply_edit (table (vars s)) (change n (p_value s)).
Proof.
  intros Hh Hwf Hv. pose proof (run_edit_spec (change n (p_value s)) s Hwf) as H. unfold wpe in H.
  destruct (run_edit (change n (p_value s)) s) as [[] s'|[]] eqn:He; [|done|by destruct H as [_ H]; destruct H].
  destruct H as (Ho & Hwf' & Ht). exists s'. split; [|done]. pose proof (only_vars_world _ _ Ho) as (_ & _ & Hst & _).
  unfold flush. run. rewrite Hv. run. unfold change, edit_of in He.
  destruct (p_value s) as [v|]; cbn in He; rewrite (bind_step _ _ _ _ _ He); run_all; by rewrite Hst.
Qed.

(** ** Safety *)

(** What the states of the parser say about its strings; [st_spc_val_add] is never
    entered. *)
Definition parser_ok (s : envedit) : Prop :=
  match p_state s with
  | st_0 => p_var s = None ∧ p_value s = None
  | st_var | st_spc_var => is_Some (p_var s) ∧ p_value s = None
  | st_val => is_Some (p_var s) ∧ is_Some (p_value s)
  | st_spc_val => is_Some (p_var s)
  | st_spc_val_add => False
  end.

Definition inv (s0 s : envedit) : Prop :=
  heap s = [] ∧ table_wf (vars s) ∧ parser_ok s ∧ world s = world s0.

Section safety.
Context (s0 : envedit).
Implicit Types (s : envedit).

Abbreviation safe m s := (wpe m s (λ _ s', inv s0 s' ∧ p_state s' ≠ st_0) (λ c, c = 1)).

Lemma inv_parser s st v x : inv s0 s → parser_ok (set_parser st v x s) → inv s0 (set_parser st v x s).
Proof. by intros (Hh & Hwf & Hp & Hw) H. Qed.

(** [kept]: the parser's new state is as [parser_ok] asks. *)
Ltac kept := split; [apply inv_parser; [done|]; unfold parser_ok; cbn; by eauto|done].

Lemma begin_var_safe c s : inv s0 s → p_value s = None → safe (begin_var c) s.
Proof.
  intros Hi Hv. unfold begin_var. destruct (isspace c); [done|]. destruct (negb (alpha c)); [done|].
  unfold wpe. rewrite (bind_step _ _ _ _ _ (add_to_var_run c s (proj1 Hi))). unfold set_p_state. run_all.
  change (set_parser ?a ?d ?e (set_parser _ _ _ ?s)) with (set_parser a d e s). cbn [p_var p_value set_parser].
  rewrite Hv. kept.
Qed.

Lemma add_to_value_safe c st s : inv s0 s → is_Some (p_var s) → (st = st_val ∨ st = st_spc_val) →
  safe (add_to_value c;; set_p_state st) s.
Proof.
  intros Hi Hv Hst. unfold wpe. rewrite (bind_step _ _ _ _ _ (add_to_value_run c s (proj1 Hi))). unfold set_p_state. run_all.
  change (set_parser ?a ?d ?e (set_parser _ _ _ ?s)) with (set_parser a d e s). cbn [p_var p_value set_parser].
  destruct Hst as [-> | ->]; kept.
Qed.

Lemma in_spc_val_safe c s : inv s0 s → p_state s ≠ st_0 → is_Some (p_var s) → safe (in_spc_val c) s.
Proof.
  intros Hi Hs Hv. unfold in_spc_val. destruct (isspace c); [done|]. apply add_to_value_safe; [done..|by left].
Qed.

Lemma in_line_safe c s : inv s0 s → p_state s ≠ st_0 → safe (in_line c) s.
Proof.
  intros Hi Hs. pose proof Hi as (Hh & _ & Hp & _). unfold parser_ok in Hp. unfold in_line.
  apply wpe_bind, wpe_get. destruct (p_state s) eqn:Hst; try done.
  - destruct Hp as [Hp1 Hp2]. destruct (isspace c); [|destruct (c =? ch "="); [|destruct (negb (alnum c)); [done|]]].
    + apply wpe_modify. rewrite Hp2. kept.
    + apply wpe_modify. rewrite Hp2. kept.
    + unfold wpe. rewrite (add_to_var_run _ _ Hh), Hst, Hp2. kept.
  - destruct Hp as [Hp1 Hp2]. destruct (isspace c); [|destruct (c =? ch "="); [|done]].
    + apply wpe_ret. split; [done|congruence].
    + apply wpe_modify. rewrite Hp2. kept.
  - destruct Hp as [Hp1 Hp2]. unfold wpe. rewrite (add_to_value_run _ _ Hh), Hst. kept.
  - apply in_spc_val_safe; [done|congruence|done].
Qed.

Lemma flush_safe s : inv s0 s → is_Some (p_var s) →
  ∃ s', flush s = Ret tt s' ∧ p_state s' = p_state s ∧ p_var s' = None ∧ p_value s' = None ∧
    heap s' = [] ∧ table_wf (vars s') ∧ world s' = world s0.
Proof.
  intros (Hh & Hwf & _ & Hw) [n Hn]. destruct (flush_run s n Hh Hwf Hn) as (s' & Hf & Ho & Hwf' & _).
  destruct (only_vars_world _ _ Ho) as (Hw' & Hh' & _). eexists. split; [exact Hf|]. cbn. rewrite Hh' by done.
  split_and!; [done..|]. by rewrite <- Hw, <- Hw'.
Qed.

Lemma end_value_safe c s : inv s0 s → p_state s = st_spc_val → safe (end_value c) s.
Proof.
  intros Hi Hs. unfold end_value. destruct (isspace c); cbn [negb]; [apply wpe_ret; split; [done|congruence]|].
  assert (is_Some (p_var s)) as Hv by (destruct Hi as (_ & _ & Hp & _); unfold parser_ok in Hp; by rewrite Hs in Hp).
  destruct (flush_safe s Hi Hv) as (s' & Hf & Hst & Hn & Hv' & Hh & Hwf & Hw).
  unfold wpe. rewrite (bind_step _ _ _ _ _ Hf). unfold set_p_state. rewrite bind_modify. apply begin_var_safe; [|done].
  rewrite Hn, Hv'. by split_and!.
Qed.

Lemma newline_safe c s : inv s0 s → safe (newline c) s.
Proof.
  intros Hi. pose proof Hi as (Hh & Hwf & Hp & Hw). unfold parser_ok in Hp. unfold newline. apply wpe_bind, wpe_get.
  destruct (p_state s) eqn:Hst; try done.
  - apply begin_var_safe; [done|apply Hp].
  - destruct (negb (isspace c)); [done|]. apply wpe_bind, wpe_modify. apply in_line_safe; [|done].
    apply inv_parser; [done|]. by destruct Hp as [? ->].
  - apply in_line_safe; [done|congruence].
  - destruct Hp as [Hv [x Hx]]. rewrite Hx. unfold wpe. rewrite bind_deref_Some, bind_modify.
    set (s1 := set_parser _ _ _ s). assert (inv s0 s1) as Hi1 by (apply inv_parser; [done|]; unfold parser_ok; cbn; rewrite Hst; eauto).
    rewrite (bind_step _ _ _ _ _ (add_to_value_run SPC s1 (proj1 Hi1))). unfold set_p_state. rewrite bind_modify.
    apply end_value_safe; [|done]. by split_and!.
  - by apply end_value_safe.
Qed.

(** [flush], and the state [st_0] after it, if it is so. *)
Lemma double_newline_safe s : inv s0 s → wpe double_newline s (λ _ s', inv s0 s') (λ c, c = 1).
Proof.
  intros Hi. pose proof Hi as (_ & _ & Hp & _). unfold parser_ok in Hp. unfold double_newline. apply wpe_bind, wpe_get.
  assert (is_Some (p_var s) → wpe (flush;; set_p_state st_0) s (λ _ s', inv s0 s') (λ c, c = 1)) as H.
  { intros Hv. destruct (flush_safe s Hi Hv) as (s' & Hf & Hst & Hn & Hv' & Hh & Hwf & Hw).
    unfold wpe. rewrite (bind_step _ _ _ _ _ Hf). unfold set_p_state. run_all. rewrite Hn, Hv'. by split_and!. }
  destruct (p_state s); [done|done|done|by apply H, Hp|by apply H|done].
Qed.

Lemma parse_loop_safe file comment nl s : inv s0 s → (p_state s = st_0 → nl = true) →
  wpe (parse_loop file comment nl) s (λ _ s', inv s0 s') (λ c, c = 1).
Proof.
  revert comment nl s; induction file as [|c file IH]; intros comment nl s Hi Hnl; [done|]. cbn [parse_loop].
  set (k := if c =? ch "#" then true else comment).
  apply wpe_bind. eapply wpe_conseq with (P := λ _ s', inv s0 s' ∧ p_state s' = p_state s).
  { destruct (c =? LF); [apply wpe_modify|apply wpe_ret]; by destruct Hi as (? & ? & ? & ?). }
  intros [] s1 [Hi1 Hst]. destruct (k && negb (c =? LF)) eqn:Ekc; [apply IH; [done|by rewrite Hst]|].
  assert (∀ (m : E unit) n, safe m s1 → wpe (m;; parse_loop file false n) s1 (λ _ s', inv s0 s') (λ c, c = 1)) as Hstep.
  { intros m n Hm. apply wpe_bind. eapply wpe_conseq; [exact Hm|]. intros [] s2 [Hi2 Hne]. by apply IH. }
  destruct (c =? LF) eqn:Ec.
  - apply wpe_bind. eapply wpe_conseq with (P := λ _ s', inv s0 s').
    { destruct (if k then false else nl); [by apply double_newline_safe|by apply wpe_ret]. }
    intros [] s2 Hi2. by apply IH.
  - destruct k; [done|]. apply Hstep. destruct nl; [by apply newline_safe|]. apply in_line_safe; [done|].
    intros H0. rewrite Hst in H0. by discriminate (Hnl H0).
Qed.
End safety.

(** [C34] Whatever bytes the file has, the parser does not reach [abort], its assertion or a
    NULL pointer, and never the state [st_spc_val_add]: it ends with a well-formed table,
    or exits with a syntax error. *)
Theorem parse_edit_safe file s : heap s = [] → table_wf (vars s) → p_state s = st_0 → p_var s = None → p_value s = None →
  wpe (parse_edit file) s (λ _ s', table_wf (vars s') ∧ p_state s' ≠ st_spc_val_add ∧ world s' = world s) (λ c, c = 1).
Proof.
  intros Hh Hwf Hst Hv Hx. assert (inv s s) as Hi by (split_and!; [done..|unfold parser_ok; by rewrite Hst|done]).
  unfold parse_edit. apply wpe_bind. eapply wpe_conseq; [by apply parse_loop_safe|]. intros [] s1 Hi1.
  pose proof Hi1 as (Hh1 & Hwf1 & Hp1 & Hw1). unfold parser_ok in Hp1. unfold end_edit. apply wpe_bind, wpe_get.
  assert (p_state s1 ≠ st_spc_val_add → is_Some (p_var s1) → wpe flush s1 (λ _ s', table_wf (vars s') ∧
    p_state s' ≠ st_spc_val_add ∧ world s' = world s) (λ c, c = 1)) as H.
  { intros Hne Hn. destruct (flush_safe s s1 Hi1 Hn) as (s2 & Hf & Hs2 & _ & _ & _ & Hwf2 & Hw2). unfold wpe.
    rewrite Hf, Hs2. by split_and!. }
  destruct (p_state s1) eqn:E1; try done.
  - apply wpe_ret. by rewrite E1.
  - by apply H, Hp1.
  - by apply H.
Qed.

(** ** Agreement with the reference *)

Lemma trim_snoc x c : trim (x ++ [c]) = if isspace c then trim x else x ++ [c].
Proof.
  unfold trim. rewrite reverse_snoc. cbn [skip_space]. destruct (isspace c); [done|]. by rewrite reverse_cons, reverse_involutive.
Qed.

Lemma trim_app x y : trim y ≠ [] → trim (x ++ y) = x ++ trim y.
Proof.
  induction y as [|c y IH] using rev_ind; [done|]. rewrite app_assoc, !trim_snoc.
  destruct (isspace c); [exact IH|]. intros _. by rewrite app_assoc.
Qed.

Lemma trim_idem x : trim (trim x) = trim x.
Proof.
  induction x as [|c x IH] using rev_ind; [done|]. rewrite trim_snoc. destruct (isspace c) eqn:E0; [done|].
  by rewrite trim_snoc, E0.
Qed.

Lemma isspace_blank c : isspace (blank c) = isspace c.
Proof. unfold blank. by destruct (isspace c) eqn:E0. Qed.

Lemma blank_text c : isspace c = false → blank c = c.
Proof. unfold blank. by intros ->. Qed.

Lemma skip_space_cons c w : isspace c = true → skip_space (c :: w) = skip_space w.
Proof. cbn. by intros ->. Qed.

(** Text that begins with something else than white space is not trimmed away. *)
Lemma trim_text c w : isspace c = false → trim (c :: w) ≠ [].
Proof.
  intros Hc. induction w as [|d w IH] using rev_ind.
  - change [c] with ([] ++ [c]). by rewrite trim_snoc, Hc.
  - change (c :: w ++ [d]) with ((c :: w) ++ [d]). rewrite trim_snoc. by destruct (isspace d).
Qed.

Lemma skip_space_split w : skip_space w = [] ∨ ∃ c r, skip_space w = c :: r ∧ isspace c = false.
Proof. induction w as [|c w IH]; [by left|]. cbn. destruct (isspace c) eqn:E0; [done|]. right. by eauto. Qed.

(** The state of the parser at the end of a line, when [p] has been read. *)
Definition rel (p : pending) (s : envedit) : Prop :=
  match p with
  | P_none => p_state s = st_0 ∧ p_var s = None ∧ p_value s = None
  | P_name n spc => p_state s = (if spc then st_spc_var else st_var) ∧ p_var s = Some n ∧ p_value s = None
  | P_value n None => p_state s = st_spc_val ∧ p_var s = Some n ∧ p_value s = None
  | P_value n (Some v) => p_var s = Some n ∧ ∃ raw, p_value s = Some raw ∧ trim raw = v ∧
      (p_state s = st_val ∨ p_state s = st_spc_val ∧ raw = v ++ [SPC])
  end.

Fixpoint in_chars (w : list Z) : E unit :=
  match w with
  | [] => mret tt
  | c :: w' => in_line c;; in_chars w'
  end.

(** [m] makes of [s] a state for [r] by changing the parser only, or exits. *)
Definition moves (m : E unit) (s : envedit) (r : option pending) : Prop :=
  match r with
  | Some p => ∃ st v x, m s = Ret tt (set_parser st v x s) ∧ rel p (set_parser st v x s)
  | None => m s = Stop (Exited 1)
  end.

Abbreviation no_nul := (Forall (λ c : Z, c ≠ 0)).

Lemma set_parser_id s : set_parser (p_state s) (p_var s) (p_value s) s = s.
Proof. by destruct s. Qed.

Lemma val_run w s raw : heap s = [] → no_nul w → p_state s = st_val → p_value s = Some raw →
  in_chars w s = Ret tt (set_parser st_val (p_var s) (Some (raw ++ (blank <$> w))) s).
Proof.
  intros Hh Hw. revert s raw Hh. induction Hw as [|c w Hc _ IH]; intros s raw Hh Hs Hv; cbn [in_chars fmap list_fmap].
  - rewrite app_nil_r, <- Hs, <- Hv. by rewrite set_parser_id.
  - unfold in_line. run. rewrite Hs. rewrite (bind_step _ _ _ _ _ (add_to_value_run _ s Hh)), Hs, Hv. cbn [default].
    replace (if _ =? 0 then _ else _) with [blank c].
    + rewrite (IH _ (raw ++ [blank c])) by done. cbn. by rewrite <- app_assoc.
    + unfold blank. destruct (isspace c); cbn [negb]; [done|]. by rewrite (proj2 (Z.eqb_neq _ _)).
Qed.

Lemma spc_val_run w s : heap s = [] → no_nul w → p_state s = st_spc_val →
  in_chars w s = Ret tt (match skip_space w with
                         | [] => s
                         | t => set_parser st_val (p_var s) (Some (default [] (p_value s) ++ (blank <$> t))) s
                         end).
Proof.
  intros Hh Hw Hs. induction Hw as [|c w Hc Hw IH]; [done|]. cbn [in_chars skip_space].
  unfold in_line. run. rewrite Hs. unfold in_spc_val. destruct (isspace c) eqn:Ec; [by run|].
  run. rewrite (bind_step _ _ _ _ _ (add_to_value_run _ s Hh)). unfold set_p_state. run.
  rewrite (proj2 (Z.eqb_neq _ _)) by done. erewrite val_run by done. rewrite fmap_cons, (blank_text c Ec).
  cbn. by rewrite <- app_assoc.
Qed.

Lemma join_run w s n v : heap s = [] → no_nul w → p_state s = st_spc_val → rel (P_value n v) s →
  moves (in_chars w) s (Some (P_value n (join v w))).
Proof.
  intros Hh Hw Hs Hr. unfold moves. rewrite (spc_val_run w s Hh Hw Hs). unfold join, strip.
  destruct (skip_space_split w) as [E0|(c & r & E0 & Hc)]; rewrite E0; cbn [fmap list_fmap].
  - rewrite bool_decide_eq_true_2 by done. exists (p_state s), (p_var s), (p_value s). by rewrite set_parser_id.
  - assert (trim (blank c :: (blank <$> r)) ≠ []) as Ht by by apply trim_text; rewrite isspace_blank.
    rewrite bool_decide_eq_false_2 by done. do 3 eexists. split; [reflexivity|]. destruct v as [v|]; cbn in Hr |- *.
    + destruct Hr as (Hv & raw & Hx & Htr & [He|[_ ->]]); [by rewrite Hs in He|]. split; [done|].
      rewrite Hx. cbn. eexists. split; [reflexivity|]. split; [|by left]. rewrite trim_app by done.
      by rewrite <- app_assoc.
    + destruct Hr as (_ & Hv & Hx). split; [done|]. rewrite Hx. cbn. eexists. split; [reflexivity|].
      split; [done|by left].
Qed.

Lemma moves_assoc (m1 m2 : E unit) s st v x r : m1 s = Ret tt (set_parser st v x s) →
  moves m2 (set_parser st v x s) r → moves (m1;; m2) s r.
Proof.
  intros H1 H2. unfold moves in *. rewrite (bind_step _ _ _ _ _ H1). destruct r; [|done].
  destruct H2 as (st' & v' & x' & H & Hr). exists st', v', x'. done.
Qed.

Lemma after_name_run w s n : heap s = [] → no_nul w → p_state s = st_spc_var → p_var s = Some n → p_value s = None →
  moves (in_chars w) s (after_name n w).
Proof.
  intros Hh Hw Hs Hv Hx. induction Hw as [|c w Hc Hw IH].
  - exists (p_state s), (p_var s), (p_value s). rewrite set_parser_id. done.
  - unfold after_name. cbn [in_chars skip_space]. destruct (isspace c) eqn:Ec.
    + eapply (moves_assoc _ _ s (p_state s) (p_var s) (p_value s)); [|by rewrite set_parser_id].
      unfold in_line. run. rewrite Hs, Ec. by rewrite <- Hs, set_parser_id.
    + destruct (c =? ch "=") eqn:Eq.
      * eapply (moves_assoc _ _ s st_spc_val (p_var s) (p_value s)); [unfold in_line; run; by rewrite Hs, Ec, Eq|].
        by apply join_run.
      * unfold moves, in_line. run. by rewrite Hs, Ec, Eq.
Qed.

Lemma in_name_run w s n : heap s = [] → no_nul w → p_state s = st_var → p_var s = Some n → p_value s = None →
  moves (in_chars w) s (in_name n w).
Proof.
  intros Hh Hw. revert s n Hh. induction Hw as [|c w Hc Hw IH]; intros s n Hh Hs Hv Hx; cbn [in_chars in_name].
  - exists (p_state s), (p_var s), (p_value s). rewrite set_parser_id. done.
  - destruct (isspace c) eqn:Ec; [|destruct (c =? ch "=") eqn:Eq; [|destruct (alnum c) eqn:Ea]].
    + eapply (moves_assoc _ _ s st_spc_var (p_var s) (p_value s)); [unfold in_line; run; by rewrite Hs, Ec|].
      by apply after_name_run.
    + eapply (moves_assoc _ _ s st_spc_val (p_var s) (p_value s)); [unfold in_line; run; by rewrite Hs, Ec, Eq|].
      by apply join_run.
    + eapply (moves_assoc _ _ s st_var (Some (n ++ [c])) (p_value s)); [|by apply IH].
      unfold in_line. run. rewrite Hs, Ec, Eq, Ea. cbn [negb]. rewrite (add_to_var_run _ _ Hh), Hs, Hv.
      by rewrite (proj2 (Z.eqb_neq _ _)).
    + unfold moves, in_line. run. by rewrite Hs, Ec, Eq, Ea.
Qed.

Lemma start_run c w s : heap s = [] → no_nul (c :: w) → rel P_none s →
  moves (begin_var c;; in_chars w) s (start (c :: w)).
Proof.
  intros Hh [Hc Hw]%Forall_cons (Hs & Hv & Hx). cbn [start]. unfold begin_var. destruct (alpha c) eqn:Ea; cbn [negb].
  - assert (isspace c = false) as ->.
    { apply not_true_is_false. intros E0. revert Ea E0. unfold alpha, isspace. change (ch "_") with 95.
      change (ch "A") with 65. change (ch "Z") with 90. change (ch "a") with 97. change (ch "z") with 122. lia. }
    eapply (moves_assoc _ _ s st_var (Some [c]) None); [|by apply in_name_run].
    rewrite (bind_step _ _ _ _ _ (add_to_var_run _ _ Hh)), Hv, Hx. by rewrite (proj2 (Z.eqb_neq _ _)).
  - unfold moves. by destruct (isspace c).
Qed.

(** What the changes [es] make of [s], the parser's strings apart. *)
Definition applied (es : list edit) (s s' : envedit) : Prop :=
  heap s' = [] ∧ table_wf (vars s') ∧ table (vars s') = foldl apply_edit (table (vars s)) es ∧ world s' = world s.

Definition steps (m : E unit) (s : envedit) (r : option (list edit * pending)) : Prop :=
  match r with
  | Some (es, p) => ∃ s', m s = Ret tt s' ∧ rel p s' ∧ applied es s s'
  | None => m s = Stop (Exited 1)
  end.

Lemma steps_moves m s r : heap s = [] → table_wf (vars s) → moves m s r → steps m s (pair [] <$> r).
Proof.
  intros Hh Hwf. destruct r as [p|]; [|done]. intros (st & v & x & H & Hr). cbn. eexists. split; [exact H|].
  by split_and!.
Qed.

Lemma rel_value n v s : rel (P_value n v) s → p_var s = Some n ∧ trim <$> p_value s = v.
Proof. destruct v as [v|]; cbn; [intros (? & raw & -> & <- & _)|intros (_ & ? & ->)]; done. Qed.

(** [flush], and the state it leaves with [st_0] for the parser's. *)
Lemma flush_rel n v s : heap s = [] → table_wf (vars s) → rel (P_value n v) s →
  ∃ s', flush s = Ret tt s' ∧ rel P_none (set_parser st_0 (p_var s') (p_value s') s') ∧ applied [edit_of n v] s s' ∧
    p_state s' = p_state s.
Proof.
  intros Hh Hwf [Hv Hx]%rel_value. destruct (flush_run s n Hh Hwf Hv) as (s' & Hf & Ho & Hwf' & Ht).
  destruct (only_vars_world _ _ Ho) as (Hw & Hh' & _). eexists. split; [exact Hf|]. split; [done|].
  split; [|done]. unfold change in Ht. rewrite Hx in Ht. split_and!; [by apply Hh'|done..].
Qed.

Lemma start_after_flush c w s n v : heap s = [] → table_wf (vars s) → no_nul (c :: w) → rel (P_value n v) s →
  steps ((flush;; set_p_state st_0;; begin_var c);; in_chars w) s (pair [edit_of n v] <$> start (c :: w)).
Proof.
  intros Hh Hwf Hw Hr. destruct (flush_rel n v s Hh Hwf Hr) as (s' & Hf & Hn & (Hh' & Hwf' & Ht & Hwo) & _).
  pose proof (start_run c w (set_parser st_0 (p_var s') (p_value s') s') Hh' Hw Hn) as H. unfold steps. rewrite bind_assoc, (bind_step _ _ _ _ _ Hf).
  unfold set_p_state. run. unfold moves in H. destruct (start (c :: w)); cbn; [|exact H].
  destruct H as (st & y & x & H & Hp). eexists. split; [exact H|]. split; [done|]. by split_and!.
Qed.

Lemma end_value_run c w s n v : heap s = [] → table_wf (vars s) → no_nul (c :: w) → rel (P_value n v) s →
  p_state s = st_spc_val →
  steps (end_value c;; in_chars w) s (text_step (P_value n v) (c :: w)).
Proof.
  intros Hh Hwf Hw Hr Hs. unfold end_value, text_step. destruct (isspace c) eqn:Ec; cbn [negb].
  - unfold join, strip. rewrite skip_space_cons by done. fold (strip w). fold (join v w).
    apply Forall_cons in Hw as [_ Hw]. pose proof (join_run w s n v Hh Hw Hs Hr) as H.
    exact (steps_moves _ s (Some _) Hh Hwf H).
  - by apply start_after_flush.
Qed.

Lemma text_step_run p c w s : heap s = [] → table_wf (vars s) → no_nul (c :: w) → rel p s →
  steps (newline c;; in_chars w) s (text_step p (c :: w)).
Proof.
  intros Hh Hwf Hw Hr. pose proof Hw as [Hc Hw']%Forall_cons. destruct p as [|n spc|n v].
  - pose proof (start_run c w s Hh Hw Hr) as H. destruct Hr as (Hs & _). unfold newline, text_step.
    unfold steps. run. rewrite Hs. destruct (isspace c) eqn:Ec.
    + unfold begin_var. by rewrite Ec.
    + exact (steps_moves _ s _ Hh Hwf H).
  - destruct Hr as (Hs & Hv & Hx). unfold newline, text_step. unfold steps. run. rewrite Hs. destruct spc.
    + pose proof (after_name_run (c :: w) s n Hh Hw Hs Hv Hx) as H.
      destruct (isspace c); exact (steps_moves _ s _ Hh Hwf H).
    + destruct (isspace c) eqn:Ec; cbn [negb]; [|done]. run.
      pose proof (after_name_run (c :: w) (set_parser st_spc_var (p_var s) (p_value s) s) n Hh Hw eq_refl Hv Hx) as H.
      exact (steps_moves _ _ _ Hh Hwf H).
  - unfold newline. assert (p_state s = st_spc_val ∨ p_state s = st_val) as [Hs|Hs].
    { destruct v; cbn in Hr; [destruct Hr as (_ & _ & _ & _ & [?|[? _]]); auto|left; apply Hr]. }
    + unfold steps. run. rewrite Hs. by apply end_value_run.
    + destruct v as [v|]; [|destruct Hr; congruence]. destruct Hr as (Hv & raw & Hx & Ht & _).
      unfold steps. run. rewrite Hs, Hx. run.
      rewrite (bind_step _ _ _ _ _ (add_to_value_run SPC (set_parser _ _ _ s) Hh)). unfold set_p_state. run. cbn [p_value set_parser default].
      set (s1 := set_parser _ _ _ _).
      refine (end_value_run c w s1 n (Some v) Hh Hwf Hw _ eq_refl).
      split; [done|]. exists (v ++ [SPC]). cbn. rewrite Ht. split; [done|].
      split; [rewrite trim_snoc; cbn; by rewrite <- Ht, trim_idem|by right].
Qed.

(** ** Lines *)

Definition plain (c : Z) : Prop := c ≠ LF ∧ c ≠ ch "#".

(** A comment, up to the end of its line. *)
Definition comment_text (k : bool) (x : list Z) : list Z := if k then ch "#" :: x else [].

Definition line_end (r : option (list Z)) : list Z := match r with None => [] | Some t => LF :: t end.

Lemma first_line t : ∃ w x k r,
  t = w ++ comment_text k x ++ line_end r ∧ Forall plain w ∧ (LF ∉ x) ∧
  text_lines t = (w, k) :: match r with None => [] | Some t' => text_lines t' end.
Proof.
  induction t as [|c t (w & x & k & r & Et & Hw & Hx & El)].
  { exists [], [], false, None. split_and!; [done|constructor|apply not_elem_of_nil|done]. }
  cbn [text_lines]. rewrite El. destruct (Z.eqb_spec c LF) as [->|Hlf]; [|destruct (Z.eqb_spec c (ch "#")) as [->|Hh]].
  - exists [], [], false, (Some t). split_and!; [done|constructor|apply not_elem_of_nil|by rewrite El].
  - exists [], (w ++ comment_text k x), true, r. split_and!; [cbn; by rewrite Et, <- !app_assoc|constructor| |done].
    rewrite not_elem_of_app. split.
    + intros Hin. by apply (proj1 (Forall_forall _ _) Hw) in Hin as [? _].
    + destruct k; [|apply not_elem_of_nil]. cbn. by apply not_elem_of_cons.
  - exists (c :: w), x, k, r. split_and!; [cbn; by rewrite Et|by constructor|done|done].
Qed.

Lemma loop_chars w r s : Forall plain w → parse_loop (w ++ r) false false s = (in_chars w;; parse_loop r false false) s.
Proof.
  intros Hw. revert s. induction Hw as [|c w [Hlf Hh] _ IH]; intros s; [by run|]. cbn [app parse_loop in_chars].
  rewrite (proj2 (Z.eqb_neq c LF)), (proj2 (Z.eqb_neq c (ch "#"))) by done. cbn [andb]. run.
  apply bind_ext. intros [] s' _. apply IH.
Qed.

Lemma chars_text c w r s : Forall plain (c :: w) →
  parse_loop ((c :: w) ++ r) false true s = ((newline c;; in_chars w);; parse_loop r false false) s.
Proof.
  intros [[Hlf Hh] Hw]%Forall_cons. cbn [app parse_loop].
  rewrite (proj2 (Z.eqb_neq c LF)), (proj2 (Z.eqb_neq c (ch "#"))) by done. cbn [andb]. run.
  apply bind_ext. intros [] s' _. by apply loop_chars.
Qed.

(** The rest of a line after its text: the next line begins, or the text ends. *)
Lemma loop_comment x r nl s : LF ∉ x → ∃ s', parse_loop (x ++ line_end r) true nl s =
  match r with None => Ret tt s' | Some t => parse_loop t false true s' end ∧
  s' = match r with None => s | Some _ => set_line (p_line s + 1) s end.
Proof.
  intros Hx. eexists. split; [|done]. induction x as [|c x IH].
  - destruct r as [t|]; [|done]. cbn [app parse_loop line_end]. cbn [andb negb Z.eqb LF Pos.eqb]. by run.
  - apply not_elem_of_cons in Hx as [Hc Hx]. cbn [app parse_loop]. rewrite (proj2 (Z.eqb_neq c LF)) by done.
    cbn [andb negb]. run. destruct (c =? ch "#"); by apply IH.
Qed.

Lemma loop_rest k x r s : LF ∉ x → ∃ s', parse_loop (comment_text k x ++ line_end r) false false s =
  match r with None => Ret tt s' | Some t => parse_loop t false true s' end ∧
  s' = match r with None => s | Some _ => set_line (p_line s + 1) s end.
Proof.
  intros Hx. destruct k; [exact (loop_comment (ch "#" :: x) r false s ltac:(by apply not_elem_of_cons))|].
  eexists. split; [|done]. destruct r as [t|]; [|done]. cbn. by run.
Qed.

Lemma applied_trans es1 es2 s1 s2 s3 : applied es1 s1 s2 → applied es2 s2 s3 → applied (es1 ++ es2) s1 s3.
Proof.
  intros (_ & _ & Ht1 & Hw1) (Hh & Hwf & Ht2 & Hw2). split_and!; [done..| |by rewrite Hw2].
  by rewrite Ht2, Ht1, foldl_app.
Qed.

Lemma applied_nil s : heap s = [] → table_wf (vars s) → applied [] s s.
Proof. by intros. Qed.

Lemma value_state n v s : rel (P_value n v) s → p_state s = st_spc_val ∨ p_state s = st_val.
Proof.
  destruct v; cbn; [intros (_ & _ & _ & _ & [?|[? _]]); auto|intros [? _]; by left].
Qed.

Lemma double_newline_run p s : heap s = [] → table_wf (vars s) → rel p s → steps double_newline s (blank_step p).
Proof.
  intros Hh Hwf Hr. unfold double_newline, steps. destruct p as [|n spc|n v]; cbn [blank_step]; run.
  - destruct Hr as (Hs & ? & ?). rewrite Hs. by exists s.
  - destruct Hr as (Hs & _). rewrite Hs. by destruct spc.
  - destruct (flush_rel n v s Hh Hwf Hr) as (s' & Hf & Hn & Ha & _). exists (set_parser st_0 (p_var s') (p_value s') s').
    destruct (value_state n v s Hr) as [Hs|Hs]; rewrite Hs; by rewrite (bind_step _ _ _ _ _ Hf).
Qed.

Lemma end_edit_run p s : heap s = [] → table_wf (vars s) → rel p s →
  match fst <$> blank_step p with
  | Some es => ∃ s', end_edit s = Ret tt s' ∧ applied es s s'
  | None => end_edit s = Stop (Exited 1)
  end.
Proof.
  intros Hh Hwf Hr. unfold end_edit. destruct p as [|n spc|n v]; cbn [blank_step fmap option_fmap option_map fst]; run.
  - destruct Hr as (Hs & ? & ?). rewrite Hs. by exists s.
  - destruct Hr as (Hs & _). rewrite Hs. by destruct spc.
  - destruct (flush_rel n v s Hh Hwf Hr) as (s' & Hf & _ & Ha & _). exists s'.
    by destruct (value_state n v s Hr) as [-> | ->].
Qed.

(** A line, when another follows. *)
Lemma line_run p w k x t s : heap s = [] → table_wf (vars s) → no_nul w → Forall plain w → LF ∉ x → rel p s →
  match line_step p (w, k) with
  | Some (es, p') => ∃ s', parse_loop (w ++ comment_text k x ++ line_end (Some t)) false true s = parse_loop t false true s' ∧
      rel p' s' ∧ applied es s s'
  | None => parse_loop (w ++ comment_text k x ++ line_end (Some t)) false true s = Stop (Exited 1)
  end.
Proof.
  intros Hh Hwf Hn Hp Hx Hr. destruct w as [|c w].
  - destruct k; cbn [line_step].
    + destruct (loop_comment (ch "#" :: x) (Some t) true s) as (s' & H & ->); [by apply not_elem_of_cons|].
      eexists. split; [exact H|]. done.
    + set (s1 := set_line (p_line s + 1) s). pose proof (double_newline_run p s1 Hh Hwf Hr) as H.
      assert (parse_loop ([] ++ comment_text false x ++ line_end (Some t)) false true s =
        (double_newline;; parse_loop t false true) s1) as -> by by cbn; run.
      unfold steps in H. destruct (blank_step p) as [[es p']|]; [|by apply bind_stop].
      destruct H as (s' & H & ?). exists s'. by rewrite (bind_step _ _ _ _ _ H).
  - change (line_step p (c :: w, k)) with (text_step p (c :: w)). rewrite chars_text by done.
    pose proof (text_step_run p c w s Hh Hwf Hn Hr) as H. unfold steps in H.
    destruct (text_step p (c :: w)) as [[es p']|]; [|by apply bind_stop].
    destruct H as (s' & H & Hr' & Ha). rewrite (bind_step _ _ _ _ _ H).
    destruct (loop_rest k x (Some t) s' Hx) as (s2 & -> & ->). eexists. split; [reflexivity|]. done.
Qed.

(** The last line. *)
Lemma last_line_run p w k x s : heap s = [] → table_wf (vars s) → no_nul w → Forall plain w → LF ∉ x → rel p s →
  match edits_from p [(w, k)] with
  | Some es => ∃ s', (parse_loop (w ++ comment_text k x ++ []) false true;; end_edit) s = Ret tt s' ∧ applied es s s'
  | None => (parse_loop (w ++ comment_text k x ++ []) false true;; end_edit) s = Stop (Exited 1)
  end.
Proof.
  intros Hh Hwf Hn Hp Hx Hr. cbn [edits_from]. destruct w as [|c w].
  - assert ((parse_loop ([] ++ comment_text k x ++ []) false true;; end_edit) s = end_edit s) as ->.
    { rewrite (bind_step (parse_loop _ _ _) _ s tt s); [done|]. destruct k; [|done].
      destruct (loop_comment (ch "#" :: x) None true s) as (s' & H & ->); [by apply not_elem_of_cons|]. exact H. }
    pose proof (end_edit_run p s Hh Hwf Hr) as H. destruct k; cbn [line_step].
    + cbn. destruct (fst <$> blank_step p); exact H.
    + destruct (blank_step p) as [[es p']|] eqn:Eb; [|exact H]. cbn in H |- *.
      assert (p' = P_none) as -> by (destruct p; by simplify_eq/=). cbn. by rewrite app_nil_r.
  - change (line_step p (c :: w, k)) with (text_step p (c :: w)).
    assert ((parse_loop ((c :: w) ++ comment_text k x ++ []) false true;; end_edit) s =
      ((newline c;; in_chars w);; parse_loop (comment_text k x ++ []) false false;; end_edit) s) as ->.
    { rewrite <- bind_assoc. apply bind_cong. by apply chars_text. }
    pose proof (text_step_run p c w s Hh Hwf Hn Hr) as H. unfold steps in H.
    destruct (text_step p (c :: w)) as [[es p']|]; [|by apply bind_stop].
    destruct H as (s' & H & Hr' & Ha). rewrite (bind_step _ _ _ _ _ H).
    destruct (loop_rest k x None s' Hx) as (s2 & Hl & ->). cbn [line_end] in Hl. rewrite (bind_step _ _ _ _ _ Hl).
    destruct Ha as (Hh' & Hwf' & ?). pose proof (end_edit_run p' s' Hh' Hwf' Hr') as He. cbn.
    destruct (fst <$> blank_step p') as [es'|]; [|exact He]. cbn. destruct He as (s2 & He & Ha').
    exists s2. split; [exact He|]. by eapply applied_trans.
Qed.

Lemma parse_from p t s : heap s = [] → table_wf (vars s) → no_nul t → rel p s →
  match edits_from p (text_lines t) with
  | Some es => ∃ s', (parse_loop t false true;; end_edit) s = Ret tt s' ∧ applied es s s'
  | None => (parse_loop t false true;; end_edit) s = Stop (Exited 1)
  end.
Proof.
  revert p s. induction t as [t IH] using (induction_ltof1 _ length). intros p s Hh Hwf Hn Hr.
  destruct (first_line t) as (w & x & k & r & Et & Hw & Hx & ->).
  assert (no_nul w ∧ match r with Some t' => no_nul t' ∧ ltof _ length t' t | None => True end) as [Hnw Hnr].
  { rewrite Et in Hn |- *. apply Forall_app in Hn as [? Hn]. split; [done|]. apply Forall_app in Hn as [_ Hn].
    destruct r as [t'|]; [|done]. apply Forall_cons in Hn as [_ ?]. split; [done|]. unfold ltof.
    rewrite !length_app. cbn. lia. }
  rewrite Et. destruct r as [t'|]; [|by apply last_line_run]. destruct Hnr as [Hnt Hlt].
  pose proof (line_run p w k x t' s Hh Hwf Hnw Hw Hx Hr) as H. set (m := parse_loop _ false true) in *.
  cbn [edits_from]. destruct (line_step p (w, k)) as [[es p']|]; cbn; [|by apply bind_stop].
  destruct H as (s' & H & Hr' & Ha).
  assert ((m;; end_edit) s = (parse_loop t' false true;; end_edit) s') as -> by by unfold mbind, M_bind; rewrite H.
  destruct Ha as (Hh' & Hwf' & ?). specialize (IH t' Hlt p' s' Hh' Hwf' Hnt Hr').
  destruct (edits_from p' (text_lines t')) as [es'|]; cbn; [|exact IH].
  destruct IH as (s2 & He & Ha'). exists s2. split; [exact He|]. by eapply applied_trans.
Qed.

(** [C9] The parser agrees with the line-by-line reference on every text: it makes exactly
    the changes the reference reads from it, in their order, or exits with a syntax
    error when there are none. *)
Theorem parse_edit_edits t s : heap s = [] → table_wf (vars s) → no_nul t → rel P_none s →
  match edits_of t with
  | Some es => ∃ s', parse_edit t s = Ret tt s' ∧ applied es s s'
  | None => parse_edit t s = Stop (Exited 1)
  end.
Proof. intros Hh Hwf Hn Hr. exact (parse_from P_none t s Hh Hwf Hn Hr). Qed.

(** ** Examples *)

Definition sample : list Z := b "one = eins	zwei # comment
  drei
#
   vier

two=
three  =3".

Lemma parse_edit_edits_witness :
  edits_of sample = Some [Set_var (b "one") (b "eins zwei drei vier"); Del_var (b "two"); Set_var (b "three") (b "3")] ∧
  ∃ s', parse_edit sample (fresh 64 (λ _, None)) = Ret tt s' ∧
    applied [Set_var (b "one") (b "eins zwei drei vier"); Del_var (b "two"); Set_var (b "three") (b "3")]
      (fresh 64 (λ _, None)) s'.
Proof.
  split; [by vm_compute|].
  assert (no_nul sample) as Hn by by apply (bool_decide_unpack _); vm_compute.
  exact (parse_edit_edits sample (fresh 64 (λ _, None)) eq_refl (conj (Forall_nil_2 _) (NoDup_nil_2)) Hn (conj eq_refl (conj eq_refl eq_refl))).
Defined.

Lemma parse_edit_safe_witness :
  wpe (parse_edit [ch "a"; ch "="; 0; LF; ch "="; LF]) (fresh 64 (λ _, None)) (λ _ s', table_wf (vars s') ∧
    p_state s' ≠ st_spc_val_add ∧ world s' = world (fresh 64 (λ _, None))) (λ c, c = 1).
Proof.
  exact (parse_edit_safe _ (fresh 64 (λ _, None)) eq_refl (conj (Forall_nil_2 _) (NoDup_nil_2)) eq_refl eq_refl eq_refl).
Defined.
