(* ===== verification/EnvFile.v ===== *)
(** * envedit: the environment, and the program (src/host/envedit/env.c, cpp.c, envedit.c)

    The environment is a block of a fixed size: the checksum of the rest in four bytes,
    then the variables, each as NAME=VALUE with a NUL after it, then NULs.  The
    checksum is that of zlib, and the preprocessor is another program: both are
    parameters. *)

From stdpp Require Import gmap sorting.
From S2P Require Import Prelude CString Wire EnvVar EnvParse.

(** What a run of the preprocessor gives: its output and how it ended. *)
Inductive status : Type := Exit_status (code : Z) | Signalled (sig : Z) | Incomprehensible.
Definition preprocessor : Type := list Z → list (list Z) → option (list Z * status).

Section program.
(** [crc32(0, data)], and the run of a command with its arguments: [None] when no process
    can be made. *)
Context (crc32 : list Z → Z) (run_command : preprocessor).

(** ** Files *)

(** [-] is the standard input or output. *)
Definition is_dash (name : list Z) : bool := str_eq name (b "-").

(** All that a file holds.  The standard input gives nothing once its end was reached. *)
Definition read_all (name : list Z) : E (list Z) :=
  s ← get;
  if is_dash name then
    modify (set_stdin [] true);;
    mret (if stdin_eof s then [] else stdin s)
  else
    match files s name with
    | Some bytes => mret bytes
    | None => exit1
    end.

Definition file_close (name : list Z) : E unit :=
  s ← get;
  if is_dash name || closes s name then mret tt else exit1.

(** [file_open] for writing. *)
Definition file_create (name : list Z) : E unit :=
  s ← get;
  if is_dash name || creatable s name then mret tt else exit1.

(** A write: how many bytes the file takes. *)
Definition file_write (name bytes : list Z) : E Z :=
  s ← get;
  let n := Z.min (writable s name) (Z.of_nat (length bytes)) in
  let accepted := take (Z.to_nat n) bytes in
  modify (if is_dash name then set_output (written s) (stdout s ++ accepted)
          else set_output (written s ++ [(name, accepted)]) (stdout s));;
  mret n.

(** ** Reading the environment *)

(** [malloc(env_size+1)]. *)
Definition alloc_env : E unit :=
  s ← get;
  malloc_or_exit;;
  modify (set_env_buf (Some (replicate (Z.to_nat (u32 (env_size s + 1))) 0))).

(** The checksum of what follows the first four of [env_size] bytes. *)
Definition crc_env (env : list Z) (env_size : Z) : E Z :=
  must (4 <=? env_size) "crc32 beyond env";;
  mret (u32 (crc32 (take (Z.to_nat (env_size - 4)) (drop 4 env)))).

(** The checksum in the first four bytes. *)
Definition orig_crc (env : list Z) : Z :=
  match env with
  | b0 :: b1 :: b2 :: b3 :: _ => u8 b0 + 256 * u8 b1 + 65536 * u8 b2 + 16777216 * u8 b3
  | _ => 0
  end.

(** The memory after reading a file: its bytes as far as they fit, zeros, and the NUL
    that was put after it. *)
Definition filled (bytes : list Z) (size : nat) : list Z :=
  take size bytes ++ replicate (size - length bytes) 0 ++ [0].

Definition read_env (name : list Z) (warn_crc : bool) : E unit :=
  alloc_env;;
  s ← get;
  must (env_size s <? u32 (env_size s + 1)) "env[env_size]";;
  bytes ← read_all name;
  let size := Z.to_nat (env_size s) in
  if (length (take size bytes) <? 6)%nat then exit1
  else
    let buf := filled bytes size in
    modify (set_env_buf (Some buf));;
    crc ← crc_env buf (env_size s);
    if negb (crc =? orig_crc buf) && negb warn_crc then exit1 else file_close name.

(** The loop of [parse_env]: [l] is the memory from [p] on, [p] the distance from [env].
    A name is cut off from its value in place. *)
Fixpoint parse_entries (fuel : nat) (p : nat) (l : list Z) : E unit :=
  match fuel with
  | O => undefined "out of fuel"
  | S f =>
      must (1 <=? length l)%nat "p beyond env";;
      if (length l =? 1)%nat then mret tt
      else
        let entry := until0 l in
        let next := (p + length entry)%nat in
        let continue := parse_entries f (S next) (drop (S (length entry)) l) in
        if (length entry =? 0)%nat then mret tt
        else if (length entry + 1 =? length l)%nat then mret tt
        else
          match strchr entry (ch "=") with
          | None | Some [] => continue
          | Some (_ :: value) =>
              if (length value =? 0)%nat then continue
              else
                let name := before entry (ch "=") in
                modify (λ s, set_env_buf (<[(p + length name)%nat := 0]> <$> env s) s);;
                set_var name value;;
                continue
          end
  end.

Definition parse_env : E unit :=
  s ← get;
  env ← deref (env s) "env";
  must (4 <=? env_size s) "env+4";;
  parse_entries (S (length env)) 4 (drop 4 env).

(** ** Writing it *)

Definition print_line (name value : list Z) : list Z := name ++ [ch "="] ++ value ++ [LF].

Definition print_env (name : list Z) : E unit :=
  file_create name;;
  for_each_var (λ _ var value,
    n ← file_write name (print_line var value);
    if n <? Z.of_nat (length (print_line var value)) then exit1 else mret tt) tt;;
  file_close name.

(** What [sprintf] stores. *)
Definition entry_bytes (name value : list Z) : list Z := name ++ [ch "="] ++ value ++ [0].

(** Storing bytes in the block of [env_size+1] bytes. *)
Definition store (p : nat) (bytes buf : list Z) : E (list Z) :=
  must (p + length bytes <=? length buf)%nat "env";;
  mret (take p buf ++ bytes ++ drop (p + length bytes) buf).

(** One round of the loop of [write_env]: the memory and the position in it. *)
Definition write_entry (env_size : Z) (acc : list Z * nat) (var value : list Z) : E (list Z * nat) :=
  let '(buf, p) := acc in
  if env_size <? Z.of_nat p + Z.of_nat (length var) + Z.of_nat (length value) + 3 then exit1
  else
    buf ← store p (entry_bytes var value) buf;
    mret (buf, (p + length (entry_bytes var value))%nat).

(** The end of [write_env]: the checksum, and the file. *)
Definition finish_env (name : list Z) (env_size : Z) (buf : list Z) : E unit :=
  crc ← crc_env buf env_size;
  buf ← store 0 (le32 crc) buf;
  modify (set_env_buf (Some buf));;
  file_create name;;
  wrote ← file_write name (take (Z.to_nat env_size) buf);
  if negb (wrote =? env_size) then exit1 else file_close name.

Definition write_env (name : list Z) : E unit :=
  s ← get;
  match env s with
  | None => alloc_env
  | Some _ => mret tt
  end;;
  s ← get;
  env ← deref (env s) "env";
  let size := Z.to_nat (env_size s) in
  buf ← store 0 (replicate size 0) env;
  acc ← for_each_var (write_entry (env_size s)) (buf, 4%nat);
  let '(buf, _) := acc in
  finish_env name (env_size s) buf.

(** ** Changes *)

Definition set_env (var : list Z) : E unit :=
  malloc_or_exit;;
  match strchr var (ch "=") with
  | None => exit1
  | Some eq =>
      match tail eq with
      | [] => del_var (before var (ch "="))
      | value => set_var (before var (ch "=")) value
      end
  end.

Definition add_cpp_arg (arg : list Z) : E unit :=
  malloc_or_exit;;
  modify (λ s, if (length (cpp_argv s) =? 0)%nat then set_cpp (cpp_command s) [cpp_command s] s else s);;
  malloc_or_exit;;
  modify (λ s, set_cpp (cpp_command s) (cpp_argv s ++ [arg]) s).

(** The last argument, NULL, is not copied. *)
Definition add_cpp_NULL : E unit := malloc_or_exit.

(** Its output is the standard input from now on. *)
Definition run_cpp_on_file (name : list Z) : E status :=
  add_cpp_arg name;;
  add_cpp_NULL;;
  s ← get;
  match run_command (cpp_command s) (cpp_argv s) with
  | None => exit1
  | Some (output, st) =>
      modify (λ s, set_stdin output (stdin_eof s) (set_cpp (cpp_command s) [] s));;
      mret st
  end.

Definition reap_cpp (st : status) : E unit :=
  match st with
  | Exit_status code => if code =? 0 then mret tt else halt (Exited code)
  | Signalled _ | Incomprehensible => exit1
  end.

Definition edit_env (name : list Z) (cpp : bool) : E unit :=
  if negb cpp then
    file ← read_all name;
    parse_edit file;;
    file_close name
  else
    st ← run_cpp_on_file name;
    file ← read_all (b "-");
    parse_edit file;;
    reap_cpp st.

(** ** The program *)

(** What [getopt] finds, one by one; [O_bad] is anything else. *)
Inductive opt : Type :=
  | O_c | O_f (file : list Z) | O_i (file : list Z) | O_n | O_o (file : list Z) | O_p | O_s (bytes : list Z)
  | O_D (def : list Z) | O_P (cmd : list Z) | O_bad.

Record options : Type := Options {
  warn_crc : bool;
  cpp_locked : bool;
  env_file : option (list Z);
  in_file : option (list Z);
  out_file : option (list Z);
  cpp : bool;
  print : bool }.

Definition usage {A} : E A := exit1.

(** [strtoul(s, &end, 0)]: the prefix tells the base. *)
Definition auto_base (s : list Z) : Z :=
  match snd (sign (skip_space s)) with
  | z :: x :: t => if z =? ch "0" then
                     if ((x =? ch "x") || (x =? ch "X")) && starts_digit 16 t then 16 else 8
                   else 10
  | _ => 10
  end.

Definition do_option (o : options) (c : opt) : E options :=
  match c with
  | O_c => mret (Options true (cpp_locked o) (env_file o) (in_file o) (out_file o) (cpp o) (print o))
  | O_f f => mret (Options (warn_crc o) (cpp_locked o) (Some f) (in_file o) (out_file o) (cpp o) (print o))
  | O_i f => mret (Options (warn_crc o) (cpp_locked o) (env_file o) (Some f) (out_file o) (cpp o) (print o))
  | O_n => mret (Options (warn_crc o) (cpp_locked o) (env_file o) (in_file o) (out_file o) false (print o))
  | O_o f => mret (Options (warn_crc o) (cpp_locked o) (env_file o) (in_file o) (Some f) (cpp o) (print o))
  | O_p => mret (Options (warn_crc o) (cpp_locked o) (env_file o) (in_file o) (out_file o) (cpp o) true)
  | O_s bytes =>
      let '(n, rest) := strtoul (auto_base bytes) bytes in
      modify (set_env_size n);;
      match default bytes rest with
      | [] => mret o
      | _ => usage
      end
  | O_D def =>
      malloc_or_exit;;
      add_cpp_arg (b "-D" ++ def);;
      mret (Options (warn_crc o) true (env_file o) (in_file o) (out_file o) (cpp o) (print o))
  | O_P cmd =>
      if cpp_locked o then exit1
      else modify (λ s, set_cpp cmd (cpp_argv s) s);; mret o
  | O_bad => usage
  end.

Fixpoint options_loop (o : options) (cs : list opt) : E options :=
  match cs with
  | [] => mret o
  | c :: cs' => o ← do_option o c; options_loop o cs'
  end.

Fixpoint set_envs (vars : list (list Z)) : E unit :=
  match vars with
  | [] => mret tt
  | v :: vars' => set_env v;; set_envs vars'
  end.

(** [main] after its options. *)
Definition run_options (o : options) (operands : list (list Z)) : E Z :=
  if match in_file o with None => warn_crc o | Some _ => false end then usage
  else if match out_file o with Some _ => print o | None => false end then usage
  else if match env_file o with None => negb (cpp o) | Some _ => false end then usage
  else
    match in_file o with
    | Some f => read_env f (warn_crc o);; parse_env
    | None => mret tt
    end;;
    match env_file o with
    | Some f => edit_env f (cpp o)
    | None => mret tt
    end;;
    set_envs operands;;
    (if print o then print_env (b "-") else write_env (default (b "-") (out_file o)));;
    mret 0.

Definition envedit_main (opts : list opt) (operands : list (list Z)) : E Z :=
  o ← options_loop (Options false false None None None true false) opts;
  run_options o operands.

(** ** The block that holds a table *)

Definition payload (es : list (list Z * list Z)) : list Z := concat ((λ e, entry_bytes (fst e) (snd e)) <$> es).

(** The variables, and NULs up to [size] bytes with the checksum. *)
Definition body (es : list (list Z * list Z)) (size : nat) : list Z :=
  payload es ++ replicate (size - 4 - length (payload es)) 0.

Definition checksum (es : list (list Z * list Z)) (size : nat) : Z := u32 (crc32 (body es size)).

Definition image (m : gmap (list Z) (list Z)) (size : nat) : list Z :=
  le32 (checksum (sorted_entries m) size) ++ body (sorted_entries m) size.

(** There is room for the checksum, the variables and a NUL after the last. *)
Definition fits (es : list (list Z * list Z)) (size : nat) : Prop := (4 + length (payload es) + 1 ≤ size)%nat.

Lemma payload_app l1 l2 : payload (l1 ++ l2) = payload l1 ++ payload l2.
Proof. unfold payload. by rewrite fmap_app, concat_app. Qed.
Lemma payload_cons n x l : payload ((n, x) :: l) = entry_bytes n x ++ payload l.
Proof. done. Qed.
Lemma payload_snoc l n x : payload (l ++ [(n, x)]) = payload l ++ entry_bytes n x.
Proof. rewrite payload_app, payload_cons. unfold payload at 2. cbn. by rewrite app_nil_r. Qed.
Lemma length_entry_bytes n x : length (entry_bytes n x) = (length n + length x + 2)%nat.
Proof. unfold entry_bytes. rewrite !length_app. cbn. lia. Qed.

Lemma length_body es size : (4 + length (payload es) ≤ size)%nat → length (body es size) = (size - 4)%nat.
Proof. intros H. unfold body. rewrite length_app, length_replicate. lia. Qed.

(** What the operations leave alone. *)
Definition outside (s : envedit) :=
  (env_size s, (cpp_command s, cpp_argv s), files s, (creatable s, writable s, closes s), (written s, stdout s)).

Lemma world_outside s s' : world s' = world s → outside s' = outside s ∧ env s' = env s.
Proof. unfold world, outside. intros [=]. split; congruence. Qed.

(** ** Writing *)

Section write.
Context (s0 : envedit) (env0 : list Z).
Abbreviation size := (Z.to_nat (env_size s0)).
Abbreviation all := (sorted_entries (table (vars s0))).
Hypothesis Hsize : 0 ≤ env_size s0.
Hypothesis Henv : length env0 = S size.

(** The block when the variables [l] are in it. *)
Definition block (l : list (list Z * list Z)) : list Z :=
  replicate 4 0 ++ payload l ++ replicate (size - (4 + length (payload l))) 0 ++ drop size env0.

Definition writing (acc : list Z * nat) (rest : list (list Z * list Z)) (s : envedit) : Prop :=
  world s = world s0 ∧ ∃ l, all = l ++ rest ∧ acc = (block l, (4 + length (payload l))%nat) ∧
    (4 + length (payload l) ≤ size)%nat ∧ (l ≠ [] → fits l size).

Lemma write_entry_ok acc n x rest s : writing acc ((n, x) :: rest) s →
  wpe (write_entry (env_size s0) acc n x) s (λ acc' s', writing acc' rest s' ∧ vars s' = vars s ∧ curr_var s' = curr_var s)
    (λ c, c = 1 ∧ ¬ fits all size).
Proof.
  intros (Hw & l & Hall & -> & Hp & _). unfold write_entry. destruct (Z.ltb_spec (env_size s0) (Z.of_nat (4 + length (payload l)) + Z.of_nat (length n) + Z.of_nat (length x) + 3)).
  - split; [done|]. unfold fits. rewrite Hall, payload_app, length_app, payload_cons, length_app, length_entry_bytes. lia.
  - apply wpe_bind. unfold store.
    assert (length (block l) = S size) as Hb.
    { unfold block. rewrite !length_app, !length_replicate, length_drop, Henv. lia. }
    rewrite (proj2 (Nat.leb_le _ _)) by (rewrite length_entry_bytes, Hb; lia). apply wpe_ret.
    split; [|done]. split; [done|]. exists (l ++ [(n, x)]).
    assert (length (payload (l ++ [(n, x)])) = length (payload l) + length (entry_bytes n x))%nat as Hlen.
    { by rewrite payload_snoc, length_app. }
    split; [by rewrite <- app_assoc|]. rewrite Hlen, length_entry_bytes in *. split; [|split; [lia|intros _; unfold fits; rewrite Hlen; lia]].
    f_equal. unfold block. rewrite Hlen, payload_snoc.
    rewrite (app_assoc (replicate 4 0)). rewrite take_app_length' by (rewrite length_app, length_replicate; lia).
    rewrite drop_app_ge by (rewrite length_app, length_replicate; lia). rewrite length_app, length_replicate.
    rewrite drop_app_le by (rewrite length_replicate; lia). rewrite drop_replicate, <- !app_assoc. do 5 f_equal. lia.
Qed.

Lemma block_image s : table_wf (vars s) → table (vars s) = table (vars s0) → fits all size →
  take size (le32 (checksum all size) ++ drop 4 (block all)) = image (table (vars s)) size.
Proof.
  intros Hwf Ht Hf. unfold fits in Hf. unfold image, block. rewrite Ht, drop_app_length' by done.
  fold all. unfold body. rewrite app_assoc, app_assoc, <- (app_assoc (le32 _)).
  replace (size - 4 - length (payload all))%nat with (size - (4 + length (payload all)))%nat by lia.
  apply take_app_length'. rewrite !length_app, length_replicate. cbn. lia.
Qed.

Lemma body_block : (4 + length (payload all) ≤ size)%nat →
  take (Z.to_nat (env_size s0 - 4)) (drop 4 (block all)) = body all size.
Proof.
  intros Hp. unfold block. rewrite drop_app_length' by done. rewrite app_assoc. unfold body.
  replace (size - 4 - length (payload all))%nat with (size - (4 + length (payload all)))%nat by lia.
  apply take_app_length'. rewrite length_app, length_replicate. lia.
Qed.
End write.

Lemma malloc_or_exit_run s : heap s = [] → malloc_or_exit s = Ret tt s.
Proof. intros H. unfold malloc_or_exit. by rewrite (bind_step _ _ _ _ _ (malloc_run s H)). Qed.

(** A file that can be made and takes [n] bytes. *)
Definition file_ok (name : list Z) (n : Z) (s : envedit) : Prop :=
  is_dash name || (creatable s name && closes s name) = true ∧ n ≤ writable s name.

(** What is in the files and on the standard output when [bytes] are written. *)
Definition emitted (name bytes : list Z) (s : envedit) :=
  if is_dash name then (written s, stdout s ++ bytes) else (written s ++ [(name, bytes)], stdout s).

(** The environment, of which nothing is read yet or which has its size. *)
Definition env_ok (s : envedit) : Prop :=
  5 ≤ env_size s < 2 ^ 32 - 1 ∧ match env s with None => True | Some e => length e = S (Z.to_nat (env_size s)) end.

Lemma finish_env_spec name n buf body s : length buf = S (Z.to_nat n) → 4 ≤ n →
  take (Z.to_nat (n - 4)) (drop 4 buf) = body →
  wpe (finish_env name n buf) s
    (λ _ s', (written s', stdout s') = emitted name (le32 (u32 (crc32 body)) ++ body) s)
    (λ c, c = 1 ∧ ¬ file_ok name n s).
Proof.
  intros Hl Hn Hb. unfold finish_env, crc_env, store. rewrite (proj2 (Z.leb_le _ _)) by lia.
  apply wpe_bind, wpe_bind, wpe_ret, wpe_ret, wpe_bind. change (length (le32 _)) with 4%nat.
  rewrite (proj2 (Nat.leb_le _ _)) by lia. apply wpe_bind, wpe_ret, wpe_ret, wpe_bind, wpe_modify, wpe_bind.
  rewrite Hb. change (take 0 buf) with (@nil Z). rewrite app_nil_l. change (drop (0 + 4) buf) with (drop 4 buf).
  assert (take (Z.to_nat n) (le32 (u32 (crc32 body)) ++ drop 4 buf) = le32 (u32 (crc32 body)) ++ body) as ->.
  { rewrite <- Hb. replace (Z.to_nat n) with (4 + Z.to_nat (n - 4))%nat by lia. by rewrite take_app_add'. }
  assert (length (le32 (u32 (crc32 body)) ++ body) = Z.to_nat n) as Hlen.
  { rewrite <- Hb, length_app, length_take, length_drop, Hl. cbn. lia. }
  set (bytes := le32 _ ++ body) in *. unfold file_create. apply wpe_bind, wpe_get. cbn [creatable set_env_buf].
  unfold file_ok, emitted. destruct (is_dash name || creatable s name) eqn:Ec.
  2: { split; [done|]. intros [Hok _]. by destruct (is_dash name), (creatable s name). }
  apply wpe_ret, wpe_bind. unfold file_write. apply wpe_bind, wpe_get, wpe_bind, wpe_modify, wpe_ret.
  cbn [writable set_env_buf]. rewrite Hlen, Z2Nat.id by lia.
  destruct (Z.eqb_spec (writable s name `min` n) n) as [Em|Em]; cbn [negb].
  2: { split; [done|]. lia. }
  rewrite Em, take_ge by lia. unfold file_close. apply wpe_bind, wpe_get.
  destruct (is_dash name); cbn; [done|]. destruct (closes s name); [done|].
  split; [done|]. intros [Hok _]. by rewrite andb_false_r in Hok.
Qed.

(** The block before the loop. *)
Lemma prepare_env s : heap s = [] → env_ok s →
  wpe (match env s with None => alloc_env | Some _ => mret tt end) s
    (λ _ s1, ∃ e, s1 = set_env_buf (Some e) s ∧ length e = S (Z.to_nat (env_size s))) (λ _, False).
Proof.
  intros Hh [Hsize He]. destruct (env s) as [e|] eqn:Ee.
  - apply wpe_ret. exists e. split; [by rewrite <- Ee; destruct s|done].
  - unfold alloc_env. apply wpe_bind, wpe_get. unfold wpe. rewrite (bind_step _ _ _ _ _ (malloc_or_exit_run s Hh)).
    run_all. eexists. split; [reflexivity|]. rewrite length_replicate, wrapu_small by lia. lia.
Qed.

Lemma block_nil e size : (4 ≤ size)%nat →
  replicate size 0 ++ drop size e = replicate 4 0 ++ replicate (size - 4) 0 ++ drop size e.
Proof. intros H. rewrite app_assoc, <- replicate_add. by replace (4 + (size - 4))%nat with size by lia. Qed.

(** Every branch of [write_env]: it leaves the image of the table, or exits because the
    variables do not fit or the file does not take it. *)
Lemma write_env_spec name s : heap s = [] → table_wf (vars s) → env_ok s →
  let es := sorted_entries (table (vars s)) in
  let size := Z.to_nat (env_size s) in
  wpe (write_env name) s
    (λ _ s', fits es size ∧ (written s', stdout s') = emitted name (image (table (vars s)) size) s)
    (λ c, c = 1 ∧ ¬ (fits es size ∧ file_ok name (env_size s) s)).
Proof.
  intros Hh Hwf Hok es size. pose proof Hok as [Hsize _]. unfold write_env. apply wpe_bind, wpe_get, wpe_bind.
  eapply wpe_mono; [by apply prepare_env| |done]. intros [] s1' (e & -> & Hl). set (s1 := set_env_buf (Some e) s).
  apply wpe_bind, wpe_get, wpe_bind, wpe_ret. cbv zeta. change (env_size s1) with (env_size s). fold size.
  apply wpe_bind. unfold store at 1. rewrite length_replicate, (proj2 (Nat.leb_le _ _)) by lia. apply wpe_ret, wpe_bind.
  eapply wpe_mono; [apply (for_each_var_spec _ (λ c, c = 1 ∧ ¬ fits es size) (writing s1 e))| |].
  - intros acc n x rest s2. by apply (write_entry_ok s1 e).
  - intros acc rest s2 s3 [Hw H] Ev. split; [rewrite <- Hw; by rewrite Ev|done].
  - done.
  - split; [done|]. exists []. split; [done|]. split; [|split; [cbn; lia|done]].
    f_equal. exact (block_nil e size ltac:(unfold size; lia)).
  - intros [buf p] s2 ((Hw & l & Hall & [= -> ->] & Hp & Hfit) & _ & _). rewrite app_nil_r in Hall. subst l.
    change (vars s1) with (vars s) in *. fold es in Hp, Hfit |- *. change (env_size s1) with (env_size s) in *. fold size in Hp, Hfit.
    assert (fits es size) as Hf.
    { destruct (decide (es = [])) as [->|]; [|by apply Hfit]. unfold fits, size. cbn. lia. }
    pose proof (body_block s1 e Hl Hp) as Hb.
    eapply wpe_mono; [eapply (finish_env_spec name (env_size s)); [|lia|exact Hb]| |].
    + unfold block. rewrite !length_app, !length_replicate, length_drop, Hl. cbn -[Nat.sub]. fold size. lia.
    + intros [] s3 H. split; [done|]. rewrite H. unfold emitted.
      destruct (world_outside _ _ Hw) as [[= _ _ _ _ _ _ _ -> ->] _]. done.
    + intros c [-> Hn]. split; [done|]. intros [_ Hfo]. apply Hn. revert Hfo. unfold file_ok.
      by destruct (world_outside _ _ Hw) as [[= _ _ _ _ -> -> -> _ _] _].
  - intros c [-> Hn]. split; [done|]. by intros [? _].
Qed.
(** ** Reading *)

Lemma until0_shorter l : last l = Some 0 → (length (until0 l) < length l)%nat.
Proof.
  induction l as [|c l IH]; [done|]. cbn [until0]. destruct (Z.eqb_spec c 0) as [|Hc]; [cbn; lia|].
  destruct l as [|d l]; [cbn; congruence|]. rewrite last_cons_cons. intros H. specialize (IH H). cbn [length] in *. lia.
Qed.

Lemma last_drop n (l : list Z) : (n < length l)%nat → last (drop n l) = last l.
Proof.
  intros H. rewrite <- (take_drop n l) at 2. rewrite last_app.
  destruct (last (drop n l)) eqn:E0; [done|]. apply last_None in E0.
  apply (f_equal length) in E0. rewrite length_drop in E0. cbn in E0. lia.
Qed.

(** What parsing an environment does not change. *)
Definition parsed (s s' : envedit) : Prop :=
  heap s' = heap s ∧ table_wf (vars s') ∧ outside s' = outside s ∧
  (p_state s', p_var s', p_value s') = (p_state s, p_var s, p_value s) ∧
  (stdin s', stdin_eof s') = (stdin s, stdin_eof s) ∧ (length <$> env s') = (length <$> env s).

Lemma parsed_refl s : table_wf (vars s) → parsed s s.
Proof. by intros. Qed.
Lemma parsed_trans s1 s2 s3 : parsed s1 s2 → parsed s2 s3 → parsed s1 s3.
Proof.
  intros (H1 & _ & H2 & H3 & H4 & H5) (J1 & J & J2 & J3 & J4 & J5). split_and!; [congruence|done|congruence..].
Qed.

(** Storing an entry that was found. *)
Lemma set_found p name value s : heap s = [] → table_wf (vars s) →
  wpe (modify (λ s, set_env_buf (<[p := 0]> <$> env s) s);; set_var name value) s
    (λ _ s', parsed s s' ∧ table (vars s') = <[name := value]> (table (vars s))) (λ _, False).
Proof.
  intros Hh Hwf. apply wpe_bind, wpe_modify. set (s1 := set_env_buf _ s).
  eapply wpe_mono; [apply (set_var_spec name value s1 Hwf)| |by intros c [_ H]].
  intros [] s' (Ho & Hwf' & Ht). split; [|done]. destruct Ho as (h & c & v & -> & Hh').
  assert (h = []) as -> by by apply Hh'. split_and!; [by rewrite Hh|done..|].
  unfold s1. cbn. destruct (env s); cbn; [|done]. by rewrite length_insert.
Qed.

Lemma parse_entries_safe fuel p l s : heap s = [] → table_wf (vars s) → last l = Some 0 → (length l < fuel)%nat →
  wpe (parse_entries fuel p l) s (λ _ s', parsed s s') (λ _, False).
Proof.
  revert p l s; induction fuel as [|f IH]; intros p l s Hh Hwf Hl Hf; [lia|]. cbn [parse_entries].
  pose proof (until0_shorter l Hl) as Hu. set (entry := until0 l) in *.
  rewrite (proj2 (Nat.leb_le _ _)) by lia. apply wpe_bind, wpe_ret.
  destruct (length l =? 1)%nat; [by apply wpe_ret|]. destruct (length entry =? 0)%nat; [by apply wpe_ret|].
  destruct (Nat.eqb_spec (length entry + 1) (length l)) as [|Hne]; [by apply wpe_ret|].
  set (rest := parse_entries f _ _).
  assert (∀ s', parsed s s' → wpe rest s' (λ _ s', parsed s s') (λ _, False)) as Hrest.
  { intros s' Hp. pose proof Hp as (Hh' & Hwf' & _). eapply wpe_conseq; [apply IH; [by rewrite Hh'|done| |]|].
    - rewrite last_drop by lia. done.
    - rewrite length_drop. lia.
    - intros [] s2. by apply parsed_trans. }
  destruct (strchr entry (ch "=")) as [[|e value]|]; [by apply Hrest| |by apply Hrest].
  destruct (length value =? 0)%nat; [by apply Hrest|]. apply wpe_assoc, wpe_bind.
  eapply wpe_conseq; [by apply set_found|]. intros [] s' [Hp _]. by apply Hrest.
Qed.

(** A file is read whole; only the standard input changes by it. *)
Lemma read_all_spec name s : wpe (read_all name) s
  (λ bytes s', s' = s ∨ is_dash name = true ∧ s' = set_stdin [] true s) (λ c, c = 1).
Proof.
  unfold read_all. apply wpe_bind, wpe_get. destruct (is_dash name).
  - apply wpe_bind, wpe_modify, wpe_ret. by right.
  - destruct (files s name); [by apply wpe_ret; left|done].
Qed.

Lemma length_filled bytes size : length (filled bytes size) = S size.
Proof. unfold filled. rewrite !length_app, length_take, length_replicate. cbn. lia. Qed.

Lemma alloc_env_run s : heap s = [] →
  alloc_env s = Ret tt (set_env_buf (Some (replicate (Z.to_nat (u32 (env_size s + 1))) 0)) s).
Proof. intros Hh. unfold alloc_env. run. by rewrite (bind_step _ _ _ _ _ (malloc_or_exit_run s Hh)). Qed.

(** Whatever is in the file that is given as an environment, of whatever length: reading
    and parsing it stays inside the block that was allocated, and ends with a
    well-formed table or the exit code 1. *)
Theorem read_any_file name warn s : heap s = [] → table_wf (vars s) → 0 ≤ env_size s < 2 ^ 32 - 1 →
  wpe (read_env name warn;; parse_env) s
    (λ _ s', table_wf (vars s') ∧ 6 ≤ env_size s ∧ length <$> env s' = Some (S (Z.to_nat (env_size s))))
    (λ c, c = 1).
Proof.
  intros Hh Hwf Hn. apply wpe_bind. unfold read_env.
  apply (wpe_run _ _ _ _ _ _ _ (alloc_env_run s Hh)), wpe_bind, wpe_get.
  set (s1 := set_env_buf _ s). change (env_size s1) with (env_size s).
  rewrite wrapu_small, (proj2 (Z.ltb_lt _ _)) by lia. apply wpe_bind, wpe_ret, wpe_bind. change (heap s1 = []) in Hh.
  eapply wpe_conseq; [apply read_all_spec|]. intros bytes s2 Hs2.
  assert (heap s2 = [] ∧ table_wf (vars s2) ∧ env_size s2 = env_size s) as (Hh2 & Hwf2 & He2) by by destruct Hs2 as [->|[_ ->]].
  cbv zeta. set (size := Z.to_nat (env_size s)).
  destruct (Nat.ltb_spec (length (take size bytes)) 6) as [|H6]; [done|].
  assert (6 ≤ env_size s) by (rewrite length_take in H6; unfold size in H6; lia).
  apply wpe_bind, wpe_modify, wpe_bind. unfold crc_env. rewrite (proj2 (Z.leb_le _ _)) by lia.
  apply wpe_bind, wpe_ret, wpe_ret.
  destruct (_ && _); [done|]. unfold file_close. apply wpe_bind, wpe_get.
  destruct (_ || _); [apply wpe_ret|done].
  set (s3 := set_env_buf _ s2). unfold parse_env. apply wpe_bind, wpe_get, wpe_bind, wpe_ret. change (env_size s3) with (env_size s2).
  rewrite He2, (proj2 (Z.leb_le _ _)) by lia. apply wpe_bind, wpe_ret.
  pose proof (length_filled bytes size) as Hl.
  eapply wpe_mono; [apply (parse_entries_safe _ _ _ s3 Hh2 Hwf2)| |done].
  - rewrite last_drop by lia. unfold filled. by rewrite app_assoc, last_snoc.
  - rewrite length_drop. lia.
  - intros [] s4 (_ & Hwf4 & _ & _ & _ & He4). split; [done|]. split; [done|]. rewrite He4. cbn. by rewrite Hl.
Qed.

(** ** What is written can be read *)

(** An entry that is found again: the name has no equal sign, and the value is not empty. *)
Definition entry_ok (e : list Z * list Z) : Prop :=
  no_nul (fst e) ∧ (ch "=" ∉ fst e) ∧ no_nul (snd e) ∧ snd e ≠ [].

Definition readable (m : gmap (list Z) (list Z)) : Prop := Forall entry_ok (sorted_entries m).

Definition sets (es : list (list Z * list Z)) : list edit := (λ e, Set_var (fst e) (snd e)) <$> es.

Lemma until0_app_nul x r : no_nul x → until0 (x ++ 0 :: r) = x.
Proof. induction 1 as [|c x Hc _ IH]; cbn; [done|]. rewrite (proj2 (Z.eqb_neq c 0)) by done. by rewrite IH. Qed.

Lemma strchr_app n x c : c ∉ n → strchr (n ++ c :: x) c = Some (c :: x) ∧ before (n ++ c :: x) c = n.
Proof.
  induction n as [|d n IH]; cbn; intros Hc; [by rewrite Z.eqb_refl|]. apply not_elem_of_cons in Hc as [Hd Hc].
  rewrite (proj2 (Z.eqb_neq d c)) by done. destruct (IH Hc) as [-> ->]. done.
Qed.

Lemma parse_payload es k fuel p s : heap s = [] → table_wf (vars s) → Forall entry_ok es →
  (length (payload es ++ replicate k 0%Z ++ [0%Z]) < fuel)%nat →
  wpe (parse_entries fuel p (payload es ++ replicate k 0 ++ [0])) s
    (λ _ s', parsed s s' ∧ table (vars s') = foldl apply_edit (table (vars s)) (sets es)) (λ _, False).
Proof.
  intros Hh Hwf Hes. revert fuel p s Hh Hwf. induction Hes as [|[n x] es (Hn & He & Hx & Hne) _ IH]; intros fuel p s Hh Hwf Hf.
  { destruct fuel as [|f]; [lia|]. cbn [payload parse_entries app concat fmap list_fmap].
    rewrite (proj2 (Nat.leb_le _ _)) by (rewrite length_app; cbn; lia). apply wpe_bind, wpe_ret.
    destruct k as [|k]; [by apply wpe_ret|]. cbn [replicate app until0 length Z.eqb Nat.eqb].
    destruct (_ =? 0)%nat; by apply wpe_ret. }
  rewrite payload_cons in *. cbn [fst snd] in *. unfold entry_bytes in *. set (r := payload es ++ replicate k 0 ++ [0]) in *.
  assert (((n ++ [ch "="] ++ x ++ [0]) ++ payload es) ++ replicate k 0 ++ [0] = (n ++ ch "=" :: x) ++ 0 :: r) as El.
  { unfold r. by rewrite <- !app_assoc. }
  rewrite El in *. destruct fuel as [|f]; [lia|]. cbn [parse_entries].
  assert (no_nul (n ++ ch "=" :: x)) as Hnn by (apply Forall_app; split; [done|]; by constructor).
  rewrite until0_app_nul by done. destruct (strchr_app n x (ch "=") He) as [-> ->].
  rewrite (proj2 (Nat.leb_le _ _)) by (rewrite length_app; cbn; lia). apply wpe_bind, wpe_ret.
  assert (0 < length r)%nat by (unfold r; rewrite !length_app; cbn; lia).
  rewrite !(proj2 (Nat.eqb_neq _ _)) by (rewrite ?length_app; cbn; destruct x; cbn in *; [done|lia]).
  apply wpe_assoc, wpe_bind. eapply wpe_conseq; [by apply set_found|]. intros [] s' [Hp Ht].
  pose proof Hp as (Hh' & Hwf' & _). replace (S (length (n ++ ch "=" :: x))) with (length (n ++ ch "=" :: x) + 1)%nat by lia.
  rewrite <- drop_drop, drop_app_length. change (drop 1 (0 :: r)) with r.
  eapply wpe_conseq; [apply IH; [by rewrite Hh'|done|]|].
  - rewrite length_app in Hf. cbn in Hf. lia.
  - intros [] s2 [Hp2 Ht2]. split; [by eapply parsed_trans|]. by rewrite Ht2, Ht.
Qed.

Lemma foldl_sets es : NoDup es.*1 → foldl apply_edit ∅ (sets es) = list_to_map es.
Proof.
  intros Hnd. transitivity (list_to_map (reverse es) : gmap (list Z) (list Z)).
  - clear Hnd. induction es as [|[n x] es IH] using rev_ind; [done|]. unfold sets. rewrite fmap_app, foldl_app, reverse_snoc.
    cbn. fold (sets es). by rewrite IH.
  - apply table_Permutation; [by rewrite fmap_reverse, reverse_Permutation|apply reverse_Permutation].
Qed.

Lemma sorted_entries_map m : NoDup (sorted_entries m).*1 ∧ list_to_map (sorted_entries m) = m.
Proof.
  pose proof (merge_sort_Permutation key_le (map_to_list m)) as Hp. fold (sorted_entries m) in Hp.
  assert (NoDup (sorted_entries m).*1) as Hnd by (rewrite Hp; apply NoDup_fst_map_to_list).
  split; [done|]. rewrite (table_Permutation _ _ Hnd Hp). apply list_to_map_to_list.
Qed.

Lemma orig_crc_le32 c l : 0 ≤ c < 2 ^ 32 → orig_crc (le32 c ++ l) = c.
Proof.
  intros Hc. unfold orig_crc, le32. cbn [app]. unfold wrapu. change (2 ^ 8) with 256. rewrite !Zmod_mod.
  pose proof (le32_value c) as H. rewrite (Z.mod_small c (2 ^ 32)) in H by lia. lia.
Qed.

(** Reading a file that holds the image of a table. *)
Lemma read_image name warn m s : heap s = [] → vars s = [] → env_size s < 2 ^ 32 - 1 → 6 ≤ env_size s →
  readable m → fits (sorted_entries m) (Z.to_nat (env_size s)) →
  files s name = Some (image m (Z.to_nat (env_size s))) → is_dash name = false → closes s name = true →
  wpe (read_env name warn;; parse_env) s
    (λ _ s', parsed (set_env_buf (Some (replicate (S (Z.to_nat (env_size s))) 0)) s) s' ∧ table (vars s') = m) (λ _, False).
Proof.
  intros Hh Hv Hn1 Hn2 Hm Hfit Hf Hd Hc. set (size := Z.to_nat (env_size s)) in *. unfold fits in Hfit.
  assert (length (image m size) = size) as Hl.
  { unfold image. rewrite length_app, length_body by lia. cbn. lia. }
  apply wpe_bind. unfold read_env.
  apply (wpe_run _ _ _ _ _ _ _ (alloc_env_run s Hh)), wpe_bind, wpe_get. set (s1 := set_env_buf _ s).
  change (env_size s1) with (env_size s). rewrite wrapu_small, (proj2 (Z.ltb_lt _ _)) by lia.
  apply wpe_bind, wpe_ret, (wpe_run _ _ _ (image m size) s1); [unfold read_all; run; rewrite Hd; cbn; by rewrite Hf|].
  cbv zeta. fold size. rewrite take_ge by lia. rewrite Hl, (proj2 (Nat.ltb_ge _ _)) by (unfold size; lia).
  assert (filled (image m size) size = image m size ++ [0]) as Ef.
  { unfold filled. rewrite take_ge, Hl, Nat.sub_diag by lia. done. }
  rewrite Ef. apply wpe_bind, wpe_modify, wpe_bind. unfold crc_env. rewrite (proj2 (Z.leb_le _ _)) by lia.
  apply wpe_bind, wpe_ret, wpe_ret.
  assert (take (Z.to_nat (env_size s - 4)) (drop 4 (image m size ++ [0])) = body (sorted_entries m) size) as ->.
  { unfold image. rewrite <- app_assoc. change (drop 4 (le32 ?c ++ ?l)) with l. apply take_app_length'.
    rewrite length_body by lia. unfold size. lia. }
  assert (orig_crc (image m size ++ [0]) = u32 (crc32 (body (sorted_entries m) size))) as ->.
  { unfold image. rewrite <- app_assoc. apply orig_crc_le32. by apply (wrapu_range 32). }
  rewrite Z.eqb_refl. cbn [negb andb]. unfold file_close. apply wpe_bind, wpe_get.
  change (closes _ name) with (closes s name). rewrite Hd, Hc. apply wpe_ret. set (s3 := set_env_buf _ s1).
  assert (length <$> env s3 = Some (S size)) as L3 by (unfold s3; cbn [env set_env_buf fmap option_fmap option_map]; rewrite length_app, Hl; f_equal; cbn; lia). unfold parse_env. apply wpe_bind, wpe_get, wpe_bind, wpe_ret.
  change (env_size s3) with (env_size s). rewrite (proj2 (Z.leb_le _ _)) by lia. apply wpe_bind, wpe_ret.
  unfold image. rewrite <- app_assoc. change (drop 4 (le32 ?c ++ ?l)) with l. unfold body. rewrite <- app_assoc.
  destruct (sorted_entries_map m) as [Hnd Hmap]. assert (table_wf (vars s3)) as Hwf3 by (cbn; rewrite Hv; by split; constructor).
  eapply wpe_conseq; [apply (parse_payload _ _ _ _ s3 Hh Hwf3 Hm)|].
  - rewrite !length_app, length_replicate. cbn. lia.
  - intros [] s4 [(P1 & P2 & P3 & P4 & P5 & P6) Ht]. split.
    + split_and!; [done..|]. rewrite P6, L3. cbn. by rewrite length_replicate.
    + rewrite Ht. change (vars s3) with (vars s). rewrite Hv. change (table []) with (∅ : gmap (list Z) (list Z)).
      by rewrite foldl_sets.
Qed.

(** [C7] What is written can be read: from the file that [write_env] leaves, another run gets
    the same variables, whatever they are, when their names have no equal sign and
    their values are not empty. *)
Theorem write_then_read name s : heap s = [] → table_wf (vars s) → env_ok s → 6 ≤ env_size s →
  readable (table (vars s)) →
  wpe (write_env name) s
    (λ _ s', ∃ bytes, (written s', stdout s') = emitted name bytes s ∧ length bytes = Z.to_nat (env_size s) ∧
      ∀ file warn t, heap t = [] → vars t = [] → env_size t = env_size s → files t file = Some bytes →
        is_dash file = false → closes t file = true →
        wpe (read_env file warn;; parse_env) t (λ _ t', table (vars t') = table (vars s)) (λ _, False))
    (λ c, c = 1 ∧ ¬ (fits (sorted_entries (table (vars s))) (Z.to_nat (env_size s)) ∧ file_ok name (env_size s) s)).
Proof.
  intros Hh Hwf Hok H6 Hr. eapply wpe_conseq; [by apply write_env_spec|]. intros [] s' [Hf Hw]. unfold fits in Hf.
  eexists. split; [exact Hw|]. split.
  { unfold image. rewrite length_app, length_body by lia. cbn. lia. }
  intros file warn t Hht Hvt Het Hft Hd Hc. destruct Hok as [Hn _]. rewrite <- Het in *.
  eapply wpe_conseq; [eapply (read_image file warn _ t); eauto; lia|]. by intros [] t' [_ ?].
Qed.

(** ** What is printed can be used as a file of changes *)

Definition ident (n : list Z) : bool :=
  match n with c :: r => alpha c && forallb alnum r | [] => false end.

(** A variable that survives the syntax of the file of changes. *)
Definition clean (e : list Z * list Z) : Prop :=
  ident (fst e) = true ∧ strip (snd e) = snd e ∧ snd e ≠ [] ∧ no_nul (snd e) ∧ Forall plain (snd e).

Definition print_text (es : list (list Z * list Z)) : list Z := concat ((λ e, print_line (fst e) (snd e)) <$> es).

Lemma alnum_plain c : alnum c = true → plain c ∧ isspace c = false ∧ c ≠ ch "=" ∧ c ≠ 0.
Proof.
  unfold alnum, alpha, isdigit, plain, isspace. change (ch "_") with 95. change (ch "A") with 65. change (ch "Z") with 90.
  change (ch "a") with 97. change (ch "z") with 122. change (ch "#") with 35. change (ch "=") with 61. unfold LF.
  destruct ((48 <=? c) && (c <=? 57)) eqn:E0; lia.
Qed.

Lemma alpha_alnum c : alpha c = true → alnum c = true.
Proof. unfold alnum. intros ->. by destruct (isdigit c). Qed.

Lemma ident_alnum n : ident n = true → Forall (λ c, alnum c = true) n.
Proof.
  destruct n as [|c r]; [done|]. cbn. intros [Hc Hr]%andb_true_iff. constructor; [by apply alpha_alnum|].
  by apply forallb_True, Is_true_true in Hr || (apply Forall_forall; intros d Hd; by eapply forallb_forall in Hr; [|by apply list_elem_of_In]).
Qed.

Lemma text_lines_line w t : Forall plain w → text_lines (w ++ LF :: t) = (w, false) :: text_lines t.
Proof.
  induction 1 as [|c w [Hc Hh] _ IH]; cbn [app text_lines].
  - by destruct (first_line t) as (w & x & k & r & _ & _ & _ & ->).
  - rewrite IH. by rewrite (proj2 (Z.eqb_neq c LF)), (proj2 (Z.eqb_neq c (ch "#"))).
Qed.

Lemma in_name_ident n r x : Forall (λ c, alnum c = true) r →
  in_name n (r ++ ch "=" :: x) = Some (P_value (n ++ r) (join None x)).
Proof.
  intros Hr. revert n; induction Hr as [|c r Hc _ IH]; intros n; cbn [app in_name]; [by rewrite app_nil_r|].
  destruct (alnum_plain c Hc) as (_ & -> & Hne & _). rewrite (proj2 (Z.eqb_neq _ _)), Hc, IH by done.
  by rewrite <- app_assoc.
Qed.

Lemma start_clean n x : ident n = true → strip x = x → x ≠ [] → start (n ++ ch "=" :: x) = Some (P_value n (Some x)).
Proof.
  intros Hi Hs Hx. pose proof (ident_alnum n Hi) as Ha. destruct n as [|c r]; [done|]. cbn in Hi |- *.
  apply andb_true_iff in Hi as [-> _]. apply Forall_cons in Ha as [_ Ha]. rewrite in_name_ident by done.
  unfold join. by rewrite Hs, bool_decide_eq_false_2.
Qed.

Lemma print_line_text n x : print_line n x = (n ++ ch "=" :: x) ++ [LF].
Proof. unfold print_line. by rewrite <- app_assoc. Qed.

(** What is made of a pending entry when another begins. *)
Definition due (o : option (list Z * list Z)) : pending :=
  match o with None => P_none | Some (n, x) => P_value n (Some x) end.

Lemma edits_from_clean es o : Forall clean es →
  edits_from (due o) (text_lines (print_text es)) = Some (sets (option_list o ++ es)).
Proof.
  intros Hes. revert o; induction Hes as [|[n' x'] es (Hi & Hs & Hx & _ & Hp) _ IH]; intros o; [by destruct o as [[]|]|].
  cbn [fst snd] in *. unfold print_text. cbn [fmap list_fmap concat fst snd]. fold (print_text es).
  rewrite print_line_text, <- app_assoc. change ([LF] ++ ?l) with (LF :: l).
  pose proof (ident_alnum n' Hi) as Ha. rewrite text_lines_line.
  2: { apply Forall_app. split; [eapply Forall_impl; [exact Ha|]; by intros c (? & _)%alnum_plain|]. by constructor. }
  assert (text_step (due o) (n' ++ ch "=" :: x') = Some (sets (option_list o), due (Some (n', x')))) as Hstep.
  { unfold text_step. assert (match n' ++ ch "=" :: x' with c :: _ => isspace c | [] => true end = false) as ->.
    { destruct n' as [|c r]; [done|]. cbn. by apply Forall_cons in Ha as [(_ & ? & _)%alnum_plain _]. }
    destruct o as [[n x]|]; cbn [due]; by rewrite start_clean. }
  assert (∀ k, line_step (due o) (n' ++ ch "=" :: x', k) = text_step (due o) (n' ++ ch "=" :: x')) as Hline by by destruct n'.
  cbn [edits_from]. rewrite Hline, Hstep. cbn [mbind option_bind]. rewrite (IH (Some (n', x'))). cbn.
  by destruct o as [[]|].
Qed.

Lemma edits_of_print es : Forall clean es → edits_of (print_text es) = Some (sets es).
Proof. apply (edits_from_clean es None). Qed.

Lemma no_nul_print es : Forall clean es → no_nul (print_text es).
Proof.
  induction 1 as [|[n x] es (Hi & _ & _ & Hx & _) _ IH]; [constructor|]. unfold print_text. cbn [fmap list_fmap concat fst snd] in *.
  fold (print_text es). apply Forall_app. split; [|done]. rewrite print_line_text. repeat (apply Forall_app; split); [| |by constructor].
  - eapply Forall_impl; [by apply ident_alnum|]. by intros c (_ & _ & _ & ?)%alnum_plain.
  - by constructor.
Qed.

(** Printing on the standard output, which may refuse a line. *)
Lemma print_env_spec s : table_wf (vars s) →
  let text := print_text (sorted_entries (table (vars s))) in
  wpe (print_env (b "-")) s (λ _ s', stdout s' = stdout s ++ text)
    (λ c, c = 1 ∧ writable s (b "-") < Z.of_nat (length text)).
Proof.
  intros Hwf text. set (es := sorted_entries (table (vars s))) in *. unfold print_env. apply wpe_bind. unfold file_create.
  apply wpe_bind, wpe_get. change (is_dash (b "-")) with true. cbn [orb]. apply wpe_ret, wpe_bind.
  eapply wpe_conseq; [apply (for_each_var_spec _ (λ c, c = 1 ∧ writable s (b "-") < Z.of_nat (length text))
    (λ _ rest s1, writable s1 = writable s ∧ ∃ l, es = l ++ rest ∧ stdout s1 = stdout s ++ print_text l))|..].
  - intros [] n x rest s1 (Hw & l & He & Ho). apply wpe_bind. unfold file_write. apply wpe_bind, wpe_get, wpe_bind, wpe_modify, wpe_ret.
    assert (text = print_text l ++ print_line n x ++ print_text rest) as Et.
    { unfold text, print_text. rewrite He, fmap_app, concat_app. done. }
    rewrite Hw. set (line := print_line n x) in *.
    destruct (Z.ltb_spec (writable s (b "-") `min` Z.of_nat (length line)) (Z.of_nat (length line))).
    + split; [done|]. rewrite Et, !length_app. lia.
    + apply wpe_ret. split; [|done]. split; [done|]. exists (l ++ [(n, x)]). split; [by rewrite <- app_assoc|]. cbn.
      rewrite take_ge by lia. rewrite Ho. unfold print_text. rewrite fmap_app, concat_app. cbn. by rewrite app_nil_r, <- app_assoc.
  - intros [] rest s1 s2 (Hw & l & He & Ho) E2. rewrite E2. split; [done|]. exists l. done.
  - done.
  - split; [done|]. exists []. split; [done|]. cbn. by rewrite app_nil_r.
  - intros [] s1 ((Hw & l & He & Ho) & _). rewrite app_nil_r in He. unfold file_close. apply wpe_bind, wpe_get.
    change (is_dash (b "-")) with true. apply wpe_ret. by rewrite Ho, <- He.
Qed.

(** What [edit_env] has to parse: the output of the preprocessor, the standard input, or
    a file. *)
Definition given (name : list Z) (cpp : bool) (text : list Z) (t : envedit) : Prop :=
  if cpp then
    stdin_eof t = false ∧
    run_command (cpp_command t) ((match cpp_argv t with [] => [cpp_command t] | argv => argv end) ++ [name]) =
      Some (text, Exit_status 0)
  else if is_dash name then stdin_eof t = false ∧ stdin t = text
  else files t name = Some text ∧ closes t name = true.

(** The changes of a text leave a table, whatever the state outside. *)
Lemma parse_edit_table text es t : heap t = [] → table_wf (vars t) → rel P_none t → no_nul text →
  edits_of text = Some es →
  ∃ t', parse_edit text t = Ret tt t' ∧ closes t' = closes t ∧
    table_wf (vars t') ∧ table (vars t') = foldl apply_edit (table (vars t)) es.
Proof.
  intros Hh Hwf Hr Hn He. pose proof (parse_edit_edits text t Hh Hwf Hn Hr) as H. rewrite He in H.
  destruct H as (t' & H & _ & Hwf' & Ht & Hw). exists t'. unfold world in Hw. split_and!; [done|congruence|done|done].
Qed.

Lemma run_cpp_run name text t : heap t = [] →
  run_command (cpp_command t) ((match cpp_argv t with [] => [cpp_command t] | argv => argv end) ++ [name]) =
    Some (text, Exit_status 0) →
  ∃ t', run_cpp_on_file name t = Ret (Exit_status 0) t' ∧ stdin t' = text ∧ stdin_eof t' = stdin_eof t ∧
    heap t' = [] ∧ vars t' = vars t ∧ (rel P_none t → rel P_none t').
Proof.
  intros Hh E. unfold run_cpp_on_file, add_cpp_arg, add_cpp_NULL.
  rewrite !bind_assoc, (bind_step _ _ _ _ _ (malloc_or_exit_run t Hh)). run.
  set (t1 := if (length (cpp_argv t) =? 0)%nat then _ else t).
  assert (heap t1 = [] ∧ cpp_command t1 = cpp_command t ∧ stdin_eof t1 = stdin_eof t ∧ vars t1 = vars t ∧
    (rel P_none t → rel P_none t1) ∧
    cpp_argv t1 = match cpp_argv t with [] => [cpp_command t] | argv => argv end) as (Hh1 & Hc & He & Hv & Hr & Ha).
  { unfold t1. by destruct (cpp_argv t) eqn:Ea. }
  rewrite (bind_step _ _ _ _ _ (malloc_or_exit_run t1 Hh1)). run.
  rewrite (bind_step _ _ _ _ _ (malloc_or_exit_run (set_cpp (cpp_command t1) (cpp_argv t1 ++ [name]) t1) Hh1)). run.
  cbn [cpp_command cpp_argv set_cpp]. rewrite Hc, Ha, E. run. eexists. split; [reflexivity|]. done.
Qed.

Lemma edit_env_table name cpp text es t : heap t = [] → table_wf (vars t) → rel P_none t → no_nul text →
  edits_of text = Some es → given name cpp text t →
  ∃ t', edit_env name cpp t = Ret tt t' ∧ table_wf (vars t') ∧
    table (vars t') = foldl apply_edit (table (vars t)) es.
Proof.
  intros Hh Hwf Hr Hn He Hg. unfold edit_env. destruct cpp; cbn [negb].
  - destruct Hg as [Heof E].
    destruct (run_cpp_run name text t Hh E) as (t1 & E1 & Hin & Heof1 & Hh1 & Hv1 & Hr1).
    rewrite (bind_step _ _ _ _ _ E1). unfold read_all. run. change (is_dash (b "-")) with true. cbn iota. run.
    rewrite Heof1, Heof, Hin.
    destruct (parse_edit_table text es (set_stdin [] true t1)) as (t2 & E2 & _ & Hwf2 & Ht2);
      [done|by cbn; rewrite Hv1|by apply Hr1|done|done|].
    rewrite (bind_step _ _ _ _ _ E2). exists t2. split; [reflexivity|]. split; [done|]. rewrite Ht2. cbn. by rewrite Hv1.
  - unfold given in Hg. unfold read_all, file_close. destruct (is_dash name) eqn:Hd.
    + destruct Hg as [Heof <-]. run. rewrite Heof.
      destruct (parse_edit_table (stdin t) es (set_stdin [] true t)) as (t2 & E2 & _ & Hwf2 & Ht2); [done..|].
      rewrite (bind_step _ _ _ _ _ E2). exists t2. by run.
    + destruct Hg as [Hf Hc]. run. rewrite Hf. run.
      destruct (parse_edit_table text es t) as (t2 & E2 & Hc2 & Hwf2 & Ht2); [done..|].
      rewrite (bind_step _ _ _ _ _ E2). exists t2. run. by rewrite Hc2, Hc.
Qed.

(** Setting variables over those of a table. *)
Lemma foldl_sets_over es m : NoDup es.*1 → foldl apply_edit m (sets es) = list_to_map es ∪ m.
Proof.
  revert m. induction es as [|[n x] es IH]; intros m Hnd; [symmetry; apply (left_id_L ∅ (∪))|].
  cbn [fmap list_fmap] in Hnd. apply NoDup_cons in Hnd as [Hn Hnd]. cbn. fold (sets es). rewrite IH by done.
  rewrite <- insert_union_l, insert_union_r; [done|]. by apply not_elem_of_list_to_map_1.
Qed.

(** [C35] What [print_env] prints can be used as a file of changes: [edit_env], given this
    text as a file, on the standard input or as what the preprocessor makes of a file,
    succeeds, and sets the variables that were printed, to their values, over those
    that were set.  This is of variables that the syntax of such files can express: the
    name is an identifier (a letter or an underscore, then also digits), and the value
    has one line, no [#] and no NUL, no white space but blanks, which are
    inside.  When the output does not take the text the program exits with 1. *)
Theorem print_then_edit s : table_wf (vars s) → Forall clean (sorted_entries (table (vars s))) →
  wpe (print_env (b "-")) s
    (λ _ s', ∃ text, stdout s' = stdout s ++ text ∧
      ∀ name cpp t, heap t = [] → table_wf (vars t) → rel P_none t → given name cpp text t →
        ∃ t', edit_env name cpp t = Ret tt t' ∧ table (vars t') = table (vars s) ∪ table (vars t))
    (λ c, c = 1 ∧ writable s (b "-") < Z.of_nat (length (print_text (sorted_entries (table (vars s)))))).
Proof.
  intros Hwf Hc. eapply wpe_conseq; [by apply print_env_spec|]. intros [] s' Ho. eexists. split; [exact Ho|].
  intros name cpp t Hh Hwft Hr Hg.
  destruct (edit_env_table name cpp _ _ t Hh Hwft Hr (no_nul_print _ Hc) (edits_of_print _ Hc) Hg) as (t' & E & _ & Ht).
  exists t'. split; [done|]. destruct (sorted_entries_map (table (vars s))) as [Hnd Hm].
  by rewrite Ht, foldl_sets_over, Hm.
Qed.

(** ** The program from end to end *)

(** How a change is written on the command line. *)
Definition edit_arg (e : edit) : list Z :=
  match e with Set_var n x => n ++ ch "=" :: x | Del_var n => n ++ [ch "="] end.

Definition arg_ok (e : edit) : Prop :=
  match e with Set_var n x => (ch "=" ∉ n) ∧ x ≠ [] | Del_var n => ch "=" ∉ n end.

Lemma set_env_arg e s : heap s = [] → arg_ok e → set_env (edit_arg e) s = run_edit e s.
Proof.
  intros Hh He. unfold set_env. rewrite (bind_step _ _ _ _ _ (malloc_or_exit_run s Hh)). destruct e as [n x|n]; cbn [edit_arg].
  - destruct He as [Hn Hx]. destruct (strchr_app n x (ch "=") Hn) as [-> ->]. by destruct x.
  - destruct (strchr_app n [] (ch "=") He) as [-> ->]. done.
Qed.

Lemma set_envs_spec es s : heap s = [] → table_wf (vars s) → Forall arg_ok es →
  wpe (set_envs (edit_arg <$> es)) s (λ _ s', applied es s s') (λ _, False).
Proof.
  intros Hh Hwf Hes. revert s Hh Hwf; induction Hes as [|e es He _ IH]; intros s Hh Hwf; [by apply wpe_ret|].
  cbn [fmap list_fmap set_envs]. apply wpe_bind. unfold wpe at 1. rewrite (set_env_arg e s Hh He).
  pose proof (run_edit_spec e s Hwf) as H. unfold wpe in H.
  destruct (run_edit e s) as [[] s1|[]]; [|done|by destruct H as [_ H]; destruct H].
  destruct H as (Ho & Hwf1 & Ht). destruct (only_vars_world _ _ Ho) as (Hw & Hh1 & _).
  eapply wpe_conseq; [apply IH; [by apply Hh1|done]|]. intros [] s2 Ha.
  apply (applied_trans [e] es s s1 s2); [by split_and!; [apply Hh1|..]|done].
Qed.

(** The changes from a file that is not preprocessed. *)
Lemma edit_env_spec name t es s : heap s = [] → table_wf (vars s) → rel P_none s →
  is_dash name = false → files s name = Some t → closes s name = true → no_nul t → edits_of t = Some es →
  wpe (edit_env name false) s (λ _ s', applied es s s') (λ _, False).
Proof.
  intros Hh Hwf Hr Hd Hf Hc Hn He. unfold edit_env. cbn [negb].
  apply (wpe_run _ _ _ t s); [unfold read_all; run; by rewrite Hd, Hf|].
  pose proof (parse_edit_edits t s Hh Hwf Hn Hr) as H. rewrite He in H. destruct H as (s' & H & Ha).
  apply (wpe_run _ _ _ _ _ _ _ H). destruct Ha as (Hh' & Hwf' & Ht & Hw). unfold file_close. apply wpe_bind, wpe_get.
  assert (closes s' = closes s) as -> by (unfold world in Hw; congruence). rewrite Hc, orb_true_r. apply wpe_ret. done.
Qed.

Lemma applied_outside es s s' : applied es s s' → outside s' = outside s ∧ env s' = env s.
Proof. intros (_ & _ & _ & Hw). by apply world_outside. Qed.

(** A size below four, which [-s] may give, makes the checksum's length negative. *)
Lemma small_size name s : heap s = [] → vars s = [] → env s = None → 0 ≤ env_size s < 4 →
  ∃ w, write_env name s = Stop (Undefined w).
Proof.
  intros Hh Hv He Hn. unfold write_env. run. rewrite He. rewrite (bind_step _ _ _ _ _ (alloc_env_run s Hh)). run.
  cbn [env set_env_buf env_size]. run. unfold store at 1. rewrite !length_replicate, wrapu_small by lia.
  rewrite (proj2 (Nat.leb_le _ _)) by lia. run. unfold for_each_var, reset_var, next_var. run. cbn [vars set_env_buf].
  rewrite Hv. run. cbn [vars set_env_buf]. rewrite Hv. cbn [length var_loop]. unfold next_var. run. cbn [vars set_env_buf].
  rewrite Hv. run. unfold finish_env, crc_env. rewrite (proj2 (Z.leb_gt _ _)) by lia. by eexists.
Qed.

(** [C6] A run that reads an environment, makes the changes of a file and those of the command
    line, and writes the result: the file it leaves is the image of the table that the
    changes, in this order, make of the one that was read; or it exits with 1, when the
    variables do not fit any more or the file does not take them. *)
Theorem main_edits old changes new m t es args s :
  heap s = [] → vars s = [] → rel P_none s → 6 ≤ env_size s < 2 ^ 32 - 1 →
  files s old = Some (image m (Z.to_nat (env_size s))) → readable m → fits (sorted_entries m) (Z.to_nat (env_size s)) →
  is_dash old = false → closes s old = true →
  files s changes = Some t → no_nul t → edits_of t = Some es → is_dash changes = false → closes s changes = true →
  Forall arg_ok args →
  let size := Z.to_nat (env_size s) in
  let m' := foldl apply_edit m (es ++ args) in
  wpe (envedit_main [O_i old; O_n; O_f changes; O_o new] (edit_arg <$> args)) s
    (λ r s', r = 0 ∧ fits (sorted_entries m') size ∧ (written s', stdout s') = emitted new (image m' size) s)
    (λ c, c = 1 ∧ ¬ (fits (sorted_entries m') size ∧ file_ok new (env_size s) s)).
Proof.
  intros Hh Hv Hr Hn Hold Hm Hfit Hdo Hco Hch Hnul He Hdc Hcc Hargs size m'.
  unfold envedit_main. apply (wpe_run _ _ _ (Options false false (Some changes) (Some old) (Some new) false false) s); [done|].
  unfold run_options. cbn [in_file out_file env_file print cpp warn_crc default negb]. apply wpe_bind. eapply wpe_mono; [apply (read_image old false m s); try done; lia| |done].
  intros [] s1 [(Hh1 & Hwf1 & Ho1 & Hp1 & _ & He1) Ht1].
  assert (rel P_none s1) as Hr1 by (cbn in Hp1, Hr |- *; injection Hp1 as -> -> ->; exact Hr).
  pose proof Ho1 as Ho1'. unfold outside in Ho1'. cbn in Ho1'. injection Ho1' as E1 _ _ E2 _ _ E3 _ _.
  apply wpe_bind. eapply wpe_mono; [apply (edit_env_spec changes t es s1); try done| |done].
  { by rewrite Hh1. } { by rewrite E2. } { by rewrite E3. }
  intros [] s2 Ha2. pose proof Ha2 as (Hh2 & Hwf2 & _). apply wpe_bind.
  eapply wpe_mono; [by apply (set_envs_spec args s2)| |done]. intros [] s3 Ha3.
  pose proof (applied_trans _ _ _ _ _ Ha2 Ha3) as Ha. destruct (applied_outside _ _ _ Ha) as [Ho3 He3].
  destruct Ha as (Hh3 & Hwf3 & Ht3 & _). rewrite Ht1 in Ht3. fold m' in Ht3.
  rewrite Ho1 in Ho3. unfold outside in Ho3. cbn in Ho3. injection Ho3 as S1 _ _ _ S4 S5 S6 S7 S8.
  assert (env_ok s3) as Hok.
  { split; [rewrite S1; lia|]. rewrite He3, S1. destruct (env s1) as [e1|]; cbn in He1; [|done].
    injection He1 as ->. by rewrite length_replicate. }
  apply wpe_bind. eapply wpe_mono; [by apply (write_env_spec new s3)| |]; rewrite Ht3, S1.
  - intros [] s4 [Hf Hw]. apply wpe_ret. split; [done|]. split; [done|]. rewrite Hw. unfold emitted. by rewrite S7, S8.
  - intros c [-> Hnf]. split; [done|]. unfold file_ok in *. by rewrite S4, S5, S6 in Hnf.
Qed.
End program.

(** ** Examples *)

Module Examples.

(** A checksum and a preprocessor, to have some. *)
Definition sum (l : list Z) : Z := foldl Z.add 1 l.
Definition cat : preprocessor := λ _ _, None.

Definition old_table : gmap (list Z) (list Z) := list_to_map [(b "baud", b "9600"); (b "ip", b "10.0.0.1")].
Definition old_file : list Z := image sum old_table 40.
Definition change_file : list Z := b "# slower
baud = 1200
host=  a
  b
".

Definition disk (name : list Z) : option (list Z) :=
  if str_eq name (b "old") then Some old_file else if str_eq name (b "edit") then Some change_file else None.

Definition start_state : envedit := fresh 40 disk.
Definition args : list edit := [Del_var (b "ip"); Set_var (b "x") (b "y")].

Ltac solve_forall := apply (bool_decide_unpack _); vm_compute; exact I.

Lemma entry_ok_dec e : {entry_ok e} + {¬ entry_ok e}.
Proof. unfold entry_ok. destruct (decide (no_nul (fst e) ∧ (ch "=" ∉ fst e) ∧ no_nul (snd e) ∧ snd e ≠ [])); auto. Defined.
#[export] Instance entry_ok_decision e : Decision (entry_ok e) := entry_ok_dec e.

Lemma old_readable : readable old_table.
Proof. unfold readable. solve_forall. Qed.

Lemma main_edits_witness :
  wpe (envedit_main sum cat [O_i (b "old"); O_n; O_f (b "edit"); O_o (b "new")] [b "ip="; b "x=y"]) start_state
    (λ r s', r = 0 ∧ written s' = [(b "new", image sum (list_to_map [(b "baud", b "1200"); (b "host", b "a b"); (b "x", b "y")]) 40)])
    (λ _, False).
Proof.
  assert (edits_of change_file = Some [Set_var (b "baud") (b "1200"); Set_var (b "host") (b "a b")]) as He by by vm_compute.
  assert (Forall arg_ok args) as Ha.
  { repeat constructor; [apply not_elem_of_cons; split; [done|]; apply not_elem_of_cons; split; [done|]; apply not_elem_of_nil| |done].
    apply not_elem_of_cons; split; [done|]; apply not_elem_of_nil. }
  assert (disk (b "old") = Some (image sum old_table 40)) as Hold by by vm_compute.
  assert (disk (b "edit") = Some change_file) as Hch by by vm_compute.
  assert (no_nul change_file) as Hn by solve_forall.
  assert (fits (sorted_entries old_table) 40) as Hf by (apply Nat.leb_le; by vm_compute).
  assert (6 ≤ 40 < 2 ^ 32 - 1) as Hs by lia.
  assert (is_dash (b "old") = false) as Hd1 by reflexivity.
  assert (is_dash (b "edit") = false) as Hd2 by reflexivity.
  change [b "ip="; b "x=y"] with (edit_arg <$> args).
  pose proof (main_edits sum cat (b "old") (b "edit") (b "new") old_table change_file _ args start_state
    eq_refl eq_refl (conj eq_refl (conj eq_refl eq_refl)) Hs Hold old_readable Hf Hd1 eq_refl Hch Hn He Hd2 eq_refl Ha) as H.
  cbv zeta in H. eapply wpe_mono; [exact H| |]; clear H.
  - intros r s' (-> & _ & Hw). split; [done|]. change (written start_state) with (@nil (list Z * list Z)) in Hw.
    unfold emitted in Hw. assert (is_dash (b "new") = false) as Hd3 by by vm_compute. rewrite Hd3 in Hw.
    injection Hw as -> _. by vm_compute.
  - intros c [_ H]. apply H. split; [apply Nat.leb_le; by vm_compute|]. split; [by vm_compute|]. by apply Z.leb_le.
Defined.

(** A file that is no environment: the last entry does not end. *)
Definition junk : list Z := [1; 2; 3; 4; 61; 65; 0; 66; 61; 67].

Lemma read_any_file_witness :
  wpe (read_env sum (b "junk") true;; parse_env) (fresh 10 (λ _, Some junk))
    (λ _ s', table_wf (vars s') ∧ 6 ≤ 10 ∧ length <$> env s' = Some 11%nat) (λ c, c = 1).
Proof.
  exact (read_any_file sum (b "junk") true (fresh 10 (λ _, Some junk)) eq_refl
    (conj (Forall_nil_2 _) NoDup_nil_2) (conj (proj1 (Z.leb_le 0 10) eq_refl) (proj1 (Z.ltb_lt 10 (2 ^ 32 - 1)) eq_refl))).
Defined.

(** A program that holds two variables. *)
Definition with_vars : envedit :=
  set_vars [Var (Some (b "ip")) (Some (b "10.0.0.1")); Var None None; Var (Some (b "baud")) (Some (b "9600"))] (fresh 40 (λ _, None)).

Lemma with_vars_wf : table_wf (vars with_vars).
Proof. split; [repeat constructor; by intros []|]. solve_forall. Qed.

Lemma with_vars_entries : sorted_entries (table (vars with_vars)) = [(b "baud", b "9600"); (b "ip", b "10.0.0.1")].
Proof. by vm_compute. Qed.

Lemma write_then_read_witness :
  wpe (write_env sum (b "new")) with_vars (λ _ s', ∃ bytes, written s' = [(b "new", bytes)] ∧
    wpe (read_env sum (b "new") false;; parse_env) (fresh 40 (λ _, Some bytes))
      (λ _ t', table (vars t') = table (vars with_vars)) (λ _, False)) (λ _, False).
Proof.
  assert (env_ok with_vars) as Hok by (split; [cbn; lia|done]).
  assert (readable (table (vars with_vars))) as Hr by (unfold readable; rewrite with_vars_entries; solve_forall).
  assert (is_dash (b "new") = false) as Hd by reflexivity.
  eapply wpe_mono; [apply (write_then_read sum (b "new") with_vars eq_refl with_vars_wf Hok (proj1 (Z.leb_le 6 40) eq_refl) Hr)| |].
  - intros [] s' (bytes & Hw & _ & H). exists bytes. unfold emitted in Hw. rewrite Hd in Hw. injection Hw as -> _.
    split; [done|]. exact (H (b "new") false (fresh 40 (λ _, Some bytes)) eq_refl eq_refl eq_refl eq_refl Hd eq_refl).
  - intros c [_ H]. apply H. split; [apply Nat.leb_le; by vm_compute|]. split; [done|]. by apply Z.leb_le.
Defined.

(** Another program, which holds a variable, with the text in its file. *)
Definition reader (text : list Z) : envedit :=
  set_vars [Var (Some (b "host")) (Some (b "a")); Var (Some (b "ip")) (Some (b "::1"))] (fresh 64 (λ _, Some text)).

Lemma print_then_edit_witness :
  wpe (print_env (b "-")) with_vars (λ _ s', ∃ text, stdout s' = text ∧
    ∃ t', edit_env cat (b "changes") false (reader text) = Ret tt t' ∧
      table (vars t') =
        list_to_map [(b "baud", b "9600"); (b "host", b "a"); (b "ip", b "10.0.0.1")]) (λ _, False).
Proof.
  assert (Forall clean (sorted_entries (table (vars with_vars)))) as Hc.
  { rewrite with_vars_entries. repeat constructor; by vm_compute. }
  eapply wpe_mono; [apply (print_then_edit cat with_vars with_vars_wf Hc)| |].
  - intros [] s' (text & Ho & H). exists text. split; [done|].
    assert (table_wf (vars (reader text))) as Hwf.
    { split; [repeat constructor; by intros []|]. cbn. solve_forall. }
    destruct (H (b "changes") false (reader text) eq_refl Hwf (conj eq_refl (conj eq_refl eq_refl))
      (conj eq_refl eq_refl)) as (t' & E & Ht).
    exists t'. split; [exact E|]. rewrite Ht. by vm_compute.
  - intros c [_ H]. rewrite with_vars_entries in H. by apply Z.ltb_lt in H.
Defined.
End Examples.
