(* ===== verification/FpdTsort.v ===== *)
(** * fped: topological sorting (eda/fped/tsort.c)

    fped, the editor of footprints, sorts the nodes of a partial order: of the nodes
    without a predecessor it takes the one of the highest priority, the edges of the
    nodes taken before give priority to their targets, and the first in the list goes
    first among equals. *)

From S2P Require Import Prelude.

Section tsort.
Context {A : Type} `{!EqDecision A}.
Implicit Types (a b : A).

(** ** State *)

(** A pointer to a node is its [n_ref], which is never used again; [user] pointers are
    compared by [A]'s equality. *)
Record edge : Type := Edge { e_to : Z; e_priority : Z }.
Record node : Type := Node {
  n_ref : Z;
  n_user : A;
  n_edges : list edge;
  n_incoming : Z;
  n_priority : Z;
  n_decay : Z }.
Record tsort : Type := Tsort { ts_nodes : list node; ts_count : Z; ts_fresh : Z }.

Definition set_edges es n := Node (n_ref n) (n_user n) es (n_incoming n) (n_priority n) (n_decay n).
Definition set_counts i p n := Node (n_ref n) (n_user n) (n_edges n) i p (n_decay n).
Definition set_nodes ns s := Tsort ns (ts_count s) (ts_fresh s).

Abbreviation T := (M tsort).

(** [int] addition: signed overflow is undefined. *)
Definition int_add (x y : Z) : T Z :=
  if (- 2 ^ 31 <=? x + y) && (x + y <? 2 ^ 31) then mret (x + y) else undefined "signed overflow".

Definition find_ref (r : Z) (ns : list node) : option node := find (λ n, n_ref n =? r) ns.
Definition on_node (r : Z) (f : node → node) (ns : list node) : list node :=
  (λ n, if n_ref n =? r then f n else n) <$> ns.

(** ** Building the order *)

(** The loop of [add_edge]: the edges after it, and whether there was one already. *)
Fixpoint bump (to priority : Z) (es : list edge) : T (list edge * bool) :=
  match es with
  | [] => mret ([Edge to priority], false)
  | e :: es' =>
      if e_to e =? to then p ← int_add (e_priority e) priority; mret (Edge to p :: es', true)
      else r ← bump to priority es'; mret (e :: fst r, snd r)
  end.

Definition add_edge (from to priority : Z) : T unit :=
  s ← get;
  n ← deref (find_ref from (ts_nodes s)) "from";
  r ← bump to priority (n_edges n);
  modify (λ s, set_nodes (on_node from (set_edges (fst r)) (ts_nodes s)) s);;
  if snd r : bool then mret tt
  else
    s ← get;
    _ ← deref (find_ref to (ts_nodes s)) "to";
    modify (λ s, set_nodes (on_node to (λ t, set_counts (n_incoming t + 1) (n_priority t) t) (ts_nodes s)) s).

Definition add_node (user : A) (decay : Z) : T Z :=
  s ← get;
  match find (λ n, bool_decide (n_user n = user)) (ts_nodes s) with
  | Some n => mret (n_ref n)
  | None =>
      modify (λ s, Tsort (ts_nodes s ++ [Node (ts_fresh s) user [] 0 0 decay]) (ts_count s + 1) (ts_fresh s + 1));;
      mret (ts_fresh s)
  end.

Definition begin_tsort : tsort := Tsort [] 0 0.

(** ** Sorting *)

(** The scan for the node to take next. *)
Definition better (first : option node) (n : node) : option node :=
  if negb (n_incoming n =? 0) then first
  else match first with
       | None => Some n
       | Some f => if n_priority f <? n_priority n then Some n else first
       end.
Definition scan (ns : list node) : option node := foldl better None ns.

Definition unlink (r : Z) (ns : list node) : list node := filter (λ n, n_ref n ≠ r) ns.

(** The edges of the node that is taken are given up one after the other. *)
Fixpoint issue (es : list edge) : T unit :=
  match es with
  | [] => mret tt
  | e :: es' =>
      s ← get;
      t ← deref (find_ref (e_to e) (ts_nodes s)) "edge->to";
      p ← int_add (n_priority t) (e_priority e);
      modify (λ s, set_nodes (on_node (e_to e) (set_counts (n_incoming t - 1) p) (ts_nodes s)) s);;
      issue es'
  end.

Definition decay_all (ns : list node) : list node := (λ n, set_counts (n_incoming n) 0 n) <$> ns.

(** The [while] loop; [res] has room for one pointer more than there were nodes. *)
Fixpoint rounds (fuel : nat) (res : list A) : T (list A) :=
  match fuel with
  | O => undefined "out of fuel"
  | S f =>
      s ← get;
      match scan (ts_nodes s) with
      | None => mret res
      | Some n =>
          (if n_decay n =? 0 then mret tt else modify (λ s, set_nodes (decay_all (ts_nodes s)) s));;
          modify (λ s, set_nodes (unlink (n_ref n) (ts_nodes s)) s);;
          must (Z.of_nat (length res) <? ts_count s) "res[n]";;
          issue (n_edges n);;
          rounds f (res ++ [n_user n])
      end
  end.

Definition end_tsort : T (list A) :=
  s ← get;
  res ← rounds (S (length (ts_nodes s))) [];
  s ← get;
  if negb (bool_decide (ts_nodes s = [])) then undefined "abort: cycle detected in partial order" else mret res.

(** ** The directive [%tsort] (fpd.y): items that add nodes and edges *)

Inductive sort_item : Type :=
  | Plus (a : A)
  | Minus (a : A)
  | Pair (a b : A) (priority : Z).

Definition run_item (i : sort_item) : T unit :=
  match i with
  | Plus a => add_node a 0;; mret tt
  | Minus a => add_node a 1;; mret tt
  | Pair a b p => x ← add_node a 0; y ← add_node b 0; add_edge x y p
  end.

Fixpoint run_items (items : list sort_item) : T unit :=
  match items with [] => mret tt | i :: items' => run_item i;; run_items items' end.

Definition tsort_items (items : list sort_item) : T (list A) := run_items items;; end_tsort.
End tsort.

Arguments node A : clear implicits.
Arguments tsort A : clear implicits.
Arguments sort_item A : clear implicits.

(** ** The order that is asked for *)

Section spec.
Context {A : Type} `{!EqDecision A}.
Implicit Types (a b : A) (ns : list (node A)).

(** The nodes in the order in which they are first mentioned, with their [decay]. *)
Definition mention (us : list (A * Z)) (a : A) (d : Z) : list (A * Z) :=
  if decide (a ∈ us.*1) then us else us ++ [(a, d)].
Definition mentioned (us : list (A * Z)) (i : sort_item A) : list (A * Z) :=
  match i with
  | Plus a => mention us a 0
  | Minus a => mention us a 1
  | Pair a b _ => mention (mention us a 0) b 0
  end.
Definition node_list (l : list (sort_item A)) : list (A * Z) := foldl mentioned [] l.

(** The weight of the edge from [a] to [b], if there is one: the sum of what was given. *)
Definition add_weight (o : option Z) (p : Z) : option Z := Some (default 0 o + p).
Definition weigh a b (o : option Z) (i : sort_item A) : option Z :=
  match i with
  | Pair x y p => if decide (x = a ∧ y = b) then add_weight o p else o
  | _ => o
  end.
Definition weight (l : list (sort_item A)) a b : option Z := foldl (weigh a b) None l.

(** What counts for the priority of the next node: the nodes taken since the last one
    that decays. *)
Definition since (us : list (A * Z)) (pre : list A) : list A :=
  foldl (λ acc a, if decide ((a, 0) ∈ us) then acc ++ [a] else [a]) [] pre.
Definition total (w : A → option Z) (l : list A) : Z := foldr (λ a t, default 0 (w a) + t) 0 l.
Definition priority_of (l : list (sort_item A)) (pre : list A) b : Z :=
  total (λ a, weight l a b) (since (node_list l) pre).

Definition ready (l : list (sort_item A)) (pre : list A) b : Prop :=
  b ∈ (node_list l).*1 ∧ (b ∉ pre) ∧ ∀ a, is_Some (weight l a b) → a ∈ pre.

(** [b] is the first among the ready ones with the highest priority. *)
Definition chosen (l : list (sort_item A)) (pre : list A) b : Prop :=
  ready l pre b ∧
  ∃ u1 u2, (node_list l).*1 = u1 ++ b :: u2 ∧
    (∀ c, c ∈ u1 → ready l pre c → priority_of l pre c < priority_of l pre b) ∧
    (∀ c, c ∈ u2 → ready l pre c → priority_of l pre c ≤ priority_of l pre b).

Definition greedy (l : list (sort_item A)) (order : list A) : Prop :=
  ∀ pre b post, order = pre ++ b :: post → chosen l pre b.

(** The relation can be extended to a linear order. *)
Definition acyclic (l : list (sort_item A)) : Prop :=
  ∃ rank : A → nat, ∀ a b, is_Some (weight l a b) → (rank a < rank b)%nat.

Definition volume (l : list (sort_item A)) : Z :=
  foldr (λ i t, match i with Pair _ _ p => Z.abs p | _ => 0 end + t) 0 l.

(** ** What the nodes say about it *)

Definition edge_to (es : list edge) (r : Z) : option Z := e_priority <$> find (λ e, e_to e =? r) es.

Definition preds (ns : list (node A)) (r : Z) : list (node A) := filter (λ n, is_Some (edge_to (n_edges n) r)) ns.

Record nodes_ok (w : A → A → option Z) ns : Prop := {
  nodes_refs : NoDup (n_ref <$> ns);
  nodes_users : NoDup (n_user <$> ns);
  nodes_targets : ∀ n, n ∈ ns → NoDup (e_to <$> n_edges n) ∧ (e_to <$> n_edges n) ⊆ n_ref <$> ns;
  nodes_weight : ∀ n m, n ∈ ns → m ∈ ns → edge_to (n_edges n) (n_ref m) = w (n_user n) (n_user m);
  nodes_incoming : ∀ n, n ∈ ns → n_incoming n = Z.of_nat (length (preds ns (n_ref n))) }.

(** Of the nodes those in [pre] are gone. *)
Record sorting (l : list (sort_item A)) (pre : list A) ns : Prop := {
  sorting_ok : nodes_ok (weight l) ns;
  sorting_users : (λ n, (n_user n, n_decay n)) <$> ns = filter (λ u, fst u ∉ pre) (node_list l);
  sorting_pre : NoDup pre ∧ pre ⊆ (node_list l).*1;
  sorting_nodup : NoDup (node_list l).*1;
  sorting_known : ∀ a b, is_Some (weight l a b) → a ∈ (node_list l).*1 ∧ b ∈ (node_list l).*1;
  sorting_closed : ∀ a b, is_Some (weight l a b) → b ∈ pre → a ∈ pre;
  sorting_priority : ∀ n, n ∈ ns → n_priority n = priority_of l pre (n_user n) }.

(** While the order is built. *)
Record building (w : A → A → option Z) (us : list (A * Z)) (s : tsort A) : Prop := {
  building_ok : nodes_ok w (ts_nodes s);
  building_users : (λ n, (n_user n, n_decay n)) <$> ts_nodes s = us;
  building_fresh : ∀ n, n ∈ ts_nodes s → n_ref n < ts_fresh s;
  building_count : ts_count s = Z.of_nat (length (ts_nodes s));
  building_known : ∀ a b, is_Some (w a b) → a ∈ us.*1 ∧ b ∈ us.*1;
  building_priority : ∀ n, n ∈ ts_nodes s → n_priority n = 0 }.

(** ** Nodes and edges *)

Lemma find_ref_in ns n : NoDup (n_ref <$> ns) → n ∈ ns → find_ref (n_ref n) ns = Some n.
Proof.
  unfold find_ref. induction ns as [|m ns IH]; intros Hnd Hin; [by apply not_elem_of_nil in Hin|].
  apply NoDup_cons in Hnd as [Hm Hnd]. cbn. apply elem_of_cons in Hin as [->|Hin]; [by rewrite Z.eqb_refl|].
  destruct (Z.eqb_spec (n_ref m) (n_ref n)) as [E|_]; [|by apply IH].
  destruct Hm. rewrite E. by apply list_elem_of_fmap_2.
Qed.

Lemma on_node_in ns r f m : m ∈ on_node r f ns → ∃ n, n ∈ ns ∧ m = if n_ref n =? r then f n else n.
Proof. intros (n & -> & H)%list_elem_of_fmap. eauto. Qed.

Lemma on_node_fmap {B} (g : node A → B) ns r f : (∀ n, g (f n) = g n) → g <$> on_node r f ns = g <$> ns.
Proof.
  intros H. unfold on_node. rewrite <- list_fmap_compose. apply list_fmap_ext. intros i n _. cbn. by destruct (_ =? _).
Qed.

Lemma edge_to_in es r : is_Some (edge_to es r) ↔ r ∈ e_to <$> es.
Proof.
  unfold edge_to. rewrite fmap_is_Some. induction es as [|e es IH]; cbn.
  - split; [by intros []|by intros ?%not_elem_of_nil].
  - rewrite elem_of_cons. destruct (Z.eqb_spec (e_to e) r) as [->|]; [split; eauto|]. rewrite IH. split; [auto|]. by intros [->|].
Qed.

Lemma length_filter_fmap {B C} (P : C → Prop) `{!∀ x, Decision (P x)} (f : B → C) (l : list B) :
  length (filter P (f <$> l)) = length (filter (λ x, P (f x)) l).
Proof. induction l as [|x l IH]; [done|]. rewrite fmap_cons, !filter_cons. destruct (decide (P (f x))); cbn; by rewrite IH. Qed.

Lemma length_filter_flip {B} (P Q : B → Prop) `{!∀ x, Decision (P x), !∀ x, Decision (Q x)} (l : list B) x :
  NoDup l → x ∈ l → ¬ P x → Q x → (∀ y, y ∈ l → y ≠ x → P y ↔ Q y) → length (filter Q l) = S (length (filter P l)).
Proof.
  intros Hnd Hx HP HQ Hiff. apply list_elem_of_split in Hx as (l1 & l2 & ->).
  rewrite !filter_app, !filter_cons, decide_True, decide_False by done. rewrite !length_app. cbn.
  assert (∀ l : list B, (∀ y, y ∈ l → P y ↔ Q y) → filter Q l = filter P l) as E.
  { clear. induction l as [|y l IH]; [done|]. intros Hl. rewrite !filter_cons, IH by (intros; apply Hl; apply elem_of_cons; auto).
    destruct (Hl y); [apply elem_of_cons; auto|]. by destruct (decide (Q y)), (decide (P y)); try (exfalso; tauto). }
  apply NoDup_app in Hnd as (_ & H1 & [H2 _]%NoDup_cons).
  rewrite (E l1), (E l2); [lia| |]; intros y Hy; apply Hiff.
  - apply elem_of_app. right. apply elem_of_cons. auto.
  - by intros ->.
  - apply elem_of_app. auto.
  - intros ->. apply (H1 x Hy). apply elem_of_cons. auto.
Qed.

Lemma length_preds_fmap ns f q : (∀ n, n_edges (f n) = n_edges n) → length (preds (f <$> ns) q) = length (preds ns q).
Proof. intros H. unfold preds. rewrite length_filter_fmap. f_equal. apply list_filter_iff. intros n. by rewrite H. Qed.
End spec.

(** ** Building *)

Section build.
Context {A : Type} `{!EqDecision A}.
Implicit Types (a b : A) (s : tsort A) (ns : list (node A)).

Lemma int_add_run x y s : Z.abs (x + y) < 2 ^ 31 → int_add x y s = Ret (x + y) s.
Proof. intros H. unfold int_add. rewrite (proj2 (Z.leb_le _ _)), (proj2 (Z.ltb_lt _ _)) by lia. done. Qed.

Lemma bump_spec to p es s : Z.abs (default 0 (edge_to es to) + p) < 2 ^ 31 →
  ∃ es', bump to p es s = Ret (es', bool_decide (is_Some (edge_to es to))) s ∧
    (∀ r, edge_to es' r = if decide (r = to) then add_weight (edge_to es r) p else edge_to es r) ∧
    e_to <$> es' = (e_to <$> es) ++ (if decide (is_Some (edge_to es to)) then [] else [to]).
Proof.
  induction es as [|e es IH]; intros Hb.
  - exists [Edge to p]. split; [done|]. split; [|done]. intros r. unfold edge_to, add_weight. cbn. destruct (Z.eqb_spec to r) as [->|]; [by rewrite decide_True|by rewrite decide_False].
  - cbn [bump]. unfold edge_to in Hb |- *. cbn in Hb |- *. destruct (Z.eqb_spec (e_to e) to) as [Ht|Ht].
    + cbn in Hb |- *. rewrite (bind_step _ _ _ _ _ (int_add_run _ _ s Hb)). eexists. split; [done|]. split.
      * intros r. cbn. destruct (decide (r = to)) as [->|Hr].
        { rewrite Z.eqb_refl. by rewrite (proj2 (Z.eqb_eq _ _) Ht). }
        destruct (Z.eqb_spec to r); [congruence|]. destruct (Z.eqb_spec (e_to e) r); [congruence|done].
      * cbn. by rewrite app_nil_r, Ht.
    + destruct (IH Hb) as (es' & Hrun & He & Hto). rewrite (bind_step _ _ _ _ _ Hrun). eexists. split; [done|]. split.
      * intros r. cbn. destruct (Z.eqb_spec (e_to e) r) as [Hr|]; [by rewrite decide_False by congruence|]. apply He.
      * cbn. by rewrite Hto.
Qed.

Lemma building_nodup w us s : building w us s → NoDup (ts_nodes s).
Proof. intros H. apply (NoDup_fmap_1 n_ref), (nodes_refs _ _ (building_ok _ _ _ H)). Qed.

Lemma building_us w us s : building w us s → us.*1 = n_user <$> ts_nodes s.
Proof. intros H. rewrite <- (building_users _ _ _ H), <- list_fmap_compose. done. Qed.

Lemma add_node_spec w us s a d : building w us s →
  ∃ r s', add_node a d s = Ret r s' ∧ building w (mention us a d) s' ∧
    (∀ n, n ∈ ts_nodes s → n ∈ ts_nodes s') ∧ ∃ n, n ∈ ts_nodes s' ∧ n_ref n = r ∧ n_user n = a.
Proof.
  intros H. pose proof (building_us _ _ _ H) as Hus. unfold add_node, mention. rewrite bind_get.
  destruct (find _ _) as [n|] eqn:Hf.
  - apply find_some in Hf as [Hin He]. apply list_elem_of_In in Hin. apply bool_decide_eq_true in He as <-.
    exists (n_ref n), s. split; [done|]. split; [|split; [done|by exists n]].
    rewrite decide_True; [done|]. rewrite Hus. by apply list_elem_of_fmap_2.
  - assert (a ∉ us.*1) as Hni.
    { rewrite Hus. intros (n & -> & Hin)%list_elem_of_fmap. eapply find_none in Hf; [|by apply list_elem_of_In].
      by apply bool_decide_eq_false in Hf. }
    exists (ts_fresh s). eexists. split; [done|]. rewrite decide_False by done. cbn.
    split; [|split; [intros; apply elem_of_app; by left|]].
    2:{ eexists. split; [apply elem_of_app; right; by apply list_elem_of_singleton|done]. }
    destruct H as [[H1 H2 H3 H4 H5] Hu Hfr Hc Hk Hp].
    assert (∀ n, n ∈ ts_nodes s → ts_fresh s ∉ e_to <$> n_edges n) as Hno.
    { intros n Hn Hin. apply (proj2 (H3 n Hn)) in Hin. apply list_elem_of_fmap in Hin as (m & E & Hm).
      specialize (Hfr m Hm). lia. }
    assert (∀ b, w a b = None ∧ w b a = None) as Hw.
    { intros b. destruct (w a b) eqn:E1; [by destruct (Hk a b (mk_is_Some _ _ E1))|].
      destruct (w b a) eqn:E2; [by destruct (Hk b a (mk_is_Some _ _ E2))|done]. }
    split; cbn [ts_nodes ts_count ts_fresh].
    + split.
      * rewrite fmap_app. apply NoDup_app. split; [done|]. split; [|apply NoDup_singleton].
        intros r (n & -> & Hn)%list_elem_of_fmap E%list_elem_of_singleton. specialize (Hfr n Hn). cbn in E. lia.
      * rewrite fmap_app. apply NoDup_app. split; [done|]. split; [|apply NoDup_singleton].
        rewrite <- Hus. intros b Hb E%list_elem_of_singleton. cbn in E. by subst b.
      * intros n [Hn| ->%list_elem_of_singleton]%elem_of_app; rewrite fmap_app.
        -- destruct (H3 n Hn) as [? Hsub]. split; [done|]. intros z Hz. apply elem_of_app. left. by apply Hsub.
        -- split; [apply NoDup_nil_2|]. intros z Hz. by apply not_elem_of_nil in Hz.
      * intros n m [Hn| ->%list_elem_of_singleton]%elem_of_app [Hm| ->%list_elem_of_singleton]%elem_of_app; cbn.
        -- by apply H4.
        -- rewrite (proj2 (Hw _)). apply eq_None_not_Some. rewrite edge_to_in. by apply Hno.
        -- by rewrite (proj1 (Hw _)).
        -- by rewrite (proj1 (Hw _)).
      * intros n [Hn| ->%list_elem_of_singleton]%elem_of_app; unfold preds in *; rewrite filter_app, length_app; cbn.
        -- rewrite Nat.add_0_r. by apply H5.
        -- rewrite Nat.add_0_r. replace (filter _ (ts_nodes s)) with (@nil (node A)); [done|]. symmetry.
           apply elem_of_nil_inv. intros m [Hm Hin]%list_elem_of_filter. apply edge_to_in in Hm. by apply (Hno m).
    + by rewrite fmap_app, Hu.
    + intros n [Hn| ->%list_elem_of_singleton]%elem_of_app; cbn; [specialize (Hfr n Hn)|]; lia.
    + rewrite length_app, Hc. cbn. lia.
    + intros x y Hxy. rewrite fmap_app. destruct (Hk x y Hxy). split; apply elem_of_app; by left.
    + intros n [Hn| ->%list_elem_of_singleton]%elem_of_app; [by apply Hp|done].
Qed.

Definition add_w (w : A → A → option Z) a b p : A → A → option Z :=
  λ x y, if decide (x = a ∧ y = b) then add_weight (w x y) p else w x y.

(** What [add_edge] makes of a node; [old] says that there was an edge already. *)
Definition edged (n m : node A) (es : list edge) (old : bool) (x : node A) : node A :=
  let x := if n_ref x =? n_ref n then set_edges es x else x in
  if old then x else if n_ref x =? n_ref m then set_counts (n_incoming x + 1) (n_priority x) x else x.

Lemma edged_fields n m es old x :
  n_ref (edged n m es old x) = n_ref x ∧ n_user (edged n m es old x) = n_user x ∧
  n_decay (edged n m es old x) = n_decay x ∧ n_priority (edged n m es old x) = n_priority x ∧
  n_edges (edged n m es old x) = (if n_ref x =? n_ref n then es else n_edges x) ∧
  n_incoming (edged n m es old x) = n_incoming x + (if old then 0 else if n_ref x =? n_ref m then 1 else 0).
Proof.
  unfold edged. destruct old, (n_ref x =? n_ref n); cbn; rewrite ?Z.add_0_r; try done;
    destruct (n_ref x =? n_ref m); cbn; rewrite ?Z.add_0_r; done.
Qed.

Lemma fmap_eq_in {B C} (f : B → C) (l : list B) x y : NoDup (f <$> l) → x ∈ l → y ∈ l → f x = f y → x = y.
Proof.
  intros Hnd [i Hi]%list_elem_of_lookup [j Hj]%list_elem_of_lookup E.
  assert (i = j) as ->; [|congruence]. eapply NoDup_lookup; [exact Hnd|by rewrite list_lookup_fmap, Hi|].
  by rewrite list_lookup_fmap, Hj, E.
Qed.

Lemma edged_preds ns n m es old r : NoDup ns → n ∈ ns → NoDup (n_ref <$> ns) →
  (∀ q, q ≠ n_ref m → edge_to es q = edge_to (n_edges n) q) → is_Some (edge_to es (n_ref m)) →
  old = bool_decide (is_Some (edge_to (n_edges n) (n_ref m))) →
  Z.of_nat (length (preds (edged n m es old <$> ns) r)) =
  Z.of_nat (length (preds ns r)) + (if old then 0 else if r =? n_ref m then 1 else 0).
Proof.
  intros Hnd Hn Href Hother Hm ->. unfold preds. rewrite length_filter_fmap.
  assert (∀ x, x ∈ ns → (n_ref x =? n_ref n) = true → x = n) as Hx.
  { intros x Hx E%Z.eqb_eq. by apply (fmap_eq_in n_ref ns). }
  assert ((r ≠ n_ref m ∨ is_Some (edge_to (n_edges n) (n_ref m))) →
    filter (λ x, is_Some (edge_to (n_edges (edged n m es (bool_decide (is_Some (edge_to (n_edges n) (n_ref m)))) x)) r)) ns =
    filter (λ x, is_Some (edge_to (n_edges x) r)) ns) as Hsame.
  { intros Hr. clear Hnd Hn Href. induction ns as [|x ns IH]; [done|]. rewrite !filter_cons.
    rewrite IH by (intros y Hy; apply Hx; apply elem_of_cons; by right).
    destruct (edged_fields n m es (bool_decide (is_Some (edge_to (n_edges n) (n_ref m)))) x) as (_ & _ & _ & _ & -> & _).
    destruct (n_ref x =? n_ref n) eqn:E; [|done]. rewrite (Hx x) by (done || (apply elem_of_cons; by left)).
    destruct (decide (r = n_ref m)) as [->|]; [|by rewrite Hother].
    destruct Hr; [done|]. by rewrite !decide_True. }
  case_bool_decide as Hold; [rewrite Hsame by auto; lia|]. destruct (Z.eqb_spec r (n_ref m)) as [->|Hr].
  - rewrite (length_filter_flip (λ x, is_Some (edge_to (n_edges x) (n_ref m)))
      (λ x, is_Some (edge_to (n_edges (edged n m es false x)) (n_ref m))) ns n); [lia|done..| |].
    + destruct (edged_fields n m es false n) as (_ & _ & _ & _ & -> & _). by rewrite Z.eqb_refl.
    + intros x Hin Hxn. destruct (edged_fields n m es false x) as (_ & _ & _ & _ & -> & _).
      destruct (n_ref x =? n_ref n) eqn:E; [|done]. by rewrite (Hx x) in Hxn.
  - rewrite Hsame by auto. lia.
Qed.

Lemma add_edge_spec w us s n m p : building w us s → n ∈ ts_nodes s → m ∈ ts_nodes s →
  Z.abs (default 0 (w (n_user n) (n_user m)) + p) < 2 ^ 31 →
  ∃ s', add_edge (n_ref n) (n_ref m) p s = Ret tt s' ∧ building (add_w w (n_user n) (n_user m) p) us s'.
Proof.
  intros H Hn Hm Hb. pose proof (building_nodup _ _ _ H) as Hnd.
  destruct H as [[H1 H2 H3 H4 H5] Hu Hfr Hc Hk Hp]. set (ns := ts_nodes s) in *.
  destruct (bump_spec (n_ref m) p (n_edges n) s) as (es & Hrun & Hes & Hto); [by rewrite H4|].
  set (old := bool_decide (is_Some (edge_to (n_edges n) (n_ref m)))) in *.
  assert (add_edge (n_ref n) (n_ref m) p s = Ret tt (set_nodes (edged n m es old <$> ns) s)) as Hadd.
  { unfold add_edge. rewrite bind_get. fold ns. rewrite find_ref_in by done. rewrite bind_deref_Some.
    rewrite (bind_step _ _ _ _ _ Hrun). cbn [fst snd]. rewrite bind_modify. fold ns. unfold edged. destruct old.
    - done.
    - cbn [ts_nodes set_nodes]. rewrite bind_get. cbn [ts_nodes set_nodes].
      assert (∃ t, find_ref (n_ref m) (on_node (n_ref n) (set_edges es) ns) = Some t) as [t ->].
      { unfold find_ref. destruct (find _ _) eqn:E; [eauto|]. exfalso.
        assert (n_ref m ∈ n_ref <$> on_node (n_ref n) (set_edges es) ns) as (t & Et & Ht)%list_elem_of_fmap
          by (rewrite on_node_fmap by done; by apply list_elem_of_fmap_2).
        eapply find_none in E; [|by apply list_elem_of_In]. rewrite <- Et in E. by rewrite Z.eqb_refl in E. }
      rewrite bind_deref_Some. unfold modify. f_equal. unfold set_nodes, on_node. cbn. f_equal.
      rewrite <- list_fmap_compose. done. }
  exists (set_nodes (edged n m es old <$> ns) s). split; [done|].
  assert (∀ q, q ≠ n_ref m → edge_to es q = edge_to (n_edges n) q) as Hother.
  { intros q Hq. by rewrite Hes, decide_False. }
  assert (is_Some (edge_to es (n_ref m))) as Hsome. { rewrite Hes, decide_True by done. by eexists. }
  assert (∀ (B : Type) (g : node A → B), (∀ x, g (edged n m es old x) = g x) → g <$> (edged n m es old <$> ns) = g <$> ns) as Hmap.
  { intros B g Hg. rewrite <- list_fmap_compose. apply list_fmap_ext. intros i x _. apply Hg. }
  split; cbn [ts_nodes set_nodes ts_count ts_fresh].
  - split.
    + rewrite Hmap; [done|]. intros x. apply edged_fields.
    + rewrite Hmap; [done|]. intros x. apply edged_fields.
    + rewrite (Hmap _ n_ref) by (intros x; apply edged_fields). intros x (y & -> & Hy)%list_elem_of_fmap.
      destruct (edged_fields n m es old y) as (_ & _ & _ & _ & -> & _). destruct (n_ref y =? n_ref n); [|by apply H3].
      rewrite Hto. destruct (H3 n Hn) as [Hd Hs]. unfold old in *. destruct (decide _) as [?|Hno].
      * by rewrite app_nil_r.
      * split.
        -- apply NoDup_app. split; [done|]. split; [|apply NoDup_singleton].
           intros q Hq E%list_elem_of_singleton. subst q. apply Hno. by apply edge_to_in.
        -- intros q [Hq|Hq]%elem_of_app; [by apply Hs|]. apply list_elem_of_singleton in Hq as ->. by apply list_elem_of_fmap_2.
    + intros x y (x' & -> & Hx)%list_elem_of_fmap (y' & -> & Hy)%list_elem_of_fmap.
      destruct (edged_fields n m es old x') as (_ & -> & _ & _ & -> & _).
      destruct (edged_fields n m es old y') as (-> & -> & _). unfold add_w.
      destruct (Z.eqb_spec (n_ref x') (n_ref n)) as [E|E].
      * apply (fmap_eq_in n_ref ns) in E; [subst x'|done..]. rewrite Hes.
        destruct (decide (n_ref y' = n_ref m)) as [E|E].
        -- apply (fmap_eq_in n_ref ns) in E; [subst y'|done..]. rewrite decide_True by done. by rewrite H4.
        -- rewrite decide_False; [by apply H4|]. intros [_ E2]. apply (fmap_eq_in n_user ns) in E2; [|done..]. by subst.
      * rewrite decide_False; [by apply H4|]. intros [E2 _]. apply (fmap_eq_in n_user ns) in E2; [|done..]. by subst.
    + intros x (y & -> & Hy)%list_elem_of_fmap. rewrite (edged_preds ns n m es old) by done.
      destruct (edged_fields n m es old y) as (-> & _ & _ & _ & _ & ->). by rewrite H5.
  - rewrite Hmap; [done|]. intros x. by destruct (edged_fields n m es old x) as (_ & -> & -> & _).
  - intros x (y & -> & Hy)%list_elem_of_fmap. destruct (edged_fields n m es old y) as (-> & _). by apply Hfr.
  - by rewrite length_fmap.
  - intros a b. unfold add_w. destruct (decide (a = n_user n ∧ b = n_user m)) as [E|E]; [|by apply Hk]. destruct E as [-> ->]. intros _.
    rewrite <- Hu, <- list_fmap_compose. split; by apply (list_elem_of_fmap_2 n_user).
  - intros x (y & -> & Hy)%list_elem_of_fmap. destruct (edged_fields n m es old y) as (_ & _ & _ & -> & _). by apply Hp.
Qed.

Lemma building_ext w w' us s : (∀ a b, w a b = w' a b) → building w us s → building w' us s.
Proof.
  intros E [[H1 H2 H3 H4 H5] Hu Hfr Hc Hk Hp]. split; try done.
  - split; try done. intros n m Hn Hm. rewrite <- E. by apply H4.
  - intros a b. rewrite <- E. apply Hk.
Qed.

Lemma run_item_spec i w us s V : building w us s → (∀ a b, Z.abs (default 0 (w a b)) ≤ V) → V + volume [i] < 2 ^ 31 →
  ∃ s', run_item i s = Ret tt s' ∧ building (λ a b, weigh a b (w a b) i) (mentioned us i) s' ∧
    ∀ a b, Z.abs (default 0 (weigh a b (w a b) i)) ≤ V + volume [i].
Proof.
  intros H Hw HV. destruct i as [a|a|a b p]; cbn [run_item weigh mentioned volume foldr] in *.
  - destruct (add_node_spec w us s a 0 H) as (r & s1 & Hr & H1 & _). rewrite (bind_step _ _ _ _ _ Hr).
    exists s1. split; [done|]. split; [done|]. intros. by rewrite !Z.add_0_r.
  - destruct (add_node_spec w us s a 1 H) as (r & s1 & Hr & H1 & _). rewrite (bind_step _ _ _ _ _ Hr).
    exists s1. split; [done|]. split; [done|]. intros. by rewrite !Z.add_0_r.
  - destruct (add_node_spec w us s a 0 H) as (r & s1 & Hr & H1 & _ & n & Hn & <- & <-). rewrite (bind_step _ _ _ _ _ Hr).
    destruct (add_node_spec _ _ s1 b 0 H1) as (r2 & s2 & Hr2 & H2 & Hin & m & Hm & <- & <-). rewrite (bind_step _ _ _ _ _ Hr2).
    destruct (add_edge_spec _ _ s2 n m p H2) as (s3 & H3 & Hb); [by apply Hin|done| |].
    { specialize (Hw (n_user n) (n_user m)). lia. }
    exists s3. split; [done|]. split.
    + eapply building_ext; [|exact Hb]. intros x y. unfold add_w.
      destruct (decide (x = n_user n ∧ y = n_user m)) as [[-> ->]|Hne]; [by rewrite decide_True|]. rewrite decide_False; [done|]. intros [E1 E2]. by apply Hne.
    + intros x y. specialize (Hw x y). destruct (decide _); cbn; lia.
Qed.

Lemma run_items_spec l : ∀ w us s V, building w us s → (∀ a b, Z.abs (default 0 (w a b)) ≤ V) → V + volume l < 2 ^ 31 →
  ∃ s', run_items l s = Ret tt s' ∧ building (λ a b, foldl (weigh a b) (w a b) l) (foldl mentioned us l) s'.
Proof.
  induction l as [|i l IH]; intros w us s V H Hw HV; [by exists s|].
  assert (0 ≤ volume l) as Hl. { clear. unfold volume. induction l as [|[] l IH]; cbn; lia. }
  assert (volume (i :: l) = volume [i] + volume l) as E by (unfold volume; cbn; lia).
  destruct (run_item_spec i w us s V H Hw) as (s1 & Hr & H1 & Hw1); [lia|]. cbn [run_items].
  rewrite (bind_step _ _ _ _ _ Hr). apply (IH _ _ _ _ H1 Hw1). lia.
Qed.

Lemma begin_building : building (λ _ _ : A, None) [] begin_tsort.
Proof.
  split; try done; cbn.
  - split; try apply NoDup_nil_2; try (intros n Hn; by apply not_elem_of_nil in Hn).
    intros n m Hn. by apply not_elem_of_nil in Hn.
  - intros n Hn. by apply not_elem_of_nil in Hn.
  - intros n Hn. by apply not_elem_of_nil in Hn.
Qed.

Lemma built l : volume l < 2 ^ 31 →
  ∃ s, run_items l begin_tsort = Ret tt s ∧ ts_count s = Z.of_nat (length (ts_nodes s)) ∧ sorting l [] (ts_nodes s).
Proof.
  intros HV. destruct (run_items_spec l (λ _ _, None) [] begin_tsort 0) as (s & Hr & H); [apply begin_building|done|lia|].
  exists s. split; [done|]. split; [apply H|]. pose proof (building_us _ _ _ H) as Hus.
  destruct H as [H1 Hu Hfr Hc Hk Hp]. split.
  - exact H1.
  - rewrite Hu. fold (node_list l). symmetry. generalize (node_list l). intros us. induction us as [|u us IH]; [done|].
    rewrite filter_cons, decide_True; [by rewrite IH|]. apply not_elem_of_nil.
  - split; [apply NoDup_nil_2|]. intros a Ha. by apply not_elem_of_nil in Ha.
  - unfold node_list. rewrite Hus. apply H1.
  - exact Hk.
  - intros a b _ Hb. by apply not_elem_of_nil in Hb.
  - intros n Hn. by rewrite Hp.
Qed.
End build.

(** ** Sorting *)

Section sort.
Context {A : Type} `{!EqDecision A}.
Implicit Types (a b : A) (s : tsort A) (ns : list (node A)).

Definition issued (es : list edge) (n : node A) : node A :=
  match edge_to es (n_ref n) with
  | Some p => set_counts (n_incoming n - 1) (n_priority n + p) n
  | None => n
  end.

Lemma issued_fields es n :
  n_ref (issued es n) = n_ref n ∧ n_user (issued es n) = n_user n ∧ n_decay (issued es n) = n_decay n ∧
  n_edges (issued es n) = n_edges n ∧
  n_incoming (issued es n) = n_incoming n - (match edge_to es (n_ref n) with Some _ => 1 | None => 0 end) ∧
  n_priority (issued es n) = n_priority n + default 0 (edge_to es (n_ref n)).
Proof. unfold issued. destruct (edge_to es (n_ref n)); cbn; rewrite ?Z.sub_0_r, ?Z.add_0_r; done. Qed.

Lemma issue_run es : ∀ s, NoDup (n_ref <$> ts_nodes s) → NoDup (e_to <$> es) → (e_to <$> es) ⊆ n_ref <$> ts_nodes s →
  (∀ n p, n ∈ ts_nodes s → edge_to es (n_ref n) = Some p → Z.abs (n_priority n + p) < 2 ^ 31) →
  issue es s = Ret tt (set_nodes (issued es <$> ts_nodes s) s).
Proof.
  induction es as [|e es IH]; intros s Href Hnd Hsub Hb.
  { cbn. f_equal. destruct s as [ns c f]. unfold set_nodes. cbn. f_equal. symmetry. apply list_fmap_id. }
  apply NoDup_cons in Hnd as [He Hnd]. cbn [issue]. rewrite bind_get.
  assert (e_to e ∈ n_ref <$> ts_nodes s) as (t & Et & Ht)%list_elem_of_fmap by (apply Hsub, elem_of_cons; by left).
  rewrite Et, find_ref_in by done. rewrite bind_deref_Some.
  assert (edge_to (e :: es) (n_ref t) = Some (e_priority e)) as Hte.
  { unfold edge_to. cbn. by rewrite Et, Z.eqb_refl. }
  rewrite (bind_step _ _ _ _ _ (int_add_run _ _ s (Hb t _ Ht Hte))), bind_modify.
  set (f := set_counts _ _). rewrite IH; cbn [ts_nodes set_nodes].
  - f_equal. unfold set_nodes. cbn. f_equal. unfold on_node. rewrite <- list_fmap_compose. apply list_fmap_ext.
    intros i n Hn%list_elem_of_lookup_2. cbn. destruct (Z.eqb_spec (n_ref n) (n_ref t)) as [E|E].
    + apply (fmap_eq_in n_ref (ts_nodes s)) in E; [subst n|done..]. unfold issued. rewrite Hte.
      change (n_ref (f t)) with (n_ref t). rewrite <- Et. destruct (edge_to es (e_to e)) eqn:E2; [|done].
      exfalso. apply He, edge_to_in. by rewrite E2.
    + unfold issued. replace (edge_to (e :: es) (n_ref n)) with (edge_to es (n_ref n)); [done|].
      unfold edge_to. cbn. destruct (Z.eqb_spec (e_to e) (n_ref n)); [congruence|done].
  - by rewrite on_node_fmap.
  - done.
  - rewrite on_node_fmap by done. intros r Hr. apply Hsub, elem_of_cons. by right.
  - intros n p (m & Hm & ->)%on_node_in. destruct (Z.eqb_spec (n_ref m) (n_ref t)) as [E|E].
    + apply (fmap_eq_in n_ref (ts_nodes s)) in E; [subst m|done..]. cbn. intros E2.
      exfalso. apply He, edge_to_in. by rewrite Et, E2.
    + intros E2. apply Hb; [done|]. unfold edge_to in *. cbn. destruct (Z.eqb_spec (e_to e) (n_ref m)); [congruence|done].
Qed.

Lemma scan_spec ns :
  match scan ns with
  | None => ∀ n, n ∈ ns → n_incoming n ≠ 0
  | Some n => n_incoming n = 0 ∧ ∃ l1 l2, ns = l1 ++ n :: l2 ∧
      (∀ m, m ∈ l1 → n_incoming m = 0 → n_priority m < n_priority n) ∧
      (∀ m, m ∈ l2 → n_incoming m = 0 → n_priority m ≤ n_priority n)
  end.
Proof.
  induction ns as [|x ns IH] using rev_ind; [intros n Hn; by apply not_elem_of_nil in Hn|].
  unfold scan in *. rewrite foldl_app. cbn. unfold better at 1. destruct (foldl better None ns) as [n|]; cbn.
  - destruct IH as (Hn & l1 & l2 & -> & H1 & H2). destruct (Z.eqb_spec (n_incoming x) 0) as [Hx|Hx]; cbn.
    + destruct (Z.ltb_spec (n_priority n) (n_priority x)) as [Hlt|Hge].
      * split; [done|]. exists (l1 ++ n :: l2), []. split; [done|]. split; [|intros m Hm; by apply not_elem_of_nil in Hm].
        intros m [Hm|[->|Hm]%elem_of_cons]%elem_of_app Hm0; [specialize (H1 m Hm Hm0)| |specialize (H2 m Hm Hm0)]; lia.
      * split; [done|]. exists l1, (l2 ++ [x]). rewrite <- app_assoc. split; [done|]. split; [done|].
        intros m [Hm| ->%list_elem_of_singleton]%elem_of_app; [by apply H2|lia].
    + split; [done|]. exists l1, (l2 ++ [x]). rewrite <- app_assoc. split; [done|]. split; [done|].
      intros m [Hm| ->%list_elem_of_singleton]%elem_of_app; [by apply H2|done].
  - destruct (Z.eqb_spec (n_incoming x) 0) as [Hx|Hx]; cbn.
    + split; [done|]. exists ns, []. split; [done|].
      split; [intros m Hm Hm0; by destruct (IH m Hm)|intros m Hm; by apply not_elem_of_nil in Hm].
    + intros m [Hm| ->%list_elem_of_singleton]%elem_of_app; [by apply IH|done].
Qed.

(** ** Weights *)

#[local] Arguments total : simpl never.

Lemma total_cons (w : A → option Z) a L : total w (a :: L) = default 0 (w a) + total w L.
Proof. done. Qed.

Lemma total_change (w w' : A → option Z) x p L : NoDup L →
  (∀ a, a ≠ x → w' a = w a) → Z.abs (default 0 (w' x) - default 0 (w x)) ≤ p →
  Z.abs (total w' L) ≤ Z.abs (total w L) + p ∧ (x ∉ L → total w' L = total w L).
Proof.
  intros Hnd Hw Hx. assert (x ∉ L → total w' L = total w L) as Hno.
  { clear Hnd. induction L as [|a L IH]; [done|]. intros [Ha Hl]%not_elem_of_cons. by rewrite !total_cons, (Hw a), IH. }
  split; [|done]. destruct (decide (x ∈ L)) as [Hin|Hin]; [|rewrite Hno by done; lia].
  apply list_elem_of_split in Hin as (l1 & l2 & ->). apply NoDup_app in Hnd as (_ & H1 & [H2 _]%NoDup_cons).
  assert (∀ (v : A → option Z) l l', total v (l ++ l') = total v l + total v l') as Happ.
  { intros v l l'. induction l as [|a l IH]; [done|]. cbn [app]. rewrite !total_cons. lia. }
  assert (∀ l, (x ∉ l) → total w' l = total w l) as Hsame.
  { clear -Hw. intros l. induction l as [|a l IH]; [done|]. intros [Ha Hl]%not_elem_of_cons. by rewrite !total_cons, (Hw a), IH. }
  rewrite !Happ, !total_cons, (Hsame l1), (Hsame l2); [lia|done|]. intros Hin. apply (H1 x Hin), elem_of_cons. by left.
Qed.

Lemma weight_bound l b L : NoDup L → Z.abs (total (λ a, weight l a b) L) ≤ volume l.
Proof.
  intros Hnd. induction l as [|i l IH] using rev_ind.
  - induction L as [|a L IHL]; [done|]. rewrite total_cons. apply IHL. by apply NoDup_cons in Hnd as [_ ?].
  - assert (volume (l ++ [i]) = volume l + volume [i]) as ->.
    { unfold volume. clear. induction l as [|j l IH]; [done|]. cbn in *. rewrite IH. lia. }
    assert (∀ a, weight (l ++ [i]) a b = weigh a b (weight l a b) i) as Hw by (intros a; unfold weight; by rewrite foldl_app).
    destruct i as [x|x|x y p].
    1,2: etrans; [|etrans; [exact IH|cbn; lia]]; apply Z.eq_le_incl; f_equal; clear -Hw; induction L as [|a L IHL]; [done|]; by rewrite !total_cons, Hw, IHL.
    destruct (total_change (λ a, weight l a b) (λ a, weight (l ++ [Pair x y p]) a b) x (Z.abs p) L) as [H _]; [done|..].
    + intros a Ha. rewrite Hw. cbn. rewrite decide_False; [done|]. by intros [].
    + rewrite Hw. cbn. destruct (decide _); cbn; lia.
    + cbn. lia.
Qed.

Lemma since_nodup (us : list (A * Z)) (pre : list A) : NoDup pre → NoDup (since us pre) ∧ since us pre ⊆ pre.
Proof.
  unfold since. induction pre as [|a pre IH] using rev_ind; intros H; [split; [apply NoDup_nil_2|done]|].
  apply NoDup_app in H as (H1 & H2 & _). destruct (IH H1) as [G1 G2]. rewrite foldl_app. cbn. destruct (decide _).
  - split.
    + apply NoDup_app. split; [done|]. split; [|apply NoDup_singleton]. intros b Hb. apply H2, G2, Hb.
    + intros b [Hb|Hb]%elem_of_app; apply elem_of_app; auto.
  - split; [apply NoDup_singleton|]. intros b Hb. apply elem_of_app. auto.
Qed.

Lemma priority_bound l pre b : NoDup pre → Z.abs (priority_of l pre b) ≤ volume l.
Proof. intros H. apply weight_bound. by apply since_nodup. Qed.

Lemma priority_snoc l pre a b :
  priority_of l (pre ++ [a]) b =
  (if decide ((a, 0) ∈ node_list l) then priority_of l pre b else 0) + default 0 (weight l a b).
Proof.
  unfold priority_of. replace (since (node_list l) (pre ++ [a])) with
    (if decide ((a, 0) ∈ node_list l) then since (node_list l) pre ++ [a] else [a]).
  2:{ unfold since. by rewrite foldl_app. }
  destruct (decide _); [|unfold total; cbn; lia]. generalize (since (node_list l) pre). intros L.
  induction L as [|x L IH]; cbn [app]; rewrite !total_cons; [unfold total; cbn|]; lia.
Qed.

(** ** A round *)

Lemma split_unique {B} (l1 l2 k1 k2 : list B) x : NoDup (l1 ++ x :: l2) → l1 ++ x :: l2 = k1 ++ x :: k2 → l1 = k1 ∧ l2 = k2.
Proof.
  revert k1. induction l1 as [|y l1 IH]; intros [|z k1] Hnd E; cbn in *.
  - by injection E as ->.
  - injection E as <- ->. apply NoDup_cons in Hnd as [[] _]. apply elem_of_app. right. apply elem_of_cons. by left.
  - injection E as -> <-. apply NoDup_cons in Hnd as [[] _]. apply elem_of_app. right. apply elem_of_cons. by left.
  - injection E as <- E. apply NoDup_cons in Hnd as [_ Hnd]. by destruct (IH k1 Hnd E) as [-> ->].
Qed.

Lemma sorting_names l pre ns : sorting l pre ns → n_user <$> ns = filter (λ a, a ∉ pre) (node_list l).*1.
Proof.
  intros H. transitivity (((λ n, (n_user n, n_decay n)) <$> ns).*1); [by rewrite <- list_fmap_compose|].
  rewrite (sorting_users _ _ _ H). generalize (node_list l). intros us. induction us as [|u us IH]; [done|].
  rewrite fmap_cons, !filter_cons. destruct (decide (u.1 ∉ pre)); cbn; by rewrite IH.
Qed.

Lemma sorting_elem l pre ns a : sorting l pre ns → a ∈ n_user <$> ns ↔ a ∈ (node_list l).*1 ∧ a ∉ pre.
Proof. intros H. rewrite (sorting_names _ _ _ H), list_elem_of_filter. tauto. Qed.

Lemma sorting_ready l pre ns n : sorting l pre ns → n ∈ ns → n_incoming n = 0 ↔ ready l pre (n_user n).
Proof.
  intros H Hn. pose proof (sorting_ok _ _ _ H) as Hok. rewrite (nodes_incoming _ _ Hok n Hn).
  destruct (proj1 (sorting_elem _ _ _ (n_user n) H)) as [Hu Hp]; [by apply list_elem_of_fmap_2|]. split.
  - intros Hz. split; [done|]. split; [done|]. intros a Ha. destruct (decide (a ∈ pre)) as [|Hna]; [done|exfalso].
    assert (a ∈ n_user <$> ns) as (m & -> & Hm)%list_elem_of_fmap.
    { apply (sorting_elem _ _ _ _ H). split; [by apply (sorting_known _ _ _ H _ _ Ha)|done]. }
    assert (m ∈ preds ns (n_ref n)) as Hin.
    { apply list_elem_of_filter. split; [|done]. by rewrite (nodes_weight _ _ Hok). }
    destruct (preds ns (n_ref n)); [by apply not_elem_of_nil in Hin|done].
  - intros (_ & _ & Hr). replace (preds ns (n_ref n)) with (@nil (node A)); [done|]. symmetry.
    apply elem_of_nil_inv. intros m [Hm Hin]%list_elem_of_filter. rewrite (nodes_weight _ _ Hok) in Hm by done.
    apply Hr in Hm. destruct (proj1 (sorting_elem _ _ _ (n_user m) H)); [by apply list_elem_of_fmap_2|done].
Qed.

Lemma sorting_chosen l pre ns n : sorting l pre ns → scan ns = Some n → chosen l pre (n_user n).
Proof.
  intros H Hs. pose proof (scan_spec ns) as Hsc. rewrite Hs in Hsc. destruct Hsc as (Hn0 & l1 & l2 & E & H1 & H2).
  assert (n ∈ ns) as Hn by (rewrite E; apply elem_of_app; right; apply elem_of_cons; by left).
  pose proof (proj1 (sorting_ready _ _ _ n H Hn) Hn0) as Hr. split; [done|].
  destruct Hr as (Hu & Hp & _). apply list_elem_of_split in Hu as (u1 & u2 & Eu). exists u1, u2. split; [done|].
  pose proof (sorting_names _ _ _ H) as Hnames. rewrite Eu, E in Hnames.
  rewrite fmap_app, fmap_cons, filter_app, filter_cons, decide_True in Hnames by done.
  assert (NoDup ((n_user <$> l1) ++ n_user n :: (n_user <$> l2))) as Hnd.
  { rewrite <- fmap_cons, <- fmap_app, <- E. apply (sorting_ok _ _ _ H). }
  destruct (split_unique _ _ _ _ _ Hnd Hnames) as [G1 G2].
  assert (∀ m, m ∈ ns → n_priority m = priority_of l pre (n_user m)) as Hpr by apply (sorting_priority _ _ _ H).
  split; intros c Hc Hrc; pose proof Hrc as (_ & Hcp & _).
  - assert (c ∈ n_user <$> l1) as (m & -> & Hm)%list_elem_of_fmap by (rewrite G1; by apply list_elem_of_filter).
    assert (m ∈ ns) as Hmn by (rewrite E; apply elem_of_app; by left). rewrite <- !Hpr by done.
    apply H1; [done|]. by apply (sorting_ready _ _ _ _ H Hmn).
  - assert (c ∈ n_user <$> l2) as (m & -> & Hm)%list_elem_of_fmap by (rewrite G2; by apply list_elem_of_filter).
    assert (m ∈ ns) as Hmn by (rewrite E; apply elem_of_app; right; apply elem_of_cons; by right). rewrite <- !Hpr by done.
    apply H2; [done|]. by apply (sorting_ready _ _ _ _ H Hmn).
Qed.

Definition aged (n : node A) ns : list (node A) := if n_decay n =? 0 then ns else decay_all ns.
Definition after (n : node A) ns : list (node A) := issued (n_edges n) <$> unlink (n_ref n) (aged n ns).

(** A node that is left after a round, and the one it was before. *)
Lemma after_map n ns : ∃ f, after n ns = f <$> unlink (n_ref n) ns ∧ ∀ m,
  n_ref (f m) = n_ref m ∧ n_user (f m) = n_user m ∧ n_decay (f m) = n_decay m ∧ n_edges (f m) = n_edges m ∧
  n_incoming (f m) = n_incoming m - (match edge_to (n_edges n) (n_ref m) with Some _ => 1 | None => 0 end) ∧
  n_priority (f m) = (if n_decay n =? 0 then n_priority m else 0) + default 0 (edge_to (n_edges n) (n_ref m)).
Proof.
  unfold after, aged. destruct (n_decay n =? 0).
  - exists (issued (n_edges n)). split; [done|]. intros m. apply issued_fields.
  - exists (λ m, issued (n_edges n) (set_counts (n_incoming m) 0 m)). split.
    + unfold unlink, decay_all. induction ns as [|m ns IH]; [done|]. rewrite fmap_cons, !filter_cons. cbn.
      destruct (decide (n_ref m ≠ n_ref n)); cbn; [by f_equal|done].
    + intros m. destruct (issued_fields (n_edges n) (set_counts (n_incoming m) 0 m)) as (-> & -> & -> & -> & -> & ->). done.
Qed.

Lemma unlink_perm n ns : NoDup (n_ref <$> ns) → n ∈ ns → ns ≡ₚ n :: unlink (n_ref n) ns.
Proof.
  intros Hnd Hn. apply list_elem_of_split in Hn as (l1 & l2 & ->).
  rewrite fmap_app, fmap_cons in Hnd. apply NoDup_app in Hnd as (_ & H1 & [H2 _]%NoDup_cons).
  assert (∀ l : list (node A), (n_ref n ∉ n_ref <$> l) → unlink (n_ref n) l = l) as Hl.
  { intros l. induction l as [|m l IH]; [done|]. rewrite fmap_cons. intros [Hm Hl]%not_elem_of_cons. unfold unlink in *.
    rewrite filter_cons, decide_True by congruence. by rewrite IH. }
  unfold unlink in *. rewrite filter_app, filter_cons, decide_False by congruence.
  rewrite (Hl l1), (Hl l2); [solve_Permutation|done|]. intros H. apply (H1 _ H), elem_of_cons. by left.
Qed.

Lemma unlink_in (n m : node A) ns : m ∈ unlink (n_ref n) ns ↔ m ∈ ns ∧ n_ref m ≠ n_ref n.
Proof. unfold unlink. rewrite list_elem_of_filter. tauto. Qed.

Lemma fmap_filter_in {B C} (g : B → C) (P : B → Prop) (Q : C → Prop) `{!∀ x, Decision (P x), !∀ x, Decision (Q x)} (l : list B) :
  (∀ x, x ∈ l → P x ↔ Q (g x)) → g <$> filter P l = filter Q (g <$> l).
Proof.
  induction l as [|x l IH]; intros Hx; [done|]. rewrite fmap_cons, !filter_cons.
  rewrite <- IH by (intros; apply Hx, elem_of_cons; by right). destruct (Hx x); [apply elem_of_cons; by left|].
  by destruct (decide (P x)), (decide (Q (g x))); try (exfalso; tauto).
Qed.

Lemma decay_listed l pre ns n : sorting l pre ns → n ∈ ns → bool_decide ((n_user n, 0) ∈ node_list l) = (n_decay n =? 0).
Proof.
  intros H Hn. assert ((n_user n, n_decay n) ∈ node_list l) as Hin.
  { apply (list_elem_of_fmap_2 (λ n, (n_user n, n_decay n))) in Hn. rewrite (sorting_users _ _ _ H) in Hn.
    by apply list_elem_of_filter in Hn as [_ ?]. }
  destruct (Z.eqb_spec (n_decay n) 0) as [E|E].
  - apply bool_decide_eq_true. by rewrite <- E.
  - apply bool_decide_eq_false. intros Hin2. apply E.
    assert ((n_user n, n_decay n) = (n_user n, 0)) as [= ?]; [|done].
    eapply (fmap_eq_in fst); [apply (sorting_nodup _ _ _ H)|done..].
Qed.

Lemma after_priority l pre ns n m : sorting l pre ns → n ∈ ns → m ∈ ns →
  (if n_decay n =? 0 then n_priority m else 0) + default 0 (edge_to (n_edges n) (n_ref m)) =
  priority_of l (pre ++ [n_user n]) (n_user m).
Proof.
  intros H Hn Hm. rewrite priority_snoc, <- (decay_listed l pre ns n) by done.
  rewrite (nodes_weight _ _ (sorting_ok _ _ _ H)) by done. rewrite (sorting_priority _ _ _ H) by done.
  case_bool_decide as Hd; destruct (decide ((n_user n, 0) ∈ node_list l)); done.
Qed.

Lemma sorting_after l pre ns n : sorting l pre ns → n ∈ ns → n_incoming n = 0 → sorting l (pre ++ [n_user n]) (after n ns).
Proof.
  intros H Hn Hz. pose proof H as [[H1 H2 H3 H4 H5] Hu [Hp1 Hp2] Hnd Hk Hcl Hpr].
  destruct (proj1 (sorting_ready _ _ _ _ H Hn) Hz) as (Hnu & Hnp & Hready).
  destruct (after_map n ns) as (f & -> & Hf).
  assert (∀ m, m ∈ f <$> unlink (n_ref n) ns → ∃ m', m = f m' ∧ m' ∈ ns ∧ n_ref m' ≠ n_ref n) as Hin.
  { intros m (m' & -> & Hm)%list_elem_of_fmap. exists m'. split; [done|]. by apply unlink_in. }
  assert (∀ (B : Type) (g : node A → B), (∀ m, g (f m) = g m) → g <$> (f <$> unlink (n_ref n) ns) = g <$> unlink (n_ref n) ns) as Hmap.
  { intros B g Hg. rewrite <- list_fmap_compose. apply list_fmap_ext. intros i x _. apply Hg. }
  pose proof (unlink_perm n ns H1 Hn) as Hperm.
  assert (∀ m, m ∈ ns → n_ref m ≠ n_ref n ↔ n_user m ≠ n_user n) as Href.
  { intros m Hm. split; intros Hne E; apply Hne; [apply (fmap_eq_in n_user ns) in E|apply (fmap_eq_in n_ref ns) in E]; by subst. }
  split.
  - split.
    + rewrite (Hmap _ n_ref) by apply Hf. rewrite Hperm in H1. cbn in H1. by apply NoDup_cons in H1 as [_ ?].
    + rewrite (Hmap _ n_user) by apply Hf. rewrite Hperm in H2. cbn in H2. by apply NoDup_cons in H2 as [_ ?].
    + rewrite (Hmap _ n_ref) by apply Hf. intros m (m' & -> & Hm & Hne)%Hin. destruct (Hf m') as (_ & _ & _ & -> & _).
      destruct (H3 m' Hm) as [G1 G2]. split; [done|]. intros r Hr. pose proof (G2 r Hr) as (t & -> & Ht)%list_elem_of_fmap.
      apply list_elem_of_fmap_2, unlink_in. split; [done|]. intros E. apply (fmap_eq_in n_ref ns) in E; [subst t|done..].
      apply edge_to_in in Hr. rewrite H4 in Hr by done. apply Hready in Hr.
      destruct (proj1 (sorting_elem _ _ _ (n_user m') H)) as [_ []]; [by apply list_elem_of_fmap_2|done].
    + intros x y (x' & -> & Hx & _)%Hin (y' & -> & Hy & _)%Hin. destruct (Hf x') as (_ & -> & _ & -> & _).
      destruct (Hf y') as (-> & -> & _). by apply H4.
    + intros m (m' & -> & Hm & Hne)%Hin. destruct (Hf m') as (-> & _ & _ & _ & -> & _).
      rewrite length_preds_fmap by apply Hf. rewrite H5 by done. unfold preds. rewrite Hperm at 1.
      rewrite filter_cons. destruct (edge_to (n_edges n) (n_ref m')) as [p|] eqn:E.
      * rewrite decide_True by eauto. cbn [length]. lia.
      * rewrite decide_False by (by intros []). lia.
  - rewrite Hmap. 2:{ intros m. by destruct (Hf m) as (_ & -> & -> & _). }
    unfold unlink. rewrite (fmap_filter_in _ _ (λ u, fst u ≠ n_user n)) by (intros; by apply Href).
    rewrite Hu, list_filter_filter. apply list_filter_iff. intros u. rewrite not_elem_of_app, list_elem_of_singleton. tauto.
  - split; [|intros a [Ha| ->%list_elem_of_singleton]%elem_of_app; [by apply Hp2|done]].
    apply NoDup_app. split; [done|]. split; [|apply NoDup_singleton]. by intros a Ha ->%list_elem_of_singleton.
  - done.
  - done.
  - intros a b Hab [Hb| ->%list_elem_of_singleton]%elem_of_app; apply elem_of_app; left; [by apply (Hcl a b)|by apply Hready].
  - intros m (m' & -> & Hm & Hne)%Hin. destruct (Hf m') as (_ & -> & _ & _ & _ & ->). by apply (after_priority l pre ns).
Qed.

Lemma round_run l pre ns n s : sorting l pre ns → n ∈ ns → n_incoming n = 0 → volume l < 2 ^ 31 →
  issue (n_edges n) (set_nodes (unlink (n_ref n) (aged n ns)) s) = Ret tt (set_nodes (after n ns) s).
Proof.
  intros H Hn Hz HV. pose proof H as [[H1 H2 H3 H4 H5] _ [Hp1 _] _ _ _ _].
  destruct (proj1 (sorting_elem _ _ _ (n_user n) H)) as [_ Hnp]; [by apply list_elem_of_fmap_2|].
  assert (n_ref <$> aged n ns = n_ref <$> ns) as Hrefs.
  { unfold aged. destruct (_ =? _); [done|]. unfold decay_all. by rewrite <- list_fmap_compose. }
  assert (∀ m, m ∈ aged n ns → ∃ m', m' ∈ ns ∧ n_ref m = n_ref m' ∧ n_priority m = if n_decay n =? 0 then n_priority m' else 0) as Haged.
  { unfold aged. intros m. destruct (_ =? _); [by exists m|]. intros (m' & -> & Hm)%list_elem_of_fmap. by exists m'. }
  assert (n_ref <$> unlink (n_ref n) (aged n ns) = filter (λ r, r ≠ n_ref n) (n_ref <$> aged n ns)) as Hun by by apply fmap_filter_in.
  destruct (H3 n Hn) as [Hnd Hsub]. rewrite issue_run; [done|..]; cbn [ts_nodes set_nodes].
  - rewrite Hun, Hrefs. by apply NoDup_filter.
  - done.
  - rewrite Hun, Hrefs. intros r Hr. apply list_elem_of_filter. split; [|by apply Hsub]. intros ->.
    apply edge_to_in in Hr. rewrite H4 in Hr by done.
    destruct (proj1 (sorting_ready _ _ _ _ H Hn) Hz) as (_ & _ & Hr2). apply Hnp, Hr2, Hr.
  - intros m p [Hm _]%unlink_in. destruct (Haged m Hm) as (m' & Hm' & -> & ->). intros E.
    replace p with (default 0 (edge_to (n_edges n) (n_ref m'))) by by rewrite E.
    rewrite (after_priority l pre ns) by done. eapply Z.le_lt_trans; [|exact HV]. apply priority_bound.
    apply NoDup_app. split; [done|]. split; [|apply NoDup_singleton]. by intros a Ha ->%list_elem_of_singleton.
Qed.

Lemma greedy_snoc l pre a : greedy l pre → chosen l pre a → greedy l (pre ++ [a]).
Proof.
  intros Hg Hc p b post E. destruct post as [|z post' _] using rev_ind.
  - apply app_inj_tail in E as [-> ->]. done.
  - rewrite app_comm_cons, app_assoc in E. apply app_inj_tail in E as [E _]. by eapply Hg.
Qed.

Lemma rounds_spec l fuel : ∀ pre s, sorting l pre (ts_nodes s) → greedy l pre → volume l < 2 ^ 31 →
  (length (ts_nodes s) < fuel)%nat → ts_count s = Z.of_nat (length pre + length (ts_nodes s)) →
  ∃ order s', rounds fuel pre s = Ret order s' ∧ sorting l order (ts_nodes s') ∧ greedy l order ∧ scan (ts_nodes s') = None.
Proof.
  induction fuel as [|fuel IH]; intros pre s H Hg HV Hf Hc; [lia|]. cbn [rounds]. rewrite bind_get.
  destruct (scan (ts_nodes s)) as [n|] eqn:Hs; [|by exists pre, s].
  pose proof (sorting_chosen _ _ _ _ H Hs) as Hch. pose proof (scan_spec (ts_nodes s)) as Hsc. rewrite Hs in Hsc.
  destruct Hsc as (Hz & l1 & l2 & E & _). assert (n ∈ ts_nodes s) as Hn by (rewrite E; apply elem_of_app; right; apply elem_of_cons; by left).
  assert ((if n_decay n =? 0 then mret tt else modify (λ s, set_nodes (decay_all (ts_nodes s)) s)) s =
    Ret tt (set_nodes (aged n (ts_nodes s)) s)) as Hage.
  { unfold aged. destruct (n_decay n =? 0); [|done]. by destruct s. }
  rewrite (bind_step _ _ _ _ _ Hage), bind_modify. cbn [ts_nodes set_nodes].
  assert (length (ts_nodes s) = S (length (after n (ts_nodes s)))) as Hlen.
  { unfold after. rewrite length_fmap. rewrite (unlink_perm n (ts_nodes s)) at 1; [|apply (sorting_ok _ _ _ H)|done].
    cbn. f_equal. destruct (after_map n (ts_nodes s)) as (f & Ef & _). unfold after in Ef.
    apply (f_equal length) in Ef. by rewrite !length_fmap in Ef. }
  unfold must. rewrite (proj2 (Z.ltb_lt _ _)). 2:{ cbn. lia. } cbn [ts_count set_nodes].
  rewrite bind_mret. erewrite bind_step; [|exact (round_run l pre _ n s H Hn Hz HV)].
  apply IH; cbn [ts_nodes set_nodes ts_count].
  - by apply sorting_after.
  - by apply greedy_snoc.
  - done.
  - lia.
  - rewrite length_app. cbn. lia.
Qed.

(** When something is left that cannot be taken, there is a cycle; and an order that has
    everything shows that there is none. *)
Lemma stuck_cyclic l order ns : sorting l order ns → scan ns = None → ns ≠ [] → ¬ acyclic l.
Proof.
  intros H Hs Hne [rank Hrank]. pose proof (scan_spec ns) as Hsc. rewrite Hs in Hsc.
  assert (∀ k n, n ∈ ns → (rank (n_user n) < k)%nat → False) as Hno.
  { induction k as [|k IH]; intros n Hn Hk; [lia|]. specialize (Hsc n Hn).
    rewrite (nodes_incoming _ _ (sorting_ok _ _ _ H) n Hn) in Hsc.
    destruct (preds ns (n_ref n)) as [|m ms] eqn:E; [done|].
    assert (m ∈ preds ns (n_ref n)) as [Hm Hin]%list_elem_of_filter by (rewrite E; apply elem_of_cons; by left).
    rewrite (nodes_weight _ _ (sorting_ok _ _ _ H)) in Hm by done. apply Hrank in Hm. apply (IH m Hin). lia. }
  destruct ns as [|n ns]; [done|]. by apply (Hno (S (rank (n_user n))) n); [apply elem_of_cons; left|lia].
Qed.

Fixpoint position a (l : list A) : nat :=
  match l with [] => 0 | x :: l' => if decide (x = a) then 0 else S (position a l') end.

Lemma position_before a b pre post : a ∈ pre → (b ∉ pre) →
  (position a (pre ++ b :: post) < position b (pre ++ b :: post))%nat.
Proof.
  induction pre as [|x pre IH]; intros Ha Hb; [by apply not_elem_of_nil in Ha|]. apply not_elem_of_cons in Hb as [Hxb Hb].
  cbn. rewrite (decide_False (P := x = b)) by done. destruct (decide (x = a)); [lia|].
  apply elem_of_cons in Ha as [->|Ha]; [done|]. specialize (IH Ha Hb). lia.
Qed.

Lemma complete_acyclic (l : list (sort_item A)) order : sorting l order [] → greedy l order → order ≡ₚ (node_list l).*1 ∧ acyclic l.
Proof.
  intros H Hg. pose proof H as [_ _ [Hp1 Hp2] Hnd Hk _ _].
  assert (∀ a, a ∈ (node_list l).*1 → a ∈ order) as Hall.
  { intros a Ha. destruct (decide (a ∈ order)) as [|Hno]; [done|].
    assert (a ∈ n_user <$> @nil (node A)) as Hin by by apply (sorting_elem _ _ _ _ H). by apply not_elem_of_nil in Hin. }
  split; [apply NoDup_Permutation; [done..|]; intros a; split; auto|].
  exists (λ a, position a order). intros a b Hab. destruct (Hk a b Hab) as [_ Hb%Hall].
  apply list_elem_of_split in Hb as (pre & post & E). destruct (Hg _ _ _ E) as [(_ & Hb & Hr) _].
  rewrite E. apply position_before; [by apply Hr|done].
Qed.

(** [C11] [end_tsort] sorts what the items describe, whatever they are, as long as the sum of the
    priorities fits an [int]: when the relation has no cycle it returns every node once,
    each the first among the nodes of highest priority whose predecessors are all before
    it; when it has one the program aborts. *)
Theorem tsort_items_sorts (l : list (sort_item A)) : volume l < 2 ^ 31 →
  (acyclic l → ∃ order s, tsort_items l begin_tsort = Ret order s ∧ order ≡ₚ (node_list l).*1 ∧ greedy l order) ∧
  (¬ acyclic l → tsort_items l begin_tsort = Stop (Undefined "abort: cycle detected in partial order")).
Proof.
  intros HV. destruct (built l HV) as (s & Hr & Hc & H). unfold tsort_items.
  rewrite (bind_step _ _ _ _ _ Hr). unfold end_tsort. rewrite bind_get.
  destruct (rounds_spec l (S (length (ts_nodes s))) [] s H) as (order & s' & Ho & H' & Hg & Hs); [|done|lia|by rewrite Hc|].
  { intros pre b post E. by destruct pre. }
  rewrite (bind_step _ _ _ _ _ Ho), bind_get. case_bool_decide as Hnil; cbn [negb].
  - rewrite Hnil in H'. destruct (complete_acyclic _ _ H' Hg). split; [|done]. intros _. by exists order, s'.
  - split; [|done]. intros Ha. by destruct (stuck_cyclic l order _ H' Hs Hnil).
Qed.
End sort.


(** The tests of the repository (eda/fped/test/tsort). *)
Module Tests.
Abbreviation sorted l := (match tsort_items l begin_tsort with Ret r _ => Some r | Stop _ => None end).
Example total_order : sorted [Pair 1 2 0; Pair 1 3 0; Pair 1 4 0; Pair 2 3 0; Pair 2 4 0; Pair 3 4 0] = Some [1; 2; 3; 4].
Proof. reflexivity. Qed.
Example partial_1 : sorted [Pair 1 2 0; Pair 1 3 0; Pair 1 4 0; Pair 4 2 0] = Some [1; 3; 4; 2].
Proof. reflexivity. Qed.
Example partial_2 : sorted [Pair 2 3 0; Pair 3 4 0; Pair 1 2 0] = Some [1; 2; 3; 4].
Proof. reflexivity. Qed.
Example old_order : sorted [Plus 1; Plus 2; Plus 3; Plus 4; Pair 1 3 0; Pair 1 2 0; Pair 1 4 0] = Some [1; 2; 3; 4].
Proof. reflexivity. Qed.
Example priority : sorted [Pair 1 2 0; Pair 1 3 1; Pair 1 4 0] = Some [1; 3; 2; 4].
Proof. reflexivity. Qed.
Example no_decay : sorted [Plus 1; Plus 2; Plus 3; Plus 4; Pair 1 2 1; Pair 1 4 1] = Some [1; 2; 4; 3].
Proof. reflexivity. Qed.
Example decay : sorted [Plus 1; Minus 2; Plus 3; Plus 4; Pair 1 2 1; Pair 1 4 1] = Some [1; 2; 3; 4].
Proof. reflexivity. Qed.
Example cycle : sorted [Pair 1 2 0; Pair 2 1 0] = None.
Proof. reflexivity. Qed.
End Tests.

(** A diamond with a preference, and a cycle. *)
Definition diamond : list (sort_item Z) := [Pair 1 2 0; Pair 1 3 1; Pair 2 4 0; Minus 5; Pair 3 4 0].

Lemma diamond_acyclic : acyclic diamond.
Proof.
  exists Z.to_nat. intros a b Hab. destruct (decide (a = 1 ∧ b = 2)) as [[-> ->]|N1]; [cbn; lia|].
  destruct (decide (a = 1 ∧ b = 3)) as [[-> ->]|N2]; [cbn; lia|]. destruct (decide (a = 2 ∧ b = 4)) as [[-> ->]|N3]; [cbn; lia|].
  destruct (decide (a = 3 ∧ b = 4)) as [[-> ->]|N4]; [cbn; lia|]. exfalso. destruct Hab as [x Hx]. revert Hx.
  unfold weight, diamond. cbn. rewrite !decide_False by (intros []; lia). done.
Qed.

Lemma tsort_items_sorts_witness :
  ∃ order s, tsort_items diamond begin_tsort = Ret order s ∧ order ≡ₚ [1; 2; 3; 4; 5] ∧ greedy diamond order.
Proof.
  destruct (tsort_items_sorts diamond) as [H _]; [reflexivity|]. exact (H diamond_acyclic).
Defined.
