(* ===== verification/FpdNum.v ===== *)
(** * fped: numbers with units (eda/fped/expr.h, expr.c, coord.h, coord.c)

    A number is a [double] with a unit, millimetres or thousandths of an inch, to some
    power.  [double] is IEEE 754 binary64; printf's "%lg" and scanf's "%lf" convert it
    to decimal and back. *)

From Stdlib Require Import Floats.SpecFloat.
From S2P Require Import Prelude CString.

(** ** [double] *)

Abbreviation double := spec_float.

Definition dadd : double → double → double := SFadd 53 1024.
Definition dsub : double → double → double := SFsub 53 1024.
Definition dmul : double → double → double := SFmul 53 1024.
Definition ddiv : double → double → double := SFdiv 53 1024.
Definition dsqrt : double → double := SFsqrt 53 1024.
Definition dopp : double → double := SFopp.
Definition dltb : double → double → bool := SFltb.
Definition dleb : double → double → bool := SFleb.
Definition deqb : double → double → bool := SFeqb.
Definition d_of_Z (z : Z) : double := binary_normalize 53 1024 z 0 false.

Definition is_zero (d : double) : bool := match d with S754_zero _ => true | _ => false end.

(** [HUGE_VAL]. *)
Definition HUGE_VAL : double := S754_infinity false.
Definition M_PI : double := S754_finite false 7074237752028440 (-51).

(** The number [n / 10^k], rounded. *)
Definition of_decimal (n : Z) (k : Z) : double :=
  match n with
  | Zpos p => ddiv (S754_finite false p 0) (S754_finite false (Z.to_pos (10 ^ k)) 0)
  | _ => S754_zero false
  end.

(** Conversion to [int32_t] cuts the fraction off and is undefined outside the range. *)
Definition d_trunc (d : double) : option Z :=
  match d with
  | S754_zero _ => Some 0
  | S754_finite s m e =>
      let a := if 0 <=? e then Zpos m * 2 ^ e else Zpos m / 2 ^ (- e) in
      let z := if s then - a else a in
      if (- 2 ^ 31 <=? z) && (z <? 2 ^ 31) then Some z else None
  | _ => None
  end.

(** ** "%lg" *)

Fixpoint scale_up (fuel : nat) (num den x : Z) : Z :=
  match fuel with O => x | S f => if num <? 10 * den then x else scale_up f num (10 * den) (x + 1) end.
Fixpoint scale_down (fuel : nat) (num den x : Z) : Z :=
  match fuel with O => x | S f => if den <=? num then x else scale_down f (10 * num) den (x - 1) end.

(** The decimal exponent of [num / den]; a [double] needs 324 steps at most. *)
Definition dec_exponent (num den : Z) : Z :=
  if den <=? num then scale_up 400 num den 0 else scale_down 400 num den 0.

Definition round_even (num den : Z) : Z :=
  let q := num / den in
  let r := 2 * (num mod den) in
  if (den <? r) || ((den =? r) && Z.odd q) then q + 1 else q.

Definition round_digits (num den x : Z) : Z :=
  if x <=? 5 then round_even (num * 10 ^ (5 - x)) den else round_even num (den * 10 ^ (x - 5)).

(** Six digits and the exponent of the first. *)
Definition significant (num den : Z) : Z * Z :=
  let x := dec_exponent num den in
  let d := round_digits num den x in
  if d =? 10 ^ 6 then (10 ^ 5, x + 1) else (d, x).

Fixpoint strip_zeros_rev (s : list Z) : list Z :=
  match s with
  | c :: s' => if c =? ch "0" then strip_zeros_rev s' else if c =? ch "." then s' else s
  | [] => []
  end.
(** Trailing zeros, and a point that would be last, are left out. *)
Definition strip_zeros (s : list Z) : list Z := reverse (strip_zeros_rev (reverse s)).

Definition zeros (n : Z) : list Z := replicate (Z.to_nat n) (ch "0").
Definition fixed_text (digits : list Z) (x : Z) : list Z :=
  if x =? 5 then digits
  else if 0 <=? x then
    strip_zeros (take (Z.to_nat (x + 1)) digits ++ b "." ++ drop (Z.to_nat (x + 1)) digits)
  else strip_zeros (b "0." ++ zeros (- x - 1) ++ digits).
Definition exp_text (digits : list Z) (x : Z) : list Z :=
  strip_zeros (take 1 digits ++ b "." ++ drop 1 digits) ++ b "e" ++ (if x <? 0 then b "-" else b "+") ++
  (if Z.abs x <? 10 then b "0" else []) ++ dec (Z.abs x).

Definition lg_abs (num den : Z) : list Z :=
  let '(d, x) := significant num den in
  if (x <? -4) || (6 <=? x) then exp_text (dec d) x else fixed_text (dec d) x.

Definition lg (d : double) : list Z :=
  match d with
  | S754_nan => b "nan"
  | S754_infinity s => (if s then b "-" else []) ++ b "inf"
  | S754_zero s => (if s then b "-" else []) ++ b "0"
  | S754_finite s m e =>
      (if s then b "-" else []) ++ (if 0 <=? e then lg_abs (Zpos m * 2 ^ e) 1 else lg_abs (Zpos m) (2 ^ (- e)))
  end.

(** ** [struct num] *)

Inductive num_type : Type := nt_none | nt_mm | nt_mil.

Record num : Type := Num { n_type : num_type; n_exponent : Z; n_n : double }.

#[export] Instance num_type_eq_dec : EqDecision num_type.
Proof. solve_decision. Defined.

Definition undef : num := Num nt_none 0 (S754_zero false).
Definition is_undef (n : num) : bool := bool_decide (n_type n = nt_none).
Definition is_dimensionless (n : num) : bool := n_exponent n =? 0.
Definition is_distance (n : num) : bool := negb (is_undef n) && (n_exponent n =? 1).
Definition make_num (n : double) : num := Num nt_mm 0 n.
Definition make_mm (mm : double) : num := Num nt_mm 1 mm.
Definition make_mil (mil : double) : num := Num nt_mil 1 mil.
Definition set_n (d : double) (n : num) : num := Num (n_type n) (n_exponent n) d.

(** [str_unit]; [None] is its [abort]. *)
Definition str_unit (n : num) : option (list Z) :=
  if n_exponent n =? 0 then Some []
  else
    unit ← match n_type n with nt_mm => Some (b "mm") | nt_mil => Some (b "mil") | nt_none => None end;
    Some (if n_exponent n =? 1 then unit else unit ++ b "^" ++ dec (n_exponent n)).

(** "%lg%s". *)
Definition num_text (n : num) : option (list Z) := unit ← str_unit n; Some (lg (n_n n) ++ unit).

(** ** Units *)

Definition MICRON_UNITS : double := d_of_Z 10.
Definition MIL_UNITS : double := dmul (of_decimal 254 1) MICRON_UNITS.
Definition MM_UNITS : double := dmul (d_of_Z 1000) MICRON_UNITS.
Definition MIL_IN_MM : double := of_decimal 254 4.

Definition mil_to_units (mil : double) : option Z := d_trunc (dmul mil MIL_UNITS).
Definition mm_to_units (mm : double) : option Z := d_trunc (dmul mm MM_UNITS).

(** Where [mil_to_mm] raises [MIL_IN_MM] to a power it is [libm]'s [pow] that does. *)
Definition mil_to_mm (pow : double → double → double) (mil : double) (exponent : Z) : double :=
  dmul mil (pow MIL_IN_MM (d_of_Z exponent)).
Definition mm_to_mil (pow : double → double → double) (mm : double) (exponent : Z) : double :=
  dmul mm (pow MIL_IN_MM (d_of_Z (- exponent))).

Module NumTests.
Example mil_units : MIL_UNITS = d_of_Z 254.
Proof. vm_compute. reflexivity. Qed.
Example lg_1 : lg (of_decimal 254 4) = b "0.0254".
Proof. vm_compute. reflexivity. Qed.
Example lg_2 : lg (of_decimal 12345678 7) = b "1.23457".
Proof. vm_compute. reflexivity. Qed.
Example lg_3 : lg (of_decimal 1000000 0) = b "1e+06".
Proof. vm_compute. reflexivity. Qed.
Example lg_4 : lg (of_decimal 999999 0) = b "999999".
Proof. vm_compute. reflexivity. Qed.
Example lg_5 : lg (of_decimal 100 0) = b "100".
Proof. vm_compute. reflexivity. Qed.
Example lg_6 : lg (of_decimal 1 5) = b "1e-05".
Proof. vm_compute. reflexivity. Qed.
Example lg_7 : lg (of_decimal 1 4) = b "0.0001".
Proof. vm_compute. reflexivity. Qed.
Example lg_8 : lg (dopp (of_decimal 25 1)) = b "-2.5".
Proof. vm_compute. reflexivity. Qed.
Example lg_9 : lg (of_decimal 9999995 1) = b "1e+06".
Proof. vm_compute. reflexivity. Qed.
Example lg_10 : lg (of_decimal 0 0) = b "0".
Proof. vm_compute. reflexivity. Qed.
Example lg_11 : lg (of_decimal 1 308) = b "1e-308".
Proof. vm_compute. reflexivity. Qed.
End NumTests.
