(* ===== verification/FpdExpr.v ===== *)
(** * fped: expressions (eda/fped/expr.c)

    An expression is evaluated in a frame: its variables are those of the frame's
    tables and loops, then those of the frame that refers to it.  The value of a
    variable is an expression again. *)

From stdpp Require Import gmap.
From S2P Require Import Prelude CString FpdNum.

(** ** The data (expr.h, obj.h) *)

(** The operation of an expression is the function that evaluates it. *)
Inductive expr : Type :=
  | op_num (n : num)
  | op_var (name : list Z)
  | op_string (s : list Z)
  | op_sin (a : expr)
  | op_cos (a : expr)
  | op_sqrt (a : expr)
  | op_minus (a : expr)
  | op_add (a b : expr)
  | op_sub (a b : expr)
  | op_mult (a b : expr)
  | op_div (a b : expr).

(** Names are unique strings, so that equal pointers are equal names.  [var_id] is the
    address of the variable. *)
Record var : Type := Var { var_name : list Z; var_id : Z }.

(** A row is the list of its values' expressions; [curr_row] and [active_row] point to
    rows. *)
Record table : Type := Table {
  t_vars : list var;
  t_rows : list (list expr);
  curr_row : option nat;
  active_row : option nat }.

(** [curr_value] is not set when the loop is made. *)
Record loop : Type := Loop {
  l_var : var;
  l_from : expr;
  l_to : expr;
  curr_value : option double;
  l_active : Z;
  l_n : double;
  l_initialized : bool }.

(** [curr_parent], and the frame of [active_ref]. *)
Record frame : Type := Frame {
  f_tables : list table;
  f_loops : list loop;
  curr_parent : option Z;
  active_ref : option Z }.

(** What [fail] is called for. *)
Inductive failure : Type :=
  | cannot_evaluate_string
  | recursive_evaluation (name : list Z)
  | uninitialized_loop (name : list Z)
  | undefined_variable (name : list Z)
  | incompatible_exponents (a b : Z)
  | angle_not_dimensionless
  | sqrt_exponent_odd
  | sqrt_negative
  | division_by_zero
  | incomplete_variable_name
  | unfinished_braces
  | invalid_character
  | not_a_distance (n : num).

(** The flags [visited] that are set, and the reports; [exits] says that [reporter] is one
    that ends the program. *)
Record fped : Type := Fped { visited : gset Z; reports : list failure; exits : bool }.

Definition set_visited v s := Fped v (reports s) (exits s).
Definition add_report f s := Fped (visited s) (reports s ++ [f]) (exits s).

Abbreviation F := (M fped).

Definition fail (f : failure) : F unit :=
  s ← get;
  if exits s then halt (Exited 1) else modify (add_report f).

(** [int] arithmetic on exponents. *)
Definition fits_int (x : Z) : bool := (- 2 ^ 31 <=? x) && (x <? 2 ^ 31).
Definition int_result (x : Z) : F Z := if fits_int x then mret x else undefined "signed overflow".

Section eval.
(** [libm]'s functions, and the frames by their addresses. *)
Context (pow : double → double → double) (sin cos : double → double) (frames : Z → option frame).

(** ** Operators *)

(** [compatible_sum] and [compatible_mult]: the operands, changed to one unit, and the
    unit of the result. *)
Definition to_mm (n : num) (exponent : Z) : num :=
  match n_type n with
  | nt_mil => Num nt_mm (n_exponent n) (mil_to_mm pow (n_n n) exponent)
  | _ => n
  end.

Definition compatible_sum (a b : num) : F (num * num * option (num_type * Z)) :=
  let '(a, b) :=
    if bool_decide (n_type a = n_type b) then (a, b)
    else let a := to_mm a (n_exponent a) in (a, to_mm b (n_exponent a)) in
  if negb (n_exponent a =? n_exponent b) then
    fail (incompatible_exponents (n_exponent a) (n_exponent b));; mret (a, b, None)
  else mret (a, b, Some (n_type a, n_exponent a)).

Definition compatible_mult (a b : num) (exponent : Z) : num * num * (num_type * Z) :=
  let '(a, b) :=
    if bool_decide (n_type a = n_type b) then (a, b)
    else (to_mm a (n_exponent a), to_mm b (n_exponent b)) in
  (a, b, (n_type a, exponent)).

Definition do_sum (op : double → double → double) (a b : num) : F num :=
  r ← compatible_sum a b;
  let '(a, b, u) := r in
  match u with
  | None => mret undef
  | Some (t, x) => mret (Num t x (op (n_n a) (n_n b)))
  end.

Definition do_mult (a b : num) : F num :=
  x ← int_result (n_exponent a + n_exponent b);
  let '(a, b, (t, x)) := compatible_mult a b x in
  mret (Num t x (dmul (n_n a) (n_n b))).

Definition do_div (a b : num) : F num :=
  if is_zero (n_n b) then fail division_by_zero;; mret undef
  else
    x ← int_result (n_exponent a - n_exponent b);
    let '(a, b, (t, x)) := compatible_mult a b x in
    mret (Num t x (ddiv (n_n a) (n_n b))).

Definition sin_cos (fn : double → double) (res : num) : F num :=
  if is_undef res then mret undef
  else if negb (is_dimensionless res) then fail angle_not_dimensionless;; mret undef
  else mret (set_n (fn (dmul (ddiv (n_n res) (d_of_Z 180)) M_PI)) res).

Definition do_sqrt (res : num) : F num :=
  if is_undef res then mret undef
  else if Z.odd (n_exponent res) then fail sqrt_exponent_odd;; mret undef
  else if dltb (n_n res) (d_of_Z 0) then fail sqrt_negative;; mret undef
  else mret (Num (n_type res) (Z.shiftr (n_exponent res) 1) (dsqrt (n_n res))).

Definition do_minus (res : num) : num := if is_undef res then res else set_n (dopp (n_n res)) res.

(** [BINARY]: nothing is evaluated after an undefined operand. *)
Definition binary (a b : F num) (op : num → num → F num) : F num :=
  a ← a;
  if is_undef a then mret undef
  else
    b ← b;
    if is_undef b then mret undef else op a b.

(** ** Expressions; [var] evaluates a variable *)

Fixpoint eval_op (var : list Z → F num) (e : expr) : F num :=
  match e with
  | op_num n => mret n
  | op_string _ => fail cannot_evaluate_string;; mret undef
  | op_var x =>
      res ← var x;
      if is_undef res then fail (undefined_variable x);; mret res else mret res
  | op_sin a => r ← eval_op var a; sin_cos sin r
  | op_cos a => r ← eval_op var a; sin_cos cos r
  | op_sqrt a => r ← eval_op var a; do_sqrt r
  | op_minus a => r ← eval_op var a; mret (do_minus r)
  | op_add a b => binary (eval_op var a) (eval_op var b) (do_sum dadd)
  | op_sub a b => binary (eval_op var a) (eval_op var b) (do_sum dsub)
  | op_mult a b => binary (eval_op var a) (eval_op var b) do_mult
  | op_div a b => binary (eval_op var a) (eval_op var b) do_div
  end.

(** ** Variables *)

(** The variables of a table, with the values of a row beside them. *)
Fixpoint find_column (name : list Z) (vars : list var) (values : list expr) : F (option (var * expr)) :=
  match vars with
  | [] => mret None
  | v :: vars' =>
      match values with
      | [] => undefined "value"
      | e :: values' => if bool_decide (var_name v = name) then mret (Some (v, e)) else find_column name vars' values'
      end
  end.

Fixpoint find_in_tables (name : list Z) (ts : list table) : F (option (var * expr)) :=
  match ts with
  | [] => mret None
  | t :: ts' =>
      i ← deref (match curr_row t with Some i => Some i | None => active_row t end) "table->active_row";
      values ← deref (t_rows t !! i) "row";
      r ← find_column name (t_vars t) values;
      match r with Some _ => mret r | None => find_in_tables name ts' end
  end.

Definition find_loop (name : list Z) (ls : list loop) : option loop :=
  find (λ l, bool_decide (var_name (l_var l) = name)) ls.

Definition loop_value (name : list Z) (l : loop) : F num :=
  value ← deref (curr_value l) "curr_value";
  if deqb value HUGE_VAL then mret (make_num (dadd (l_n l) (d_of_Z (l_active l))))
  else if negb (l_initialized l) then fail (uninitialized_loop name);; mret undef
  else mret (make_num value).

(** The frame to look into next. *)
Definition outer (f : frame) : option Z :=
  match curr_parent f with Some p => Some p | None => active_ref f end.

Fixpoint eval_var (fuel : nat) (fr : Z) (name : list Z) : F num :=
  match fuel with
  | O => undefined "out of fuel"
  | S fuel =>
      f ← deref (frames fr) "frame";
      r ← find_in_tables name (f_tables f);
      match r with
      | Some (v, e) =>
          s ← get;
          if decide (var_id v ∈ visited s) then fail (recursive_evaluation name);; mret undef
          else
            modify (λ s, set_visited ({[var_id v]} ∪ visited s) s);;
            res ← eval_op (eval_var fuel fr) e;
            modify (λ s, set_visited (visited s ∖ {[var_id v]}) s);;
            mret res
      | None =>
          match find_loop name (f_loops f) with
          | Some l => loop_value name l
          | None =>
              match outer f with
              | Some p => eval_var fuel p name
              | None => mret undef
              end
          end
      end
  end.

Definition eval_num (fuel : nat) (e : expr) (fr : Z) : F num := eval_op (eval_var fuel fr) e.

(** Strings: NULL is [None]. *)
Fixpoint eval_string_var (fuel : nat) (fr : Z) (name : list Z) : F (option (list Z)) :=
  match fuel with
  | O => undefined "out of fuel"
  | S fuel =>
      f ← deref (frames fr) "frame";
      r ← find_in_tables name (f_tables f);
      match r with
      | Some (v, e) =>
          s ← get;
          if decide (var_id v ∈ visited s) then mret None
          else
            modify (λ s, set_visited ({[var_id v]} ∪ visited s) s);;
            res ← match e with
                  | op_string t => mret (Some t)
                  | op_var x => eval_string_var fuel fr x
                  | _ => mret None
                  end;
            modify (λ s, set_visited (visited s ∖ {[var_id v]}) s);;
            mret res
      | None =>
          match find_loop name (f_loops f) with
          | Some _ => mret None
          | None =>
              match outer f with
              | Some p => eval_string_var fuel p name
              | None => mret None
              end
          end
      end
  end.

Definition eval_str (fuel : nat) (e : expr) (fr : Z) : F (option (list Z)) :=
  match e with
  | op_string t => mret (Some t)
  | op_var x => eval_string_var fuel fr x
  | _ => mret None
  end.

(** ** Units, checked without evaluating *)

(** The exponent of an expression, when its operators fit together; [Γ] gives those of the
    variables that are numbers. *)
Fixpoint dim (Γ : list Z → option Z) (e : expr) : option Z :=
  match e with
  | op_num n => if is_undef n || negb (fits_int (n_exponent n)) then None else Some (n_exponent n)
  | op_var x => Γ x
  | op_string _ => None
  | op_sin a | op_cos a => d ← dim Γ a; if d =? 0 then Some 0 else None
  | op_sqrt a => d ← dim Γ a; if Z.odd d then None else Some (Z.shiftr d 1)
  | op_minus a => dim Γ a
  | op_add a b | op_sub a b => d ← dim Γ a; d' ← dim Γ b; if d =? d' then Some d else None
  | op_mult a b => d ← dim Γ a; d' ← dim Γ b; if fits_int (d + d') then Some (d + d') else None
  | op_div a b => d ← dim Γ a; d' ← dim Γ b; if fits_int (d - d') then Some (d - d') else None
  end.

(** The reports that such a check should make impossible. *)
Definition unit_error (f : failure) : bool :=
  match f with
  | cannot_evaluate_string | incompatible_exponents _ _ | angle_not_dimensionless | sqrt_exponent_odd => true
  | _ => false
  end.

Definition column_ok (Γ : list Z → option Z) (v : var) (e : expr) : Prop :=
  match Γ (var_name v) with Some d => dim Γ e = Some d | None => True end.

Record table_ok (Γ : list Z → option Z) (ids : gset Z) (t : table) : Prop := {
  table_row : ∃ i values, match curr_row t with Some i => Some i | None => active_row t end = Some i ∧ t_rows t !! i = Some values;
  table_rows : ∀ values, values ∈ t_rows t → Forall2 (column_ok Γ) (t_vars t) values;
  table_ids : ∀ v, v ∈ t_vars t → var_id v ∈ ids }.

(** A frame's tables and loops are in order, and the frames it looks into are of a lower
    rank: no frame refers to itself. *)
Record frame_ok (Γ : list Z → option Z) (ids : gset Z) (rank : Z → nat) (fr : Z) (f : frame) : Prop := {
  frame_tables : ∀ t, t ∈ f_tables f → table_ok Γ ids t;
  frame_loops : ∀ l, l ∈ f_loops f → is_Some (curr_value l) ∧ default 0 (Γ (var_name (l_var l))) = 0;
  frame_outer : ∀ p, outer f = Some p → is_Some (frames p) ∧ (rank p < rank fr)%nat }.

Definition frames_ok (Γ : list Z → option Z) (ids : gset Z) (rank : Z → nat) : Prop :=
  ∀ fr f, frames fr = Some f → frame_ok Γ ids rank fr f.

(** ** Every evaluation ends, with the unit that was foreseen *)

Definition reported (s s' : fped) : Prop :=
  visited s' = visited s ∧ exits s' = exits s ∧
  ∃ new, reports s' = reports s ++ new ∧ Forall (λ f, unit_error f = false) new.

Definition has_dim (d : Z) (r : num) : Prop := is_undef r = true ∨ n_exponent r = d.

Definition evals {B} (m : F B) (P : B → Prop) (s : fped) : Prop :=
  wpe m s (λ r s', P r ∧ reported s s') (λ c, c = 1 ∧ exits s = true).

#[local] Instance reported_preorder : PreOrder reported.
Proof.
  split.
  - intros s. split; [done|]. split; [done|]. exists []. by rewrite app_nil_r.
  - intros s t u (H1 & H2 & n & H3 & Hn) (G1 & G2 & m & G3 & Hm). split; [congruence|]. split; [congruence|].
    exists (n ++ m). split; [by rewrite G3, H3, app_assoc|]. by apply Forall_app.
Qed.

Lemma evals_ret {B} (x : B) (P : B → Prop) s : P x → evals (mret x) P s.
Proof. intros H. split; [done|]. reflexivity. Qed.

Lemma evals_bind {B C} (m : F B) (k : B → F C) (P : B → Prop) (Q : C → Prop) s :
  evals m P s → (∀ x s', P x → reported s s' → evals (k x) Q s') → evals (m ≫= k) Q s.
Proof.
  intros Hm Hk. apply wpe_bind. eapply wpe_conseq; [exact Hm|]. intros x s' [Hx Hr].
  eapply wpe_mono; [by apply Hk| |].
  - intros y t [Hy Ht]. split; [done|]. by transitivity s'.
  - intros c [Hc He]. split; [done|]. by destruct Hr as (_ & <- & _).
Qed.

Lemma evals_fail f s : unit_error f = false → evals (fail f) (λ _, True) s.
Proof.
  intros Hf. unfold fail. apply wpe_bind, wpe_get. destruct (exits s) eqn:E; [by apply wpe_exit|].
  apply wpe_modify. split; [done|]. split; [done|]. split; [done|]. exists [f]. split; [done|]. by repeat constructor.
Qed.

Lemma evals_undef f d s : unit_error f = false → evals (fail f;; mret undef) (has_dim d) s.
Proof. intros Hf. eapply evals_bind; [by apply evals_fail|]. intros. apply evals_ret. by left. Qed.

Lemma has_dim_some d r : has_dim d r → is_undef r = false → n_exponent r = d.
Proof. by intros [->|]. Qed.

Lemma evals_sum op d a b s : has_dim d a → has_dim d b → is_undef a = false → is_undef b = false →
  evals (do_sum op a b) (has_dim d) s.
Proof.
  intros Ha Hb Hua Hub. apply (has_dim_some _ _ Ha) in Hua as Ea. apply (has_dim_some _ _ Hb) in Hub as Eb. unfold do_sum, compatible_sum.
  assert (∀ n x, n_exponent (to_mm n x) = n_exponent n) as Hmm by (intros [[] ? ?] ?; done).
  case_bool_decide as Ht.
  - rewrite Ea, Eb, Z.eqb_refl. apply evals_ret. by right.
  - rewrite !Hmm, Ea, Eb, Z.eqb_refl. apply evals_ret. by right.
Qed.

Lemma compatible_mult_unit a b x : (compatible_mult a b x).2.2 = x.
Proof. unfold compatible_mult. by case_bool_decide. Qed.

Lemma evals_mult d d' a b s : has_dim d a → has_dim d' b → is_undef a = false → is_undef b = false →
  fits_int (d + d') = true → evals (do_mult a b) (has_dim (d + d')) s.
Proof.
  intros Ha Hb Hua Hub Hf. apply (has_dim_some _ _ Ha) in Hua as Ea. apply (has_dim_some _ _ Hb) in Hub as Eb. unfold do_mult, int_result.
  rewrite Ea, Eb, Hf. pose proof (compatible_mult_unit a b (d + d')) as Hu.
  unfold evals. apply wpe_bind, wpe_ret. destruct (compatible_mult a b (d + d')) as [[a' b'] [t x]]. cbn in Hu. subst x.
  apply evals_ret. by right.
Qed.

Lemma evals_div d d' a b s : has_dim d a → has_dim d' b → is_undef a = false → is_undef b = false →
  fits_int (d - d') = true → evals (do_div a b) (has_dim (d - d')) s.
Proof.
  intros Ha Hb Hua Hub Hf. apply (has_dim_some _ _ Ha) in Hua as Ea. apply (has_dim_some _ _ Hb) in Hub as Eb. unfold do_div.
  destruct (is_zero (n_n b)); [by apply evals_undef|]. unfold int_result.
  rewrite Ea, Eb, Hf. pose proof (compatible_mult_unit a b (d - d')) as Hu.
  unfold evals. apply wpe_bind, wpe_ret. destruct (compatible_mult a b (d - d')) as [[a' b'] [t x]]. cbn in Hu. subst x.
  apply evals_ret. by right.
Qed.

Lemma evals_binary (ma mb : F num) op d da db s :
  evals ma (has_dim da) s → (∀ s', reported s s' → evals mb (has_dim db) s') →
  (∀ a b s', has_dim da a → has_dim db b → is_undef a = false → is_undef b = false → evals (op a b) (has_dim d) s') →
  evals (binary ma mb op) (has_dim d) s.
Proof.
  intros Ha Hb Hop. unfold binary. eapply evals_bind; [exact Ha|]. intros a s1 Hda Hs1.
  destruct (is_undef a) eqn:Ua; [apply evals_ret; by left|]. eapply evals_bind; [by apply Hb|]. intros b s2 Hdb _.
  destruct (is_undef b) eqn:Ub; [apply evals_ret; by left|]. by apply Hop.
Qed.

Lemma evals_op Γ var V : (∀ x d s, Γ x = Some d → visited s = V → evals (var x) (has_dim d) s) →
  ∀ e d s, dim Γ e = Some d → visited s = V → evals (eval_op var e) (has_dim d) s.
Proof.
  intros Hvar. induction e as [n|x|t|a IHa|a IHa|a IHa|a IHa|a IHa c IHc|a IHa c IHc|a IHa c IHc|a IHa c IHc];
    intros d s Hd HV; cbn [dim eval_op] in *.
  - destruct (is_undef n || _); [done|]. injection Hd as <-. apply evals_ret. by right.
  - eapply evals_bind; [by apply Hvar|]. intros r s' Hr _. destruct (is_undef r) eqn:E; [|by apply evals_ret].
    eapply evals_bind; [by apply evals_fail|]. intros. by apply evals_ret.
  - done.
  - apply bind_Some in Hd as (da & Ha & Hd). destruct (Z.eqb_spec da 0) as [->|]; [|done]. injection Hd as <-.
    eapply evals_bind; [by apply IHa|]. intros r s' Hr _. unfold sin_cos. destruct (is_undef r) eqn:E; [apply evals_ret; by left|].
    unfold is_dimensionless. rewrite (has_dim_some _ _ Hr E). apply evals_ret. right. cbn. by apply has_dim_some.
  - apply bind_Some in Hd as (da & Ha & Hd). destruct (Z.eqb_spec da 0) as [->|]; [|done]. injection Hd as <-.
    eapply evals_bind; [by apply IHa|]. intros r s' Hr _. unfold sin_cos. destruct (is_undef r) eqn:E; [apply evals_ret; by left|].
    unfold is_dimensionless. rewrite (has_dim_some _ _ Hr E). apply evals_ret. right. cbn. by apply has_dim_some.
  - apply bind_Some in Hd as (da & Ha & Hd). destruct (Z.odd da) eqn:Hodd; [done|]. injection Hd as <-.
    eapply evals_bind; [by apply IHa|]. intros r s' Hr _. unfold do_sqrt. destruct (is_undef r) eqn:E; [apply evals_ret; by left|].
    rewrite (has_dim_some _ _ Hr E), Hodd. destruct (dltb _ _); [by apply evals_undef|]. apply evals_ret. by right.
  - eapply evals_bind; [by apply IHa|]. intros r s' Hr _. apply evals_ret. unfold do_minus.
    destruct (is_undef r) eqn:E; [by left|]. right. cbn. by apply has_dim_some.
  - apply bind_Some in Hd as (da & Ha & (dc & Hc & Hd)%bind_Some). destruct (Z.eqb_spec da dc) as [->|]; [|done]. injection Hd as <-.
    eapply evals_binary; [by apply IHa| |intros; by apply evals_sum]. intros s' (Hv & _). apply IHc; [done|congruence].
  - apply bind_Some in Hd as (da & Ha & (dc & Hc & Hd)%bind_Some). destruct (Z.eqb_spec da dc) as [->|]; [|done]. injection Hd as <-.
    eapply evals_binary; [by apply IHa| |intros; by apply evals_sum]. intros s' (Hv & _). apply IHc; [done|congruence].
  - apply bind_Some in Hd as (da & Ha & (dc & Hc & Hd)%bind_Some). destruct (fits_int (da + dc)) eqn:Hf; [|done]. injection Hd as <-.
    eapply evals_binary; [by apply IHa| |intros; by apply evals_mult]. intros s' (Hv & _). apply IHc; [done|congruence].
  - apply bind_Some in Hd as (da & Ha & (dc & Hc & Hd)%bind_Some). destruct (fits_int (da - dc)) eqn:Hf; [|done]. injection Hd as <-.
    eapply evals_binary; [by apply IHa| |intros; by apply evals_div]. intros s' (Hv & _). apply IHc; [done|congruence].
Qed.

(** Looking a name up finds a value of a variable of that name, or nothing. *)
Lemma find_column_run Γ name vars values s : Forall2 (column_ok Γ) vars values →
  ∃ r, find_column name vars values s = Ret r s ∧
    ∀ v e, r = Some (v, e) → v ∈ vars ∧ var_name v = name ∧ column_ok Γ v e.
Proof.
  induction 1 as [|v e vars values Hc _ IH]; [by exists None|]. cbn. case_bool_decide as Hn.
  - exists (Some (v, e)). split; [done|]. intros v' e' [= <- <-]. split; [apply elem_of_cons; by left|done].
  - destruct IH as (r & Hr & H). exists r. split; [done|]. intros v' e' E. destruct (H v' e' E) as [? ?].
    split; [apply elem_of_cons; by right|done].
Qed.

Lemma find_in_tables_run Γ ids name ts s : (∀ t, t ∈ ts → table_ok Γ ids t) →
  ∃ r, find_in_tables name ts s = Ret r s ∧
    ∀ v e, r = Some (v, e) → var_id v ∈ ids ∧ var_name v = name ∧ column_ok Γ v e.
Proof.
  induction ts as [|t ts IH]; intros Hts; [by exists None|]. cbn [find_in_tables].
  destruct (Hts t) as [(i & values & Hi & Hrow) Hrows Hids]; [apply elem_of_cons; by left|].
  rewrite Hi, bind_deref_Some, Hrow, bind_deref_Some.
  destruct (find_column_run Γ name (t_vars t) values s) as (r & Hr & H); [by eapply Hrows, list_elem_of_lookup_2|].
  rewrite (bind_step _ _ _ _ _ Hr). destruct r as [[v e]|].
  - exists (Some (v, e)). split; [done|]. intros v' e' [= <- <-]. destruct (H v e eq_refl) as (Hv & ? & ?). auto.
  - apply IH. intros t' Ht'. apply Hts, elem_of_cons. by right.
Qed.

Lemma evals_eq {B} (m m' : F B) P s : m s = m' s → evals m P s → evals m' P s.
Proof. unfold evals, wpe. by intros ->. Qed.

Lemma mark_smaller (ids V : gset Z) v : v ∈ ids → (v ∉ V) → (size (ids ∖ ({[v]} ∪ V)) < size (ids ∖ V))%nat.
Proof. intros Hi HV. apply subset_size. set_solver +Hi HV. Qed.
Lemma unmark (V : gset Z) v : (v ∉ V) → ({[v]} ∪ V) ∖ {[v]} = V.
Proof. intros HV. set_solver +HV. Qed.

(** The fuel that is needed: every variable under evaluation is marked, and a frame only
    looks into frames of a lower rank. *)
Lemma evals_var Γ ids rank : frames_ok Γ ids rank → ∀ fuel fr f x d s,
  frames fr = Some f → (size (ids ∖ visited s) + rank fr < fuel)%nat → Γ x = Some d →
  evals (eval_var fuel fr x) (has_dim d) s.
Proof.
  intros Hok. induction fuel as [|fuel IH]; intros fr f x d s Hf Hfuel Hx; [lia|].
  pose proof (Hok fr f Hf) as [Htab Hloop Houter]. cbn [eval_var]. rewrite Hf.
  destruct (find_in_tables_run Γ ids x (f_tables f) s Htab) as (r & Hr & H).
  eapply evals_eq; [symmetry; rewrite bind_deref_Some; exact (bind_step _ _ _ _ _ Hr)|]. destruct r as [[v e]|].
  - destruct (H v e eq_refl) as (Hid & Hname & Hcol). unfold column_ok in Hcol. rewrite Hname, Hx in Hcol.
    eapply evals_eq; [symmetry; apply bind_get|]. destruct (decide (var_id v ∈ visited s)) as [Hvis|Hvis]; [by apply evals_undef|].
    set (s1 := set_visited ({[var_id v]} ∪ visited s) s).
    assert (evals (eval_op (eval_var fuel fr) e) (has_dim d) s1) as Hev.
    { apply (evals_op Γ _ ({[var_id v]} ∪ visited s)); [|done|done]. intros y d' t Hy Ht. apply (IH fr f); [done| |done].
      rewrite Ht. pose proof (mark_smaller ids (visited s) (var_id v) Hid Hvis). lia. }
    unfold evals in *. apply wpe_bind, wpe_modify, wpe_bind. fold s1. eapply wpe_conseq; [exact Hev|].
    intros res s2 [Hres (Hv & He & Hrep)]. apply wpe_bind, wpe_modify, wpe_ret. split; [done|].
    split; [|by split]. cbn. rewrite Hv. cbn. by apply unmark.
  - destruct (find_loop x (f_loops f)) as [l|] eqn:Hl.
    + apply find_some in Hl as [Hin Hn]. apply list_elem_of_In in Hin. apply bool_decide_eq_true in Hn.
      destruct (Hloop l Hin) as [[value Hvalue] Hd]. rewrite Hn, Hx in Hd. cbn in Hd. subst d.
      unfold loop_value. rewrite Hvalue. eapply evals_eq; [symmetry; apply bind_deref_Some|].
      destruct (deqb _ _); [apply evals_ret; by right|]. destruct (negb _); [by apply evals_undef|]. apply evals_ret. by right.
    + destruct (outer f) as [p|]; [|apply evals_ret; by left]. destruct (Houter p eq_refl) as [[g Hg] Hrank].
      apply (IH p g); [done|lia|done].
Qed.

(** [C18] Evaluation, checked for units: in frames that do not refer to themselves, whose
    tables' columns and loops have the units that [Γ] says, the evaluation of an
    expression of exponent [d] ends, however the variables depend on each other (in
    circles, too); its result is undefined or has the exponent [d]; no report is about
    units or strings; and the flags are as before. *)
Theorem eval_num_units Γ ids rank fuel fr f e d s : frames_ok Γ ids rank → frames fr = Some f →
  (size (ids ∖ visited s) + rank fr < fuel)%nat → dim Γ e = Some d →
  wpe (eval_num fuel e fr) s
    (λ r s', (is_undef r = true ∨ n_exponent r = d) ∧ visited s' = visited s ∧
      ∃ new, reports s' = reports s ++ new ∧ Forall (λ f, unit_error f = false) new)
    (λ c, c = 1 ∧ exits s = true).
Proof.
  intros Hok Hf Hfuel Hd. unfold eval_num. eapply wpe_conseq.
  - apply (evals_op Γ (eval_var fuel fr) (visited s)); [|exact Hd|done]. intros x dx t Hx Ht.
    apply (evals_var Γ ids rank Hok fuel fr f); [done|by rewrite Ht|done].
  - intros r s' [Hr (Hv & _ & Hrep)]. done.
Qed.
End eval.

Module ExprExamples.
Definition no_libm (x : double) : double := x.
Definition no_pow (x y : double) : double := dmul x y.
Definition mm (n : Z) : expr := op_num (make_mm (d_of_Z n)).
Definition plain (n : Z) : expr := op_num (make_num (d_of_Z n)).
Definition fresh (ex : bool) : fped := Fped ∅ [] ex.

(** A root frame with a width in thousandths of an inch, and a frame in it with a table,
    a variable that depends on itself and a loop. *)
Definition single (name : list Z) (id : Z) (e : expr) : table := Table [Var name id] [[e]] None (Some 0%nat).
Definition root : frame := Frame [single (b "w") 1 (op_num (make_mil (d_of_Z 50)))] [] None None.
Definition inner : frame :=
  Frame [Table [Var (b "x") 2; Var (b "y") 3] [[mm 1; mm 2]; [op_var (b "w"); op_mult (plain 2) (op_var (b "x"))]] (Some 1%nat) (Some 0%nat);
         single (b "c") 4 (op_add (op_var (b "c")) (mm 1))]
        [Loop (Var (b "i") 5) (plain 1) (plain 3) (Some HUGE_VAL) 1 (d_of_Z 1) false] (Some 10) None.
Definition two_frames (fr : Z) : option frame :=
  if fr =? 10 then Some root else if fr =? 11 then Some inner else None.

Definition units (x : list Z) : option Z :=
  if bool_decide (x ∈ [b "w"; b "x"; b "y"; b "c"]) then Some 1 else if str_eq x (b "i") then Some 0 else None.

Lemma two_frames_ok : frames_ok two_frames units {[1; 2; 3; 4]} Z.to_nat.
Proof.
  intros fr f. unfold two_frames.
  destruct (Z.eqb_spec fr 10) as [->|]; [|destruct (Z.eqb_spec fr 11) as [->|]; [|done]]; intros [= <-].
  - split.
    + intros t ->%list_elem_of_singleton. split.
      * by exists 0%nat, [op_num (make_mil (d_of_Z 50))].
      * intros v ->%list_elem_of_singleton. by repeat constructor.
      * by intros v ->%list_elem_of_singleton.
    + intros l H. by apply not_elem_of_nil in H.
    + done.
  - split.
    + intros t [->|[->|H]%elem_of_cons]%elem_of_cons; [| |by apply not_elem_of_nil in H]; split.
      * by eexists 1%nat, _.
      * intros v [->|[->|H]%elem_of_cons]%elem_of_cons; [| |by apply not_elem_of_nil in H]; by repeat constructor.
      * by intros v [->|[->|H]%elem_of_cons]%elem_of_cons; [| |apply not_elem_of_nil in H].
      * by eexists 0%nat, _.
      * intros v ->%list_elem_of_singleton. by repeat constructor.
      * by intros v ->%list_elem_of_singleton.
    + intros l ->%list_elem_of_singleton. split; [by eexists|done].
    + intros p [= <-]. split; [by eexists|]. cbn. lia.
Qed.

(** [2*y-w] in the inner frame. *)
Definition sample : expr := op_sub (op_mult (plain 2) (op_var (b "y"))) (op_var (b "w")).

Lemma eval_num_units_witness :
  wpe (eval_num no_pow no_libm no_libm two_frames 20 sample 11) (fresh false)
    (λ r s', (is_undef r = true ∨ n_exponent r = 1) ∧ visited s' = ∅ ∧
      ∃ new, reports s' = [] ++ new ∧ Forall (λ f, unit_error f = false) new)
    (λ c, c = 1 ∧ false = true).
Proof.
  apply (eval_num_units no_pow no_libm no_libm two_frames units {[1; 2; 3; 4]} Z.to_nat 20 11 inner sample 1 (fresh false)).
  - exact two_frames_ok.
  - reflexivity.
  - apply (bool_decide_eq_true_1 _). vm_compute. reflexivity.
  - reflexivity.
Defined.

(** In the row that is current [x] is 50 mil, and so [2*y-w] 150 mil; the factor 2 makes it
    millimetres. *)
Example sample_value :
  match eval_num no_pow no_libm no_libm two_frames 20 sample 11 (fresh true) with
  | Ret r s => num_text r = Some (b "3.81mm") ∧ s = fresh true
  | Stop _ => False
  end.
Proof. split; vm_compute; reflexivity. Qed.
Example circle_reported :
  eval_num no_pow no_libm no_libm two_frames 20 (op_var (b "c")) 11 (fresh false) =
  Ret undef (Fped ∅ [recursive_evaluation (b "c"); undefined_variable (b "c"); undefined_variable (b "c")] false).
Proof. vm_compute. reflexivity. Qed.

(** A table without rows, which the grammar allows, makes the look-up of any variable follow
    a NULL pointer; a loop that was never run has a value that was never assigned. *)
Lemma no_rows_crash fuel x s :
  eval_var no_pow no_libm no_libm (λ _, Some (Frame [Table [Var (b "v") 1] [] None None] [] None None)) (S fuel) 10 x s =
  Stop (Undefined "table->active_row").
Proof. done. Qed.
Lemma unset_loop_crash fuel s :
  eval_var no_pow no_libm no_libm
    (λ _, Some (Frame [] [Loop (Var (b "i") 1) (plain 1) (plain 3) None 0 (d_of_Z 0) false] None None)) (S fuel) 10 (b "i") s =
  Stop (Undefined "curr_value").
Proof. done. Qed.
End ExprExamples.
