(* ===== verification/FpdParse.v ===== *)
(** * fped: the language of expressions (eda/fped/fpd.l, fpd.y, util.c)

    The scanner with its start conditions, in which keywords are words of their own at the
    beginning of a line only, and the grammar's rules for expressions: as a relation, as
    they are written in fpd.y, and as a parser that is shown to decide it. *)

From S2P Require Import Prelude CString FpdNum FpdExpr.

(** ** Characters and tokens *)

Definition is_id_char (c : Z) (first : bool) : bool :=
  if ((ch "A" <=? c) && (c <=? ch "Z")) || ((ch "a" <=? c) && (c <=? ch "z")) || (c =? ch "_") then true
  else if first then false else isdigit c.

Definition is_id (s : list Z) : bool :=
  match s with [] => false | c :: s' => is_id_char c true && forallb (λ c, is_id_char c false) s' end.

Inductive keyword : Type :=
  | TOK_SET | TOK_LOOP | TOK_PACKAGE | TOK_FRAME | TOK_TABLE | TOK_VEC | TOK_PAD | TOK_RPAD | TOK_HOLE
  | TOK_RECT | TOK_LINE | TOK_CIRC | TOK_ARC | TOK_MEAS | TOK_MEASX | TOK_MEASY | TOK_UNIT
  | TOK_ALLOW_OVERLAP | TOK_ALLOW_TOUCH
  | TOK_DBG_DEL | TOK_DBG_MOVE | TOK_DBG_FRAME | TOK_DBG_PRINT | TOK_DBG_MEAS | TOK_DBG_DUMP | TOK_DBG_EXIT | TOK_DBG_TSORT.

Inductive token : Type :=
  | NUMBER (n : num)
  | ID (s : list Z)
  | STRING (s : list Z)
  | LABEL (s : list Z)
  | Keyword (k : keyword)
  | TOK_NEXT | TOK_NEXT_INVERTED | TOK_MAX | TOK_MAX_INVERTED
  | Char (c : Z).

#[export] Instance spec_float_eq_dec : EqDecision double.
Proof. solve_decision. Defined.
#[export] Instance num_eq_dec : EqDecision num.
Proof. solve_decision. Defined.

(** ** The scanner *)

Fixpoint span (p : Z → bool) (s : list Z) : list Z * list Z :=
  match s with
  | [] => ([], [])
  | c :: s' => if p c then (c :: fst (span p s'), snd (span p s')) else ([], s)
  end.

Definition blank (c : Z) : bool := (c =? 9) || (c =? 32).

(** [s] without [t] in front. *)
Fixpoint strip (t s : list Z) : option (list Z) :=
  match t, s with
  | [], _ => Some s
  | x :: t', y :: s' => if x =? y then strip t' s' else None
  | _, [] => None
  end.

(** The part of a number after the first digits: "\.?[0-9]*". *)
Definition scan_fraction (s : list Z) : list Z * list Z :=
  match s with
  | c :: s' => if c =? ch "." then span isdigit s' else ([], s)
  | [] => ([], [])
  end.

(** [{NUM}{SP}mm], [{NUM}{SP}mil] and [{NUM}]: the longest match. *)
Definition scan_num (s : list Z) : num * list Z :=
  let '(d1, r1) := span isdigit s in
  let '(d2, r2) := scan_fraction r1 in
  let n := of_decimal (digits_value 0 (d1 ++ d2)) (Z.of_nat (length d2)) in
  let r3 := snd (span blank r2) in
  match strip (b "mm") r3 with
  | Some r => (make_mm n, r)
  | None =>
      match strip (b "mil") r3 with
      | Some r => (make_mil n, r)
      | None => (make_num n, r2)
      end
  end.

(** The inside of a string, to the quote that ends it. *)
Fixpoint scan_string (s : list Z) : option (list Z * list Z) :=
  match s with
  | [] => None
  | c :: s' =>
      if c =? 34 then Some ([], s')
      else if (c =? LF) || (c =? 9) then None
      else if c =? 92 then
        match s' with
        | [] => None
        | c' :: s'' =>
            if (c' =? LF) || (c' =? 9) then None
            else r ← scan_string s''; Some (c :: c' :: fst r, snd r)
        end
      else r ← scan_string s'; Some (c :: fst r, snd r)
  end.

Definition two_char (c c' : Z) : option token :=
  if (c =? ch "-") && (c' =? ch ">") then Some TOK_NEXT
  else if (c =? ch "<") && (c' =? ch "-") then Some TOK_NEXT_INVERTED
  else if (c =? ch ">") && (c' =? ch ">") then Some TOK_MAX
  else if (c =? ch "<") && (c' =? ch "<") then Some TOK_MAX_INVERTED
  else None.

(** The start condition and the scanner's variables; [at_bol] is kept by flex for the rule that
    is for the beginning of a line.  None of them but the last is changed when [yy_scan_string] starts with
    another text. *)
Inductive condition : Type := INITIAL | NOKEYWORD | ALLOW.
Record scanner : Type := Scanner { start : condition; disable_keywords : bool; is_table : bool; at_bol : bool }.

Definition begin (k : condition) (st : scanner) : scanner := Scanner k (disable_keywords st) (is_table st) (at_bol st).
Definition set_disable (v : bool) (st : scanner) : scanner := Scanner (start st) v (is_table st) (at_bol st).
Definition set_is_table (v : bool) (st : scanner) : scanner := Scanner (start st) (disable_keywords st) v (at_bol st).
Definition set_bol (v : bool) (st : scanner) : scanner := Scanner (start st) (disable_keywords st) (is_table st) v.

Definition keywords : list (list Z * keyword) :=
  [(b "set", TOK_SET); (b "loop", TOK_LOOP); (b "part", TOK_PACKAGE); (b "package", TOK_PACKAGE); (b "frame", TOK_FRAME);
   (b "table", TOK_TABLE); (b "vec", TOK_VEC); (b "pad", TOK_PAD); (b "rpad", TOK_RPAD); (b "hole", TOK_HOLE);
   (b "rect", TOK_RECT); (b "line", TOK_LINE); (b "circ", TOK_CIRC); (b "arc", TOK_ARC); (b "meas", TOK_MEAS);
   (b "measx", TOK_MEASX); (b "measy", TOK_MEASY); (b "unit", TOK_UNIT)].
Definition allow_keywords : list (list Z * keyword) := [(b "overlap", TOK_ALLOW_OVERLAP); (b "touch", TOK_ALLOW_TOUCH)].
Definition debug_keywords : list (list Z * keyword) :=
  [(b "del", TOK_DBG_DEL); (b "move", TOK_DBG_MOVE); (b "frame", TOK_DBG_FRAME); (b "print", TOK_DBG_PRINT);
   (b "meas", TOK_DBG_MEAS); (b "dump", TOK_DBG_DUMP); (b "exit", TOK_DBG_EXIT); (b "tsort", TOK_DBG_TSORT)].

Definition lookup_word (w : list Z) (l : list (list Z * keyword)) : option keyword :=
  snd <$> find (λ e, str_eq w (fst e)) l.

(** The debugging keyword at the front. *)
Fixpoint lookup_prefix (s : list Z) (l : list (list Z * keyword)) : option (keyword * list Z) :=
  match l with
  | [] => None
  | (x, k) :: l' => match strip x s with Some r => Some (k, r) | None => lookup_prefix s l' end
  end.

(** What a keyword does to [is_table]. *)
Definition note_table (k : keyword) (st : scanner) : scanner :=
  match k with TOK_FRAME => set_is_table false st | TOK_TABLE => set_is_table true st | _ => st end.

(** A word that no colon follows. *)
Definition scan_word (st : scanner) (w : list Z) : option token * scanner :=
  match start st with
  | INITIAL =>
      match lookup_word w keywords with
      | Some k => (Some (Keyword k), note_table k (begin NOKEYWORD st))
      | None => if str_eq w (b "allow") then (None, begin ALLOW st) else (Some (ID w), st)
      end
  | ALLOW => (Some (default (ID w) (Keyword <$> lookup_word w allow_keywords)), st)
  | NOKEYWORD => (Some (ID w), st)
  end.

(** The numbers at the end of a line directive, each after a space, and the newline. *)
Fixpoint scan_flags (must_digit may_digit : bool) (s : list Z) : option (list Z) :=
  match s with
  | [] => None
  | c :: s' =>
      if isdigit c && (must_digit || may_digit) then scan_flags false true s'
      else if must_digit then None
      else if c =? 32 then scan_flags true false s'
      else if c =? LF then Some s'
      else None
  end.

(** A line directive after its first character: a space, a number, a space and a string in quotes,
    which may hold anything but a quote. *)
Definition scan_directive (s : list Z) : option (list Z) :=
  s ← strip (b " ") s;
  let '(d, s) := span isdigit s in
  if (length d =? 0)%nat then None
  else
    s ← strip [32; 34] s;
    s ← strip [34] (snd (span (λ c, negb (c =? 34)) s));
    scan_flags false false s.

Definition new_line (st : scanner) : scanner := if disable_keywords st then st else begin INITIAL st.

(** A character that starts nothing longer. *)
Definition scan_char (st : scanner) (c : Z) : option token * scanner :=
  if c =? ch "{" then
    let st := set_disable (is_table st) st in
    (Some (Char c), begin (if disable_keywords st then NOKEYWORD else INITIAL) st)
  else if c =? ch "}" then (Some (Char c), begin INITIAL (set_disable false st))
  else (Some (Char c), st).

(** One token, or nothing for white space and for the like, and the rest. *)
Definition scan_token (st0 : scanner) (c : Z) (s : list Z) : option token * scanner * list Z :=
  let st := set_bol false st0 in
  if blank c then (None, st, s)
  else if c =? LF then (None, set_bol true (new_line st), s)
  else if c =? ch ";" then (None, begin INITIAL st, s)
  else if is_id_char c true then
    let '(w, r) := span (λ c, is_id_char c false) s in
    match start st, strip (b ":") r with
    | INITIAL, Some r' => (Some (LABEL (c :: w)), st, r')
    | _, _ => let '(t, st) := scan_word st (c :: w) in (t, st, r)
    end
  else if isdigit c then let '(n, r) := scan_num (c :: s) in (Some (NUMBER n), st, r)
  else
    match (if c =? 34 then scan_string s else None) with
    | Some (t, r) => (Some (STRING t), st, r)
    | None =>
        match (if at_bol st0 && (c =? ch "#") then scan_directive s else None) with
        | Some r => (None, set_bol true (new_line st), r)
        | None =>
            match start st, (if c =? ch "%" then lookup_prefix s debug_keywords else None) with
            | INITIAL, Some (k, r) => (Some (Keyword k), begin NOKEYWORD st, r)
            | _, _ =>
                match s with
                | c' :: s' =>
                    match two_char c c' with
                    | Some t => (Some t, st, s')
                    | None => let '(t, st) := scan_char st c in (t, st, s)
                    end
                | [] => let '(t, st) := scan_char st c in (t, st, [])
                end
            end
        end
    end.

Fixpoint scan (fuel : nat) (st : scanner) (s : list Z) : list token :=
  match fuel, s with
  | O, _ | _, [] => []
  | S f, c :: s' => let '(t, st, r) := scan_token st c s' in option_list t ++ scan f st r
  end.
Definition yylex (st : scanner) (s : list Z) : list token := scan (length s) st s.

(** [yy_scan_string]: a new buffer starts at the beginning of a line. *)
Definition scan_expr (st : scanner) (s : list Z) : list token := yylex (set_bol true st) s.

(** ** The grammar *)

Inductive symbol : Type := add_expr | mult_expr | unary_expr | primary_expr.

Definition function (x : list Z) (e : expr) : option expr :=
  if str_eq x (b "sin") then Some (op_sin e)
  else if str_eq x (b "cos") then Some (op_cos e)
  else if str_eq x (b "sqrt") then Some (op_sqrt e)
  else None.

Abbreviation PLUS := (Char 43).
Abbreviation MINUS := (Char 45).
Abbreviation TIMES := (Char 42).
Abbreviation SLASH := (Char 47).
Abbreviation OPEN := (Char 40).
Abbreviation CLOSE := (Char 41).

Inductive derives : symbol → list token → expr → Prop :=
  | d_add_mult u e : derives mult_expr u e → derives add_expr u e
  | d_add u v e e' : derives add_expr u e → derives mult_expr v e' → derives add_expr (u ++ PLUS :: v) (op_add e e')
  | d_sub u v e e' : derives add_expr u e → derives mult_expr v e' → derives add_expr (u ++ MINUS :: v) (op_sub e e')
  | d_mult_unary u e : derives unary_expr u e → derives mult_expr u e
  | d_mult u v e e' : derives mult_expr u e → derives unary_expr v e' → derives mult_expr (u ++ TIMES :: v) (op_mult e e')
  | d_div u v e e' : derives mult_expr u e → derives unary_expr v e' → derives mult_expr (u ++ SLASH :: v) (op_div e e')
  | d_unary_primary u e : derives primary_expr u e → derives unary_expr u e
  | d_minus u e : derives primary_expr u e → derives unary_expr (MINUS :: u) (op_minus e)
  | d_number n : derives primary_expr [NUMBER n] (op_num n)
  | d_id x : derives primary_expr [ID x] (op_var x)
  | d_string s : derives primary_expr [STRING s] (op_string s)
  | d_parens u e : derives add_expr u e → derives primary_expr (OPEN :: u ++ [CLOSE]) e
  | d_function x u e e' : derives add_expr u e → function x e = Some e' →
      derives primary_expr (ID x :: OPEN :: u ++ [CLOSE]) e'.

(** ** A parser *)

Abbreviation result := (option (expr * list token)).

Definition close (r : result) (f : expr → option expr) : result :=
  match r with
  | Some (e, t :: ts) =>
      match t with
      | Char c => if c =? 41 then e' ← f e; Some (e', ts) else None
      | _ => None
      end
  | _ => None
  end.

Fixpoint p_add (fuel : nat) (ts : list token) : result :=
  match fuel with
  | O => None
  | S f => r ← p_mult f ts; p_add_rest f (fst r) (snd r)
  end
with p_add_rest (fuel : nat) (e : expr) (ts : list token) : result :=
  match fuel with
  | O => None
  | S f =>
      match ts with
      | Char c :: ts' =>
          if c =? 43 then r ← p_mult f ts'; p_add_rest f (op_add e (fst r)) (snd r)
          else if c =? 45 then r ← p_mult f ts'; p_add_rest f (op_sub e (fst r)) (snd r)
          else Some (e, ts)
      | _ => Some (e, ts)
      end
  end
with p_mult (fuel : nat) (ts : list token) : result :=
  match fuel with
  | O => None
  | S f => r ← p_unary f ts; p_mult_rest f (fst r) (snd r)
  end
with p_mult_rest (fuel : nat) (e : expr) (ts : list token) : result :=
  match fuel with
  | O => None
  | S f =>
      match ts with
      | Char c :: ts' =>
          if c =? 42 then r ← p_unary f ts'; p_mult_rest f (op_mult e (fst r)) (snd r)
          else if c =? 47 then r ← p_unary f ts'; p_mult_rest f (op_div e (fst r)) (snd r)
          else Some (e, ts)
      | _ => Some (e, ts)
      end
  end
with p_unary (fuel : nat) (ts : list token) : result :=
  match fuel with
  | O => None
  | S f =>
      match ts with
      | Char c :: ts' =>
          if c =? 45 then r ← p_primary f ts'; Some (op_minus (fst r), snd r) else p_primary f ts
      | _ => p_primary f ts
      end
  end
with p_primary (fuel : nat) (ts : list token) : result :=
  match fuel with
  | O => None
  | S f =>
      match ts with
      | NUMBER n :: ts' => Some (op_num n, ts')
      | STRING s :: ts' => Some (op_string s, ts')
      | ID x :: ts' =>
          match ts' with
          | Char c :: ts'' => if c =? 40 then close (p_add f ts'') (function x) else Some (op_var x, ts')
          | _ => Some (op_var x, ts')
          end
      | Char c :: ts' => if c =? 40 then close (p_add f ts') Some else None
      | _ => None
      end
  end.

(** [START_EXPR expr]: everything has to be read. *)
Definition parse_tokens (ts : list token) : option expr :=
  match p_add (5 * length ts + 5) ts with Some (e, []) => Some e | _ => None end.
Definition parse_expr (st : scanner) (s : list Z) : option expr := parse_tokens (scan_expr st s).

(** ** The parser decides the grammar *)

Lemma derives_nonempty y u e : derives y u e → u ≠ [].
Proof. induction 1; try done; intros E; by destruct u. Qed.

Definition reads (y : symbol) (p : list token → result) : Prop :=
  ∀ ts e r, p ts = Some (e, r) → ∃ u, ts = u ++ r ∧ derives y u e.
Definition reads_rest (y : symbol) (p : expr → list token → result) : Prop :=
  ∀ ts e0 u0 e r, p e0 ts = Some (e, r) → derives y u0 e0 → ∃ u, ts = u ++ r ∧ derives y (u0 ++ u) e.

Lemma close_reads f k ts e r : reads add_expr (p_add f) → close (p_add f ts) k = Some (e, r) →
  ∃ u e', ts = u ++ CLOSE :: r ∧ derives add_expr u e' ∧ k e' = Some e.
Proof.
  intros Hadd H. unfold close in H. destruct (p_add f ts) as [[e' [|[] ts']]|] eqn:E; try done.
  destruct (Z.eqb_spec c 41) as [->|]; [|done]. apply bind_Some in H as (e2 & Hk & [= <- <-]).
  apply Hadd in E as (u & -> & Hu). eauto.
Qed.

Lemma parser_sound f :
  reads add_expr (p_add f) ∧ reads_rest add_expr (p_add_rest f) ∧ reads mult_expr (p_mult f) ∧
  reads_rest mult_expr (p_mult_rest f) ∧ reads unary_expr (p_unary f) ∧ reads primary_expr (p_primary f).
Proof.
  induction f as [|f (IHa & IHar & IHm & IHmr & IHu & IHp)]; [by repeat split|]. split_and!.
  - intros ts e r H. cbn in H. apply bind_Some in H as ([e1 r1] & H1 & H2). cbn in H2.
    apply IHm in H1 as (u & -> & Hu). apply (IHar _ _ u) in H2 as (v & -> & Hv); [|by constructor].
    exists (u ++ v). by rewrite app_assoc.
  - intros ts e0 u0 e r H Hu0. cbn in H.
    assert (Some (e0, ts) = Some (e, r) → ∃ u, ts = u ++ r ∧ derives add_expr (u0 ++ u) e) as Hstop.
    { intros [= <- <-]. exists []. by rewrite app_nil_r. }
    destruct ts as [|[] ts']; try by apply Hstop.
    destruct (Z.eqb_spec c 43) as [->|]; [|destruct (Z.eqb_spec c 45) as [->|]; [|by apply Hstop]];
      apply bind_Some in H as ([e1 r1] & H1 & H2); cbn in H2; apply IHm in H1 as (v & -> & Hv).
    + apply (IHar _ _ (u0 ++ PLUS :: v)) in H2 as (w & -> & Hw); [|by constructor].
      exists (PLUS :: v ++ w). rewrite <- app_assoc in Hw. cbn. by rewrite <- app_assoc.
    + apply (IHar _ _ (u0 ++ MINUS :: v)) in H2 as (w & -> & Hw); [|by constructor].
      exists (MINUS :: v ++ w). rewrite <- app_assoc in Hw. cbn. by rewrite <- app_assoc.
  - intros ts e r H. cbn in H. apply bind_Some in H as ([e1 r1] & H1 & H2). cbn in H2.
    apply IHu in H1 as (u & -> & Hu). apply (IHmr _ _ u) in H2 as (v & -> & Hv); [|by constructor].
    exists (u ++ v). by rewrite app_assoc.
  - intros ts e0 u0 e r H Hu0. cbn in H.
    assert (Some (e0, ts) = Some (e, r) → ∃ u, ts = u ++ r ∧ derives mult_expr (u0 ++ u) e) as Hstop.
    { intros [= <- <-]. exists []. by rewrite app_nil_r. }
    destruct ts as [|[] ts']; try by apply Hstop.
    destruct (Z.eqb_spec c 42) as [->|]; [|destruct (Z.eqb_spec c 47) as [->|]; [|by apply Hstop]];
      apply bind_Some in H as ([e1 r1] & H1 & H2); cbn in H2; apply IHu in H1 as (v & -> & Hv).
    + apply (IHmr _ _ (u0 ++ TIMES :: v)) in H2 as (w & -> & Hw); [|by constructor].
      exists (TIMES :: v ++ w). rewrite <- app_assoc in Hw. cbn. by rewrite <- app_assoc.
    + apply (IHmr _ _ (u0 ++ SLASH :: v)) in H2 as (w & -> & Hw); [|by constructor].
      exists (SLASH :: v ++ w). rewrite <- app_assoc in Hw. cbn. by rewrite <- app_assoc.
  - intros ts e r H. cbn in H.
    assert (p_primary f ts = Some (e, r) → ∃ u, ts = u ++ r ∧ derives unary_expr u e) as Hprim.
    { intros (u & -> & Hu)%IHp. exists u. split; [done|]. by constructor. }
    destruct ts as [|[] ts']; try by apply Hprim.
    destruct (Z.eqb_spec c 45) as [->|]; [|by apply Hprim]. apply bind_Some in H as ([e1 r1] & H1 & [= <- <-]).
    apply IHp in H1 as (u & -> & Hu). exists (MINUS :: u). split; [done|]. by constructor.
  - intros ts e r H. cbn in H. destruct ts as [|[n|x|t| | | | | | |c] ts']; try done.
    + injection H as <- <-. exists [NUMBER n]. split; [done|constructor].
    + assert (Some (op_var x, ts') = Some (e, r) → ∃ u, ID x :: ts' = u ++ r ∧ derives primary_expr u e) as Hvar.
      { intros [= <- <-]. exists [ID x]. split; [done|constructor]. }
      destruct ts' as [|[] ts'']; try by apply Hvar. destruct (Z.eqb_spec c 40) as [->|]; [|by apply Hvar].
      apply close_reads in H as (u & e' & -> & Hu & Hf); [|done].
      exists (ID x :: OPEN :: u ++ [CLOSE]). split; [cbn; by rewrite <- app_assoc|by eapply d_function].
    + injection H as <- <-. exists [STRING t]. split; [done|constructor].
    + destruct (Z.eqb_spec c 40) as [->|]; [|done].
      apply close_reads in H as (u & e' & -> & Hu & [= ->]); [|done].
      exists (OPEN :: u ++ [CLOSE]). split; [cbn; by rewrite <- app_assoc|by constructor].
Qed.

Lemma reads_shorter y p ts e r : reads y p → p ts = Some (e, r) → (length r < length ts)%nat.
Proof.
  intros Hp (u & -> & Hu%derives_nonempty)%Hp. rewrite length_app. destruct u; [done|]. cbn. lia.
Qed.

(** With enough fuel more of it makes no difference. *)
Definition stable (n : nat) (p p' : list token → result) (f : nat) : Prop :=
  ∀ ts, (4 * length ts + n ≤ f)%nat → p ts = p' ts.

(** The functions a step further. *)
Lemma p_add_S f ts : p_add (S f) ts = (r ← p_mult f ts; p_add_rest f (fst r) (snd r)).
Proof. done. Qed.
Lemma p_add_rest_S f e ts : p_add_rest (S f) e ts =
  match ts with
  | Char c :: ts' =>
      if c =? 43 then r ← p_mult f ts'; p_add_rest f (op_add e (fst r)) (snd r)
      else if c =? 45 then r ← p_mult f ts'; p_add_rest f (op_sub e (fst r)) (snd r)
      else Some (e, ts)
  | _ => Some (e, ts)
  end.
Proof. done. Qed.
Lemma p_mult_S f ts : p_mult (S f) ts = (r ← p_unary f ts; p_mult_rest f (fst r) (snd r)).
Proof. done. Qed.
Lemma p_mult_rest_S f e ts : p_mult_rest (S f) e ts =
  match ts with
  | Char c :: ts' =>
      if c =? 42 then r ← p_unary f ts'; p_mult_rest f (op_mult e (fst r)) (snd r)
      else if c =? 47 then r ← p_unary f ts'; p_mult_rest f (op_div e (fst r)) (snd r)
      else Some (e, ts)
  | _ => Some (e, ts)
  end.
Proof. done. Qed.
Lemma p_unary_S f ts : p_unary (S f) ts =
  match ts with
  | Char c :: ts' => if c =? 45 then r ← p_primary f ts'; Some (op_minus (fst r), snd r) else p_primary f ts
  | _ => p_primary f ts
  end.
Proof. done. Qed.
Lemma p_primary_S f ts : p_primary (S f) ts =
  match ts with
  | NUMBER n :: ts' => Some (op_num n, ts')
  | STRING s :: ts' => Some (op_string s, ts')
  | ID x :: ts' =>
      match ts' with
      | Char c :: ts'' => if c =? 40 then close (p_add f ts'') (function x) else Some (op_var x, ts')
      | _ => Some (op_var x, ts')
      end
  | Char c :: ts' => if c =? 40 then close (p_add f ts') Some else None
  | _ => None
  end.
Proof. done. Qed.

Lemma stable_rest (p p' : list token → result) (q q' : expr → list token → result) (k : expr → expr) y n f ts :
  reads y p → p ts = p' ts → (∀ e, stable 1 (q e) (q' e) f) → (4 * length ts + n ≤ f)%nat →
  (r ← p ts; q (k (fst r)) (snd r)) = (r ← p' ts; q' (k (fst r)) (snd r)).
Proof.
  intros Hp E Hq Hf. rewrite <- E. destruct (p ts) as [[e r]|] eqn:Er; [|done]. cbn [mbind option_bind fst snd].
  apply (reads_shorter _ _ _ _ _ Hp) in Er. apply Hq. lia.
Qed.

Lemma parser_stable f :
  stable 4 (p_add f) (p_add (S f)) f ∧ (∀ e, stable 1 (p_add_rest f e) (p_add_rest (S f) e) f) ∧
  stable 3 (p_mult f) (p_mult (S f)) f ∧ (∀ e, stable 1 (p_mult_rest f e) (p_mult_rest (S f) e) f) ∧
  stable 2 (p_unary f) (p_unary (S f)) f ∧ stable 1 (p_primary f) (p_primary (S f)) f.
Proof.
  induction f as [|f (IHa & IHar & IHm & IHmr & IHu & IHp)]; [split_and!; unfold stable; intros; lia|].
  destruct (parser_sound f) as (Sa & _ & Sm & _ & Su & _). split_and!.
  - intros ts H. rewrite (p_add_S (S f)), (p_add_S f).
    apply (stable_rest _ _ _ _ (λ e, e) mult_expr 0 f); [done|apply IHm; lia|done|lia].
  - intros e ts H. rewrite (p_add_rest_S (S f)), (p_add_rest_S f). destruct ts as [|[] ts']; try done. cbn [length] in H.
    destruct (c =? 43); [|destruct (c =? 45); [|done]];
      (eapply (stable_rest _ _ _ _ _ mult_expr 0 f); [done|apply IHm; lia|done|lia]).
  - intros ts H. rewrite (p_mult_S (S f)), (p_mult_S f).
    apply (stable_rest _ _ _ _ (λ e, e) unary_expr 0 f); [done|apply IHu; lia|done|lia].
  - intros e ts H. rewrite (p_mult_rest_S (S f)), (p_mult_rest_S f). destruct ts as [|[] ts']; try done. cbn [length] in H.
    destruct (c =? 42); [|destruct (c =? 47); [|done]];
      (eapply (stable_rest _ _ _ _ _ unary_expr 0 f); [done|apply IHu; lia|done|lia]).
  - intros ts H. rewrite (p_unary_S (S f)), (p_unary_S f). destruct ts as [|[] ts']; try (apply IHp; lia). cbn [length] in H.
    rewrite (IHp ts') by lia. by rewrite (IHp (Char c :: ts')) by (cbn; lia).
  - intros ts H. rewrite (p_primary_S (S f)), (p_primary_S f). destruct ts as [|[] ts']; try done; cbn [length] in H.
    + destruct ts' as [|[] ts'']; try done. cbn [length] in H. by rewrite IHa by lia.
    + by rewrite IHa by lia.
Qed.

Lemma p_add_enough ts f g : (4 * length ts + 4 ≤ f)%nat → (4 * length ts + 4 ≤ g)%nat → p_add f ts = p_add g ts.
Proof.
  assert (∀ k, p_add (4 * length ts + 4) ts = p_add (k + (4 * length ts + 4)) ts) as Hk.
  { induction k as [|k IH]; [done|]. rewrite IH. apply parser_stable. lia. }
  intros Hf Hg. replace f with (f - (4 * length ts + 4) + (4 * length ts + 4))%nat by lia.
  replace g with (g - (4 * length ts + 4) + (4 * length ts + 4))%nat by lia. by rewrite <- !Hk.
Qed.

Definition eventually (P : nat → Prop) : Prop := ∃ f0, ∀ f, (f0 ≤ f)%nat → P f.

Lemma eventually_step (P Q : nat → Prop) : eventually P → (∀ f, P f → Q (S f)) → eventually Q.
Proof. intros [f0 H] HQ. exists (S f0). intros [|f] Hf; [lia|]. apply HQ, H. lia. Qed.
Lemma eventually_and (P Q : nat → Prop) : eventually P → eventually Q → eventually (λ f, P f ∧ Q f).
Proof. intros [f0 H] [g0 G]. exists (f0 + g0)%nat. intros f Hf. split; [apply H|apply G]; lia. Qed.

Definition starts_with (cs : list Z) (ts : list token) : Prop := ∃ c ts', ts = Char c :: ts' ∧ c ∈ cs.

Lemma starts_other cs c ts : (c ∉ cs) → ¬ starts_with cs (Char c :: ts).
Proof. intros Hc (c' & ts' & [= -> ->] & H). done. Qed.

(** What the parser does with a phrase and what follows it. *)
Definition completes (y : symbol) (u : list token) (e : expr) : Prop :=
  match y with
  | add_expr => ∀ rest r, ¬ starts_with [40; 42; 47] rest →
      eventually (λ f, p_add_rest f e rest = r) → eventually (λ f, p_add f (u ++ rest) = r)
  | mult_expr => ∀ rest r, ¬ starts_with [40] rest →
      eventually (λ f, p_mult_rest f e rest = r) → eventually (λ f, p_mult f (u ++ rest) = r)
  | unary_expr => ∀ rest, ¬ starts_with [40] rest → eventually (λ f, p_unary f (u ++ rest) = Some (e, rest))
  | primary_expr => ∀ rest, ¬ starts_with [40] rest → eventually (λ f, p_primary f (u ++ rest) = Some (e, rest))
  end.

(** Membership in short lists of characters. *)
Ltac in_list := repeat first [by apply elem_of_cons; left|apply elem_of_cons; right].
Ltac not_in_list := let H := fresh in intros H;
  repeat (apply elem_of_cons in H as [H|H]; [done|]); by apply not_elem_of_nil in H.

Lemma starts_here cs c ts : c ∈ cs → starts_with cs (Char c :: ts).
Proof. intros H. by exists c, ts. Qed.

Lemma add_rest_stop f e rest : ¬ starts_with [43; 45] rest → p_add_rest (S f) e rest = Some (e, rest).
Proof.
  intros H. rewrite p_add_rest_S. destruct rest as [|[] ts]; try done.
  destruct (Z.eqb_spec c 43) as [->|]; [destruct H; apply starts_here; in_list|].
  destruct (Z.eqb_spec c 45) as [->|]; [destruct H; apply starts_here; in_list|]. done.
Qed.
Lemma mult_rest_stop f e rest : ¬ starts_with [42; 47] rest → p_mult_rest (S f) e rest = Some (e, rest).
Proof.
  intros H. rewrite p_mult_rest_S. destruct rest as [|[] ts]; try done.
  destruct (Z.eqb_spec c 42) as [->|]; [destruct H; apply starts_here; in_list|].
  destruct (Z.eqb_spec c 47) as [->|]; [destruct H; apply starts_here; in_list|]. done.
Qed.

Lemma starts_incl cs ds ts : cs ⊆ ds → starts_with cs ts → starts_with ds ts.
Proof. intros H (c & ts' & -> & Hc). exists c, ts'. auto. Qed.

Lemma eventually_S (P : nat → Prop) : (∀ f, P (S f)) → eventually P.
Proof. intros H. exists 1%nat. intros [|f] Hf; [lia|done]. Qed.

(** The multiplicative phrase at the front of an additive one. *)
Lemma completes_mult u e rest : completes mult_expr u e → ¬ starts_with [40; 42; 47] rest →
  eventually (λ f, p_mult f (u ++ rest) = Some (e, rest)).
Proof.
  intros H Hr. apply H.
  - intros Hs. apply Hr. eapply starts_incl; [|exact Hs]. intros c Hc. apply elem_of_cons. left. by apply list_elem_of_singleton.
  - apply eventually_S. intros f. apply mult_rest_stop. intros Hs. apply Hr. eapply starts_incl; [|exact Hs].
    intros c Hc. apply elem_of_cons. by right.
Qed.

Lemma eventually_mono (P Q : nat → Prop) : eventually P → (∀ f, P f → Q f) → eventually Q.
Proof. intros [f0 H] HQ. exists f0. auto. Qed.

Lemma completes_parens u e k e' rest : completes add_expr u e → k e = Some e' →
  eventually (λ f, close (p_add f (u ++ CLOSE :: rest)) k = Some (e', rest)).
Proof.
  intros H Hk. eapply eventually_mono; [apply (H (CLOSE :: rest) (Some (e, CLOSE :: rest)))|].
  - apply starts_other. not_in_list.
  - apply eventually_S. intros f. apply add_rest_stop, starts_other. not_in_list.
  - intros f Hf. cbv beta in Hf. rewrite Hf. cbn. by rewrite Hk.
Qed.

Lemma completes_op (op : Z) u v e e' (mk : expr → expr → expr) rest r : (op ∉ [40; 42; 47]) →
  (∀ f e ts, p_add_rest (S f) e (Char op :: ts) = (r ← p_mult f ts; p_add_rest f (mk e (fst r)) (snd r))) →
  completes add_expr u e → completes mult_expr v e' → ¬ starts_with [40; 42; 47] rest →
  eventually (λ f, p_add_rest f (mk e e') rest = r) → eventually (λ f, p_add f (u ++ Char op :: v ++ rest) = r).
Proof.
  intros Hop Hstep Hu Hv Hr Hrest. apply Hu.
  { by apply starts_other. }
  eapply eventually_step; [apply eventually_and; [exact Hrest|by apply (completes_mult v e' rest)]|].
  intros f [H1 H2]. rewrite Hstep, H2. exact H1.
Qed.

Lemma completes_mult_op (op : Z) u v e e' (mk : expr → expr → expr) rest r : (op ∉ [40]) →
  (∀ f e ts, p_mult_rest (S f) e (Char op :: ts) = (r ← p_unary f ts; p_mult_rest f (mk e (fst r)) (snd r))) →
  completes mult_expr u e → completes unary_expr v e' → ¬ starts_with [40] rest →
  eventually (λ f, p_mult_rest f (mk e e') rest = r) → eventually (λ f, p_mult f (u ++ Char op :: v ++ rest) = r).
Proof.
  intros Hop Hstep Hu Hv Hr Hrest. apply Hu.
  { by apply starts_other. }
  eapply eventually_step; [apply eventually_and; [exact Hrest|by apply (Hv rest)]|].
  intros f [H1 H2]. rewrite Hstep, H2. exact H1.
Qed.

Lemma primary_start u e : derives primary_expr u e → ∃ t v, u = t :: v ∧ t ≠ MINUS.
Proof. intros H. inversion H; subst; by eexists _, _. Qed.

Lemma parser_complete y u e : derives y u e → completes y u e.
Proof.
  induction 1 as [u e _ IH|u v e e' _ IHu _ IHv|u v e e' _ IHu _ IHv|u e _ IH|u v e e' _ IHu _ IHv|u v e e' _ IHu _ IHv
                 |u e Hd IH|u e _ IH|n|x|t|u e _ IH|x u e e' _ IH Hf].
  - intros rest r Hr Hrest.
    eapply eventually_step; [apply eventually_and; [exact Hrest|by apply (completes_mult u e rest)]|].
    intros f [H1 H2]. rewrite p_add_S, H2. exact H1.
  - intros rest r Hr Hrest. rewrite <- app_assoc. apply (completes_op 43 u v e e' op_add); [not_in_list|done..].
  - intros rest r Hr Hrest. rewrite <- app_assoc. apply (completes_op 45 u v e e' op_sub); [not_in_list|done..].
  - intros rest r Hr Hrest. eapply eventually_step; [apply eventually_and; [exact Hrest|by apply (IH rest)]|].
    intros f [H1 H2]. rewrite p_mult_S, H2. exact H1.
  - intros rest r Hr Hrest. rewrite <- app_assoc. apply (completes_mult_op 42 u v e e' op_mult); [not_in_list|done..].
  - intros rest r Hr Hrest. rewrite <- app_assoc. apply (completes_mult_op 47 u v e e' op_div); [not_in_list|done..].
  - intros rest Hr. eapply eventually_step; [by apply (IH rest)|]. intros f H.
    rewrite <- H, p_unary_S. destruct (primary_start u e Hd) as (t & v & -> & Ht). cbn [app].
    destruct t; try done. destruct (Z.eqb_spec c 45) as [->|]; done.
  - intros rest Hr. eapply eventually_step; [by apply (IH rest)|]. intros f H. cbn [app]. by rewrite p_unary_S; cbn; rewrite H.
  - intros rest Hr. by apply eventually_S.
  - intros rest Hr. apply eventually_S. intros f. cbn [app]. rewrite p_primary_S. destruct rest as [|[] ts]; try done.
    destruct (Z.eqb_spec c 40) as [->|]; [|done]. destruct Hr. apply starts_here. in_list.
  - intros rest Hr. by apply eventually_S.
  - intros rest Hr. eapply eventually_step; [by apply (completes_parens u e Some e rest)|]. intros f H.
    cbn [app]. rewrite <- app_assoc. exact H.
  - intros rest Hr. eapply eventually_step; [by apply (completes_parens u e (function x) e' rest)|]. intros f H.
    cbn [app]. rewrite <- app_assoc. exact H.
Qed.

Lemma parser_decides_tokens ts e : derives add_expr ts e ↔ parse_tokens ts = Some e.
Proof.
  symmetry. unfold parse_tokens. split.
  - destruct (p_add _ ts) as [[e' [|]]|] eqn:E; [|done..]. intros [= ->].
    apply parser_sound in E as (u & -> & Hu). by rewrite app_nil_r.
  - intros H. apply parser_complete in H. destruct (H [] (Some (e, []))) as [f0 Hf].
    + by intros (? & ? & ? & ?).
    + apply eventually_S. intros f. apply add_rest_stop. by intros (? & ? & ? & ?).
    + rewrite app_nil_r in Hf. rewrite (p_add_enough ts (5 * length ts + 5) (f0 + 4 * length ts + 4)) by lia.
      by rewrite Hf by lia.
Qed.

(** [C17] The parser decides the grammar: it reads a list of tokens as an expression exactly
    when the rules of fpd.y derive that expression, and so no tokens have two readings. *)
Theorem parser_decides_grammar ts e : parse_tokens ts = Some e ↔ derives add_expr ts e.
Proof. symmetry. apply parser_decides_tokens. Qed.

Module ParseTests.
(** The scanner as it is when the program starts and after a line; and after a keyword. *)
Definition line_start : scanner := Scanner INITIAL false false true.
Definition in_line : scanner := Scanner NOKEYWORD false false false.

Example precedence : parse_expr line_start (b "a+2*b-c") =
  Some (op_sub (op_add (op_var (b "a")) (op_mult (op_num (make_num (d_of_Z 2))) (op_var (b "b")))) (op_var (b "c"))).
Proof. vm_compute. reflexivity. Qed.
Example units : parse_expr line_start (b "1.5 mm/2 mil") =
  Some (op_div (op_num (make_mm (of_decimal 15 1))) (op_num (make_mil (d_of_Z 2)))).
Proof. vm_compute. reflexivity. Qed.
Example functions : parse_expr line_start (b "sqrt(sin(x))") = Some (op_sqrt (op_sin (op_var (b "x")))).
Proof. vm_compute. reflexivity. Qed.
Example minus : parse_expr line_start (b "-(-x)") = Some (op_minus (op_minus (op_var (b "x")))).
Proof. vm_compute. reflexivity. Qed.
Example minus_twice : parse_expr line_start (b "--x") = None.
Proof. vm_compute. reflexivity. Qed.
Example arrow : parse_expr line_start (b "a->b") = None.
Proof. vm_compute. reflexivity. Qed.

(** The lines of a file, with a label, a line directive and a table in which no keywords are. *)
Example file_tokens :
  yylex line_start (b "# 1 " ++ [34] ++ b "x.fpd" ++ [34] ++ b " 2" ++ [LF] ++ b "table {pad,set}" ++ [LF] ++ b "v: vec @(1mm,pad)" ++ [LF] ++ b "padx") =
  [Keyword TOK_TABLE; Char (ch "{"); ID (b "pad"); Char (ch ","); ID (b "set"); Char (ch "}");
   LABEL (b "v"); Keyword TOK_VEC; Char (ch "@"); OPEN; NUMBER (make_mm (d_of_Z 1)); Char (ch ","); ID (b "pad"); CLOSE; ID (b "padx")].
Proof. vm_compute. reflexivity. Qed.

(** A variable with the name of a keyword, which a file may use, is not read in an expression
    that is read by itself, as nothing sets the start condition. *)
Example keyword_lost : parse_expr in_line (b "pad+1mm") ≠ None ∧ parse_expr line_start (b "pad+1mm") = None.
Proof. split; [|vm_compute; reflexivity]. intros H. by vm_compute in H. Qed.
End ParseTests.
