(* ===== verification/FpdUnparse.v ===== *)
(** * fped: printing expressions (eda/fped/unparse.c)

    An expression is printed with the parentheses that its operators' precedences ask
    for.  The text is what the file of a footprint holds, so it has to be read back. *)

From S2P Require Import Prelude CString FpdNum FpdExpr FpdParse.

(** ** The printer *)

Inductive prec : Type := prec_add | prec_mult | prec_unary | prec_primary.

Definition prec_rank (p : prec) : Z :=
  match p with prec_add => 0 | prec_mult => 1 | prec_unary => 2 | prec_primary => 3 end.

Definition precedence (e : expr) : prec :=
  match e with
  | op_add _ _ | op_sub _ _ => prec_add
  | op_mult _ _ | op_div _ _ => prec_mult
  | op_minus _ => prec_unary
  | _ => prec_primary
  end.

(** [snprintf] into a buffer of 100 bytes; [None] is the [abort] of [str_unit]. *)
Definition leaf_text (n : num) : option (list Z) := take 99 <$> num_text n.

Definition merge3 (a : option (list Z)) (op : list Z) (c : option (list Z)) : option (list Z) :=
  x ← a; y ← c; Some (x ++ op ++ y).
Definition merge2 (op : list Z) (a : option (list Z)) : option (list Z) := x ← a; Some (op ++ x).
Definition parens (a : option (list Z)) : option (list Z) := x ← a; Some (b "(" ++ x ++ b ")").
Definition unparse_fn (name : list Z) (a : option (list Z)) : option (list Z) := x ← a; Some (name ++ b "(" ++ x ++ b ")").

(** A first call with too high a precedence is one with the lowest inside parentheses. *)
Fixpoint unparse_op (e : expr) (p : prec) : option (list Z) :=
  let text :=
    match e with
    | op_num n => leaf_text n
    | op_string s => Some ([34] ++ s ++ [34])
    | op_var x => Some x
    | op_minus a => merge2 (b "-") (unparse_op a prec_unary)
    | op_add a c => merge3 (unparse_op a prec_add) (b "+") (unparse_op c prec_add)
    | op_sub a c => merge3 (unparse_op a prec_add) (b "-") (unparse_op c prec_mult)
    | op_mult a c => merge3 (unparse_op a prec_mult) (b "*") (unparse_op c prec_mult)
    | op_div a c => merge3 (unparse_op a prec_mult) (b "/") (unparse_op c prec_primary)
    | op_sin a => unparse_fn (b "sin") (unparse_op a prec_add)
    | op_cos a => unparse_fn (b "cos") (unparse_op a prec_add)
    | op_sqrt a => unparse_fn (b "sqrt") (unparse_op a prec_add)
    end in
  if prec_rank (precedence e) <? prec_rank p then parens text else text.

Definition unparse (e : option expr) : option (list Z) :=
  match e with Some e => unparse_op e prec_add | None => Some [] end.

(** ** What is read back *)

(** Sums and products are read from the left. *)
Fixpoint append_add (x y : expr) : expr :=
  match y with
  | op_add y1 y2 => op_add (append_add x y1) y2
  | op_sub y1 y2 => op_sub (append_add x y1) y2
  | _ => op_add x y
  end.
Fixpoint append_mult (x y : expr) : expr :=
  match y with
  | op_mult y1 y2 => op_mult (append_mult x y1) y2
  | op_div y1 y2 => op_div (append_mult x y1) y2
  | _ => op_mult x y
  end.

Fixpoint from_left (e : expr) : expr :=
  match e with
  | op_add a c => append_add (from_left a) (from_left c)
  | op_sub a c => op_sub (from_left a) (from_left c)
  | op_mult a c => append_mult (from_left a) (from_left c)
  | op_div a c => op_div (from_left a) (from_left c)
  | op_minus a => op_minus (from_left a)
  | op_sin a => op_sin (from_left a)
  | op_cos a => op_cos (from_left a)
  | op_sqrt a => op_sqrt (from_left a)
  | _ => e
  end.

(** What can be read back: numbers whose text the scanner reads as the same number, names that
    are no keywords in the start condition [k], strings without quotes, and no sign directly
    after a sign. *)
Definition reserved (k : condition) (x : list Z) : bool :=
  match k with
  | INITIAL => bool_decide (is_Some (lookup_word x keywords)) || str_eq x (b "allow")
  | ALLOW => bool_decide (is_Some (lookup_word x allow_keywords))
  | NOKEYWORD => false
  end.

Definition num_ok (n : num) : bool :=
  match leaf_text n with
  | Some (c :: s) => isdigit c && bool_decide (scan_num (c :: s) = (n, []))
  | _ => false
  end.
Definition string_ok (s : list Z) : bool := bool_decide (scan_string (s ++ [34]) = Some (s, [])).

Fixpoint printable (k : condition) (e : expr) : bool :=
  match e with
  | op_num n => num_ok n
  | op_var x => is_id x && negb (reserved k x)
  | op_string s => string_ok s
  | op_minus a => match a with op_minus _ => false | _ => printable k a end
  | op_sin a | op_cos a | op_sqrt a => printable k a
  | op_add a c | op_sub a c | op_mult a c | op_div a c => printable k a && printable k c
  end.

(** ** The text as tokens *)

Fixpoint tokens (e : expr) (p : prec) : list token :=
  let ts :=
    match e with
    | op_num n => [NUMBER n]
    | op_string s => [STRING s]
    | op_var x => [ID x]
    | op_minus a => MINUS :: tokens a prec_unary
    | op_add a c => tokens a prec_add ++ PLUS :: tokens c prec_add
    | op_sub a c => tokens a prec_add ++ MINUS :: tokens c prec_mult
    | op_mult a c => tokens a prec_mult ++ TIMES :: tokens c prec_mult
    | op_div a c => tokens a prec_mult ++ SLASH :: tokens c prec_primary
    | op_sin a => ID (b "sin") :: OPEN :: tokens a prec_add ++ [CLOSE]
    | op_cos a => ID (b "cos") :: OPEN :: tokens a prec_add ++ [CLOSE]
    | op_sqrt a => ID (b "sqrt") :: OPEN :: tokens a prec_add ++ [CLOSE]
    end in
  if prec_rank (precedence e) <? prec_rank p then OPEN :: ts ++ [CLOSE] else ts.

Definition symbol_of (p : prec) : symbol :=
  match p with prec_add => add_expr | prec_mult => mult_expr | prec_unary => unary_expr | prec_primary => primary_expr end.

Lemma derives_up p u e : derives primary_expr u e → derives (symbol_of p) u e.
Proof. intros H. destruct p; [apply d_add_mult, d_mult_unary, d_unary_primary|apply d_mult_unary, d_unary_primary|apply d_unary_primary|]; done. Qed.
Lemma derives_mult_up p u e : prec_rank p ≤ 1 → derives mult_expr u e → derives (symbol_of p) u e.
Proof. intros Hp H. destruct p; cbn in *; try lia; [by apply d_add_mult|done]. Qed.
Lemma derives_unary_up p u e : prec_rank p ≤ 2 → derives unary_expr u e → derives (symbol_of p) u e.
Proof. intros Hp H. destruct p; cbn in *; try lia; [by apply d_add_mult, d_mult_unary|by apply d_mult_unary|done]. Qed.

Lemma append_add_assoc x y z : append_add x (append_add y z) = append_add (append_add x y) z.
Proof. induction z; cbn; try done; by f_equal. Qed.
Lemma append_mult_assoc x y z : append_mult x (append_mult y z) = append_mult (append_mult x y) z.
Proof. induction z; cbn; try done; by f_equal. Qed.

Lemma append_add_prec x y : precedence (append_add x y) = prec_add.
Proof. by destruct y. Qed.
Lemma append_mult_prec x y : precedence (append_mult x y) = prec_mult.
Proof. by destruct y. Qed.
Lemma from_left_prec e : precedence (from_left e) = precedence e.
Proof. destruct e; cbn; try done; [apply append_add_prec|apply append_mult_prec]. Qed.

Lemma append_add_other x y : precedence y ≠ prec_add → append_add x y = op_add x y.
Proof. by destruct y. Qed.
Lemma append_mult_other x y : precedence y ≠ prec_mult → append_mult x y = op_mult x y.
Proof. by destruct y. Qed.

(** ** The tokens have the reading that was foreseen *)

Lemma tokens_parens e p : prec_rank (precedence e) < prec_rank p → tokens e p = OPEN :: tokens e prec_add ++ [CLOSE].
Proof.
  intros H. assert (∀ q, prec_rank prec_add ≤ prec_rank q) as H0 by by intros [].
  destruct e; cbn in H |- *; rewrite (proj2 (Z.ltb_lt _ _) H); cbn; done.
Qed.
Lemma tokens_plain e p : prec_rank p ≤ prec_rank (precedence e) → tokens e p = tokens e prec_add.
Proof. intros H. destruct e; cbn in H |- *; rewrite (proj2 (Z.ltb_ge _ _) H); done. Qed.

Definition reads_back (e : expr) : Prop := ∀ p, derives (symbol_of p) (tokens e p) (from_left e).

(** It is enough to look at an expression where it needs no parentheses. *)
Lemma reads_back_plain e : derives (symbol_of (precedence e)) (tokens e prec_add) (from_left e) → reads_back e.
Proof.
  intros H p. assert (derives add_expr (tokens e prec_add) (from_left e)) as Hadd.
  { destruct (precedence e); cbn in H; [done|by apply d_add_mult|by apply d_add_mult, d_mult_unary|].
    by apply d_add_mult, d_mult_unary, d_unary_primary. }
  destruct (Z.lt_ge_cases (prec_rank (precedence e)) (prec_rank p)) as [Hlt|Hge].
  - rewrite tokens_parens by done. apply derives_up. by apply d_parens.
  - rewrite tokens_plain by done. destruct (precedence e); cbn in H.
    + by destruct p.
    + apply derives_mult_up; [by destruct p|done].
    + apply derives_unary_up; [by destruct p|done].
    + by apply derives_up.
Qed.

(** A sum that goes on with another one, and the same for products. *)
Definition sums (c : expr) : Prop := ∀ u e, derives add_expr u e →
  derives add_expr (u ++ PLUS :: tokens c prec_add) (append_add e (from_left c)).
Definition multiplies (c : expr) : Prop := precedence c ≠ prec_add → ∀ u e, derives mult_expr u e →
  derives mult_expr (u ++ TIMES :: tokens c prec_add) (append_mult e (from_left c)).

Lemma sums_other c : precedence c ≠ prec_add → reads_back c → sums c.
Proof.
  intros Hp Hc u e Hu. rewrite append_add_other by by rewrite from_left_prec.
  apply d_add; [done|]. specialize (Hc prec_mult). rewrite tokens_plain in Hc; [done|].
  by destruct (precedence c).
Qed.

Lemma multiplies_other c : precedence c ≠ prec_mult → reads_back c → multiplies c.
Proof.
  intros Hp Hc Ha u e Hu. rewrite append_mult_other by by rewrite from_left_prec.
  apply d_mult; [done|]. specialize (Hc prec_unary). rewrite tokens_plain in Hc; [done|].
  by destruct (precedence c).
Qed.

(** What is inside parentheses is not continued. *)
Lemma multiplies_any c u e : multiplies c → reads_back c → derives mult_expr u e →
  derives mult_expr (u ++ TIMES :: tokens c prec_mult) (append_mult e (from_left c)).
Proof.
  intros Hm Hc Hu. destruct (decide (prec_rank (precedence c) < 1)) as [Hlt|Hge].
  - rewrite append_mult_other by (rewrite from_left_prec; by destruct (precedence c)).
    apply d_mult; [done|]. specialize (Hc prec_unary). rewrite tokens_parens in Hc |- * by (cbn; lia). exact Hc.
  - rewrite tokens_plain by (cbn; lia). apply Hm; [|done]. by intros E; rewrite E in Hge.
Qed.

#[export] Instance prec_eq_dec : EqDecision prec.
Proof. solve_decision. Defined.

Definition all_reads (e : expr) : Prop := reads_back e ∧ sums e ∧ multiplies e.

Lemma all_reads_unit e : precedence e ≠ prec_add → precedence e ≠ prec_mult →
  derives (symbol_of (precedence e)) (tokens e prec_add) (from_left e) → all_reads e.
Proof.
  intros H1 H2 H. apply reads_back_plain in H. split; [done|]. split; [by apply sums_other|by apply multiplies_other].
Qed.

Lemma all_reads_fn x a e : (∀ y, function x y = Some (e y)) → precedence (e a) = prec_primary →
  tokens (e a) prec_add = ID x :: OPEN :: tokens a prec_add ++ [CLOSE] → from_left (e a) = e (from_left a) →
  reads_back a → all_reads (e a).
Proof.
  intros Hf Hp Ht Hl Ha. apply all_reads_unit; [by rewrite Hp..|]. rewrite Hp, Ht, Hl.
  eapply d_function; [exact (Ha prec_add)|done].
Qed.

Lemma all_reads_minus a : precedence a ≠ prec_unary → reads_back a → all_reads (op_minus a).
Proof.
  intros Hp Ha. apply all_reads_unit; [done..|]. apply d_minus. specialize (Ha prec_primary).
  destruct (decide (precedence a = prec_primary)) as [E|E].
  - rewrite tokens_plain in Ha |- * by (rewrite E; cbn; lia). exact Ha.
  - rewrite tokens_parens in Ha by (destruct (precedence a); cbn; first [lia|done]).
    rewrite tokens_parens by (destruct (precedence a); cbn; first [lia|done]). exact Ha.
Qed.

Lemma all_reads_add a c : all_reads a → all_reads c → all_reads (op_add a c).
Proof.
  intros (Ra & Sa & _) (_ & Sc & _). split; [|split; [|by intros []]].
  - apply reads_back_plain. apply Sc, (Ra prec_add).
  - intros u e Hu. cbn [from_left]. rewrite append_add_assoc. change (tokens (op_add a c) prec_add) with (tokens a prec_add ++ PLUS :: tokens c prec_add).
    rewrite app_comm_cons, app_assoc. by apply Sc, Sa.
Qed.

Lemma all_reads_sub a c : all_reads a → all_reads c → all_reads (op_sub a c).
Proof.
  intros (Ra & Sa & _) (Rc & _ & _). split; [|split; [|by intros []]].
  - apply reads_back_plain. apply d_sub; [apply (Ra prec_add)|apply (Rc prec_mult)].
  - intros u e Hu. change (tokens (op_sub a c) prec_add) with (tokens a prec_add ++ MINUS :: tokens c prec_mult).
    rewrite app_comm_cons, app_assoc. apply d_sub; [by apply Sa|apply (Rc prec_mult)].
Qed.

Lemma all_reads_mult a c : all_reads a → all_reads c → all_reads (op_mult a c).
Proof.
  intros (Ra & _ & Ma) (Rc & _ & Mc).
  assert (reads_back (op_mult a c)) as HR by (apply reads_back_plain; by apply multiplies_any, (Ra prec_mult)).
  split; [done|]. split; [by apply sums_other|]. intros _ u e Hu. cbn [from_left]. rewrite append_mult_assoc.
  change (tokens (op_mult a c) prec_add) with (tokens a prec_mult ++ TIMES :: tokens c prec_mult).
  rewrite app_comm_cons, app_assoc. by apply multiplies_any, multiplies_any.
Qed.

Lemma all_reads_div a c : all_reads a → all_reads c → all_reads (op_div a c).
Proof.
  intros (Ra & _ & Ma) (Rc & _ & _). pose proof (d_unary_primary _ _ (Rc prec_primary)) as Hc.
  assert (reads_back (op_div a c)) as HR by (apply reads_back_plain; by apply d_div; [apply (Ra prec_mult)|]).
  split; [done|]. split; [by apply sums_other|]. intros _ u e Hu.
  change (tokens (op_div a c) prec_add) with (tokens a prec_mult ++ SLASH :: tokens c prec_primary).
  rewrite app_comm_cons, app_assoc. apply d_div; [by apply multiplies_any|done].
Qed.

Lemma tokens_read k e : printable k e = true → all_reads e.
Proof.
  induction e as [n|x|t|a IHa|a IHa|a IHa|a IHa|a IHa c IHc|a IHa c IHc|a IHa c IHc|a IHa c IHc]; intros Hp;
    cbn [printable] in Hp; try (apply andb_true_iff in Hp as [Hpa Hpc]).
  - apply all_reads_unit; [done..|constructor].
  - apply all_reads_unit; [done..|constructor].
  - apply all_reads_unit; [done..|constructor].
  - by apply (all_reads_fn (b "sin") a op_sin), IHa.
  - by apply (all_reads_fn (b "cos") a op_cos), IHa.
  - by apply (all_reads_fn (b "sqrt") a op_sqrt), IHa.
  - apply all_reads_minus; [by destruct a|]. apply IHa. by destruct a.
  - apply all_reads_add; auto.
  - apply all_reads_sub; auto.
  - apply all_reads_mult; auto.
  - apply all_reads_div; auto.
Qed.

(** ** The scanner cuts the text into these tokens *)

Lemma span_shorter p s : (length (snd (span p s)) ≤ length s)%nat.
Proof. induction s as [|c s IH]; [done|]. cbn. destruct (p c); cbn; lia. Qed.

Lemma span_app p s rest : (∀ c, head rest = Some c → p c = false) →
  span p (s ++ rest) = (fst (span p s), snd (span p s) ++ rest).
Proof.
  intros H. induction s as [|c s IH]; cbn.
  - destruct rest as [|c rest]; [done|]. cbn. by rewrite (H c).
  - destruct (p c); [|done]. by rewrite IH.
Qed.

Lemma strip_app t s rest r : strip t s = Some r → strip t (s ++ rest) = Some (r ++ rest).
Proof.
  revert s. induction t as [|x t IH]; intros s; cbn; [by intros [= ->]|]. destruct s as [|y s]; [done|].
  cbn. destruct (x =? y); [apply IH|done].
Qed.
Lemma strip_shorter t s r : strip t s = Some r → (length r ≤ length s)%nat.
Proof.
  revert s. induction t as [|x t IH]; intros s; cbn; [by intros [= ->]|]. destruct s as [|y s]; [done|].
  destruct (x =? y); [|done]. intros H%IH. cbn. lia.
Qed.

Lemma scan_fraction_shorter s : (length (snd (scan_fraction s)) ≤ length s)%nat.
Proof. destruct s as [|c s]; [done|]. cbn. destruct (c =? ch "."); [|done]. pose proof (span_shorter isdigit s). lia. Qed.

Lemma scan_num_shorter c s : isdigit c = true → (length (snd (scan_num (c :: s))) ≤ length s)%nat.
Proof.
  intros Hc. unfold scan_num. cbn [span]. rewrite Hc. pose proof (span_shorter isdigit s) as H1.
  destruct (span isdigit s) as [d1 r1]. cbn [fst snd] in *. pose proof (scan_fraction_shorter r1) as H2.
  destruct (scan_fraction r1) as [d2 r2]. cbn [fst snd] in *. pose proof (span_shorter blank r2) as H3.
  destruct (strip (b "mm") _) eqn:E1; [apply strip_shorter in E1; cbn; lia|].
  destruct (strip (b "mil") _) eqn:E2; [apply strip_shorter in E2; cbn; lia|]. cbn. lia.
Qed.

Lemma scan_string_shorter s : ∀ r, scan_string s = Some r → (length (snd r) ≤ length s)%nat.
Proof.
  remember (length s) as n eqn:En. assert (length s ≤ n)%nat as Hn by lia. clear En. revert s Hn.
  induction n as [|n IH]; intros [|c s] Hn r H; cbn in H, Hn; try done; [lia|].
  destruct (c =? 34); [injection H as <-; cbn; lia|]. destruct (_ || _); [done|]. destruct (c =? 92).
  - destruct s as [|c' s]; [done|]. destruct (_ || _); [done|]. apply bind_Some in H as (q & Hq & [= <-]).
    cbn in Hn. apply IH in Hq; [cbn; lia|lia].
  - apply bind_Some in H as (q & Hq & [= <-]). apply IH in Hq; [cbn; lia|lia].
Qed.

Lemma lookup_prefix_shorter l s k r : lookup_prefix s l = Some (k, r) → (length r ≤ length s)%nat.
Proof.
  induction l as [|[x y] l IH]; [done|]. cbn. destruct (strip x s) eqn:E; [|done]. intros [= _ <-]. by eapply strip_shorter.
Qed.

Lemma scan_flags_shorter s : ∀ m n r, scan_flags m n s = Some r → (length r ≤ length s)%nat.
Proof.
  induction s as [|c s IH]; intros m n r; [done|]. cbn [scan_flags length].
  repeat case_match; intros H'; try done; first [apply IH in H'; lia|injection H' as <-; lia].
Qed.

Lemma scan_directive_shorter s r : scan_directive s = Some r → (length r ≤ length s)%nat.
Proof.
  unfold scan_directive. intros (s1 & H1%strip_shorter & H)%bind_Some. pose proof (span_shorter isdigit s1).
  destruct (span isdigit s1) as [d s2]. cbn [snd] in *. destruct (_ =? 0)%nat; [done|].
  apply bind_Some in H as (s3 & H3%strip_shorter & (s4 & H4%strip_shorter & H5%scan_flags_shorter)%bind_Some).
  pose proof (span_shorter (λ c, negb (c =? 34)) s3). lia.
Qed.

Lemma scan_token_shorter st c s : (length (snd (scan_token st c s)) ≤ length s)%nat.
Proof.
  unfold scan_token. destruct (blank c); [done|]. destruct (c =? LF); [done|]. destruct (c =? ch ";"); [done|].
  destruct (is_id_char c true).
  { pose proof (span_shorter (λ c, is_id_char c false) s). destruct (span _ s) as [w r]. cbn [snd] in *.
    destruct (start _), (strip (b ":") r) eqn:E; try (apply strip_shorter in E; cbn; lia);
      by destruct (scan_word _ _). }
  destruct (isdigit c) eqn:Hc; [pose proof (scan_num_shorter c s Hc); by destruct (scan_num _)|].
  destruct (if c =? 34 then _ else _) as [[t r]|] eqn:E.
  { destruct (c =? 34); [|done]. by apply scan_string_shorter in E. }
  destruct (if at_bol st && _ then _ else _) as [r|] eqn:E1.
  { destruct (_ && _); [|done]. by apply scan_directive_shorter in E1. }
  assert (∀ p, p = match s with
    | [] => let '(t, st) := scan_char (set_bol false st) c in (t, st, [])
    | c' :: s' => match two_char c c' with Some t => (Some t, set_bol false st, s')
                  | None => let '(t, st) := scan_char (set_bol false st) c in (t, st, s) end
    end → (length (snd p) ≤ length s)%nat) as Hend.
  { intros p ->. destruct (scan_char _ c) as [t st']. destruct s as [|c' s]; [done|]. destruct (two_char c c'); cbn; lia. }
  destruct (start _); try by apply Hend. destruct (if c =? ch "%" then _ else _) as [[k r]|] eqn:E2; [|by apply Hend].
  destruct (c =? ch "%"); [|done]. by eapply lookup_prefix_shorter.
Qed.

Lemma scan_enough f : ∀ st s, (length s ≤ f)%nat → scan f st s = yylex st s.
Proof.
  assert (∀ f g st s, (length s ≤ f)%nat → (length s ≤ g)%nat → scan f st s = scan g st s) as H.
  { clear f. induction f as [|f IH]; intros [|g] st [|c s] Hf Hg; cbn in Hf, Hg; try done; try lia. cbn [scan].
    pose proof (scan_token_shorter st c s) as Hs. destruct (scan_token st c s) as [[t st'] r]. cbn [snd] in Hs. f_equal. apply IH; lia. }
  intros st s Hs. by apply H.
Qed.

Lemma yylex_step st c s t st' r : scan_token st c s = (Some t, st', r) → yylex st (c :: s) = t :: yylex st' r.
Proof.
  intros E. unfold yylex at 1. cbn [length scan]. pose proof (scan_token_shorter st c s) as Hs. rewrite E in *. cbn [snd] in Hs.
  by rewrite scan_enough.
Qed.

(** What may follow a printed expression. *)
Definition stops (rest : list Z) : Prop := ∀ c, head rest = Some c → c ∈ [40; 41; 42; 43; 45; 47].

Lemma stops_char c rest : c ∈ [40; 41; 42; 43; 45; 47] → stops (c :: rest).
Proof. by intros H c' [= <-]. Qed.
Lemma stops_false (p : Z → bool) rest : forallb (λ c, negb (p c)) [40; 41; 42; 43; 45; 47] = true → stops rest →
  ∀ c, head rest = Some c → p c = false.
Proof.
  intros Hp H c Hc. apply H in Hc. apply forallb_forall with (x := c) in Hp; [by destruct (p c)|by apply list_elem_of_In].
Qed.

Lemma lex_char st c s : c ∈ [40; 41; 42; 43; 45; 47] → head s ≠ Some 62 → yylex st (c :: s) = Char c :: yylex (set_bol false st) s.
Proof.
  intros Hc Hs. apply yylex_step. destruct st as [k dk it bol]. destruct s as [|c' s].
  - repeat (apply elem_of_cons in Hc as [->|Hc]; [by destruct k, bol|]). by apply not_elem_of_nil in Hc.
  - assert ((c' =? 62) = false) as E by (apply Z.eqb_neq; by intros ->).
    repeat (apply elem_of_cons in Hc as [->|Hc];
      [unfold scan_token, two_char; change (ch ">") with 62; rewrite E; by destruct k, bol|]). by apply not_elem_of_nil in Hc.
Qed.

Lemma scan_word_free st x : reserved (start st) x = false → scan_word st x = (Some (ID x), st).
Proof.
  unfold reserved, scan_word. destruct (start st); [|done|].
  - intros [H1 H2]%orb_false_iff. apply bool_decide_eq_false in H1. destruct (lookup_word x keywords); [destruct H1; eauto|].
    by rewrite H2.
  - intros H1%bool_decide_eq_false. destruct (lookup_word x allow_keywords); [destruct H1; eauto|done].
Qed.

Lemma lex_id st x rest : is_id x = true → reserved (start st) x = false → stops rest →
  yylex st (x ++ rest) = ID x :: yylex (set_bol false st) rest.
Proof.
  intros Hx Hk Hr. destruct x as [|c x]; [done|]. cbn in Hx. apply andb_true_iff in Hx as [Hc Hx]. cbn [app].
  apply yylex_step. unfold scan_token.
  destruct (blank c) eqn:Hb; [unfold blank in Hb; apply orb_true_iff in Hb as [->%Z.eqb_eq| ->%Z.eqb_eq]; done|].
  destruct (Z.eqb_spec c LF) as [->|_]; [done|]. destruct (Z.eqb_spec c (ch ";")) as [->|_]; [done|].
  rewrite Hc, span_app by (by apply stops_false).
  assert (span (λ c, is_id_char c false) x = (x, [])) as ->.
  { clear -Hx. induction x as [|c x IH]; [done|]. cbn in Hx |- *. apply andb_true_iff in Hx as [-> Hx]. by rewrite IH. }
  cbn [fst snd]. rewrite app_nil_l. assert (strip (b ":") rest = None) as ->.
  { destruct rest as [|d rest]; [done|]. change (b ":") with [58]. cbn [strip]. destruct (Z.eqb_spec 58 d) as [<-|]; [|done].
    assert (58 ∈ [40; 41; 42; 43; 45; 47]) as H by by apply Hr. by apply (bool_decide_eq_false_1 (58 ∈ [40; 41; 42; 43; 45; 47])) in H. }
  rewrite scan_word_free by done. by destruct (start _).
Qed.

Lemma strip_eq t s r : strip t s = Some r → s = t ++ r.
Proof.
  revert s. induction t as [|x t IH]; intros s; cbn; [by intros [= ->]|]. destruct s as [|y s]; [done|].
  destruct (Z.eqb_spec x y) as [->|]; [|done]. by intros ->%IH.
Qed.

Lemma strip_stops x t rest : (x ∉ [40; 41; 42; 43; 45; 47]) → stops rest → strip (x :: t) rest = None.
Proof.
  intros Hx Hr. destruct rest as [|c rest]; [done|]. cbn. destruct (Z.eqb_spec x c) as [->|]; [|done].
  destruct Hx. by apply Hr.
Qed.

Lemma scan_fraction_app s rest : stops rest → scan_fraction (s ++ rest) = (fst (scan_fraction s), snd (scan_fraction s) ++ rest).
Proof.
  intros Hr. destruct s as [|c s].
  - cbn. destruct rest as [|c rest]; [done|]. cbn. destruct (Z.eqb_spec c (ch ".")) as [->|]; [|done].
    exfalso. assert (ch "." ∈ [40; 41; 42; 43; 45; 47]) as H by by apply Hr. revert H.
    by apply (bool_decide_eq_false_1 (ch "." ∈ [40; 41; 42; 43; 45; 47])).
  - cbn. destruct (c =? ch "."); [|done]. by rewrite span_app by by apply stops_false.
Qed.

Lemma scan_num_app t n rest : scan_num t = (n, []) → stops rest → scan_num (t ++ rest) = (n, rest).
Proof.
  intros H Hr. unfold scan_num in *. rewrite span_app by by apply stops_false.
  destruct (span isdigit t) as [d1 r1]. cbn [fst snd]. rewrite scan_fraction_app by done.
  destruct (scan_fraction r1) as [d2 r2]. cbn [fst snd] in *. rewrite span_app by by apply stops_false.
  destruct (span blank r2) as [sp r3] eqn:E3. cbn [fst snd] in *.
  assert (∀ x t, (x ∉ [40; 41; 42; 43; 45; 47]) → strip (x :: t) rest = None) as Hno by (intros; by apply strip_stops).
  assert (109 ∉ [40; 41; 42; 43; 45; 47]) as Hm by by apply (bool_decide_eq_false_1 (109 ∈ [40; 41; 42; 43; 45; 47])).
  destruct (strip (b "mm") r3) as [r|] eqn:E1.
  - injection H as <- ->. by rewrite (strip_app _ _ rest _ E1).
  - destruct (strip (b "mil") r3) as [r|] eqn:E2.
    + injection H as <- ->. rewrite (strip_app _ _ rest _ E2). apply strip_eq in E2 as ->. done.
    + injection H as <- ->. cbn in E3. injection E3 as <- <-. cbn [app].
      change (b "mm") with (109 :: b "m"). change (b "mil") with (109 :: b "il"). by rewrite !Hno.
Qed.

Lemma lex_num st n t rest : num_ok n = true → leaf_text n = Some t → stops rest →
  yylex st (t ++ rest) = NUMBER n :: yylex (set_bol false st) rest.
Proof.
  intros Hn Ht Hr. unfold num_ok in Hn. rewrite Ht in Hn. destruct t as [|c t]; [done|].
  apply andb_true_iff in Hn as [Hc Hs%bool_decide_eq_true]. cbn [app]. apply yylex_step. unfold scan_token.
  assert (48 ≤ c ≤ 57) as Hd by (unfold isdigit in Hc; lia).
  replace (blank c) with false by (unfold blank; destruct (Z.eqb_spec c 9), (Z.eqb_spec c 32); try lia; done).
  replace (c =? LF) with false by (symmetry; apply Z.eqb_neq; unfold LF; lia).
  replace (c =? ch ";") with false by (symmetry; apply Z.eqb_neq; change (ch ";") with 59; lia).
  replace (is_id_char c true) with false.
  2:{ symmetry. unfold is_id_char. change (ch "A") with 65. change (ch "Z") with 90. change (ch "a") with 97. change (ch "z") with 122.
      change (ch "_") with 95. destruct (Z.leb_spec 65 c), (Z.leb_spec 97 c), (Z.eqb_spec c 95); try lia. done. }
  rewrite Hc. change (c :: t ++ rest) with ((c :: t) ++ rest). by rewrite (scan_num_app _ n).
Qed.

Lemma scan_string_app s rest : ∀ t r, scan_string s = Some (t, r) → scan_string (s ++ rest) = Some (t, r ++ rest).
Proof.
  remember (length s) as k eqn:Ek. assert (length s ≤ k)%nat as Hk by lia. clear Ek. revert s Hk.
  induction k as [|k IH]; intros [|c s] Hk t r H; cbn in H, Hk |- *; try done; [lia|].
  destruct (c =? 34); [by injection H as <- <-|]. destruct (_ || _); [done|]. destruct (c =? 92).
  - destruct s as [|c' s]; [done|]. cbn [app]. destruct (_ || _); [done|].
    apply bind_Some in H as ([t' r'] & H & [= <- <-]). cbn in Hk. rewrite (IH s ltac:(lia) _ _ H). done.
  - apply bind_Some in H as ([t' r'] & H & [= <- <-]). rewrite (IH s ltac:(lia) _ _ H). done.
Qed.

Lemma lex_string st s rest : string_ok s = true →
  yylex st ([34] ++ s ++ [34] ++ rest) = STRING s :: yylex (set_bol false st) rest.
Proof.
  intros Hs%bool_decide_eq_true. cbn [app]. apply yylex_step. unfold scan_token. cbn.
  change (34 :: rest) with ([34] ++ rest). rewrite app_assoc. by rewrite (scan_string_app _ rest _ _ Hs).
Qed.

Section lexes.
Context (st : scanner).

Lemma lex_char_at v c s : c ∈ [40; 41; 42; 43; 45; 47] → head s ≠ Some 62 →
  yylex (set_bol v st) (c :: s) = Char c :: yylex (set_bol false st) s.
Proof. apply (lex_char (set_bol v st)). Qed.
Lemma lex_id_at v x rest : is_id x = true → reserved (start st) x = false → stops rest →
  yylex (set_bol v st) (x ++ rest) = ID x :: yylex (set_bol false st) rest.
Proof. apply (lex_id (set_bol v st)). Qed.
Lemma lex_num_at v n t rest : num_ok n = true → leaf_text n = Some t → stops rest →
  yylex (set_bol v st) (t ++ rest) = NUMBER n :: yylex (set_bol false st) rest.
Proof. apply (lex_num (set_bol v st)). Qed.
Lemma lex_string_at v s rest : string_ok s = true →
  yylex (set_bol v st) ([34] ++ s ++ [34] ++ rest) = STRING s :: yylex (set_bol false st) rest.
Proof. apply (lex_string (set_bol v st)). Qed.

Definition lexes (t : list Z) (ts : list token) : Prop :=
  t ≠ [] ∧ head t ≠ Some 62 ∧ ∀ v rest, stops rest → yylex (set_bol v st) (t ++ rest) = ts ++ yylex (set_bol false st) rest.

Lemma head_app (t rest : list Z) : t ≠ [] → head (t ++ rest) = head t.
Proof. by destruct t. Qed.

Lemma lexes_op c t ts u us : c ∈ [42; 43; 45; 47] → lexes t ts → lexes u us → lexes (t ++ [c] ++ u) (ts ++ Char c :: us).
Proof.
  intros Hc (Ht & Hh & H) (Hu & Huh & G). assert (c ∈ [40; 41; 42; 43; 45; 47]) as Hc2.
  { apply elem_of_cons; right. apply elem_of_cons; right. by apply (list_elem_of_fmap_2 id) in Hc. }
  split; [by destruct t|]. split; [by rewrite head_app|].
  intros v rest Hr. rewrite <- !app_assoc. rewrite H by by apply stops_char. cbn [app].
  rewrite lex_char_at by (done || by rewrite head_app). by rewrite G.
Qed.

Lemma lexes_minus t ts : lexes t ts → lexes ([45] ++ t) (MINUS :: ts).
Proof.
  intros (Ht & Hh & H). split; [done|]. split; [done|]. intros v rest Hr. cbn [app].
  rewrite lex_char_at; [by rewrite H|in_list|by rewrite head_app].
Qed.

Lemma lexes_parens t ts : lexes t ts → lexes ([40] ++ t ++ [41]) (OPEN :: ts ++ [CLOSE]).
Proof.
  intros (Ht & Hh & H). split; [done|]. split; [done|]. intros v rest Hr. cbn [app]. rewrite <- !app_assoc.
  rewrite lex_char_at; [|in_list|by rewrite head_app]. rewrite H by (apply stops_char; in_list). cbn [app].
  rewrite lex_char_at; [done|in_list|]. intros E. apply Hr in E. by apply (bool_decide_eq_false_1 (62 ∈ [40; 41; 42; 43; 45; 47])) in E.
Qed.

Lemma lexes_fn x t ts : is_id x = true → reserved (start st) x = false → lexes t ts → lexes (x ++ [40] ++ t ++ [41]) (ID x :: OPEN :: ts ++ [CLOSE]).
Proof.
  intros Hx Hk H. destruct (lexes_parens t ts H) as (_ & _ & G). split; [by destruct x|]. split.
  { destruct x as [|c x]; [done|]. cbn in Hx |- *. by intros [= ->]. }
  intros v rest Hr. rewrite <- app_assoc. rewrite lex_id_at; [|done|done|by apply stops_char; in_list]. by rewrite G.
Qed.

Definition prints (e : expr) (p : prec) : Prop := ∃ t, unparse_op e p = Some t ∧ lexes t (tokens e p).

Lemma unparse_plain e p : unparse_op e p = if prec_rank (precedence e) <? prec_rank p then parens (unparse_op e prec_add) else unparse_op e prec_add.
Proof. assert (∀ q, (prec_rank q <? prec_rank prec_add) = false) as H by by intros []. destruct e, p; reflexivity. Qed.

Lemma prints_any e : prints e prec_add → ∀ p, prints e p.
Proof.
  intros (t & Ht & Hl) p. unfold prints. rewrite unparse_plain, Ht.
  destruct (Z.ltb_spec (prec_rank (precedence e)) (prec_rank p)) as [H|H].
  - eexists. split; [done|]. rewrite tokens_parens by done. by apply lexes_parens.
  - eexists. split; [done|]. by rewrite tokens_plain.
Qed.

Lemma prints_binary (mk : expr → expr → expr) op a c pa pc : op ∈ [42; 43; 45; 47] →
  (unparse_op (mk a c) prec_add = merge3 (unparse_op a pa) [op] (unparse_op c pc)) →
  tokens (mk a c) prec_add = tokens a pa ++ Char op :: tokens c pc →
  prints a pa → prints c pc → prints (mk a c) prec_add.
Proof.
  intros Hop Hu Ht (ta & Ha & La) (tc & Hc & Lc). unfold prints. rewrite Hu, Ht, Ha, Hc.
  eexists. split; [done|]. by apply lexes_op.
Qed.

Lemma prints_fn (mk : expr → expr) x a : is_id x = true → reserved (start st) x = false →
  unparse_op (mk a) prec_add = unparse_fn x (unparse_op a prec_add) →
  tokens (mk a) prec_add = ID x :: OPEN :: tokens a prec_add ++ [CLOSE] →
  prints a prec_add → prints (mk a) prec_add.
Proof.
  intros Hx Hk Hu Ht (ta & Ha & La). unfold prints. rewrite Hu, Ht, Ha. eexists. split; [done|]. by apply lexes_fn.
Qed.

Lemma printable_prints e : printable (start st) e = true → ∀ p, prints e p.
Proof.
  induction e as [n|x|t|a IHa|a IHa|a IHa|a IHa|a IHa c IHc|a IHa c IHc|a IHa c IHc|a IHa c IHc]; intros Hp;
    cbn [printable] in Hp; apply prints_any; try (apply andb_true_iff in Hp as [Hpa Hpc]).
  - assert (∃ t, leaf_text n = Some t) as [t Ht] by (unfold num_ok in Hp; destruct (leaf_text n); [eauto|done]).
    exists t. split; [done|]. pose proof Hp as Hn. unfold num_ok in Hn. rewrite Ht in Hn. destruct t as [|c t]; [done|].
    apply andb_true_iff in Hn as [Hc _]. split; [done|]. split; [cbn; by intros [= ->]|]. intros v rest Hr. by apply (lex_num_at v n).
  - apply negb_true_iff in Hpc. exists x. split; [done|]. split; [by destruct x|]. split; [|intros v rest Hr; by apply lex_id_at].
    destruct x as [|c x]; [done|]. cbn in Hpa |- *. by intros [= ->].
  - exists ([34] ++ t ++ [34]). split; [done|]. split; [done|]. split; [done|]. intros v rest Hr.
    rewrite <- !app_assoc. by apply lex_string_at.
  - apply (prints_fn op_sin (b "sin")); [done|by destruct (start st)|done..|by apply IHa].
  - apply (prints_fn op_cos (b "cos")); [done|by destruct (start st)|done..|by apply IHa].
  - apply (prints_fn op_sqrt (b "sqrt")); [done|by destruct (start st)|done..|by apply IHa].
  - destruct (IHa ltac:(by destruct a) prec_unary) as (t & Ht & Hl). exists ([45] ++ t). split; [|by apply lexes_minus].
    change (merge2 (b "-") (unparse_op a prec_unary) = Some ([45] ++ t)). by rewrite Ht.
  - apply (prints_binary op_add 43 a c prec_add prec_add); [in_list|done|done|by apply IHa|by apply IHc].
  - apply (prints_binary op_sub 45 a c prec_add prec_mult); [in_list|done|done|by apply IHa|by apply IHc].
  - apply (prints_binary op_mult 42 a c prec_mult prec_mult); [in_list|done|done|by apply IHa|by apply IHc].
  - apply (prints_binary op_div 47 a c prec_mult prec_primary); [in_list|done|done|by apply IHa|by apply IHc].
Qed.

End lexes.

(** ** Reading from the left does not change the text *)

Lemma merge3_assoc x op y op' z : merge3 (merge3 x op y) op' z = merge3 x op (merge3 y op' z).
Proof. destruct x, y, z; cbn; try done. f_equal. by rewrite <- !app_assoc. Qed.

Lemma unparse_append_add x y : unparse_op (append_add x y) prec_add = merge3 (unparse_op x prec_add) (b "+") (unparse_op y prec_add).
Proof.
  induction y as [| | | | | | |y1 IH1 y2 _|y1 IH1 y2 _| |]; try done.
  - change (merge3 (unparse_op (append_add x y1) prec_add) (b "+") (unparse_op y2 prec_add) =
      merge3 (unparse_op x prec_add) (b "+") (merge3 (unparse_op y1 prec_add) (b "+") (unparse_op y2 prec_add))).
    by rewrite IH1, merge3_assoc.
  - change (merge3 (unparse_op (append_add x y1) prec_add) (b "-") (unparse_op y2 prec_mult) =
      merge3 (unparse_op x prec_add) (b "+") (merge3 (unparse_op y1 prec_add) (b "-") (unparse_op y2 prec_mult))).
    by rewrite IH1, merge3_assoc.
Qed.

Lemma unparse_append_mult x y : unparse_op (append_mult x y) prec_mult = merge3 (unparse_op x prec_mult) (b "*") (unparse_op y prec_mult).
Proof.
  induction y as [| | | | | | | | |y1 IH1 y2 _|y1 IH1 y2 _]; try done.
  - change (merge3 (unparse_op (append_mult x y1) prec_mult) (b "*") (unparse_op y2 prec_mult) =
      merge3 (unparse_op x prec_mult) (b "*") (merge3 (unparse_op y1 prec_mult) (b "*") (unparse_op y2 prec_mult))).
    by rewrite IH1, merge3_assoc.
  - change (merge3 (unparse_op (append_mult x y1) prec_mult) (b "/") (unparse_op y2 prec_primary) =
      merge3 (unparse_op x prec_mult) (b "*") (merge3 (unparse_op y1 prec_mult) (b "/") (unparse_op y2 prec_primary))).
    by rewrite IH1, merge3_assoc.
Qed.

Lemma unparse_same e e' : precedence e = precedence e' → unparse_op e prec_add = unparse_op e' prec_add →
  ∀ p, unparse_op e p = unparse_op e' p.
Proof. intros Hp He p. by rewrite (unparse_plain e), (unparse_plain e'), Hp, He. Qed.

Lemma unparse_from_left e : ∀ p, unparse_op (from_left e) p = unparse_op e p.
Proof.
  induction e as [| | |a IHa|a IHa|a IHa|a IHa|a IHa c IHc|a IHa c IHc|a IHa c IHc|a IHa c IHc]; intros p;
    apply unparse_same; try apply from_left_prec; try done.
  - change (unparse_fn (b "sin") (unparse_op (from_left a) prec_add) = unparse_fn (b "sin") (unparse_op a prec_add)). by rewrite IHa.
  - change (unparse_fn (b "cos") (unparse_op (from_left a) prec_add) = unparse_fn (b "cos") (unparse_op a prec_add)). by rewrite IHa.
  - change (unparse_fn (b "sqrt") (unparse_op (from_left a) prec_add) = unparse_fn (b "sqrt") (unparse_op a prec_add)). by rewrite IHa.
  - change (merge2 (b "-") (unparse_op (from_left a) prec_unary) = merge2 (b "-") (unparse_op a prec_unary)). by rewrite IHa.
  - cbn [from_left]. rewrite unparse_append_add, IHa, IHc. done.
  - change (merge3 (unparse_op (from_left a) prec_add) (b "-") (unparse_op (from_left c) prec_mult) =
      merge3 (unparse_op a prec_add) (b "-") (unparse_op c prec_mult)). by rewrite IHa, IHc.
  - cbn [from_left]. assert (∀ x y, unparse_op (append_mult x y) prec_add = unparse_op (append_mult x y) prec_mult) as E.
    { intros x y. by rewrite (unparse_plain _ prec_mult), append_mult_prec. }
    rewrite E, unparse_append_mult, IHa, IHc. done.
  - change (merge3 (unparse_op (from_left a) prec_mult) (b "/") (unparse_op (from_left c) prec_primary) =
      merge3 (unparse_op a prec_mult) (b "/") (unparse_op c prec_primary)). by rewrite IHa, IHc.
Qed.

(** ** When reading from the left makes no difference *)

Definition sums_up (e : expr) : bool := match precedence e with prec_add => true | _ => false end.
Definition multiplies_up (e : expr) : bool := match precedence e with prec_mult => true | _ => false end.

(** No sum or difference on the right of a plus, and no product or quotient on the right of a
    times. *)
Fixpoint left_grouped (e : expr) : bool :=
  match e with
  | op_add a c => left_grouped a && left_grouped c && negb (sums_up c)
  | op_mult a c => left_grouped a && left_grouped c && negb (multiplies_up c)
  | op_sub a c | op_div a c => left_grouped a && left_grouped c
  | op_minus a | op_sin a | op_cos a | op_sqrt a => left_grouped a
  | _ => true
  end.

Lemma left_grouped_same e : left_grouped e = true → from_left e = e.
Proof.
  induction e; cbn; intros H; rewrite ?andb_true_iff in H; try done; try (f_equal; tauto).
  - destruct H as [[H1 H2] H3]. rewrite append_add_other, IHe1, IHe2 by (try done; rewrite from_left_prec; unfold sums_up in H3; by destruct (precedence e2)). done.
  - destruct H as [[H1 H2] H3]. rewrite append_mult_other, IHe1, IHe2 by (try done; rewrite from_left_prec; unfold multiplies_up in H3; by destruct (precedence e2)). done.
Qed.

Lemma append_add_grouped x y : left_grouped x = true → left_grouped y = true → left_grouped (append_add x y) = true.
Proof.
  intros Hx. induction y; cbn [append_add]; intros Hy; cbn [left_grouped] in *; rewrite ?andb_true_iff in Hy; rewrite ?andb_true_iff;
    split_and?; try done; tauto.
Qed.
Lemma append_mult_grouped x y : left_grouped x = true → left_grouped y = true → left_grouped (append_mult x y) = true.
Proof.
  intros Hx. induction y; cbn [append_mult]; intros Hy; cbn [left_grouped] in *; rewrite ?andb_true_iff in Hy; rewrite ?andb_true_iff;
    split_and?; try done; tauto.
Qed.

Lemma from_left_grouped e : left_grouped (from_left e) = true.
Proof.
  induction e; cbn; rewrite ?andb_true_iff; try tauto; [by apply append_add_grouped|by apply append_mult_grouped].
Qed.

Lemma from_left_fixed e : from_left e = e ↔ left_grouped e = true.
Proof. split; [|apply left_grouped_same]. intros <-. apply from_left_grouped. Qed.

(** ** The round trip *)

(** [C16] A printed expression is read back, whatever the scanner has read before: when the names
    of its variables are identifiers and no keywords in the start condition the scanner is in,
    its numbers are the ones their text is read as (no more digits than are printed and no
    exponent), its strings end where they should and no sign follows a sign directly, scanner and grammar make of the text the same expression with its sums and
    products grouped from the left.  That is the very same expression if it was grouped so
    before, that is, if no sum or difference is on the right of a plus and no product or
    quotient on the right of a times; otherwise its value may differ in the last digit
    ([grouping_lost]).  What is read back is printed the same, and read back the same again. *)
Theorem unparse_parse st e : printable (start st) e = true →
  ∃ t, unparse (Some e) = Some t ∧ parse_expr st t = Some (from_left e) ∧
    (from_left e = e ↔ left_grouped e = true) ∧
    unparse (Some (from_left e)) = Some t ∧ from_left (from_left e) = from_left e.
Proof.
  intros Hp. destruct (printable_prints st e Hp prec_add) as (t & Ht & _ & _ & Hl). exists t. split; [done|].
  split_and!; [|apply from_left_fixed|unfold unparse; by rewrite unparse_from_left|apply from_left_fixed, from_left_grouped].
  unfold parse_expr, scan_expr. specialize (Hl true [] ltac:(done)). rewrite app_nil_r in Hl. rewrite Hl, app_nil_r.
  apply parser_decides_tokens. apply (proj1 (tokens_read _ e Hp) prec_add).
Qed.

(** ** What is not read back *)

(** A sign after a sign is printed without parentheses, which the grammar does not accept. *)
Lemma minus_minus_lost st x : is_id x = true → reserved (start st) x = false →
  unparse (Some (op_minus (op_minus (op_var x)))) = Some (b "--" ++ x) ∧ parse_expr st (b "--" ++ x) = None.
Proof.
  intros Hx Hk. split; [done|]. unfold parse_expr, scan_expr.
  assert (yylex (set_bol true st) (b "--" ++ x) = [MINUS; MINUS; ID x]) as ->; [|done].
  assert (head x ≠ Some 62) as Hh by (destruct x as [|c x]; [done|]; cbn in Hx |- *; by intros [= ->]).
  cbn [app]. change (b "--" ++ x) with (45 :: 45 :: x). rewrite !lex_char; try in_list; try done.
  rewrite <- (app_nil_r x) at 1. by rewrite lex_id.
Qed.

Module UnparseExamples.
Definition n (z : Z) : expr := op_num (make_num (d_of_Z z)).
Definition v (s : string) : expr := op_var (b s).

(** [(a+b)/(c*2)-(d-1.5mm)], with parentheses where they matter. *)
Definition sample : expr :=
  op_sub (op_div (op_add (v "a") (op_add (v "b") (v "e"))) (op_mult (v "c") (n 2))) (op_sub (v "d") (op_num (make_mm (of_decimal 15 1)))).

(** With the scanner at the beginning of a line, and after a keyword. *)
Definition line_start : scanner := Scanner INITIAL false false true.
Definition in_line : scanner := Scanner NOKEYWORD false false false.

Lemma unparse_parse_witness :
  (∃ t, unparse (Some sample) = Some t ∧ parse_expr line_start t = Some (from_left sample)) ∧
  (∃ t, unparse (Some (op_add (v "pad") (n 2))) = Some t ∧ parse_expr in_line t = Some (op_add (v "pad") (n 2))).
Proof.
  split.
  - destruct (unparse_parse line_start sample) as (t & H1 & H2 & _); [vm_compute; reflexivity|]. by exists t.
  - destruct (unparse_parse in_line (op_add (v "pad") (n 2))) as (t & H1 & H2 & _); [vm_compute; reflexivity|]. by exists t.
Defined.

Example sample_text : unparse (Some sample) = Some (b "(a+b+e)/(c*2)-(d-1.5mm)").
Proof. vm_compute. reflexivity. Qed.

(** A million millimetres can be written but what is printed then is no expression; and of
    a number of more than six digits the rest is lost. *)
Example million_lost : parse_expr line_start (b "1000000mm") = Some (op_num (make_mm (d_of_Z 1000000))) ∧
  unparse (Some (op_num (make_mm (d_of_Z 1000000)))) = Some (b "1e+06mm") ∧ parse_expr line_start (b "1e+06mm") = None.
Proof. split_and!; vm_compute; reflexivity. Qed.
Example digits_lost : parse_expr line_start (b "1.2345678mm") = Some (op_num (make_mm (of_decimal 12345678 7))) ∧
  unparse (Some (op_num (make_mm (of_decimal 12345678 7)))) = Some (b "1.23457mm").
Proof. split; vm_compute; reflexivity. Qed.

(** [0.1+(0.2+0.3)] is printed without its parentheses, and read back as [(0.1+0.2)+0.3], whose
    value is another number. *)
Definition tenth (z : Z) : expr := op_num (make_num (of_decimal z 1)).
Definition grouped : expr := op_add (tenth 1) (op_add (tenth 2) (tenth 3)).
Definition value (e : expr) : outcome fped num :=
  eval_num ExprExamples.no_pow ExprExamples.no_libm ExprExamples.no_libm (λ _, None) 1 e 1 (ExprExamples.fresh false).
Definition number (o : outcome fped num) : option double := match o with Ret r _ => Some (n_n r) | Stop _ => None end.

Example grouping_lost :
  unparse (Some grouped) = Some (b "0.1+0.2+0.3") ∧ parse_expr line_start (b "0.1+0.2+0.3") = Some (from_left grouped) ∧
  is_Some (number (value grouped)) ∧ number (value (from_left grouped)) ≠ number (value grouped).
Proof. split_and!; [vm_compute; reflexivity..|eexists; vm_compute; reflexivity|]. intros H. by vm_compute in H. Qed.
End UnparseExamples.
