(* ===== verification/FpdDelete.v ===== *)
(** * fped: deletion and undeletion (eda/fped/delete.c)

    The editor's items are in linked lists.  What is deleted is taken out of its list,
    with all that refers to it, but stays in memory with its [next] pointer as it was;
    a stack of deletions says how to put it back.  Here the lists are pointers in
    memory, as in the source: what is deleted is still followed by loops that are under
    way. *)

From stdpp Require Import gmap.
From S2P Require Import Prelude.

(** ** Memory *)

(** The places that hold a pointer into a list: the [next] field of an item, the head of a
    list, and the list of the values of a deleted column, which is in its deletion. *)
Inductive loc : Type :=
  | Next (a : Z)
  | Frames
  | Vecs (frame : Z) | Objs (frame : Z) | Tables (frame : Z) | Loops (frame : Z)
  | Vars (table : Z) | Rows (table : Z)
  | Values (row : Z)
  | ColValues (group : Z).

#[export] Instance loc_eq_dec : EqDecision loc.
Proof. solve_decision. Defined.
#[export] Instance loc_countable : Countable loc.
Proof.
  refine (inj_countable'
    (λ l, match l with
      | Next a => (0, a) | Frames => (1, 0) | Vecs a => (2, a) | Objs a => (3, a) | Tables a => (4, a)
      | Loops a => (5, a) | Vars a => (6, a) | Rows a => (7, a) | Values a => (8, a) | ColValues a => (9, a)
      end)
    (λ p, match p with
      | (0, a) => Next a | (1, _) => Frames | (2, a) => Vecs a | (3, a) => Objs a | (4, a) => Tables a
      | (5, a) => Loops a | (6, a) => Vars a | (7, a) => Rows a | (8, a) => Values a | (_, a) => ColValues a
      end) _).
  by intros [].
Defined.

(** Vectors and objects, as far as deletion looks at them; NULL is [None].  The qualifiers of
    a measurement are lists of frames. *)
Record vec : Type := Vec { vec_base : option Z; vec_frame : Z }.

Inductive obj_type : Type :=
  | ot_frame (ref : Z)
  | ot_rect (other : option Z)
  | ot_pad (other : option Z)
  | ot_hole (other : option Z)
  | ot_line (other : option Z)
  | ot_arc (start end_ : option Z)
  | ot_meas (high : option Z) (low_qual high_qual : list Z).

Record obj : Type := Obj { obj_kind : obj_type; obj_frame : Z; obj_base : option Z }.

Inductive deletion : Type :=
  | dt_vec (ref : Z) (prev : option Z)
  | dt_obj (ref : Z) (prev : option Z)
  | dt_frame (ref : Z) (prev : option Z)
  | dt_table (ref : Z) (prev : option Z)
  | dt_row (ref : Z) (prev : option Z)
  | dt_column (var : Z) (group : Z) (table : Z) (n : nat)
  | dt_loop (ref : Z) (prev : option Z).

(** [var_frame], [loop_frame] and [row_table] are the back references; [active_refs] has the
    [active_ref] of each frame there is. *)
Record fpd : Type := Fpd {
  cells : gmap loc (option Z);
  vecs : gmap Z vec;
  objs : gmap Z obj;
  var_frame : gmap Z Z;
  loop_frame : gmap Z Z;
  row_table : gmap Z Z;
  active_refs : gmap Z (option Z);
  deletions : list (deletion * Z);
  groups : Z }.

Definition set_cells c s := Fpd c (vecs s) (objs s) (var_frame s) (loop_frame s) (row_table s) (active_refs s) (deletions s) (groups s).
Definition set_active_refs a s := Fpd (cells s) (vecs s) (objs s) (var_frame s) (loop_frame s) (row_table s) a (deletions s) (groups s).
Definition set_deletions d g s := Fpd (cells s) (vecs s) (objs s) (var_frame s) (loop_frame s) (row_table s) (active_refs s) d g.

Abbreviation D := (M fpd).

Definition read (l : loc) : D (option Z) := s ← get; deref (cells s !! l) "freed".
Definition write (l : loc) (p : option Z) : D unit :=
  read l;; modify (λ s, set_cells (<[l := p]> (cells s)) s).

Definition vec_at (v : Z) : D vec := s ← get; deref (vecs s !! v) "vec".
Definition obj_at (o : Z) : D obj := s ← get; deref (objs s !! o) "obj".

(** Loops over lists go at most once over every item there is. *)
Definition list_fuel (s : fpd) : nat := S (size (cells s)).

(** ** Taking out and putting back *)

Definition new_deletion (d : deletion) : D unit := modify (λ s, set_deletions ((d, groups s) :: deletions s) (groups s) s).
Definition new_group : D unit := modify (λ s, set_deletions (deletions s) (groups s + 1) s).

(** The walk to the item, which ends in a NULL pointer if it is not in the list. *)
Fixpoint find_prev (fuel : nat) (walk : option Z) (target : Z) (prev : option Z) : D (option Z) :=
  match fuel with
  | O => undefined "out of fuel"
  | S f =>
      w ← deref walk "walk->next";
      if w =? target then mret prev
      else n ← read (Next w); find_prev f n target (Some w)
  end.

(** [prev] is NULL at the head of the list. *)
Definition unlink (head : loc) (target : Z) : D (option Z) :=
  s ← get;
  h ← read head;
  prev ← find_prev (list_fuel s) h target None;
  n ← read (Next target);
  write (match prev with Some p => Next p | None => head end) n;;
  mret prev.

Definition relink (head : loc) (target : Z) (prev : option Z) : D unit :=
  n ← read (Next target);
  let l := match prev with Some p => Next p | None => head end in
  p ← read l;
  must (bool_decide (n = p)) "assertion";;
  write l (Some target).

(** ** References from frames *)

Fixpoint find_ref_obj (fuel : nat) (obj : option Z) (ref : Z) : D (option Z) :=
  match fuel with
  | O => undefined "out of fuel"
  | S f =>
      match obj with
      | None => mret None
      | Some o =>
          ob ← obj_at o;
          if match obj_kind ob with ot_frame r => r =? ref | _ => false end then mret (Some o)
          else n ← read (Next o); find_ref_obj f n ref
      end
  end.

(** The [break] leaves the inner loop only: what counts is the last frame. *)
Fixpoint last_ref_obj (fuel : nat) (frame obj : option Z) (ref : Z) : D (option Z) :=
  match fuel with
  | O => undefined "out of fuel"
  | S f =>
      match frame with
      | None => mret obj
      | Some fr =>
          h ← read (Objs fr);
          s ← get;
          o ← find_ref_obj (list_fuel s) h ref;
          n ← read (Next fr);
          last_ref_obj f n o ref
      end
  end.

Definition reset_active_ref (ref : Z) : D unit :=
  s ← get;
  h ← read Frames;
  o ← last_ref_obj (list_fuel s) h None ref;
  modify (λ s, set_active_refs (<[ref := o]> (active_refs s)) s).

(** [if (obj->u.frame.ref->active_ref == obj) reset_active_ref(obj->u.frame.ref)]. *)
Definition drop_active_ref (o : Z) (k : obj_type) : D unit :=
  match k with
  | ot_frame ref =>
      s ← get;
      a ← deref (active_refs s !! ref) "obj->u.frame.ref";
      if bool_decide (a = Some o) then reset_active_ref ref else mret tt
  | _ => mret tt
  end.

(** ** Deleting *)

Definition do_delete_obj (o : Z) : D unit :=
  ob ← obj_at o;
  prev ← unlink (Objs (obj_frame ob)) o;
  new_deletion (dt_obj o prev);;
  drop_active_ref o (obj_kind ob).

Definition delete_obj (o : Z) : D unit := new_group;; do_delete_obj o.

Definition obj_has_ref (ob : obj) (ref : Z) : bool :=
  if bool_decide (obj_base ob = Some ref) then true
  else
    match obj_kind ob with
    | ot_frame _ => false
    | ot_line other | ot_rect other | ot_pad other | ot_hole other => bool_decide (other = Some ref)
    | ot_arc start end_ => bool_decide (start = Some ref) || bool_decide (end_ = Some ref)
    | ot_meas high _ _ => bool_decide (high = Some ref)
    end.

(** The loop goes on from the [next] pointer of an object it has just deleted. *)
Fixpoint delete_objs_if (test : obj → D bool) (fuel : nat) (obj : option Z) : D unit :=
  match fuel with
  | O => undefined "out of fuel"
  | S f =>
      match obj with
      | None => mret tt
      | Some o =>
          ob ← obj_at o;
          yes ← test ob;
          (if yes : bool then do_delete_obj o else mret tt);;
          n ← read (Next o);
          delete_objs_if test f n
      end
  end.

Definition delete_objs_by_ref (head : loc) (ref : Z) : D unit :=
  s ← get;
  h ← read head;
  delete_objs_if (λ ob, mret (obj_has_ref ob ref)) (list_fuel s) h.

(** The loop goes on from the [next] pointer of a vector that [do_delete_vec] has just deleted,
    which may lead through other deleted vectors. *)
Fixpoint delete_vecs_by_ref (do_delete_vec : Z → D unit) (fuel : nat) (vecs : option Z) (ref : Z) : D unit :=
  match fuel with
  | O => undefined "out of fuel"
  | S f =>
      match vecs with
      | None => mret tt
      | Some v =>
          ve ← vec_at v;
          (if bool_decide (vec_base ve = Some ref) then do_delete_vec v else mret tt);;
          n ← read (Next v);
          delete_vecs_by_ref do_delete_vec f n ref
      end
  end.

Fixpoint do_delete_vec (fuel : nat) (v : Z) : D unit :=
  match fuel with
  | O => undefined "out of fuel"
  | S f =>
      ve ← vec_at v;
      prev ← unlink (Vecs (vec_frame ve)) v;
      new_deletion (dt_vec v prev);;
      h ← read (Vecs (vec_frame ve));
      s ← get;
      delete_vecs_by_ref (do_delete_vec f) (list_fuel s) h v;;
      delete_objs_by_ref (Objs (vec_frame ve)) v;;
      root ← read Frames;
      match root with
      | Some r => delete_objs_by_ref (Objs r) v
      | None => mret tt
      end
  end.

(** The calls are nested at most as deep as there are vectors. *)
Definition vec_fuel (s : fpd) : nat := S (size (vecs s)).
Definition delete_vec (v : Z) : D unit := new_group;; s ← get; do_delete_vec (vec_fuel s) v.

Definition delete_row (r : Z) : D unit :=
  new_group;;
  s ← get;
  t ← deref (row_table s !! r) "row->table";
  prev ← unlink (Rows t) r;
  new_deletion (dt_row r prev).

Definition delete_loop (l : Z) : D unit :=
  s ← get;
  fr ← deref (loop_frame s !! l) "loop";
  new_group;;
  prev ← unlink (Loops fr) l;
  new_deletion (dt_loop l prev).

(** [table->vars->frame]. *)
Definition table_frame (t : Z) : D Z :=
  v ← read (Vars t);
  v ← deref v "table->vars";
  s ← get;
  deref (var_frame s !! v) "var".

Definition delete_table (t : Z) : D unit :=
  fr ← table_frame t;
  new_group;;
  prev ← unlink (Tables fr) t;
  new_deletion (dt_table t prev).

(** A measurement refers to a frame by its vectors and its qualifiers. *)
Definition frame_of (v : option Z) : D Z := v ← deref v "vec"; ve ← vec_at v; mret (vec_frame ve).

Definition refers_to (ref : Z) (ob : obj) : D bool :=
  match obj_kind ob with
  | ot_frame r => mret (r =? ref)
  | ot_meas high low_qual high_qual =>
      low ← frame_of (obj_base ob);
      if low =? ref then mret true
      else
        h ← frame_of high;
        mret ((h =? ref) || existsb (λ q, q =? ref) low_qual || existsb (λ q, q =? ref) high_qual)
  | _ => mret false
  end.

Fixpoint delete_references_in (fuel : nat) (frame : option Z) (ref : Z) : D unit :=
  match fuel with
  | O => undefined "out of fuel"
  | S f =>
      match frame with
      | None => mret tt
      | Some fr =>
          s ← get;
          h ← read (Objs fr);
          delete_objs_if (refers_to ref) (list_fuel s) h;;
          n ← read (Next fr);
          delete_references_in f n ref
      end
  end.

(** The frames that the deleted frame refers to lose these references as well. *)
Fixpoint drop_active_refs (fuel : nat) (obj : option Z) : D unit :=
  match fuel with
  | O => undefined "out of fuel"
  | S f =>
      match obj with
      | None => mret tt
      | Some o =>
          ob ← obj_at o;
          drop_active_ref o (obj_kind ob);;
          n ← read (Next o);
          drop_active_refs f n
      end
  end.

Definition delete_references (ref : Z) : D unit :=
  s ← get;
  h ← read Frames;
  delete_references_in (list_fuel s) h ref;;
  o ← read (Objs ref);
  drop_active_refs (list_fuel s) o.

Definition delete_frame (fr : Z) : D unit :=
  new_group;;
  prev ← unlink Frames fr;
  new_deletion (dt_frame fr prev);;
  delete_references fr.

(** ** Columns *)

(** The place [n] pointers further, as the loops of the source find it. *)
Fixpoint nth_loc (n : nat) (l : loc) : D loc :=
  match n with
  | O => mret l
  | S n => p ← read l; a ← deref p "next"; nth_loc n (Next a)
  end.

Fixpoint take_values (fuel : nat) (row : option Z) (n : nat) (next : loc) : D unit :=
  match fuel with
  | O => undefined "out of fuel"
  | S f =>
      match row with
      | None => write next None
      | Some r =>
          value ← nth_loc n (Values r);
          v ← read value;
          write next v;;
          v ← deref v "*value";
          w ← read (Next v);
          write value w;;
          x ← read next;
          x ← deref x "*next";
          r' ← read (Next r);
          take_values f r' n (Next x)
      end
  end.

Definition delete_column (t : Z) (n : nat) : D unit :=
  new_group;;
  s ← get;
  let g := groups s in
  modify (λ s, set_cells (<[ColValues g := None]> (cells s)) s);;
  var ← nth_loc n (Vars t);
  v ← read var;
  v ← deref v "*var";
  new_deletion (dt_column v g t n);;
  w ← read (Next v);
  write var w;;
  r ← read (Rows t);
  take_values (list_fuel s) r n (ColValues g).

Fixpoint put_values (fuel : nat) (row : option Z) (n : nat) (value : option Z) : D unit :=
  match fuel with
  | O => undefined "out of fuel"
  | S f =>
      match row with
      | None => mret tt
      | Some r =>
          anchor ← nth_loc n (Values r);
          v ← deref value "value->next";
          next ← read (Next v);
          a ← read anchor;
          write (Next v) a;;
          write anchor (Some v);;
          r' ← read (Next r);
          put_values f r' n next
      end
  end.

Definition undelete_column (v g t : Z) (n : nat) : D unit :=
  s ← get;
  var ← nth_loc n (Vars t);
  w ← read var;
  write (Next v) w;;
  write var (Some v);;
  value ← read (ColValues g);
  r ← read (Rows t);
  put_values (list_fuel s) r n value.

(** ** Undeleting *)

Definition undelete_item (d : deletion) : D unit :=
  match d with
  | dt_vec v prev => ve ← vec_at v; relink (Vecs (vec_frame ve)) v prev
  | dt_obj o prev => ob ← obj_at o; relink (Objs (obj_frame ob)) o prev
  | dt_frame fr prev => relink Frames fr prev
  | dt_loop l prev => s ← get; fr ← deref (loop_frame s !! l) "loop"; relink (Loops fr) l prev
  | dt_table t prev => fr ← table_frame t; relink (Tables fr) t prev
  | dt_row r prev => s ← get; t ← deref (row_table s !! r) "row->table"; relink (Rows t) r prev
  | dt_column v g t n => undelete_column v g t n
  end.

(** [free(del)]: with a deletion of a column goes the head of its list of values. *)
Definition free_deletion (d : deletion) : D unit :=
  match d with
  | dt_column _ g _ _ => modify (λ s, set_cells (delete (ColValues g) (cells s)) s)
  | _ => mret tt
  end.

Definition pop_deletion (d : deletion) (ds : list (deletion * Z)) : D unit :=
  modify (λ s, set_deletions ds (groups s) s);; free_deletion d.

Definition undelete_one : D Z :=
  s ← get;
  match deletions s with
  | [] => mret 0
  | (d, _) :: ds => undelete_item d;; pop_deletion d ds;; mret 1
  end.

Fixpoint undelete_group (ds : list (deletion * Z)) (group : Z) : D unit :=
  match ds with
  | (_, g) :: ds' => if g =? group then undelete_one;; undelete_group ds' group else mret tt
  | [] => mret tt
  end.

Definition undelete : D Z :=
  s ← get;
  match deletions s with
  | [] => mret 0
  | (_, group) :: _ => undelete_group (deletions s) group;; mret 1
  end.

(** ** Destroying

    What is destroyed is freed: its pointers and its record are gone.  Expressions and
    strings are freed with the items that own them and are not modelled. *)

Definition free_cells (ls : list loc) : D unit := modify (λ s, set_cells (foldr delete (cells s) ls) s).

Definition destroy_vec (v : Z) : D unit :=
  vec_at v;;
  modify (λ s, Fpd (delete (Next v) (cells s)) (delete v (vecs s)) (objs s) (var_frame s) (loop_frame s)
                   (row_table s) (active_refs s) (deletions s) (groups s)).

Definition destroy_obj (o : Z) : D unit :=
  ob ← obj_at o;
  drop_active_ref o (obj_kind ob);;
  modify (λ s, Fpd (delete (Next o) (cells s)) (vecs s) (delete o (objs s)) (var_frame s) (loop_frame s)
                   (row_table s) (active_refs s) (deletions s) (groups s)).

Definition destroy_loop (l : Z) : D unit :=
  modify (λ s, Fpd (delete (Next l) (cells s)) (vecs s) (objs s) (var_frame s) (delete l (loop_frame s))
                   (row_table s) (active_refs s) (deletions s) (groups s)).

(** The values of a row, or the variables of a table, one by one. *)
Fixpoint free_list (fuel : nat) (head : loc) : D unit :=
  match fuel with
  | O => undefined "out of fuel"
  | S f =>
      p ← read head;
      match p with
      | None => mret tt
      | Some a =>
          n ← read (Next a);
          free_cells [Next a];;
          modify (λ s, Fpd (cells s) (vecs s) (objs s) (delete a (var_frame s)) (loop_frame s)
                           (row_table s) (active_refs s) (deletions s) (groups s));;
          write head n;;
          free_list f head
      end
  end.

Definition destroy_row (r : Z) : D unit :=
  s ← get;
  free_list (list_fuel s) (Values r);;
  modify (λ s, Fpd (delete (Next r) (delete (Values r) (cells s))) (vecs s) (objs s) (var_frame s) (loop_frame s)
                   (delete r (row_table s)) (active_refs s) (deletions s) (groups s)).

(** [while (p->list) { delete_x(p->list); destroy(); }]. *)
Fixpoint destroy_list (fuel : nat) (head : loc) (delete_first : Z → D unit) (destroy : D unit) : D unit :=
  match fuel with
  | O => undefined "out of fuel"
  | S f =>
      p ← read head;
      match p with
      | None => mret tt
      | Some a => delete_first a;; destroy;; destroy_list f head delete_first destroy
      end
  end.

Definition destroy_table (destroy : D unit) (t : Z) : D unit :=
  s ← get;
  free_list (list_fuel s) (Vars t);;
  destroy_list (list_fuel s) (Rows t) delete_row destroy;;
  free_cells [Next t; Vars t; Rows t].

Definition destroy_frame (destroy : D unit) (fr : Z) : D unit :=
  s ← get;
  destroy_list (list_fuel s) (Tables fr) delete_table destroy;;
  destroy_list (list_fuel s) (Loops fr) delete_loop destroy;;
  destroy_list (list_fuel s) (Vecs fr) delete_vec destroy;;
  destroy_list (list_fuel s) (Objs fr) delete_obj destroy;;
  free_cells [Next fr; Vecs fr; Objs fr; Tables fr; Loops fr];;
  modify (λ s, set_active_refs (delete fr (active_refs s)) s).

Definition destroy_item (destroy : D unit) (d : deletion) : D unit :=
  match d with
  | dt_vec v _ => destroy_vec v
  | dt_obj o _ => destroy_obj o
  | dt_frame fr _ => destroy_frame destroy fr
  | dt_loop l _ => destroy_loop l
  | dt_table t _ => destroy_table destroy t
  | dt_row r _ => destroy_row r
  | dt_column _ _ _ _ => undefined "abort"
  end.

Definition destroy_one (destroy : D unit) : D unit :=
  s ← get;
  match deletions s with
  | [] => undefined "deletions"
  | (d, _) :: ds => destroy_item destroy d;; pop_deletion d ds
  end.

(** [while (deletions && deletions->group == group) destroy_one();] *)
Fixpoint destroy_group (destroy : D unit) (fuel : nat) (group : Z) : D unit :=
  match fuel with
  | O => undefined "out of fuel"
  | S f =>
      s ← get;
      match deletions s with
      | (_, g) :: _ => if g =? group then destroy_one destroy;; destroy_group destroy f group else mret tt
      | [] => mret tt
      end
  end.

(** Destroying a frame or a table destroys, one by one, what is in it. *)
Fixpoint destroy (fuel : nat) : D unit :=
  match fuel with
  | O => undefined "out of fuel"
  | S f =>
      s ← get;
      match deletions s with
      | [] => undefined "assertion"
      | (_, group) :: _ => destroy_group (destroy f) (S (length (deletions s))) group
      end
  end.

(** Frames hold tables, which hold rows. *)
Definition destroy_depth : nat := 4.

Fixpoint purge_loop (fuel : nat) : D unit :=
  match fuel with
  | O => undefined "out of fuel"
  | S f =>
      s ← get;
      match deletions s with
      | [] => mret tt
      | _ :: _ => destroy destroy_depth;; purge_loop f
      end
  end.
Definition purge : D unit := s ← get; purge_loop (S (length (deletions s))).

(** ** Memory accesses *)

(** An operation that only reads. *)
Definition reads {A} (m : D A) : Prop := keeps eq m.

Lemma reads_bind {A B} (m : D A) (k : A → D B) : reads m → (∀ a, reads (k a)) → reads (m ≫= k).
Proof. apply keeps_bind, _. Qed.

Lemma reads_read l : reads (read l).
Proof. apply reads_bind; [apply keeps_get, _|intros s]. apply keeps_deref, _. Qed.


Lemma lookup_Ret {A} (m : fpd → option A) why s (a : A) s' :
  (s ← get; deref (m s) why) s = Ret a s' → s' = s ∧ m s = Some a.
Proof. run. destruct (m s); [|done]. by intros [= -> ->]. Qed.

Lemma lookup_eq {A} (m : fpd → option A) why s (a : A) :
  m s = Some a → (s ← get; deref (m s) why) s = Ret a s.
Proof. run. by intros ->. Qed.

Lemma read_Ret l s p s' : read l s = Ret p s' → s' = s ∧ cells s !! l = Some p.
Proof. apply (lookup_Ret (λ s, cells s !! l)). Qed.

Lemma read_eq l s p : cells s !! l = Some p → read l s = Ret p s.
Proof. apply (lookup_eq (λ s, cells s !! l)). Qed.

Lemma write_eq l p s : is_Some (cells s !! l) → write l p s = Ret tt (set_cells (<[l := p]> (cells s)) s).
Proof. intros [q Hq]. unfold write. by rewrite (bind_step _ _ _ _ _ (read_eq _ _ _ Hq)). Qed.

Lemma write_Ret l p s u s' :
  write l p s = Ret u s' → is_Some (cells s !! l) ∧ s' = set_cells (<[l := p]> (cells s)) s.
Proof. unfold write. intros (q & t & [-> Hq]%read_Ret & [= _ <-])%bind_Ret. eauto. Qed.

Lemma vec_at_eq v s ve : vecs s !! v = Some ve → vec_at v s = Ret ve s.
Proof. apply (lookup_eq (λ s, vecs s !! v)). Qed.
Lemma obj_at_eq o s ob : objs s !! o = Some ob → obj_at o s = Ret ob s.
Proof. apply (lookup_eq (λ s, objs s !! o)). Qed.

Lemma reads_find_prev f w t p : reads (find_prev f w t p).
Proof.
  revert w p. induction f as [|f IH]; intros w p; [apply keeps_undefined|]. cbn [find_prev].
  apply reads_bind; [apply keeps_deref, _|intros a]. destruct (a =? t); [apply keeps_ret, _|].
  apply reads_bind; [apply reads_read|auto].
Qed.

Lemma reads_vec_at v : reads (vec_at v).
Proof. apply reads_bind; [apply keeps_get, _|intros s]. apply keeps_deref, _. Qed.
Lemma reads_obj_at o : reads (obj_at o).
Proof. apply reads_bind; [apply keeps_get, _|intros s]. apply keeps_deref, _. Qed.

(** *** Taking out and putting back *)

(** The place that points to an item of the list [head] whose predecessor is [prev]. *)
Definition place (head : loc) (prev : option Z) : loc := match prev with Some p => Next p | None => head end.

Lemma find_prev_place f w t prev s p s' head :
  cells s !! place head prev = Some w → prev ≠ Some t →
  find_prev f w t prev s = Ret p s' → cells s !! place head p = Some (Some t) ∧ p ≠ Some t.
Proof.
  revert w prev. induction f as [|f IH]; intros w prev Hw Hne; [done|]. cbn [find_prev].
  destruct w as [w|]; [|done]. run. destruct (Z.eqb_spec w t) as [->|Hwt].
  - by intros [= <- _].
  - intros (n & s1 & [-> Hn]%read_Ret & H)%bind_Ret. apply (IH n (Some w)); [done|congruence|done].
Qed.

Definition is_next (l : loc) : bool := match l with Next _ => true | _ => false end.

Lemma unlink_Ret head t s prev s' :
  is_next head = false → unlink head t s = Ret prev s' →
  ∃ n, cells s !! place head prev = Some (Some t) ∧ place head prev ≠ Next t ∧
       cells s !! Next t = Some n ∧ s' = set_cells (<[place head prev := n]> (cells s)) s.
Proof.
  intros Hh. unfold unlink. run.
  intros (h & s1 & [-> Hr]%read_Ret & (p & s2 & Hf & (n & s3 & [-> Hn]%read_Ret & H)%bind_Ret)%bind_Ret)%bind_Ret.
  pose proof (reads_find_prev _ _ _ _ _ _ _ Hf) as <-.
  destruct (find_prev_place _ _ _ None _ _ _ head Hr ltac:(done) Hf) as [Hp Hne].
  apply bind_Ret in H as (u & s4 & [_ ->]%write_Ret & [= <- <-]).
  exists n. split_and!; try done. destruct p as [p|]; cbn; [congruence|]. by destruct head.
Qed.

Lemma relink_eq head t prev n s :
  cells s !! Next t = Some n → cells s !! place head prev = Some n →
  relink head t prev s = Ret tt (set_cells (<[place head prev := Some t]> (cells s)) s).
Proof.
  intros Hn Hp. unfold relink.
  rewrite (bind_step _ _ _ _ _ (read_eq _ _ _ Hn)). cbv zeta.
  change (match prev with Some p => Next p | None => head end) with (place head prev).
  rewrite (bind_step _ _ _ _ _ (read_eq _ _ _ Hp)). rewrite bool_decide_true by done. run.
  apply write_eq. eauto.
Qed.

(** *** Operations that only read *)

Lemma reads_find_ref_obj f o r : reads (find_ref_obj f o r).
Proof.
  revert o. induction f as [|f IH]; intros o; [apply keeps_undefined|]. cbn [find_ref_obj].
  destruct o as [o|]; [|apply keeps_ret, _]. apply reads_bind; [apply reads_obj_at|intros ob].
  destruct (match obj_kind ob with ot_frame r' => r' =? r | _ => false end); [apply keeps_ret, _|].
  apply reads_bind; [apply reads_read|auto].
Qed.

Lemma reads_last_ref_obj f fr o r : reads (last_ref_obj f fr o r).
Proof.
  revert fr o. induction f as [|f IH]; intros fr o; [apply keeps_undefined|]. cbn [last_ref_obj].
  destruct fr as [fr|]; [|apply keeps_ret, _].
  apply reads_bind; [apply reads_read|intros h]. apply reads_bind; [apply keeps_get, _|intros s].
  apply reads_bind; [apply reads_find_ref_obj|intros o'].
  apply reads_bind; [apply reads_read|auto].
Qed.

Lemma reads_frame_of v : reads (frame_of v).
Proof.
  apply reads_bind; [apply keeps_deref, _|intros a]. apply reads_bind; [apply reads_vec_at|].
  intros ve. apply keeps_ret, _.
Qed.

Lemma reads_refers_to ref ob : reads (refers_to ref ob).
Proof.
  unfold refers_to. destruct (obj_kind ob) as [r|?|?|?|?|? ?|high lq hq]; try apply keeps_ret, _.
  apply reads_bind; [apply reads_frame_of|intros low]. destruct (low =? ref); [apply keeps_ret, _|].
  apply reads_bind; [apply reads_frame_of|]. intros h. apply keeps_ret, _.
Qed.

Lemma table_frame_Ret t s fr s' : table_frame t s = Ret fr s' →
  s' = s ∧ ∃ v, cells s !! Vars t = Some (Some v) ∧ var_frame s !! v = Some fr.
Proof.
  unfold table_frame. intros (p & s1 & [-> Hp]%read_Ret & H)%bind_Ret.
  destruct p as [v|]; [|done]. revert H. run. destruct (var_frame s !! v) eqn:E; [|done].
  intros [= <- <-]. eauto.
Qed.

Lemma table_frame_eq t s fr v :
  cells s !! Vars t = Some (Some v) → var_frame s !! v = Some fr → table_frame t s = Ret fr s.
Proof.
  intros Hv Hf. unfold table_frame. rewrite (bind_step _ _ _ _ _ (read_eq _ _ _ Hv)). run. by rewrite Hf.
Qed.

(** The fuel of the loops over lists is enough: a list without repetitions has at most as many
    elements as there are items. *)
Lemma places_bound (c : gmap loc (option Z)) (ls : list loc) :
  NoDup ls → (∀ l, l ∈ ls → is_Some (c !! l)) → (length ls ≤ size c)%nat.
Proof.
  intros Hnd Hin. rewrite <- size_dom, <- (size_list_to_set (C := gset loc) ls Hnd).
  apply subseteq_size. intros l Hl%elem_of_list_to_set. by apply elem_of_dom, Hin.
Qed.
