(* ===== verification/FpdUndo.v ===== *)
(** * fped: every deletion is undone (eda/fped/delete.c)

    Whatever a deletion command takes out of the editor's lists, [undelete] puts back at
    the same places: the links of the lists and the values in their items are afterwards
    what they were before.  The active reference is not put back. *)

From stdpp Require Import gmap.
From S2P Require Import Prelude.
From S2P Require Import FpdDelete.

(** ** What deletions can take back

    [undoes st ds c' c]: putting back what the deletions [ds] took out, the last one first,
    leads from the pointers [c'] to the pointers [c]. *)

Definition fixed (s : fpd) := (vecs s, objs s, var_frame s, loop_frame s, row_table s).

Definition put_back (d : deletion) : D unit := undelete_item d;; free_deletion d.

Inductive undoes st : list deletion → gmap loc (option Z) → gmap loc (option Z) → Prop :=
  | undoes_nil c : undoes st [] c c
  | undoes_cons d ds c2 c1 c0 :
      (∀ s, fixed s = st → cells s = c2 → put_back d s = Ret tt (set_cells c1 s)) →
      undoes st ds c1 c0 →
      undoes st (d :: ds) c2 c0.

Lemma undoes_trans st ds2 ds1 c2 c1 c0 :
  undoes st ds2 c2 c1 → undoes st ds1 c1 c0 → undoes st (ds2 ++ ds1) c2 c0.
Proof. induction 1 as [|d ds c3 c2' c1' Hd _ IH]; [done|]. intros H. econstructor; eauto. Qed.

(** What one deletion command does, but for its number. *)
Definition undoable (s s' : fpd) : Prop :=
  fixed s' = fixed s ∧ groups s' = groups s ∧
  ∃ ds, deletions s' = ((λ d, (d, groups s)) <$> ds) ++ deletions s ∧ undoes (fixed s) ds (cells s') (cells s).

#[local] Instance undoable_preorder : PreOrder undoable.
Proof.
  split.
  - intros s. split_and!; [done..|]. exists []. split; [done|constructor].
  - intros s1 s2 s3 (Hf1 & Hg1 & ds1 & Hd1 & Hu1) (Hf2 & Hg2 & ds2 & Hd2 & Hu2).
    split_and!; [congruence..|]. exists (ds2 ++ ds1). split.
    + by rewrite Hd2, Hd1, Hg1, fmap_app, app_assoc.
    + rewrite Hf1 in Hu2. by eapply undoes_trans.
Qed.

(** The same, and something was taken out. *)
Definition undone (s s' : fpd) : Prop := undoable s s' ∧ deletions s' ≠ deletions s.

Lemma undone_undoable s1 s2 s3 : undone s1 s2 → undoable s2 s3 → undone s1 s3.
Proof.
  intros [H12 Hne] H23. split; [by transitivity s2|].
  destruct H12 as (_ & Hg & ds & Hd & _), H23 as (_ & _ & ds' & Hd' & _).
  intros E. apply Hne. rewrite Hd in *. rewrite Hd' in E. clear Hne Hd'.
  apply (f_equal length) in E. rewrite !length_app, !length_fmap in E. destruct ds; [done|cbn in E; lia].
Qed.

Lemma reads_undoable {A} (m : D A) : reads m → keeps undoable m.
Proof. intros H s a s' E. apply H in E as ->. reflexivity. Qed.

#[local] Hint Resolve reads_undoable reads_read reads_vec_at reads_obj_at reads_find_prev : keeps.

(** What [relink] needs to know to put back an item from the list [head]; the table of a
    list of tables is found through its variables. *)
Definition agrees (s s1 : fpd) : Prop :=
  fixed s1 = fixed s ∧ ∀ t, cells s1 !! Vars t = cells s !! Vars t.

Lemma take_out head t (mk : option Z → deletion) (k : D unit) s u s' :
  is_next head = false → (∀ a, head ≠ Vars a) →
  (∀ prev s1, agrees s s1 → put_back (mk prev) s1 = relink head t prev s1) →
  keeps undoable k →
  (prev ← unlink head t; new_deletion (mk prev);; k) s = Ret u s' → undone s s'.
Proof.
  intros Hh Hv Hback Hk (prev & s1 & Hu & H)%bind_Ret.
  destruct (unlink_Ret _ _ _ _ _ Hh Hu) as (n & Hp & Hne & Hn & ->).
  unfold new_deletion in H. rewrite bind_modify in H.
  apply (undone_undoable _ (set_deletions ((mk prev, groups s) :: deletions s) (groups s)
                             (set_cells (<[place head prev := n]> (cells s)) s))); [|by eapply Hk].
  split; [|by intros E%(f_equal length)%Nat.neq_succ_diag_l].
  split_and!; [done..|]. exists [mk prev]. split; [done|].
  econstructor; [|constructor]. intros s1 Hf Hc.
  rewrite Hback.
  - rewrite (relink_eq _ _ _ n).
    + rewrite Hc. cbn. rewrite insert_insert_eq, insert_id by done. done.
    + rewrite Hc. cbn. by rewrite lookup_insert_ne.
    + rewrite Hc. cbn. by rewrite lookup_insert_eq.
  - split; [done|]. intros a. rewrite Hc. cbn. apply lookup_insert_ne.
    destruct prev; cbn; [done|apply Hv].
Qed.

Lemma take_out_last head t (mk : option Z → deletion) s u s' :
  is_next head = false → (∀ a, head ≠ Vars a) →
  (∀ prev s1, agrees s s1 → put_back (mk prev) s1 = relink head t prev s1) →
  (prev ← unlink head t; new_deletion (mk prev)) s = Ret u s' → undone s s'.
Proof.
  intros Hh Hv Hback H. apply (take_out head t mk (mret tt) s u s'); [done..|apply keeps_ret, _|].
  destruct u. apply bind_Ret in H as (prev & s1 & Hu & H). apply bind_Ret. exists prev, s1. split; [done|]. exact H.
Qed.

Lemma bind_tt (m : D unit) s : (m;; mret tt) s = m s.
Proof. unfold mbind, M_bind. by destruct (m s) as [[]|]. Qed.

Lemma keeps_reset_active_ref r : keeps undoable (reset_active_ref r).
Proof.
  unfold reset_active_ref. solve_keeps.
  - apply reads_undoable, reads_last_ref_obj.
  - apply keeps_modify. intros t. split_and!; [done..|]. exists []. split; [done|constructor].
Qed.
#[local] Hint Resolve keeps_reset_active_ref : keeps.

Lemma keeps_drop_active_ref o k : keeps undoable (drop_active_ref o k).
Proof. unfold drop_active_ref. solve_keeps. Qed.
#[local] Hint Resolve keeps_drop_active_ref : keeps.

(** *** Each command *)

Lemma put_back_found {A} (m : D A) a d s1 (k : A → D unit) :
  put_back d = ((m ≫= k);; mret tt) → m s1 = Ret a s1 → put_back d s1 = k a s1.
Proof. intros -> H. rewrite bind_tt. by rewrite (bind_step _ _ _ _ _ H). Qed.

Lemma undone_do_delete_obj o s u s' : do_delete_obj o s = Ret u s' → undone s s'.
Proof.
  intros (ob & s1 & Ho & H)%bind_Ret.
  apply (lookup_Ret (λ s, objs s !! o)) in Ho as [-> Ho].
  refine (take_out (Objs (obj_frame ob)) o (dt_obj o) _ s u s' _ _ _ _ H); [done..| |solve_keeps].
  intros prev s1 [[= _ Hf _ _ _] _]. rewrite (put_back_found (obj_at o) ob _ s1 (λ ob, relink (Objs (obj_frame ob)) o prev)); [done..|].
  apply (lookup_eq (λ s, objs s !! o)). by rewrite Hf.
Qed.

Lemma keeps_do_delete_obj o : keeps undoable (do_delete_obj o).
Proof. intros s u s' H. by eapply undone_do_delete_obj. Qed.
#[local] Hint Resolve keeps_do_delete_obj : keeps.

Lemma keeps_delete_objs_if test f o : (∀ ob, reads (test ob)) → keeps undoable (delete_objs_if test f o).
Proof.
  intros Ht. revert o. induction f as [|f IH]; intros o; [apply keeps_undefined|]. cbn [delete_objs_if].
  solve_keeps.
Qed.

Lemma keeps_delete_objs_by_ref head v : keeps undoable (delete_objs_by_ref head v).
Proof.
  unfold delete_objs_by_ref. solve_keeps. apply keeps_delete_objs_if. intros ob. apply keeps_ret, _.
Qed.
#[local] Hint Resolve keeps_delete_objs_by_ref : keeps.

Lemma keeps_delete_vecs_by_ref del f vs ref :
  (∀ v, keeps undoable (del v)) → keeps undoable (delete_vecs_by_ref del f vs ref).
Proof.
  intros Hd. revert vs. induction f as [|f IH]; intros vs; [apply keeps_undefined|]. cbn [delete_vecs_by_ref].
  solve_keeps.
Qed.

Lemma undone_do_delete_vec f : ∀ v s u s', do_delete_vec f v s = Ret u s' → undone s s'.
Proof.
  induction f as [|f IH]; intros v s u s'; [done|].
  intros (ve & s1 & Hv & H)%bind_Ret. apply (lookup_Ret (λ s, vecs s !! v)) in Hv as [-> Hv].
  refine (take_out (Vecs (vec_frame ve)) v (dt_vec v) _ s u s' _ _ _ _ H); [done..| |].
  - intros prev s1 [[= Hf _ _ _ _] _].
    rewrite (put_back_found (vec_at v) ve _ s1 (λ ve, relink (Vecs (vec_frame ve)) v prev)); [done..|].
    apply (lookup_eq (λ s, vecs s !! v)). by rewrite Hf.
  - solve_keeps. apply keeps_delete_vecs_by_ref. intros ? ? ? ? Hd. by eapply IH.
Qed.

Lemma keeps_delete_references ref : keeps undoable (delete_references ref).
Proof.
  assert (∀ f fr, keeps undoable (delete_references_in f fr ref)) as H1.
  { induction f as [|f IH]; intros fr; [apply keeps_undefined|]. cbn [delete_references_in].
    solve_keeps. apply keeps_delete_objs_if, reads_refers_to. }
  assert (∀ f o, keeps undoable (drop_active_refs f o)) as H2.
  { induction f as [|f IH]; intros o; [apply keeps_undefined|]. cbn [drop_active_refs]. solve_keeps. }
  unfold delete_references. solve_keeps.
Qed.

(** *** Commands *)

Inductive command : Type :=
  | c_vec (v : Z) | c_obj (o : Z) | c_frame (fr : Z) | c_table (t : Z) | c_row (r : Z)
  | c_column (t : Z) (n : nat) | c_loop (l : Z).

Definition run_command (c : command) : D unit :=
  match c with
  | c_vec v => delete_vec v
  | c_obj o => delete_obj o
  | c_frame fr => delete_frame fr
  | c_table t => delete_table t
  | c_row r => delete_row r
  | c_column t n => delete_column t n
  | c_loop l => delete_loop l
  end.

(** What a command does: it is undone, under a number of its own. *)
Definition numbered (s s' : fpd) : Prop :=
  undone (set_deletions (deletions s) (groups s + 1) s) s'.

Lemma new_group_eq {A} (k : unit → D A) s :
  (new_group ≫= k) s = k tt (set_deletions (deletions s) (groups s + 1) s).
Proof. done. Qed.

Lemma delete_obj_numbered o s u s' : delete_obj o s = Ret u s' → numbered s s'.
Proof. unfold delete_obj. rewrite new_group_eq. apply undone_do_delete_obj. Qed.

Lemma delete_vec_numbered v s u s' : delete_vec v s = Ret u s' → numbered s s'.
Proof.
  unfold delete_vec. rewrite new_group_eq. run. apply undone_do_delete_vec.
Qed.

Lemma delete_frame_numbered fr s u s' : delete_frame fr s = Ret u s' → numbered s s'.
Proof.
  unfold delete_frame. rewrite new_group_eq. apply (take_out Frames fr (dt_frame fr)); [done..| |apply keeps_delete_references].
  intros prev s1 _. unfold put_back. by rewrite bind_tt.
Qed.

Lemma delete_row_numbered r s u s' : delete_row r s = Ret u s' → numbered s s'.
Proof.
  unfold delete_row. rewrite new_group_eq. run. intros (t & s1 & Ht & H)%bind_Ret.
  destruct (row_table _ !! r) as [t'|] eqn:E; [|done]. injection Ht as -> <-.
  refine (take_out_last (Rows t) r (dt_row r) _ u s' _ _ _ H); [done..|].
  intros prev s1 [[= _ _ _ _ Hf] _]. unfold put_back. rewrite bind_tt. cbn [undelete_item]. run.
  rewrite Hf. cbn in *. by rewrite E.
Qed.

Lemma delete_loop_numbered l s u s' : delete_loop l s = Ret u s' → numbered s s'.
Proof.
  unfold delete_loop. run. intros (fr & s1 & Ht & H)%bind_Ret.
  destruct (loop_frame _ !! l) as [t'|] eqn:E; [|done]. injection Ht as -> <-.
  rewrite new_group_eq in H.
  refine (take_out_last (Loops fr) l (dt_loop l) _ u s' _ _ _ H); [done..|].
  intros prev s1 [[= _ _ _ Hf _] _]. unfold put_back. rewrite bind_tt. cbn [undelete_item]. run.
  rewrite Hf. cbn in *. by rewrite E.
Qed.

Lemma delete_table_numbered t s u s' : delete_table t s = Ret u s' → numbered s s'.
Proof.
  unfold delete_table. intros (fr & s1 & [-> (v & Hv & Hf)]%table_frame_Ret & H)%bind_Ret.
  rewrite new_group_eq in H.
  refine (take_out_last (Tables fr) t (dt_table t) _ u s' _ _ _ H); [done..|].
  intros prev s1 [[= _ _ Hs _ _] Ht]. rewrite (put_back_found (table_frame t) fr _ s1 (λ fr, relink (Tables fr) t prev)); [done..|].
  apply (table_frame_eq _ _ _ v); [by rewrite Ht|by rewrite Hs].
Qed.

(** *** Columns

    The list [A] is what is walked over from the place [l]; the walk ends at the place
    [end_of l A]. *)

Fixpoint walk (c : gmap loc (option Z)) (l : loc) (A : list Z) : Prop :=
  match A with
  | [] => True
  | a :: A => c !! l = Some (Some a) ∧ walk c (Next a) A
  end.

Fixpoint end_of (l : loc) (A : list Z) : loc := match A with [] => l | a :: A => end_of (Next a) A end.

(** The places from [l] to the end. *)
Definition places (l : loc) (A : list Z) : list loc := l :: (Next <$> A).

Lemma end_of_places l A : end_of l A ∈ places l A.
Proof.
  unfold places. revert l. induction A as [|a A IH]; intros l; [by constructor|]. right. apply (IH (Next a)).
Qed.

(** What is walked over is before the end. *)
Lemma walk_agree c c' l A :
  NoDup (places l A) → walk c l A → (∀ q, q ∈ places l A → q ≠ end_of l A → c' !! q = c !! q) → walk c' l A.
Proof.
  unfold places. revert l. induction A as [|a A IH]; intros l Hnd; [done|]. cbn in *.
  apply NoDup_cons in Hnd as [Hl Hnd]. intros [Ha Hw] Hq. split.
  - rewrite Hq; [done|by left|]. intros E. apply Hl. rewrite E. apply (end_of_places (Next a) A).
  - apply IH; [done..|]. intros q Hin. apply Hq. by right.
Qed.

Lemma nth_loc_eq l A s : walk (cells s) l A → nth_loc (length A) l s = Ret (end_of l A) s.
Proof.
  revert l. induction A as [|a A IH]; intros l; [done|]. intros [Ha Hw]. cbn [nth_loc length].
  rewrite (bind_step _ _ _ _ _ (read_eq _ _ _ Ha)). run. by apply IH.
Qed.

(** A row, the values before the column, and the value in it; [s_rest] is the value that
    comes after. *)
Record slot : Type := Slot { s_row : Z; s_before : list Z; s_value : Z; s_rest : option Z }.

Definition s_anchor (t : slot) : loc := end_of (Values (s_row t)) (s_before t).
Definition s_places (t : slot) : list loc :=
  Next (s_row t) :: places (Values (s_row t)) (s_before t) ++ [Next (s_value t)].
#[local] Arguments s_places : simpl never.

(** Two places that differ, as one is among places that the other is not among. *)
Ltac clash :=
  match goal with
  | H : ?x ∈ _, N : ?x ∉ _ |- _ => by destruct (N H)
  | D : ∀ l, l ∈ ?X → l ∉ ?Y, H : ?x ∈ ?X, N : ?x ∈ ?Y |- _ => by destruct (D x H N)
  | N : ?x ≠ ?x |- _ => by destruct N
  | _ => tauto
  end.
Ltac apart :=
  first [done | congruence | intros ?; subst; clash | let E := fresh in intros E; rewrite E in *; clash].

Definition s_writes (t : slot) : list loc := [s_anchor t; Next (s_value t)].

Definition slot_ok (c : gmap loc (option Z)) (t : slot) : Prop :=
  walk c (Values (s_row t)) (s_before t) ∧
  c !! s_anchor t = Some (Some (s_value t)) ∧ c !! Next (s_value t) = Some (s_rest t).

(** The rows are linked from [row] on. *)
Fixpoint rows_from (c : gmap loc (option Z)) (row : option Z) (ts : list slot) : Prop :=
  match ts with
  | [] => row = None
  | t :: ts => row = Some (s_row t) ∧ ∃ r, c !! Next (s_row t) = Some r ∧ rows_from c r ts
  end.

Definition first_value (ts : list slot) : option Z := s_value <$> head ts.

Fixpoint take_cells (ts : list slot) (q : loc) (c : gmap loc (option Z)) : gmap loc (option Z) :=
  match ts with
  | [] => <[q := None]> c
  | t :: ts => take_cells ts (Next (s_value t)) (<[s_anchor t := s_rest t]> (<[q := Some (s_value t)]> c))
  end.

Fixpoint put_cells (ts : list slot) (c : gmap loc (option Z)) : gmap loc (option Z) :=
  match ts with
  | [] => c
  | t :: ts => put_cells ts (<[s_anchor t := Some (s_value t)]> (<[Next (s_value t) := s_rest t]> c))
  end.

Lemma s_anchor_places t : s_anchor t ∈ s_places t.
Proof. right. apply elem_of_app. left. apply end_of_places. Qed.
Lemma s_value_places t : Next (s_value t) ∈ s_places t.
Proof. right. apply elem_of_app. right. by left. Qed.

Lemma s_anchor_value t : NoDup (s_places t) → s_anchor t ≠ Next (s_value t) ∧ s_anchor t ≠ Next (s_row t).
Proof.
  intros [Hr (_ & Hd & _)%NoDup_app]%NoDup_cons. pose proof (end_of_places (Values (s_row t)) (s_before t)) as Hin.
  split; intros E.
  - apply (Hd (s_anchor t)); [done|]. rewrite E. by left.
  - apply Hr. rewrite <- E. apply elem_of_app. by left.
Qed.

Lemma NoDup_slots t ts q :
  NoDup (q :: ((t :: ts) ≫= s_places)) →
  (q ∉ s_places t) ∧ NoDup (s_places t) ∧ NoDup (Next (s_value t) :: (ts ≫= s_places)) ∧
  (∀ l, l ∈ s_places t → l ∉ (ts ≫= s_places)) ∧ (q ∉ (ts ≫= s_places)).
Proof.
  cbn. intros [Hq (Ht & Hd & Hts)%NoDup_app]%NoDup_cons. rewrite elem_of_app in Hq.
  split_and!; [tauto|done| |done|tauto]. apply NoDup_cons. split; [|done]. apply Hd, s_value_places.
Qed.

Lemma take_cells_other ts q c l : l ≠ q → (l ∉ (ts ≫= s_places)) → take_cells ts q c !! l = c !! l.
Proof.
  revert q c. induction ts as [|t ts IH]; intros q c Hq Hl; cbn.
  - by rewrite lookup_insert_ne.
  - cbn in Hl. rewrite elem_of_app in Hl. pose proof (s_anchor_places t). pose proof (s_value_places t).
    rewrite IH by apart. rewrite !lookup_insert_ne by apart. done.
Qed.

(** What the list of values taken out of the rows looks like. *)
Fixpoint taken (c : gmap loc (option Z)) (ts : list slot) : Prop :=
  match ts with
  | [] => True
  | t :: ts =>
      walk c (Values (s_row t)) (s_before t) ∧ c !! s_anchor t = Some (s_rest t) ∧
      c !! Next (s_value t) = Some (first_value ts) ∧ taken c ts
  end.

Lemma take_cells_head ts q c : NoDup (q :: (ts ≫= s_places)) → take_cells ts q c !! q = Some (first_value ts).
Proof.
  destruct ts as [|t ts]; intros Hnd; cbn [take_cells]; [apply lookup_insert_eq|].
  apply NoDup_slots in Hnd as (Hq & Ht & Hts & Hd & Hq').
  pose proof (s_anchor_places t). pose proof (s_value_places t).
  rewrite take_cells_other by apart. rewrite lookup_insert_ne by apart. apply lookup_insert_eq.
Qed.

Lemma slot_walk c c' t :
  NoDup (s_places t) → walk c (Values (s_row t)) (s_before t) →
  (∀ l, l ∈ s_places t → l ≠ s_anchor t → l ≠ Next (s_value t) → c' !! l = c !! l) →
  walk c' (Values (s_row t)) (s_before t).
Proof.
  intros [_ (Hnd & Hd & _)%NoDup_app]%NoDup_cons Hw Hc. apply (walk_agree c); [done..|].
  intros l Hl Hne. apply Hc; [|done|].
  - right. apply elem_of_app. by left.
  - intros ->. apply (Hd _ Hl). by left.
Qed.

Lemma NoDup_slot t ts : NoDup ((t :: ts) ≫= s_places) → NoDup (s_places t) ∧ NoDup (ts ≫= s_places).
Proof. cbn. by intros (? & _ & ?)%NoDup_app. Qed.

(** All that is said of the slots is about their places. *)
Section agree.
Context (c c' : gmap loc (option Z)).

Lemma slots_ok_agree ts :
  NoDup (ts ≫= s_places) → (∀ l, l ∈ (ts ≫= s_places) → c' !! l = c !! l) →
  Forall (slot_ok c) ts → Forall (slot_ok c') ts.
Proof.
  induction ts as [|t ts IH]; [constructor|]. intros [Ht Hts]%NoDup_slot Hc [(Hw & Ha & Hv) Hok]%Forall_cons.
  cbn in Hc. setoid_rewrite elem_of_app in Hc.
  pose proof (s_anchor_places t). pose proof (s_value_places t). constructor; [|by auto].
  split_and!; [apply (slot_walk c); by auto|rewrite Hc; by auto|rewrite Hc; by auto].
Qed.

Lemma taken_agree ts :
  NoDup (ts ≫= s_places) → (∀ l, l ∈ (ts ≫= s_places) → c' !! l = c !! l) → taken c ts → taken c' ts.
Proof.
  induction ts as [|t ts IH]; [done|]. intros [Ht Hts]%NoDup_slot Hc (Hw & Ha & Hv & Hok).
  cbn in Hc. setoid_rewrite elem_of_app in Hc.
  pose proof (s_anchor_places t). pose proof (s_value_places t).
  split_and!; [apply (slot_walk c); by auto|rewrite Hc; by auto|rewrite Hc; by auto|by auto].
Qed.

Lemma rows_from_agree row ts :
  (∀ t, t ∈ ts → c' !! Next (s_row t) = c !! Next (s_row t)) → rows_from c row ts → rows_from c' row ts.
Proof.
  revert row. induction ts as [|t ts IH]; intros row Hc; [done|]. intros (-> & r & Hr & H).
  split; [done|]. exists r. split; [rewrite Hc; [done|by left]|]. apply IH; [|done]. intros t' Ht'. apply Hc. by right.
Qed.
End agree.

Lemma s_row_places t : Next (s_row t) ∈ s_places t.
Proof. by left. Qed.

Lemma s_row_bind t ts : t ∈ ts → Next (s_row t) ∈ (ts ≫= s_places).
Proof. intros H. apply list_elem_of_bind. exists t. split; [apply s_row_places|done]. Qed.

Lemma take_cells_taken ts q c :
  NoDup (q :: (ts ≫= s_places)) → Forall (slot_ok c) ts → taken (take_cells ts q c) ts.
Proof.
  revert q c. induction ts as [|t ts IH]; intros q c Hnd Hok; [done|].
  apply NoDup_slots in Hnd as (Hq & Ht & Hts & Hd & Hq').
  apply Forall_cons in Hok as [(Hw & Ha & Hv) Hok].
  pose proof (s_anchor_places t) as Hap. pose proof (s_value_places t) as Hvp.
  destruct (s_anchor_value t Ht) as [Hav _].
  cbn [taken take_cells]. split_and!.
  - apply (slot_walk c); [done..|]. intros l Hl Hla Hlv.
    rewrite take_cells_other by apart. rewrite !lookup_insert_ne by apart. done.
  - rewrite take_cells_other by apart. apply lookup_insert_eq.
  - by apply take_cells_head.
  - apply IH; [done|]. apply NoDup_cons in Hts as [_ Hts]. apply (slots_ok_agree c); [done| |done].
    intros l Hl. rewrite !lookup_insert_ne by apart. done.
Qed.

(** Putting back restores what the slots say, whatever was there. *)
Lemma put_cells_restores ts c0 c :
  Forall (slot_ok c0) ts → (∀ l, l ∉ (ts ≫= s_writes) → c !! l = c0 !! l) → put_cells ts c = c0.
Proof.
  revert c. induction ts as [|t ts IH]; intros c Hok Hc; cbn [put_cells].
  - apply map_eq. intros l. apply Hc. cbn. set_solver.
  - apply Forall_cons in Hok as [(Hw & Ha & Hv) Hok]. apply IH; [done|]. intros l Hl.
    destruct (decide (l = s_anchor t)) as [->|Hla]; [by rewrite lookup_insert_eq|].
    rewrite lookup_insert_ne by done.
    destruct (decide (l = Next (s_value t))) as [->|Hlv]; [by rewrite lookup_insert_eq|].
    rewrite lookup_insert_ne by done. apply Hc. cbn. rewrite !elem_of_cons. tauto.
Qed.

Lemma take_cells_writes ts q c l : l ≠ q → l ∉ (ts ≫= s_writes) → take_cells ts q c !! l = c !! l.
Proof.
  revert q c. induction ts as [|t ts IH]; intros q c Hq Hl; cbn [take_cells].
  - by rewrite lookup_insert_ne.
  - cbn in Hl. rewrite !elem_of_cons in Hl. rewrite IH by tauto. rewrite !lookup_insert_ne by (intros <-; tauto). done.
Qed.

Ltac find_cell := cbn; rewrite ?lookup_insert_ne by apart; first [eassumption | apply lookup_insert_eq].
Ltac step_read := erewrite bind_step; [|apply read_eq; find_cell].
Ltac step_write := erewrite bind_step; [|apply write_eq; eexists; find_cell].

Lemma take_values_eq ts : ∀ fuel row n q s,
  (length ts < fuel)%nat → rows_from (cells s) row ts → Forall (slot_ok (cells s)) ts →
  Forall (λ t, length (s_before t) = n) ts → NoDup (q :: (ts ≫= s_places)) → is_Some (cells s !! q) →
  take_values fuel row n q s = Ret tt (set_cells (take_cells ts q (cells s)) s).
Proof.
  induction ts as [|t ts IH]; intros [|fuel] row n q s Hf Hrow Hok Hn Hnd Hq; cbn in Hf; try lia.
  - cbn in Hrow. subst row. by apply write_eq.
  - apply NoDup_slots in Hnd as (Hqt & Ht & Hts & Hd & Hq').
    destruct Hrow as (-> & r & Hr & Hrow).
    apply Forall_cons in Hok as [(Hw & Ha & Hv) Hok]. apply Forall_cons in Hn as [<- Hn].
    pose proof (s_anchor_places t) as Hap. pose proof (s_value_places t) as Hvp. pose proof (s_row_places t) as Hrp.
    destruct (s_anchor_value t Ht) as [Hav Har].
    cbn [take_values take_cells].
    rewrite (bind_step _ _ _ _ _ (nth_loc_eq _ _ _ Hw)). fold (s_anchor t).
    rewrite (bind_step _ _ _ _ _ (read_eq _ _ _ Ha)).
    rewrite (bind_step _ _ _ _ _ (write_eq _ _ _ Hq)). run.
    step_read.
    step_write.
    step_read. run.
    step_read.
    rewrite IH; [done|lia| | |done|done|].
    + apply (rows_from_agree (cells s)); [|done]. intros t' Ht'%s_row_bind. cbn. by rewrite !lookup_insert_ne by apart.
    + apply (slots_ok_agree (cells s)); [by apply NoDup_cons in Hts as [_ Hts]| |done].
      intros l Hl. cbn. by rewrite !lookup_insert_ne by apart.
    + cbn. rewrite !lookup_insert_ne by apart. eauto.
Qed.

Lemma put_values_eq ts : ∀ fuel row n s,
  (length ts < fuel)%nat → rows_from (cells s) row ts → taken (cells s) ts →
  Forall (λ t, length (s_before t) = n) ts → NoDup (ts ≫= s_places) →
  put_values fuel row n (first_value ts) s = Ret tt (set_cells (put_cells ts (cells s)) s).
Proof.
  induction ts as [|t ts IH]; intros [|fuel] row n s Hf Hrow Hok Hn Hnd; cbn in Hf; try lia.
  - cbn in Hrow. subst row. by destruct s.
  - pose proof Hnd as (Ht & Hd & Hts)%NoDup_app.
    destruct Hrow as (-> & r & Hr & Hrow). destruct Hok as (Hw & Ha & Hv & Hok). apply Forall_cons in Hn as [<- Hn].
    pose proof (s_anchor_places t) as Hap. pose proof (s_value_places t) as Hvp. pose proof (s_row_places t) as Hrp.
    destruct (s_anchor_value t Ht) as [Hav Har].
    assert (Next (s_value t) ≠ Next (s_row t)) as Hvr.
    { intros E. apply NoDup_cons in Ht as [Ht _]. apply Ht. rewrite <- E. apply elem_of_app. right. by left. }
    cbn [put_values put_cells].
    rewrite (bind_step _ _ _ _ _ (nth_loc_eq _ _ _ Hw)). fold (s_anchor t). change (first_value (t :: ts)) with (Some (s_value t)). run.
    rewrite (bind_step _ _ _ _ _ (read_eq _ _ _ Hv)).
    rewrite (bind_step _ _ _ _ _ (read_eq _ _ _ Ha)).
    rewrite (bind_step _ _ _ _ _ (write_eq (Next (s_value t)) _ _ (mk_is_Some _ _ Hv))).
    step_write.
    step_read.
    rewrite IH; [done|lia| | |done|done].
    + apply (rows_from_agree (cells s)); [|done]. intros t' Ht'%s_row_bind. cbn. by rewrite !lookup_insert_ne by apart.
    + apply (taken_agree (cells s)); [done| |done].
      intros l Hl. cbn. by rewrite !lookup_insert_ne by apart.
Qed.

Lemma rows_from_fuel c row ts : rows_from c row ts → NoDup (ts ≫= s_places) → (length ts ≤ size c)%nat.
Proof.
  intros Hr Hnd. rewrite <- (length_fmap (λ t, Next (s_row t))). apply places_bound.
  - clear Hr. induction ts as [|t ts IH]; [constructor|]. cbn in Hnd. apply NoDup_app in Hnd as (_ & Hd & Hnd).
    apply NoDup_cons. split; [|auto]. intros (t' & E & Hin)%list_elem_of_fmap.
    apply (Hd (Next (s_row t))); [apply s_row_places|]. rewrite E. by apply s_row_bind.
  - clear Hnd. revert row Hr. induction ts as [|t ts IH]; intros row Hr l Hl; [by apply elem_of_nil in Hl|].
    destruct Hr as (-> & r & Hr & Hrs). apply elem_of_cons in Hl as [->|Hl]; [eauto|by eapply IH].
Qed.

(** A table whose column [n] can be deleted: the variables [A] are before the column's, which
    is [v]; the rows have a value each in the column, as [ts] says; no two of the list cells in
    question are the same, and the place for the list of deleted values is new. *)
Record column (s : fpd) (t : Z) (n : nat) (A : list Z) (v : Z) (w row : option Z) (ts : list slot) : Prop := {
  col_vars : walk (cells s) (Vars t) A;
  col_n : length A = n;
  col_var : cells s !! end_of (Vars t) A = Some (Some v);
  col_next : cells s !! Next v = Some w;
  col_row : cells s !! Rows t = Some row;
  col_rows : rows_from (cells s) row ts;
  col_slots : Forall (slot_ok (cells s)) ts;
  col_before : Forall (λ t, length (s_before t) = n) ts;
  col_distinct : NoDup (Rows t :: places (Vars t) A ++ [Next v] ++ (ts ≫= s_places));
  col_new : cells s !! ColValues (groups s + 1) = None }.

Lemma end_of_kind l A : end_of l A = l ∨ ∃ a, end_of l A = Next a.
Proof. revert l. induction A as [|a A IH]; intros l; cbn; [by left|]. destruct (IH (Next a)) as [->|]; eauto. Qed.

Lemma rows_not_written ts t : NoDup (ts ≫= s_places) → t ∈ ts → Next (s_row t) ∉ (ts ≫= s_writes).
Proof.
  assert (∀ t l, l ∈ s_writes t → l ∈ s_places t) as Hw.
  { intros t' l. unfold s_writes. rewrite elem_of_cons, list_elem_of_singleton.
    intros [->| ->]; [apply s_anchor_places|apply s_value_places]. }
  induction ts as [|t' ts IH]; [by intros _ ?%elem_of_nil|].
  intros (Ht & Hd & Hts)%NoDup_app Hin. cbn [mbind list_bind]. rewrite elem_of_app.
  apply elem_of_cons in Hin as [->|Hin]; intros [Hl|Hl].
  - unfold s_writes in Hl. rewrite elem_of_cons, list_elem_of_singleton in Hl.
    pose proof (s_anchor_value t' Ht) as [_ Ha]. apply NoDup_cons in Ht as [Ht _].
    destruct Hl as [Hl|Hl]; [by symmetry in Hl|]. apply Ht. rewrite Hl. apply elem_of_app. right. by left.
  - apply (Hd _ (s_row_places t')). apply list_elem_of_bind in Hl as (t2 & Hl & Ht2).
    apply list_elem_of_bind. eauto.
  - apply (Hd _ (Hw _ _ Hl)). by apply s_row_bind.
  - by apply IH.
Qed.

Section column.
Context (s : fpd) (t : Z) (n : nat) (A : list Z) (v : Z) (w row : option Z) (ts : list slot).
Context (H : column s t n A v w row ts).
Abbreviation q := (ColValues (groups s + 1)).
Abbreviation pv := (end_of (Vars t) A).

Definition column_gone : gmap loc (option Z) := take_cells ts q (<[pv := w]> (<[q := None]> (cells s))).

Lemma column_new l : is_Some (cells s !! l) → l ≠ q.
Proof. intros [p Hp] ->. pose proof (col_new _ _ _ _ _ _ _ _ H). congruence. Qed.

Lemma column_apart :
  NoDup (ts ≫= s_places) ∧ NoDup (places (Vars t) A) ∧ pv ≠ Next v ∧ pv ≠ Rows t ∧
  (∀ l, l ∈ places (Vars t) A → l ∉ (ts ≫= s_places)) ∧ (Next v ∉ (ts ≫= s_places)) ∧
  (Rows t ∉ (ts ≫= s_places)) ∧ (Next v ∉ places (Vars t) A).
Proof.
  pose proof (end_of_places (Vars t) A) as Hin.
  pose proof (col_distinct _ _ _ _ _ _ _ _ H) as [Hr (HA & Hd & (_ & Hv & Hts)%NoDup_app)%NoDup_app]%NoDup_cons.
  setoid_rewrite elem_of_app in Hd. setoid_rewrite list_elem_of_singleton in Hd.
  setoid_rewrite list_elem_of_singleton in Hv. rewrite !elem_of_app in Hr.
  split_and!; [done|done| | | | | |].
  - intros E. apply (Hd _ Hin). by left.
  - intros E. apply Hr. left. by rewrite <- E.
  - intros l Hl Hl'. apply (Hd _ Hl). by right.
  - by apply Hv.
  - tauto.
  - intros Hl. apply (Hd _ Hl). by left.
Qed.

Lemma column_q_places : q ∉ (ts ≫= s_places).
Proof.
  intros (t' & Hin & _)%list_elem_of_bind. unfold s_places, places in Hin.
  rewrite elem_of_cons, elem_of_app, elem_of_cons, list_elem_of_fmap, list_elem_of_singleton in Hin.
  repeat (destruct Hin as [Hin|Hin] || destruct Hin as (? & Hin & ?)); done.
Qed.

Lemma column_fresh_places l : l ∈ places (Vars t) A → l ≠ q.
Proof. unfold places. rewrite elem_of_cons, list_elem_of_fmap. by intros [->|(? & -> & _)]. Qed.

Lemma column_gone_rows : rows_from column_gone row ts.
Proof.
  destruct column_apart as (Hts & _ & _ & _ & Hd & _). pose proof (end_of_places (Vars t) A) as Hin.
  apply (rows_from_agree (cells s)); [|apply H]. intros t' Ht'. unfold column_gone.
  pose proof (s_row_bind _ _ Ht') as Hb. pose proof column_q_places.
  rewrite take_cells_writes; [|done|by apply rows_not_written].
  rewrite lookup_insert_ne by (intros E; rewrite E in Hin; naive_solver). by rewrite lookup_insert_ne.
Qed.

Lemma delete_column_eq :
  delete_column t n s =
  Ret tt (set_cells column_gone
            (set_deletions ((dt_column v (groups s + 1) t n, groups s + 1) :: deletions s) (groups s + 1) s)).
Proof.
  pose proof H as [HA Hn Hv Hw Hrow Hrs Hok Hb _ Hq].
  destruct column_apart as (Hts & HA' & Hpv & Hpr & Hd & Hdv & Hdr & _).
  pose proof (end_of_places (Vars t) A) as Hin. pose proof column_q_places as Hqp. pose proof column_fresh_places as Hqf.
  pose proof (column_new (Next v) (mk_is_Some _ _ Hw)) as Hqv.
  unfold delete_column. rewrite new_group_eq. run.
  erewrite (bind_step (nth_loc n (Vars t))); last first.
  { rewrite <- Hn. apply nth_loc_eq. apply (walk_agree (cells s)); [done..|].
    intros l Hl _. cbn. rewrite lookup_insert_ne; [done|]. intros <-. by apply (Hqf q). }
  assert (pv ≠ q) by auto.
  step_read. run. unfold new_deletion. run.
  step_read. step_write. step_read.
  assert (∀ l, l ∈ (ts ≫= s_places) → <[pv := w]> (<[q := None]> (cells s)) !! l = cells s !! l) as Hc.
  { intros l Hl. by rewrite !lookup_insert_ne by (intros <-; naive_solver). }
  rewrite (take_values_eq ts); [done| | | |done| |].
  - unfold list_fuel. apply Nat.lt_succ_r. by eapply rows_from_fuel.
  - apply (rows_from_agree (cells s)); [|done]. intros t' Ht'%s_row_bind. by apply Hc.
  - by apply (slots_ok_agree (cells s)).
  - apply NoDup_cons. done.
  - cbn. rewrite lookup_insert_ne, lookup_insert_eq by done. eauto.
Qed.

Lemma put_back_column s1 :
  cells s1 = column_gone → put_back (dt_column v (groups s + 1) t n) s1 = Ret tt (set_cells (cells s) s1).
Proof.
  intros E. pose proof H as [HA Hn Hv Hw Hrow Hrs Hok Hb _ Hq].
  destruct column_apart as (Hts & HA' & Hpv & Hpr & Hd & Hdv & Hdr & HvA).
  pose proof (end_of_places (Vars t) A) as Hin. pose proof column_q_places as Hqp. pose proof column_fresh_places as Hqf.
  pose proof (column_new (Next v) (mk_is_Some _ _ Hw)) as Hqv.
  assert (NoDup (q :: (ts ≫= s_places))) as Hqts by by apply NoDup_cons.
  assert (pv ≠ q) as Hpq by auto.
  assert (∀ l, l ≠ q → l ∉ (ts ≫= s_places) → l ≠ pv → cells s1 !! l = cells s !! l) as Hother.
  { intros l Hlq Hlts Hlp. rewrite E. unfold column_gone. rewrite take_cells_other by done.
    by rewrite !lookup_insert_ne. }
  assert (cells s1 !! pv = Some w) as Hpw.
  { rewrite E. unfold column_gone. rewrite take_cells_other by auto. apply lookup_insert_eq. }
  unfold put_back. cbn [undelete_item]. unfold undelete_column. run.
  erewrite (bind_step (nth_loc n (Vars t))); last first.
  { rewrite <- Hn. apply nth_loc_eq. apply (walk_agree (cells s)); [done..|].
    intros l Hl Hne. apply Hother; auto. }
  run. step_read. run.
  erewrite bind_step; [|apply write_eq; rewrite Hother by auto; eauto].
  run. step_write. run.
  assert (cells s1 !! q = Some (first_value ts)) as Hhead.
  { rewrite E. by apply take_cells_head. }
  assert (cells s1 !! Rows t = Some row) as Hrow'.
  { rewrite Hother; done. }
  assert (q ∉ places (Vars t) A) as HqA by (intros ?; by eapply Hqf).
  step_read. run. step_read. run.
  pose proof column_gone_rows as Hgr.
  assert (∀ l, l ∈ (ts ≫= s_places) → <[pv := Some v]> (<[Next v := w]> (cells s1)) !! l = column_gone !! l) as Hc.
  { intros l Hl. rewrite E. by rewrite !lookup_insert_ne by (intros <-; naive_solver). }
  erewrite bind_step; last first.
  { apply (put_values_eq ts).
    - unfold list_fuel. rewrite E. apply Nat.lt_succ_r. by eapply rows_from_fuel.
    - apply (rows_from_agree column_gone); [|done]. intros t' Ht'%s_row_bind. by apply Hc.
    - apply (taken_agree column_gone); [done..|]. apply take_cells_taken; [done|].
      apply (slots_ok_agree (cells s)); [done| |done]. intros l Hl.
      by rewrite !lookup_insert_ne by (intros <-; naive_solver).
    - done.
    - done. }
  cbn [free_deletion]. unfold modify. f_equal. unfold set_cells. cbn [cells]. f_equal.
  cbn [cells set_cells].
  rewrite (put_cells_restores ts (<[q := first_value ts]> (cells s))).
  - by rewrite delete_insert_id.
  - apply (slots_ok_agree (cells s)); [done| |done]. intros l Hl. rewrite lookup_insert_ne by (by intros <-). done.
  - intros l Hl.
    destruct (decide (l = pv)) as [->|Hlp]; [by rewrite lookup_insert_eq, lookup_insert_ne|].
    rewrite lookup_insert_ne by done.
    destruct (decide (l = Next v)) as [->|Hlv]; [by rewrite lookup_insert_eq, lookup_insert_ne by done|].
    rewrite lookup_insert_ne by done.
    destruct (decide (l = q)) as [->|Hlq]; [by rewrite lookup_insert_eq|].
    rewrite E. unfold column_gone. rewrite take_cells_writes by done. by rewrite !lookup_insert_ne.
Qed.
End column.

Lemma delete_column_numbered s t n A v w row ts u s' :
  column s t n A v w row ts → delete_column t n s = Ret u s' → numbered s s'.
Proof.
  intros H. rewrite (delete_column_eq _ _ _ _ _ _ _ _ H). intros [= _ <-].
  split; [|by intros E%(f_equal length)%Nat.neq_succ_diag_l].
  split_and!; [done..|]. exists [dt_column v (groups s + 1) t n]. split; [done|].
  econstructor; [|constructor]. intros s1 _ E. by apply (put_back_column _ _ _ _ _ _ _ _ H).
Qed.

(** ** Undeletion *)

(** All commands may be run on any state they return from, except that the deletion of a
    column is of a table that is in order. *)
Definition command_ok (c : command) (s : fpd) : Prop :=
  match c with
  | c_column t n => ∃ A v w row ts, column s t n A v w row ts
  | _ => True
  end.

Lemma run_command_numbered c s u s' : command_ok c s → run_command c s = Ret u s' → numbered s s'.
Proof.
  destruct c as [v|o|fr|t|r|t n|l]; cbn.
  - intros _. apply delete_vec_numbered.
  - intros _. apply delete_obj_numbered.
  - intros _. apply delete_frame_numbered.
  - intros _. apply delete_table_numbered.
  - intros _. apply delete_row_numbered.
  - intros (A & v & w & row & ts & H). by eapply delete_column_numbered.
  - intros _. apply delete_loop_numbered.
Qed.

Inductive ran : list command → fpd → fpd → Prop :=
  | ran_nil s : ran [] s s
  | ran_cons c cs s s1 s2 :
      command_ok c s → run_command c s = Ret tt s1 → ran cs s1 s2 → ran (c :: cs) s s2.

(** [undelete] a number of times: how often there was something to undelete. *)
Fixpoint undelete_times (n : nat) : D Z :=
  match n with
  | O => mret 0
  | S n => r ← undelete; m ← undelete_times n; mret (r + m)
  end.

Lemma undelete_one_eq s d g ds c :
  deletions s = (d, g) :: ds → put_back d s = Ret tt (set_cells c s) →
  undelete_one s = Ret 1 (set_deletions ds (groups s) (set_cells c s)).
Proof.
  intros Hd (u & s1 & H1 & H2)%bind_Ret. unfold undelete_one. run. rewrite Hd.
  rewrite (bind_step _ _ _ _ _ H1). unfold pop_deletion. run.
  destruct s as [c0 vs os vf lf rt ar dl g0], s1 as [c1 vs1 os1 vf1 lf1 rt1 ar1 dl1 g1].
  destruct d; cbn [free_deletion] in *; run; injection H2; intros; by subst.
Qed.

Lemma undelete_group_eq ds rest g : ∀ s c0,
  undoes (fixed s) ds (cells s) c0 → deletions s = ((λ d, (d, g)) <$> ds) ++ rest →
  (∀ d g', (d, g') ∈ rest → g' ≠ g) →
  undelete_group (deletions s) g s = Ret tt (set_deletions rest (groups s) (set_cells c0 s)).
Proof.
  induction ds as [|d ds IH]; intros s c0 Hu Hd Hrest; inversion Hu as [|? ? ? c1 ? Hb Hu']; subst.
  - cbn in Hd. rewrite Hd. destruct rest as [|[d g'] rest]; cbn.
    + destruct s; cbn in *. by subst.
    + destruct (Z.eqb_spec g' g) as [E|_]; [by edestruct (Hrest d g'); [left|]|]. destruct s; cbn in *. by subst.
  - rewrite Hd. cbn [fmap list_fmap app undelete_group]. rewrite Z.eqb_refl.
    cbn [fmap list_fmap app] in Hd.
    rewrite (bind_step _ _ _ _ _ (undelete_one_eq s d g _ c1 Hd (Hb s eq_refl eq_refl))).
    by apply (IH (set_deletions (((λ d : deletion, (d, g)) <$> ds) ++ rest) (groups s) (set_cells c1 s)) c0).
Qed.

(** The numbers of the deletions are up to the number of the last command. *)
Definition numbers_ok (s : fpd) : Prop := ∀ d g, (d, g) ∈ deletions s → g ≤ groups s.

Lemma numbered_undelete s s' s2 :
  numbered s s' → numbers_ok s →
  deletions s2 = deletions s' → cells s2 = cells s' → fixed s2 = fixed s' →
  undelete s2 = Ret 1 (set_deletions (deletions s) (groups s2) (set_cells (cells s) s2)).
Proof.
  intros [(Hf & Hg & ds & Hd & Hu) Hne] Hok Hd2 Hc2 Hf2. cbn in Hf, Hg, Hd, Hu, Hne.
  pose proof (undelete_group_eq ds (deletions s) (groups s + 1) s2 (cells s)) as H.
  rewrite Hf2, Hc2, Hd2, Hf in H. specialize (H Hu Hd).
  unfold undelete. run. rewrite Hd2. rewrite Hd in Hne, H |- *.
  destruct ds as [|d ds]; [done|]. cbn [fmap list_fmap app] in *.
  rewrite (bind_step _ _ _ _ _ (H ltac:(intros d' g' Hin%Hok; lia))). done.
Qed.

Lemma numbered_numbers s s' : numbered s s' → numbers_ok s → numbers_ok s'.
Proof.
  intros [(_ & Hg & ds & Hd & _) _] Hok d g. cbn in Hg, Hd. rewrite Hd, Hg, elem_of_app.
  intros [(d' & [= -> ->] & _)%list_elem_of_fmap|Hin%Hok]; lia.
Qed.

Lemma numbered_fixed s s' : numbered s s' → fixed s' = fixed s.
Proof. by intros [(Hf & _) _]. Qed.

Lemma undelete_times_add n m s a s1 :
  undelete_times n s = Ret a s1 → undelete_times (n + m) s = (b ← undelete_times m; mret (a + b)) s1.
Proof.
  revert s a. induction n as [|n IH]; intros s a.
  - intros [= <- <-]. unfold mbind, M_bind. cbn. by destruct (undelete_times m _).
  - cbn. intros (r & s2 & Hr & (c & s3 & Hc & [= <- <-])%bind_Ret)%bind_Ret.
    rewrite (bind_step _ _ _ _ _ Hr). unfold mbind at 1, M_bind at 1. rewrite (IH _ _ Hc).
    unfold mbind, M_bind. destruct (undelete_times m s3); [|done]. cbn. unfold mret, M_ret. f_equal. lia.
Qed.

(** [C15] [delete.c] puts back into its lists what it took out: after any sequence of deletion
    commands that return, as many calls of [undelete] as there were commands each find something
    to undelete and none fails an assertion; after them every link of a list (the heads of the
    lists, the [next] fields of all items, the values of the tables) and the stack of deletions
    are what they were before the first command.  The [active_ref] of a frame is no such link:
    [undelete] leaves it as the deletions made it ([reference_not_restored]).  No condition is
    put on the lists, except that a column is deleted from a table in order, whose rows all have
    a value in it. *)
Theorem undelete_restores cs s s' :
  ran cs s s' → numbers_ok s →
  ∃ s'', undelete_times (length cs) s' = Ret (Z.of_nat (length cs)) s'' ∧
         cells s'' = cells s ∧ deletions s'' = deletions s ∧ fixed s'' = fixed s ∧ active_refs s'' = active_refs s'.
Proof.
  induction 1 as [s|c cs s s1 s2 Hok Hc _ IH]; intros Hn; [by exists s|].
  pose proof (run_command_numbered _ _ _ _ Hok Hc) as Hnum.
  destruct (IH (numbered_numbers _ _ Hnum Hn)) as (s3 & Ht & Hc3 & Hd3 & Hf3 & Ha3).
  pose proof (numbered_undelete _ _ _ Hnum Hn Hd3 Hc3 Hf3) as Hu.
  exists (set_deletions (deletions s) (groups s3) (set_cells (cells s) s3)). split_and!; [|done|done| |exact Ha3].
  - cbn [length]. rewrite <- Nat.add_1_r. rewrite (undelete_times_add _ _ _ _ _ Ht). cbn [undelete_times].
    run. rewrite (bind_step _ _ _ _ _ Hu). run. by rewrite Nat2Z.inj_add.
  - etransitivity; [exact Hf3|by apply numbered_fixed].
Qed.

(** ** Examples: a root frame 1 and a frame 2 that it refers to *)

Module UndoExamples.

Definition sample : fpd := {|
  cells := list_to_map [
    (Frames, Some 1); (Next 1, Some 2); (Next 2, None);
    (Vecs 1, None); (Objs 1, Some 30); (Tables 1, None); (Loops 1, None);
    (Vecs 2, Some 10); (Objs 2, Some 20); (Tables 2, Some 40); (Loops 2, Some 50);
    (Next 10, Some 11); (Next 11, Some 12); (Next 12, Some 13); (Next 13, None);
    (Next 20, Some 21); (Next 21, None); (Next 30, Some 31); (Next 31, Some 32); (Next 32, None);
    (Next 40, None); (Vars 40, Some 41); (Next 41, Some 42); (Next 42, None);
    (Rows 40, Some 43); (Next 43, Some 44); (Next 44, None);
    (Values 43, Some 45); (Next 45, Some 46); (Next 46, None);
    (Values 44, Some 47); (Next 47, Some 48); (Next 48, None);
    (Next 50, None)];
  vecs := list_to_map [(10, Vec None 2); (11, Vec (Some 10) 2); (12, Vec (Some 11) 2); (13, Vec (Some 10) 2)];
  objs := list_to_map [
    (20, Obj (ot_rect (Some 12)) 2 (Some 10)); (21, Obj (ot_hole None) 2 None);
    (30, Obj (ot_frame 2) 1 None); (31, Obj (ot_meas (Some 13) [2] []) 1 (Some 10));
    (32, Obj (ot_meas (Some 11) [] []) 1 (Some 10))];
  var_frame := list_to_map [(41, 2); (42, 2)];
  loop_frame := list_to_map [(50, 2)];
  row_table := list_to_map [(43, 40); (44, 40)];
  active_refs := list_to_map [(1, None); (2, Some 30)];
  deletions := [];
  groups := 0 |}.

Fixpoint run_commands (cs : list command) : D unit :=
  match cs with [] => mret tt | c :: cs => run_command c;; run_commands cs end.

Definition state_after (m : D unit) (s : fpd) : fpd := match m s with Ret _ s' => s' | Stop _ => s end.

Definition list_of (s : fpd) (head : loc) : list Z :=
  (fix go f p := match f, p with S f, Some a => a :: go f (default None (cells s !! Next a)) | _, _ => [] end)
    (list_fuel s) (default None (cells s !! head)).

Definition all_commands : list command := [c_column 40 1; c_vec 11; c_row 43; c_loop 50; c_obj 21; c_table 40; c_frame 2].

(** With vector 11 go the vector 12 on it, and the objects at either of them. *)
Example vector_deleted :
  let s := state_after (delete_vec 11) sample in
  (list_of s (Vecs 2), list_of s (Objs 2), list_of s (Objs 1)) = ([10; 13], [21], [30; 31]).
Proof. by vm_compute. Qed.

Example everything_deleted :
  let s := state_after (run_commands all_commands) sample in
  (list_of s Frames, list_of s (Objs 1), list_of s (Values 44), length (deletions s)) = ([1], [], [47], 12%nat).
Proof. by vm_compute. Qed.

Lemma sample_column : column sample 40 1 [41] 42 None (Some 43) [Slot 43 [45] 46 None; Slot 44 [47] 48 None].
Proof.
  split; try by vm_compute.
  - repeat split; vm_compute; try done. eexists. split; [done|]. split; [done|]. eexists. by split.
  - repeat constructor.
  - repeat constructor.
  - by apply (bool_decide_unpack _).
Qed.

Definition no_column (c : command) : bool := match c with c_column _ _ => false | _ => true end.

Lemma ran_commands cs : ∀ s s', forallb no_column cs = true → run_commands cs s = Ret tt s' → ran cs s s'.
Proof.
  induction cs as [|c cs IH]; intros s s'; [intros _ [= <-]; constructor|].
  intros [Hc Hcs]%andb_true_iff ([] & s1 & H1 & H2)%bind_Ret. econstructor; [by destruct c|done|by apply IH].
Qed.

Definition after_column : fpd := Eval vm_compute in state_after (run_command (c_column 40 1)) sample.
Definition after_all : fpd := Eval vm_compute in state_after (run_commands all_commands) sample.

Lemma undelete_restores_witness :
  ∃ s', undelete_times 7 after_all = Ret 7 s' ∧
        cells s' = cells sample ∧ deletions s' = deletions sample ∧ fixed s' = fixed sample ∧ active_refs s' = active_refs after_all.
Proof.
  apply (undelete_restores all_commands).
  - apply (ran_cons _ _ _ after_column).
    + do 5 eexists. exact sample_column.
    + vm_compute. reflexivity.
    + apply ran_commands; vm_compute; reflexivity.
  - by intros d g Hin%elem_of_nil.
Defined.

(** The active reference of a frame is not found again: [reset_active_ref] leaves its inner
    loop when it finds a reference, but goes on with the next frame, which has none.  Frame 2
    is still referred to by object 33, and has no active reference. *)
Definition two_references : fpd := {|
  cells := list_to_map [
    (Frames, Some 1); (Next 1, Some 3); (Next 3, Some 2); (Next 2, None);
    (Objs 1, Some 30); (Next 30, Some 33); (Next 33, None); (Objs 3, None); (Objs 2, None)];
  vecs := ∅;
  objs := list_to_map [(30, Obj (ot_frame 2) 1 None); (33, Obj (ot_frame 2) 1 None)];
  var_frame := ∅; loop_frame := ∅; row_table := ∅;
  active_refs := list_to_map [(1, None); (2, Some 30); (3, None)];
  deletions := []; groups := 0 |}.

Lemma reference_lost :
  let s := state_after (delete_obj 30) two_references in
  list_of s (Objs 1) = [33] ∧ active_refs s !! 2 = Some None.
Proof. by vm_compute. Qed.

(** [undelete] does not make the reference it puts back the active one again. *)
Lemma reference_not_restored :
  let s := state_after (delete_obj 30;; undelete;; mret tt) two_references in
  list_of s (Objs 1) = [30; 33] ∧ active_refs s !! 2 = Some None.
Proof. by vm_compute. Qed.

(** [purge] reads memory that it has freed: when a reference to a frame was deleted before
    the frame, the frame is destroyed first, and destroying the reference then looks at the
    frame's active reference. *)
Lemma purge_reads_freed :
  (delete_obj 30;; delete_frame 2;; purge) sample = Stop (Undefined "obj->u.frame.ref").
Proof. by vm_compute. Qed.

Lemma purge_frame :
  let s := state_after (delete_frame 2;; purge) sample in
  (list_of s Frames, deletions s, map_to_list (vecs s)) = ([1], [], []).
Proof. by vm_compute. Qed.

End UndoExamples.
