(* ===== verification/FpdLists.v ===== *)
(** * fped: lists in memory (eda/fped/delete.c)

    [chain c l xs]: the pointers from the place [l] on lead through the items [xs] to NULL.
    How taking out an item changes the chains, those too that start in an item that is
    itself no longer in a list. *)

From stdpp Require Import gmap sets.
From S2P Require Import Prelude.
From S2P Require Import FpdDelete.

Abbreviation memory := (gmap loc (option Z)).

(** Every element of a list that is given. *)
Ltac each H := repeat (apply elem_of_cons in H as [->|H]); try by apply elem_of_nil in H.

Fixpoint chain (c : memory) (l : loc) (xs : list Z) : Prop :=
  match xs with
  | [] => c !! l = Some None
  | x :: xs => c !! l = Some (Some x) ∧ chain c (Next x) xs
  end.

Lemma chain_det c l P Q : chain c l P → chain c l Q → P = Q.
Proof.
  revert l Q. induction P as [|x P IH]; intros l [|y Q]; cbn; [done|intros ? []; congruence|intros [] ?; congruence|].
  intros [Hx HP] [Hy HQ]. rewrite Hx in Hy. injection Hy as ->. f_equal. by eapply IH.
Qed.

Lemma chain_suffix c l A x B : chain c l (A ++ x :: B) → chain c (Next x) B.
Proof. revert l. induction A as [|a A IH]; intros l; cbn; [by intros [_ H]|intros [_ H]; by eapply IH]. Qed.

Lemma chain_start c l P : chain c l P → c !! l = Some (head P).
Proof. destruct P; cbn; [done|by intros [? _]]. Qed.

(** A chain does not come back to its start. *)
Lemma chain_no_return c l P x : chain c l P → x ∈ P → l ≠ Next x.
Proof.
  intros H (A & B & ->)%list_elem_of_split ->.
  pose proof (chain_det _ _ _ _ H (chain_suffix _ _ _ _ _ H)) as E%(f_equal length).
  rewrite length_app in E. cbn in E. lia.
Qed.

Lemma chain_NoDup c l P : chain c l P → NoDup P.
Proof.
  revert l. induction P as [|x P IH]; intros l; [constructor|]. intros [_ H]. constructor; [|by eapply IH].
  intros Hx. by eapply (chain_no_return _ _ _ _ H Hx).
Qed.

Lemma chain_cell c l P x : chain c l P → x ∈ P → is_Some (c !! Next x).
Proof. intros H (A & B & ->)%list_elem_of_split. apply chain_suffix, chain_start in H. eauto. Qed.

Lemma chain_agree c c' l P :
  c' !! l = c !! l → (∀ x, x ∈ P → c' !! Next x = c !! Next x) → chain c l P → chain c' l P.
Proof.
  revert l. induction P as [|x P IH]; intros l Hl Hc; cbn; [by rewrite Hl|].
  intros [Hx H]. split; [by rewrite Hl|]. apply IH; [apply Hc; by left|intros y Hy; apply Hc; by right|done].
Qed.

Lemma chain_length c l P : chain c l P → (length P ≤ size c)%nat.
Proof.
  intros H. rewrite <- (length_fmap Next). apply places_bound.
  - apply NoDup_fmap; [by intros x y [= ->]|by eapply chain_NoDup].
  - intros q (x & -> & Hx)%list_elem_of_fmap. by eapply chain_cell.
Qed.

(** *** Taking out an item *)

(** The place of the pointer to what comes after [A]. *)
Lemma place_cons l a A : place l (last (a :: A)) = place (Next a) (last A).
Proof. rewrite last_cons. by destruct (last A). Qed.

Lemma place_inv l A : place l (last A) = l ∨ ∃ a, a ∈ A ∧ place l (last A) = Next a.
Proof. destruct (last A) as [a|] eqn:E; [right; exists a; split; [by apply last_Some_elem_of|done]|by left]. Qed.

Lemma chain_point c l A x B : chain c l (A ++ x :: B) → c !! place l (last A) = Some (Some x).
Proof.
  revert l. induction A as [|a A IH]; intros l; [by intros [? _]|]. intros [_ H]. rewrite place_cons. by apply IH.
Qed.

Lemma chain_remove c l A x B n :
  chain c l (A ++ x :: B) → c !! Next x = Some n → chain (<[place l (last A) := n]> c) l (A ++ B).
Proof.
  revert l. induction A as [|a A IH]; intros l H Hn.
  - pose proof H as [_ HB]. cbn [app last place]. pose proof (chain_start _ _ _ HB) as HB0. rewrite Hn in HB0.
    injection HB0 as ->. destruct B as [|y B]; cbn; [apply lookup_insert_eq|]. split; [apply lookup_insert_eq|].
    assert (∀ z, z ∈ y :: B → l ≠ Next z) as Hl by (intros z Hz; apply (chain_no_return _ _ _ _ H); by right).
    apply (chain_agree c); [apply lookup_insert_ne, Hl; by left| |by destruct HB].
    intros z Hz. apply lookup_insert_ne, Hl. by right.
  - rewrite place_cons. pose proof H as [Ha HA]. split; [|by apply IH].
    rewrite lookup_insert_ne; [done|]. intros E.
    destruct (place_inv (Next a) A) as [E'|(y & Hy & E')]; rewrite E' in E.
    + by apply (chain_no_return _ _ _ a H); [left|].
    + apply (chain_no_return _ _ _ y H); [right; apply elem_of_app; by left|done].
Qed.

(** Any chain is shorter by at most the item that is taken out. *)
Lemma chain_shrink c l P q t n :
  chain c l P → c !! q = Some (Some t) → c !! Next t = Some n →
  ∃ P', chain (<[q := n]> c) l P' ∧ P' `sublist_of` P ∧ ∀ y, y ∈ P → y ≠ t → y ∈ P'.
Proof.
  intros H Hq Hn.
  assert (∀ A B, P = A ++ t :: B → q = place l (last A) →
    ∃ P', chain (<[q := n]> c) l P' ∧ P' `sublist_of` P ∧ ∀ y, y ∈ P → y ≠ t → y ∈ P') as Hcut.
  { intros A B -> ->. exists (A ++ B). split; [by eapply chain_remove|]. split.
    - apply sublist_app; [done|by constructor].
    - intros y. rewrite !elem_of_app, elem_of_cons. tauto. }
  destruct (decide (q = l)) as [->|Hql].
  - destruct P as [|x P]; cbn in H; [congruence|]. destruct H as [Hx _].
    apply (Hcut [] P); [rewrite Hq in Hx; by injection Hx as ->|done].
  - destruct (decide (Exists (λ x, q = Next x) P)) as [(x & Hx & ->)%Exists_exists|Hno].
    + apply list_elem_of_split in Hx as (A & B & E). rewrite E in H. pose proof (chain_suffix _ _ _ _ _ H) as HB.
      destruct B as [|y B]; cbn in HB; [congruence|]. destruct HB as [Hy _].
      apply (Hcut (A ++ [x]) B); [rewrite E, <- app_assoc; cbn; congruence|by rewrite last_snoc].
    + exists P. split; [|done]. apply (chain_agree c); [by apply lookup_insert_ne| |done].
      intros y Hy. apply lookup_insert_ne. intros ->. apply Hno, Exists_exists. eauto.
Qed.

(** *** [unlink] *)

Lemma find_prev_eq f s t B : ∀ A l w prev,
  chain (cells s) l (A ++ t :: B) → cells s !! l = Some w → (length A < f)%nat →
  find_prev f w t prev s = Ret (match last A with Some a => Some a | None => prev end) s.
Proof.
  induction f as [|f IH]; intros A l w prev H Hw Hf; [lia|]. cbn [find_prev].
  destruct A as [|a A]; destruct H as [Hx H]; rewrite Hw in Hx; injection Hx as ->; run.
  - by rewrite Z.eqb_refl.
  - assert (a ≠ t) as Hat.
    { intros ->. by apply (chain_no_return _ _ _ t H); [apply elem_of_app; right; left|]. }
    apply Z.eqb_neq in Hat. rewrite Hat. pose proof (chain_start _ _ _ H) as Hn.
    rewrite (bind_step _ _ _ _ _ (read_eq _ _ _ Hn)). rewrite (IH A (Next a)); [|done|done|cbn in Hf; lia].
    rewrite last_cons. by destruct (last A).
Qed.

Lemma unlink_eq head t A B s n :
  chain (cells s) head (A ++ t :: B) → cells s !! Next t = Some n →
  unlink head t s = Ret (last A) (set_cells (<[place head (last A) := n]> (cells s)) s).
Proof.
  intros H Hn. unfold unlink. run. pose proof (chain_start _ _ _ H) as Hh.
  rewrite (bind_step _ _ _ _ _ (read_eq _ _ _ Hh)).
  erewrite bind_step; [|apply (find_prev_eq _ _ _ B A head); [done|done|]].
  - rewrite (bind_step _ _ _ _ _ (read_eq _ _ _ Hn)).
    assert (match last A with Some a => Some a | None => None end = last A) as -> by by destruct (last A).
    change (match last A with Some p => Next p | None => head end) with (place head (last A)).
    erewrite bind_step; [|apply write_eq; rewrite (chain_point _ _ _ _ _ H); eauto]. done.
  - pose proof (chain_length _ _ _ H) as Hl. rewrite length_app in Hl. unfold list_fuel. cbn in Hl. lia.
Qed.

(** ** What is kept of a list

    [kept G xs ys]: [ys] are the elements of [xs] that satisfy [G], in the same order. *)
Definition kept (G : Z → Prop) (xs ys : list Z) : Prop :=
  ys `sublist_of` xs ∧ ∀ x, x ∈ ys ↔ x ∈ xs ∧ G x.

Lemma kept_all G xs : (∀ x, x ∈ xs → G x) → kept G xs xs.
Proof. intros H. split; [done|]. intros x. split; [intros Hx; split; [done|by apply H]|by intros [? _]]. Qed.

Lemma kept_trans G H K xs ys zs :
  kept G xs ys → kept H ys zs → (∀ x, x ∈ xs → (G x ∧ H x ↔ K x)) → kept K xs zs.
Proof.
  intros [Hs1 He1] [Hs2 He2] HK. split; [by etransitivity|]. intros x. rewrite He2, He1.
  split; [intros [[Hx ?] ?]; split; [done|by apply HK]|intros [Hx HKx]; apply HK in HKx; tauto].
Qed.

Lemma kept_ext G H xs ys : kept G xs ys → (∀ x, x ∈ xs → (G x ↔ H x)) → kept H xs ys.
Proof.
  intros [Hs He] HG. split; [done|]. intros x. rewrite He. split; intros [Hx ?]; (split; [done|]); by apply HG.
Qed.

Lemma kept_filter (G : Z → Prop) `{!∀ x, Decision (G x)} xs : kept G xs (filter G xs).
Proof. split; [apply sublist_filter|]. intros x. rewrite list_elem_of_filter. tauto. Qed.

Lemma kept_without A x B : NoDup (A ++ x :: B) → kept (λ y, y ≠ x) (A ++ x :: B) (A ++ B).
Proof.
  intros (HA & Hd & [Hx HB]%NoDup_cons)%NoDup_app. split; [apply sublist_app; [done|by constructor]|].
  intros y. rewrite !elem_of_app, elem_of_cons. split; [|tauto].
  intros [Hy|Hy]; (split; [tauto|]); intros ->; [apply (Hd _ Hy); by left|done].
Qed.

