(* ===== verification/FpdExact.v ===== *)
(** * fped: what a deletion takes along (eda/fped/delete.c)

    The deletion of a vector takes with it the vectors that are based on it, however
    indirectly, and the objects that are placed with one of these, and nothing else; it
    ends; and no item that is left refers to one that is gone. *)

From stdpp Require Import gmap sets relations functions.
From S2P Require Import Prelude.
From S2P Require Import FpdDelete.
From S2P Require Import FpdLists.

(** ** Lists in order

    [F] are the frames, [V] and [O] the vectors and the objects of each frame. *)
Record shape (s : fpd) (F : list Z) (V O : Z → list Z) : Prop := {
  sh_frames : chain (cells s) Frames F;
  sh_vecs : ∀ fr, fr ∈ F → chain (cells s) (Vecs fr) (V fr);
  sh_objs : ∀ fr, fr ∈ F → chain (cells s) (Objs fr) (O fr);
  sh_vec : ∀ fr v, fr ∈ F → v ∈ V fr → ∃ b, vecs s !! v = Some (Vec b fr);
  sh_obj : ∀ fr o, fr ∈ F → o ∈ O fr → ∃ ob, objs s !! o = Some ob ∧ obj_frame ob = fr ∧
             ∀ r, obj_kind ob = ot_frame r → is_Some (active_refs s !! r);
  sh_vec_obj : ∀ x, is_Some (vecs s !! x) → objs s !! x = None;
  sh_frame : ∀ fr, fr ∈ F → vecs s !! fr = None ∧ objs s !! fr = None }.

(** The places of the lists of a frame. *)
Definition vec_place (s : fpd) (fr : Z) (l : loc) : Prop :=
  l = Vecs fr ∨ ∃ v b, l = Next v ∧ vecs s !! v = Some (Vec b fr).
Definition obj_place (s : fpd) (fr : Z) (l : loc) : Prop :=
  l = Objs fr ∨ ∃ o ob, l = Next o ∧ objs s !! o = Some ob ∧ obj_frame ob = fr.

(** Only pointers at the places [X] change, and active references. *)
Definition data (s : fpd) := (vecs s, objs s, var_frame s, loop_frame s, row_table s).
Record within (X : loc → Prop) (s s' : fpd) : Prop := {
  wi_data : data s' = data s;
  wi_groups : groups s' = groups s;
  wi_cells : ∀ l, ¬ X l → cells s' !! l = cells s !! l;
  wi_refs : ∀ r, is_Some (active_refs s !! r) → is_Some (active_refs s' !! r) }.

Lemma within_refl X s : within X s s.
Proof. by split. Qed.

Lemma within_trans X s1 s2 s3 : within X s1 s2 → within X s2 s3 → within X s1 s3.
Proof.
  intros [Hd1 Hg1 Hc1 Hr1] [Hd2 Hg2 Hc2 Hr2]. split; [congruence|congruence| |auto].
  intros l Hl. rewrite Hc2, Hc1; done.
Qed.

Lemma within_weaken (X Y : loc → Prop) s s' : (∀ l, X l → Y l) → within X s s' → within Y s s'.
Proof. intros HXY [Hd Hg Hc Hr]. split; [done..| |done]. intros l Hl. apply Hc. auto. Qed.

Lemma within_vecs X s s' : within X s s' → vecs s' = vecs s.
Proof. by intros [[= -> _ _ _ _] _ _ _]. Qed.
Lemma within_objs X s s' : within X s s' → objs s' = objs s.
Proof. by intros [[= _ -> _ _ _] _ _ _]. Qed.

Lemma vec_place_within X s s' fr l : within X s s' → vec_place s' fr l ↔ vec_place s fr l.
Proof. intros H. unfold vec_place. by rewrite (within_vecs _ _ _ H). Qed.
Lemma obj_place_within X s s' fr l : within X s s' → obj_place s' fr l ↔ obj_place s fr l.
Proof. intros H. unfold obj_place. by rewrite (within_objs _ _ _ H). Qed.

Section shape.
Context (s : fpd) (F : list Z) (V O : Z → list Z) (H : shape s F V O).

(** The places of different lists are different. *)
Lemma vec_place_unique fr fr' l : vec_place s fr l → vec_place s fr' l → fr = fr'.
Proof. intros [->|(v & b & -> & Hv)] [E|(v' & b' & E & Hv')]; congruence. Qed.

Lemma obj_place_unique fr fr' l : obj_place s fr l → obj_place s fr' l → fr = fr'.
Proof.
  intros [->|(v & b & -> & Hv & ?)] [E|(v' & b' & E & Hv' & ?)]; try congruence.
Qed.

Lemma vec_obj_place fr fr' l : vec_place s fr l → obj_place s fr' l → False.
Proof.
  intros [->|(v & b & -> & Hv)] [E|(o & ob & E & Ho & _)]; try congruence.
  injection E as ->. rewrite (sh_vec_obj _ _ _ _ H) in Ho; [done|eauto].
Qed.

Lemma vec_chain_places fr l : fr ∈ F → l = Vecs fr ∨ (∃ v, l = Next v ∧ v ∈ V fr) → vec_place s fr l.
Proof.
  intros Hfr [->|(v & -> & Hv)]; [by left|right]. destruct (sh_vec _ _ _ _ H _ _ Hfr Hv) as [b Hb]. eauto.
Qed.

Lemma obj_chain_places fr l : fr ∈ F → l = Objs fr ∨ (∃ v, l = Next v ∧ v ∈ O fr) → obj_place s fr l.
Proof.
  intros Hfr [->|(v & -> & Hv)]; [by left|right]. destruct (sh_obj _ _ _ _ H _ _ Hfr Hv) as (ob & Hob & E & _). eauto.
Qed.

Lemma frame_place fr : fr ∈ F → (∀ fr', ¬ vec_place s fr' (Next fr)) ∧ (∀ fr', ¬ obj_place s fr' (Next fr)).
Proof.
  intros Hfr. destruct (sh_frame _ _ _ _ H _ Hfr) as [Hv Ho].
  split; intros fr' [E|(x & y & E & Hx)]; first [congruence | destruct Hx; congruence].
Qed.
End shape.

(** The shape after a change of some vector and object lists: those lists have to be looked
    at, all others are as before. *)
Lemma shape_within (X : loc → Prop) s s' F V O V' O' :
  shape s F V O → within X s s' →
  (∀ l, X l → (∃ fr, vec_place s fr l) ∨ (∃ fr, obj_place s fr l)) →
  (∀ fr, fr ∈ F → V' fr `sublist_of` V fr ∧
     ((V' fr = V fr ∧ ∀ l, vec_place s fr l → ¬ X l) ∨ chain (cells s') (Vecs fr) (V' fr))) →
  (∀ fr, fr ∈ F → O' fr `sublist_of` O fr ∧
     ((O' fr = O fr ∧ ∀ l, obj_place s fr l → ¬ X l) ∨ chain (cells s') (Objs fr) (O' fr))) →
  shape s' F V' O'.
Proof.
  intros H Hw HX HV HO.
  pose proof (within_vecs _ _ _ Hw) as Ev. pose proof (within_objs _ _ _ Hw) as Eo. destruct Hw as [_ _ Hc Hr].
  split; try (rewrite Ev); try (rewrite Eo); [| | | | |apply H|apply H].
  - apply (chain_agree (cells s)); [apply Hc| |apply H].
    + intros [(fr & [|(? & ? & ? & _)])|(fr & [|(? & ? & ? & _)])]%HX; done.
    + intros fr Hfr. apply Hc. destruct (frame_place _ _ _ _ H fr Hfr) as [Hv Ho].
      intros [(fr' & Hp)|(fr' & Hp)]%HX; [by eapply Hv|by eapply Ho].
  - intros fr Hfr. destruct (HV fr Hfr) as [_ [[-> Hn]|?]]; [|done].
    apply (chain_agree (cells s)); [| |by apply H].
    + apply Hc, Hn. by left.
    + intros v Hv. apply Hc, Hn. apply (vec_chain_places _ _ _ _ H); eauto.
  - intros fr Hfr. destruct (HO fr Hfr) as [_ [[-> Hn]|?]]; [|done].
    apply (chain_agree (cells s)); [| |by apply H].
    + apply Hc, Hn. by left.
    + intros v Hv. apply Hc, Hn. apply (obj_chain_places _ _ _ _ H); eauto.
  - intros fr v Hfr Hv. destruct (HV fr Hfr) as [Hs _]. apply (sh_vec _ _ _ _ H); [done|].
    by eapply elem_of_sublist.
  - intros fr o Hfr Ho. destruct (HO fr Hfr) as [Hs _].
    destruct (sh_obj _ _ _ _ H fr o Hfr ltac:(by eapply elem_of_sublist)) as (ob & ? & ? & Hk).
    exists ob. split_and!; [done..|]. intros r Hr'. by eapply Hr, Hk.
Qed.

(** ** Objects *)

Section find_ref.
Context (s : fpd) (F : list Z) (V O : Z → list Z) (H : shape s F V O) (ref : Z).

Lemma find_ref_obj_returns f l P fr :
  fr ∈ F → chain (cells s) l P → (∀ o, o ∈ P → o ∈ O fr) → (length P < f)%nat →
  ∃ r, find_ref_obj f (head P) ref s = Ret r s.
Proof.
  intros Hfr. revert l P. induction f as [|f IH]; intros l P Hc HP Hf; [lia|]. cbn [find_ref_obj].
  destruct P as [|o P]; [by eexists|]. cbn [head].
  destruct (sh_obj _ _ _ _ H fr o Hfr ltac:(apply HP; by left)) as (ob & Hob & _).
  rewrite (bind_step _ _ _ _ _ (obj_at_eq _ _ _ Hob)).
  case_match; [by eexists|]. destruct Hc as [_ Hc].
  rewrite (bind_step _ _ _ _ _ (read_eq _ _ _ (chain_start _ _ _ Hc))).
  apply (IH (Next o)); [done| |cbn in Hf; lia]. intros o' Ho'. apply HP. by right.
Qed.

Lemma last_ref_obj_returns f l P obj :
  chain (cells s) l P → (∀ fr, fr ∈ P → fr ∈ F) → (length P < f)%nat →
  ∃ r, last_ref_obj f (head P) obj ref s = Ret r s.
Proof.
  revert l P obj. induction f as [|f IH]; intros l P obj Hc HP Hf; [lia|]. cbn [last_ref_obj].
  destruct P as [|fr P]; [by eexists|]. cbn [head].
  pose proof (sh_objs _ _ _ _ H fr ltac:(apply HP; by left)) as HO.
  rewrite (bind_step _ _ _ _ _ (read_eq _ _ _ (chain_start _ _ _ HO))).
  rewrite bind_get.
  destruct (find_ref_obj_returns (list_fuel s) (Objs fr) (O fr) fr) as [r Hr].
  { apply HP. by left. } { done. } { done. }
  { unfold list_fuel. apply Nat.lt_succ_r. by eapply chain_length. }
  rewrite (bind_step _ _ _ _ _ Hr). destruct Hc as [_ Hc].
  rewrite (bind_step _ _ _ _ _ (read_eq _ _ _ (chain_start _ _ _ Hc))).
  apply (IH (Next fr)); [done| |cbn in Hf; lia]. intros x Hx. apply HP. by right.
Qed.
End find_ref.

Lemma drop_active_ref_returns s F V O o k :
  shape s F V O → (∀ r, k = ot_frame r → is_Some (active_refs s !! r)) →
  ∃ a, drop_active_ref o k s = Ret tt (set_active_refs a s) ∧
       ∀ r, is_Some (active_refs s !! r) → is_Some (a !! r).
Proof.
  intros H Hk. assert ((mret tt : D unit) s = Ret tt (set_active_refs (active_refs s) s)) as Hid by by destruct s.
  unfold drop_active_ref. destruct k as [r| | | | | |]; try (exists (active_refs s); done).
  destruct (Hk r eq_refl) as [a Ha]. run. rewrite Ha. run.
  case_bool_decide; [|exists (active_refs s); done].
  unfold reset_active_ref. run.
  rewrite (bind_step _ _ _ _ _ (read_eq _ _ _ (chain_start _ _ _ (sh_frames _ _ _ _ H)))).
  destruct (last_ref_obj_returns _ _ _ _ H r (list_fuel s) Frames F None) as [x Hx].
  { apply H. } { done. } { apply Nat.lt_succ_r. eapply chain_length, H. }
  rewrite (bind_step _ _ _ _ _ Hx). exists (<[r := x]> (active_refs s)). split; [done|].
  intros r'. destruct (decide (r = r')) as [->|Hne]; [by rewrite lookup_insert_eq; eauto|by rewrite lookup_insert_ne].
Qed.

(** What is said of all chains when an item is taken out of some of them. *)
Definition shrinks (W : Z → Prop) (s s' : fpd) : Prop :=
  ∀ l P, chain (cells s) l P → ∃ P', chain (cells s') l P' ∧ P' `sublist_of` P ∧ ∀ y, y ∈ P → W y → y ∈ P'.

Lemma shrinks_refl W s : shrinks W s s.
Proof. intros l P HP. by exists P. Qed.

Lemma shrinks_trans W s1 s2 s3 : shrinks W s1 s2 → shrinks W s2 s3 → shrinks W s1 s3.
Proof.
  intros H1 H2 l P HP. destruct (H1 l P HP) as (P1 & HP1 & Hs1 & Hy1). destruct (H2 l P1 HP1) as (P2 & HP2 & Hs2 & Hy2).
  exists P2. split; [done|]. split; [by etransitivity|auto].
Qed.

Lemma shrinks_weaken (W W' : Z → Prop) s s' : (∀ y, W' y → W y) → shrinks W s s' → shrinks W' s s'.
Proof. intros HW H l P HP. destruct (H l P HP) as (P1 & HP1 & Hs1 & Hy1). exists P1. auto. Qed.

Lemma do_delete_obj_spec s F V O fr A o B :
  shape s F V O → fr ∈ F → O fr = A ++ o :: B →
  ∃ s', do_delete_obj o s = Ret tt s' ∧ within (obj_place s fr) s s' ∧ shape s' F V (<[fr := A ++ B]> O) ∧
        shrinks (λ y, y ≠ o) s s' ∧ ∀ x, x ∉ A → cells s' !! Next x = cells s !! Next x.
Proof.
  intros H Hfr HO. pose proof (sh_objs _ _ _ _ H fr Hfr) as Hc. rewrite HO in Hc.
  destruct (sh_obj _ _ _ _ H fr o Hfr) as (ob & Hob & <- & Hk); [rewrite HO; apply elem_of_app; right; by left|].
  set (fr := obj_frame ob) in *.
  destruct (chain_cell _ _ _ o Hc) as [n Hn]; [apply elem_of_app; right; by left|].
  unfold do_delete_obj. rewrite (bind_step _ _ _ _ _ (obj_at_eq _ _ _ Hob)).
  rewrite (bind_step _ _ _ _ _ (unlink_eq _ _ _ _ _ _ Hc Hn)). unfold new_deletion. rewrite bind_modify.
  set (q := place (Objs fr) (last A)). set (s1 := set_deletions _ _ _).
  assert (obj_place s fr q) as Hq.
  { apply (obj_chain_places _ _ _ _ H); [done|]. destruct (place_inv (Objs fr) A) as [E|(a & Ha & E)]; [by left|right].
    exists a. split; [done|]. rewrite HO. apply elem_of_app. by left. }
  assert (within (obj_place s fr) s s1) as Hw1.
  { split; [done..| |done]. intros l Hl. cbn. apply lookup_insert_ne. by intros <-. }
  pose proof (chain_remove _ _ _ _ _ _ Hc Hn) as Hc1.
  assert (shape s1 F V (<[fr := A ++ B]> O)) as H1.
  { apply (shape_within (obj_place s fr) s _ _ V O); [done|done|by right; eauto| |].
    - intros g Hg. split; [done|]. left. split; [done|]. intros l Hv Ho. by eapply (vec_obj_place _ _ _ _ H).
    - intros g Hg. destruct (decide (g = fr)) as [->|Hne].
      + rewrite fn_lookup_insert. split; [rewrite HO; apply sublist_app; [done|by constructor]|by right].
      + rewrite fn_lookup_insert_ne by done. split; [done|]. left. split; [done|]. intros l Hg1 Hg2.
        by eapply Hne, obj_place_unique. }
  destruct (drop_active_ref_returns s1 _ _ _ o (obj_kind ob) H1) as (a & Ha & Hr); [done|].
  rewrite Ha. eexists. split; [done|]. split; [|split; [|split]].
  - destruct Hw1 as [? ? ? ?]. split; [done..|]. intros r Hr'. by apply Hr.
  - destruct H1 as [? ? ? ? Hobj ? ?]. split; try done. intros g x Hg Hx.
    destruct (Hobj g x Hg Hx) as (ob' & ? & ? & Hk'). exists ob'. split_and!; [done..|]. intros r E. by apply Hr, Hk'.
  - intros l P HP. apply chain_shrink; [done| |done]. by eapply chain_point.
  - intros x Hx. cbn. apply lookup_insert_ne. intros E.
    destruct (place_inv (Objs fr) A) as [E'|(y & Hy & E')]; fold q in E'; congruence.
Qed.

Lemma shape_deletions d g s F V O : shape s F V O → shape (set_deletions d g s) F V O.
Proof. by intros []. Qed.

Lemma within_deletions X d s s' : within X s s' → within X s (set_deletions d (groups s') s').
Proof. by intros []. Qed.

(** The loop over the objects of a frame: the objects [K] were kept, [P] are left to see. *)
Lemma delete_objs_if_spec (t : obj → bool) (test : obj → D bool) fr F V P : ∀ f l s O K,
  shape s F V O → fr ∈ F → O fr = K ++ P → chain (cells s) l P → (length P < f)%nat →
  (∀ o ob s', within (obj_place s fr) s s' → o ∈ P → objs s !! o = Some ob → test ob s' = Ret (t ob) s') →
  ∃ s' O' P', delete_objs_if test f (head P) s = Ret tt s' ∧ within (obj_place s fr) s s' ∧
    shape s' F V O' ∧ shrinks (λ y, y ∉ P) s s' ∧ (∀ g, g ≠ fr → O' g = O g) ∧ O' fr = K ++ P' ∧
    kept (λ o, ∀ ob, objs s !! o = Some ob → t ob = false) P P'.
Proof.
  induction P as [|o P IH]; intros [|f] l s O K H Hfr HO Hc Hf Ht; cbn in Hf; try lia.
  - exists s, O, []. cbn. split_and!; [done|apply within_refl|done|apply shrinks_refl|done|done|by apply kept_all; intros ? ?%elem_of_nil].
  - cbn [delete_objs_if head]. destruct Hc as [_ Hc].
    destruct (sh_obj _ _ _ _ H fr o Hfr) as (ob & Hob & _); [rewrite HO; apply elem_of_app; right; by left|].
    rewrite (bind_step _ _ _ _ _ (obj_at_eq _ _ _ Hob)).
    rewrite (bind_step _ _ _ _ _ (Ht o ob s (within_refl _ _) ltac:(by left) Hob)).
    assert (NoDup (K ++ o :: P)) as Hnd by (rewrite <- HO; eapply chain_NoDup, (sh_objs _ _ _ _ H fr Hfr)).
    apply NoDup_app in Hnd as (_ & Hd & [Ho _]%NoDup_cons).
    destruct (t ob) eqn:Etob.
    + destruct (do_delete_obj_spec s F V O fr K o P H Hfr HO) as (s1 & Hs1 & Hw1 & H1 & Hsh1 & Hn).
      rewrite (bind_step _ _ _ _ _ Hs1).
      assert (∀ x, x ∈ o :: P → cells s1 !! Next x = cells s !! Next x) as Hn' by (intros x Hx; apply Hn; intros HxK; by apply (Hd x HxK)).
      rewrite (bind_step _ _ _ (head P) s1); [|apply read_eq; rewrite Hn' by (by left); exact (chain_start _ _ _ Hc)].
      destruct (IH f (Next o) s1 (<[fr := K ++ P]> O) K) as (s2 & O2 & P2 & Hs2 & Hw2 & H2 & Hsh2 & Ho2 & Ho2' & Hk2);
        [done|done|by rewrite fn_lookup_insert| |lia| |].
      { apply (chain_agree (cells s)); [apply Hn'; by left|intros x Hx; apply Hn'; by right|done]. }
      { intros o' ob' s' Hw' Ho' Hob'. apply (Ht o'); [|by right|by rewrite <- (within_objs _ _ _ Hw1)].
        eapply within_trans; [done|]. eapply within_weaken; [|done]. intros q. by apply (obj_place_within _ _ _ _ _ Hw1). }
      exists s2, O2, P2. split_and!; [done| |done| | |done|].
      * eapply within_trans; [done|]. eapply within_weaken; [|done]. intros q. by apply (obj_place_within _ _ _ _ _ Hw1).
      * eapply shrinks_trans; eapply shrinks_weaken; try done; intros y Hy; set_solver.
      * intros g Hg. rewrite Ho2 by done. by rewrite fn_lookup_insert_ne.
      * rewrite (within_objs _ _ _ Hw1) in Hk2. destruct Hk2 as [Hs He]. split; [by constructor|].
        intros x. rewrite He, elem_of_cons. split; [intros [Hx HG]; split; [by right|done]|]. intros [[->|Hx] Hx']; [|done].
        rewrite (Hx' ob Hob) in Etob. done.
    + rewrite bind_mret. rewrite (bind_step _ _ _ _ _ (read_eq _ _ _ (chain_start _ _ _ Hc))).
      destruct (IH f (Next o) s O (K ++ [o])) as (s2 & O2 & P2 & Hs2 & Hw2 & H2 & Hsh2 & Ho2 & Ho2' & Hk2);
        [done|done|by rewrite <- app_assoc|done|lia| |].
      { intros o' ob' s' Hw' Ho'. apply (Ht o'); [done|by right]. }
      exists s2, O2, (o :: P2). split_and!; [done|done|done| |done|by rewrite Ho2', <- app_assoc|].
      * eapply shrinks_weaken; [|done]. intros y Hy; set_solver.
      * destruct Hk2 as [Hs He]. split; [by constructor|].
        intros x. rewrite !elem_of_cons, He. split; [|intros [[->|Hx] HG]; [by left|by right]].
        intros [->|[Hx HG]]; (split; [tauto|]); [|done]. intros ob' Hob'. congruence.
Qed.

(** ** Vectors *)

(** [u] is based on [x], as [vs] says. *)
Definition based (vs : gmap Z vec) (u x : Z) : Prop := ∃ fr, vs !! u = Some (Vec (Some x) fr).

Lemma based_unique vs u x y : based vs u x → based vs u y → x = y.
Proof. intros [fr H] [fr' H']. congruence. Qed.

(** An object is placed with a vector. *)
Definition placed (os : gmap Z obj) (o x : Z) : Prop := ∃ ob, os !! o = Some ob ∧ obj_has_ref ob x = true.

(** The objects of a frame that a deletion of [fr]'s vectors looks at. *)
Definition looked_at (F : list Z) (fr g : Z) : Prop := g = fr ∨ head F = Some g.

(** The places that such a deletion may change. *)
Definition deletes_in (s : fpd) (F : list Z) (fr : Z) (l : loc) : Prop :=
  vec_place s fr l ∨ ∃ g, looked_at F fr g ∧ obj_place s g l.

Lemma deletes_in_within X s s' F fr l : within X s s' → deletes_in s' F fr l ↔ deletes_in s F fr l.
Proof.
  intros H. unfold deletes_in. rewrite (vec_place_within _ _ _ _ _ H).
  by setoid_rewrite (obj_place_within _ _ _ _ _ H).
Qed.

(** The result of deletions in the frame [fr]: gone are the vectors [gone], and the objects
    placed with one of them. *)
Record deleted (F : list Z) (fr : Z) (gone : Z → Prop) (s : fpd) (V O : Z → list Z) (s' : fpd) (V' O' : Z → list Z) : Prop := {
  de_shape : shape s' F V' O';
  de_within : within (deletes_in s F fr) s s';
  de_shrinks : shrinks (λ y, y ∈ V' fr) s s';
  de_vecs : kept (λ u, ¬ gone u) (V fr) (V' fr);
  de_gone : ∀ u, u ∈ V fr → u ∉ V' fr → gone u;
  de_other : ∀ g, g ≠ fr → V' g = V g;
  de_objs : ∀ g, looked_at F fr g → kept (λ o, ∀ u, u ∈ V fr → gone u → ¬ placed (objs s) o u) (O g) (O' g);
  de_others : ∀ g, ¬ looked_at F fr g → O' g = O g }.

Lemma deleted_none F fr (gone : Z → Prop) s V O :
  shape s F V O → (∀ u, u ∈ V fr → ¬ gone u) → deleted F fr gone s V O s V O.
Proof.
  intros H Hn. split; [done|apply within_refl|apply shrinks_refl|by apply kept_all|done|done| |done].
  intros g _. apply kept_all. intros o _ u Hu Hg. by destruct (Hn u Hu).
Qed.

Lemma deleted_dec F fr gone s V O s' V' O' u :
  deleted F fr gone s V O s' V' O' → u ∈ V fr → (gone u ∧ u ∉ V' fr) ∨ (¬ gone u ∧ u ∈ V' fr).
Proof.
  intros H Hu. destruct (decide (u ∈ V' fr)) as [Hin|Hout].
  - right. split; [|done]. by apply (de_vecs _ _ _ _ _ _ _ _ _ H) in Hin as [_ ?].
  - left. split; [|done]. by apply (de_gone _ _ _ _ _ _ _ _ _ H).
Qed.

Lemma deleted_ext F fr (gone gone' : Z → Prop) s V O s' V' O' :
  (∀ u, u ∈ V fr → (gone u ↔ gone' u)) → deleted F fr gone s V O s' V' O' → deleted F fr gone' s V O s' V' O'.
Proof.
  intros Hg [Hs Hw Hh Hv Hn Ho Hb Hc]. split; try done.
  - eapply kept_ext; [done|]. intros u Hu. pose proof (Hg u Hu). tauto.
  - intros u Hu Hu'. apply Hg; auto.
  - intros g Hl. eapply kept_ext; [by apply Hb|]. intros o _. split; intros H u Hu Hgu; apply H; try done; by apply Hg.
Qed.

Lemma deleted_trans F fr (gone1 gone2 gone : Z → Prop) s V O s1 V1 O1 s2 V2 O2 :
  (∀ u, u ∈ V fr → (gone u ↔ gone1 u ∨ (u ∈ V1 fr ∧ gone2 u))) →
  deleted F fr gone1 s V O s1 V1 O1 → deleted F fr gone2 s1 V1 O1 s2 V2 O2 → deleted F fr gone s V O s2 V2 O2.
Proof.
  intros Hg D1 D2. pose proof (λ u, deleted_dec _ _ _ _ _ _ _ _ _ u D1) as Hdec1.
  pose proof (λ u, deleted_dec _ _ _ _ _ _ _ _ _ u D2) as Hdec2.
  destruct D1 as [Hs1 Hw1 Hh1 Hv1 Hn1 Ho1 Hb1 Hc1], D2 as [Hs2 Hw2 Hh2 Hv2 Hn2 Ho2 Hb2 Hc2].
  split; [done| | | | | | |].
  - eapply within_trans; [done|]. eapply within_weaken; [|done]. intros l. by apply (deletes_in_within _ _ _ _ _ _ Hw1).
  - eapply shrinks_trans; [|done]. eapply shrinks_weaken; [|done]. intros y Hy. by apply Hv2.
  - eapply kept_trans; [done..|]. intros u Hu. rewrite (Hg u Hu). destruct (Hdec1 u Hu) as [[]|[]]; tauto.
  - intros u Hu Hout. apply Hg; [done|]. destruct (Hdec1 u Hu) as [[]|[]]; [by left|right; auto].
  - intros g Hne. rewrite Ho2, Ho1; done.
  - intros g Hl. eapply kept_trans; [by apply Hb1|by apply Hb2|]. intros o Ho.
    rewrite (within_objs _ _ _ Hw1). split.
    + intros [H1 H2] u Hu [Hu1|[Hu1 Hu2]]%Hg; [by apply H1|by apply H2|done].
    + intros H. split; [intros u Hu Hu1; apply H; [done|]; apply Hg; auto|].
      intros u Hu1 Hu2. pose proof (proj2 Hv1 u) as Hv. apply H; [tauto|]. apply Hg; tauto.
  - intros g Hl. rewrite Hc2, Hc1; done.
Qed.

(** Objects that are placed with [v] go, when [v] itself is already gone. *)
Lemma delete_objs_by_ref_spec s F V O g v :
  shape s F V O → g ∈ F →
  ∃ s' O', delete_objs_by_ref (Objs g) v s = Ret tt s' ∧ shape s' F V O' ∧ within (obj_place s g) s s' ∧
    shrinks (λ y, is_Some (vecs s !! y)) s s' ∧ (∀ g', g' ≠ g → O' g' = O g') ∧
    kept (λ o, ¬ placed (objs s) o v) (O g) (O' g).
Proof.
  intros H Hg. unfold delete_objs_by_ref. run.
  pose proof (sh_objs _ _ _ _ H g Hg) as Hc.
  rewrite (bind_step _ _ _ _ _ (read_eq _ _ _ (chain_start _ _ _ Hc))).
  destruct (delete_objs_if_spec (λ ob, obj_has_ref ob v) (λ ob, mret (obj_has_ref ob v)) g F V (O g)
              (list_fuel s) (Objs g) s O []) as (s' & O' & P' & Hs' & Hw & H' & Hsh & Ho & Ho' & Hk); try done.
  { apply Nat.lt_succ_r. by eapply chain_length. }
  exists s', O'. split_and!; [done|done|done| |done|].
  - eapply shrinks_weaken; [|done]. intros y [ve Hy] Hin.
    destruct (sh_obj _ _ _ _ H g y Hg Hin) as (ob & Hob & _). rewrite (sh_vec_obj _ _ _ _ H) in Hob; [done|eauto].
  - rewrite Ho'. eapply kept_ext; [done|]. intros o _. unfold placed. split.
    + intros HG (ob & Hob & Hr). rewrite (HG ob Hob) in Hr. done.
    + intros HG ob Hob. destruct (obj_has_ref ob v) eqn:E; [|done]. destruct HG. eauto.
Qed.

(** Between [u], which is still there, and [x] nothing is missing. *)
Definition closed (vs : gmap Z vec) (live : list Z) (x : Z) : Prop :=
  ∀ u z, u ∈ live → rtc (based vs) u z → rtc (based vs) z x → z ∈ live.

Section vectors.
Context (F : list Z) (fr : Z) (Hfr : fr ∈ F) (vs : gmap Z vec) (acyclic : ∀ x, ¬ tc (based vs) x x).
Implicit Types (s : fpd) (V O : Z → list Z).

Abbreviation on := (based vs).

(** What is said of [do_delete_vec], of the calls that are nested less deep. *)
Definition deletes_vec (del : Z → D unit) (n : nat) : Prop :=
  ∀ s V O x, shape s F V O → vecs s = vs → x ∈ V fr → closed vs (V fr) x → (length (V fr) ≤ n)%nat →
  ∃ s' V' O', del x s = Ret tt s' ∧ deleted F fr (λ u, rtc on u x) s V O s' V' O'.

(** The loop over the vectors of the frame, [P] from where it is: those of [P] that are gone
    already are not based on [v]. *)
Lemma delete_vecs_by_ref_spec del n v : deletes_vec del n → ∀ m l P s V O,
  shape s F V O → vecs s = vs → chain (cells s) l P → (length P < m)%nat → (length (V fr) ≤ n)%nat →
  (∀ x, x ∈ P → ∃ b, vs !! x = Some (Vec b fr)) →
  (∀ x, x ∈ P → x ∉ V fr → ¬ on x v) →
  (∀ c, on c v → c ∈ V fr → closed vs (V fr) c) →
  ∃ s' V' O', delete_vecs_by_ref del m (head P) v s = Ret tt s' ∧
    deleted F fr (λ u, ∃ c, c ∈ P ∧ on c v ∧ rtc on u c) s V O s' V' O'.
Proof.
  intros Hdel. induction m as [|m IH]; intros l P s V O H Hvs Hc Hm Hn HP Hgone Hclosed; [lia|].
  cbn [delete_vecs_by_ref]. destruct P as [|x P]; cbn [head].
  { exists s, V, O. split; [done|]. apply deleted_none; [done|]. intros u _ (c & Hc' & _). by apply elem_of_nil in Hc'. }
  pose proof (chain_NoDup _ _ _ Hc) as [Hx _]%NoDup_cons. destruct Hc as [_ Hc].
  destruct (HP x) as [b Hb]; [by left|].
  erewrite bind_step; [|apply vec_at_eq; rewrite Hvs; exact Hb]. cbn [vec_base].
  case_bool_decide as Eb.
  - subst b. assert (on x v) as Hxv by (by exists fr).
    assert (x ∈ V fr) as HxV by (destruct (decide (x ∈ V fr)); [done|by destruct (Hgone x ltac:(by left))]).
    destruct (Hdel s V O x H Hvs HxV (Hclosed x Hxv HxV) Hn) as (s1 & V1 & O1 & Hs1 & D1).
    rewrite (bind_step _ _ _ _ _ Hs1).
    destruct (de_shrinks _ _ _ _ _ _ _ _ _ D1 _ _ Hc) as (P1 & Hc1 & Hsub & HP1).
    rewrite (bind_step _ _ _ _ _ (read_eq _ _ _ (chain_start _ _ _ Hc1))).
    pose proof (λ u, deleted_dec _ _ _ _ _ _ _ _ _ u D1) as Hdec. pose proof (de_vecs _ _ _ _ _ _ _ _ _ D1) as Hk.
    assert (∀ y, y ∈ P1 → y ∈ P) as HPP by (intros y Hy; by eapply elem_of_sublist).
    assert (vecs s1 = vs) as Hvs1 by (rewrite <- Hvs; eapply within_vecs, D1).
    destruct (IH (Next x) P1 s1 V1 O1) as (s2 & V2 & O2 & Hs2 & D2).
    + apply D1.
    + done.
    + done.
    + apply sublist_length in Hsub. cbn in Hm. lia.
    + pose proof (sublist_length _ _ (proj1 Hk)). lia.
    + intros y Hy. apply HP. right. by apply HPP.
    + intros y Hy Hout Hyv. destruct (decide (y ∈ V fr)) as [HyV|HyV].
      * destruct (Hdec y HyV) as [[Hyx _]|[_ ?]]; [|done].
        destruct Hyx as [y|y z x Hyz Hzx]; [by apply Hx, HPP|].
        rewrite (based_unique _ _ _ _ Hyz Hyv) in Hzx. apply (acyclic v). eapply tc_rtc_l; [done|]. by apply tc_once.
      * apply (Hgone y); [right; by apply HPP|done|done].
    + intros c Hcv HcV1 u z HuV1 Huz Hzc.
      apply Hk in HuV1 as [HuV Hux]. apply Hk in HcV1 as [HcV _].
      apply Hk. split; [by apply (Hclosed c Hcv HcV u)|]. intros Hzx. apply Hux. by etransitivity.
    + exists s2, V2, O2. split; [done|]. eapply deleted_trans; [|exact D1|exact D2]. intros u Hu. split.
      * intros (c & [->|Hc']%elem_of_cons & Hcv & Huc); [by left|].
        destruct (Hdec u Hu) as [[Hux _]|[Hux HuV1]]; [by left|right]. split; [done|]. exists c. split_and!; [|done|done].
        apply HP1; [done|]. destruct (decide (c ∈ V fr)) as [HcV|HcV]; [|by destruct (Hgone c ltac:(by right) HcV)].
        apply Hk. split; [done|]. intros Hcx. apply Hux. by etransitivity.
      * intros [Hux|[_ (c & Hc' & Hcv & Huc)]]; [exists x; split_and!; [by left|done|done]|].
        exists c. split_and!; [right; by apply HPP|done|done].
  - rewrite bind_mret. rewrite (bind_step _ _ _ _ _ (read_eq _ _ _ (chain_start _ _ _ Hc))).
    destruct (IH (Next x) P s V O) as (s2 & V2 & O2 & Hs2 & D2); try done.
    + cbn in Hm. lia.
    + intros y Hy. apply HP. by right.
    + intros y Hy. apply Hgone. by right.
    + exists s2, V2, O2. split; [done|]. eapply deleted_ext; [|exact D2]. intros u _.
      split; intros (c & Hc' & Hcv & Huc); exists c; split_and!; try done; [by right|].
      apply elem_of_cons in Hc' as [->|?]; [|done]. destruct Hcv as [g Hg]. congruence.
Qed.

(** The vector itself. *)
Lemma unlink_vec s V O v A B n :
  shape s F V O → V fr = A ++ v :: B → cells s !! Next v = Some n →
  let s1 := set_cells (<[place (Vecs fr) (last A) := n]> (cells s)) s in
  unlink (Vecs fr) v s = Ret (last A) s1 ∧ shape s1 F (<[fr := A ++ B]> V) O ∧
  within (vec_place s fr) s s1 ∧ shrinks (λ y, y ≠ v) s s1.
Proof.
  intros H HV Hn s1. pose proof (sh_vecs _ _ _ _ H fr Hfr) as Hc. rewrite HV in Hc.
  split; [by eapply unlink_eq|].
  assert (within (vec_place s fr) s s1) as Hw.
  { split; [done..| |done]. intros l Hl. cbn. apply lookup_insert_ne. intros <-. apply Hl.
    apply (vec_chain_places _ _ _ _ H); [done|]. destruct (place_inv (Vecs fr) A) as [E|(a & Ha & E)]; [by left|right].
    exists a. split; [done|]. rewrite HV. apply elem_of_app. by left. }
  split; [|split; [done|]].
  - apply (shape_within (vec_place s fr) s _ _ V O); [done|done|by left; eauto| |].
    + intros g Hg. destruct (decide (g = fr)) as [->|Hne].
      * rewrite fn_lookup_insert. split; [rewrite HV; apply sublist_app; [done|by constructor]|right].
        by eapply chain_remove.
      * rewrite fn_lookup_insert_ne by done. split; [done|]. left. split; [done|]. intros l Hg1 Hg2.
        by eapply Hne, vec_place_unique.
    + intros g Hg. split; [done|]. left. split; [done|]. intros l Ho Hv. by eapply (vec_obj_place _ _ _ _ H).
  - intros l P HP. apply chain_shrink; [done| |done]. by eapply chain_point.
Qed.

(** The objects placed with [v], in the frame and in the root frame. *)
Lemma delete_objs_spec s V O v : shape s F V O →
  ∃ s' O', (delete_objs_by_ref (Objs fr) v;; root ← read Frames;
            match root with Some r => delete_objs_by_ref (Objs r) v | None => mret tt end) s = Ret tt s' ∧
    shape s' F V O' ∧ within (deletes_in s F fr) s s' ∧ shrinks (λ y, is_Some (vecs s !! y)) s s' ∧
    (∀ g, looked_at F fr g → kept (λ o, ¬ placed (objs s) o v) (O g) (O' g)) ∧
    (∀ g, ¬ looked_at F fr g → O' g = O g).
Proof.
  intros H. destruct (delete_objs_by_ref_spec s F V O fr v H Hfr) as (s1 & O1 & Hs1 & H1 & Hw1 & Hh1 & Ho1 & Hk1).
  rewrite (bind_step _ _ _ _ _ Hs1).
  rewrite (bind_step _ _ _ _ _ (read_eq _ _ _ (chain_start _ _ _ (sh_frames _ _ _ _ H1)))).
  destruct (head F) as [r|] eqn:EF; [|by destruct F; [apply elem_of_nil in Hfr|]].
  assert (r ∈ F) as Hr by (destruct F; [done|injection EF as ->; by left]).
  destruct (delete_objs_by_ref_spec s1 F V O1 r v H1 Hr) as (s2 & O2 & Hs2 & H2 & Hw2 & Hh2 & Ho2 & Hk2).
  rewrite (within_objs _ _ _ Hw1) in Hk2. rewrite (within_vecs _ _ _ Hw1) in Hh2.
  exists s2, O2. split; [done|]. split; [done|]. split; [|split; [by eapply shrinks_trans|split]].
  - eapply within_trans; (eapply within_weaken; [|done]); intros l Hl; right; unfold looked_at.
    + exists fr. auto.
    + exists r. rewrite (obj_place_within _ _ _ _ _ Hw1) in Hl. auto.
  - intros g Hg. destruct (decide (g = r)) as [->|Hgr].
    + destruct (decide (r = fr)) as [->|Hrf]; [|by rewrite <- Ho1].
      eapply kept_trans; [exact Hk1|exact Hk2|]. intros. cbn. tauto.
    + rewrite Ho2 by done. destruct Hg as [->|Hg]; [done|]. congruence.
  - intros g Hg. unfold looked_at in Hg. rewrite Ho2, Ho1; [done| |]; intros ->; tauto.
Qed.

Lemma do_delete_vec_spec n : deletes_vec (do_delete_vec n) n.
Proof.
  induction n as [|n IH]; intros s V O v H Hvs Hv Hclosed Hn.
  { destruct (V fr); [by apply elem_of_nil in Hv|cbn in Hn; lia]. }
  pose proof Hv as (A & B & HV)%list_elem_of_split.
  pose proof (sh_vecs _ _ _ _ H fr Hfr) as Hc. pose proof (chain_NoDup _ _ _ Hc) as Hnd.
  destruct (sh_vec _ _ _ _ H fr v Hfr Hv) as [b Hb].
  destruct (chain_cell _ _ _ v Hc Hv) as [nx Hnx].
  destruct (unlink_vec s V O v A B nx H HV Hnx) as (Hs1 & H1 & Hw1 & Hsh1).
  set (s1 := set_cells _ s) in *. set (V1 := <[fr := A ++ B]> V) in *.
  cbn [do_delete_vec]. rewrite (bind_step _ _ _ _ _ (vec_at_eq _ _ _ Hb)). cbn [vec_frame].
  rewrite (bind_step _ _ _ _ _ Hs1). unfold new_deletion. rewrite bind_modify.
  set (s2 := set_deletions _ _ _).
  assert (shape s2 F V1 O) as H2 by by apply shape_deletions.
  assert (within (vec_place s fr) s s2) as Hw2 by by apply within_deletions.
  assert (vecs s2 = vs) as Hvs2 by done.
  assert (V1 fr = A ++ B) as HV1 by by unfold V1; rewrite fn_lookup_insert.
  assert (kept (λ y, y ≠ v) (V fr) (V1 fr)) as Hk1 by (rewrite HV, HV1; apply kept_without; by rewrite <- HV).
  pose proof (sh_vecs _ _ _ _ H2 fr Hfr) as Hc2.
  rewrite (bind_step _ _ _ _ _ (read_eq _ _ _ (chain_start _ _ _ Hc2))). rewrite bind_get.
  destruct (delete_vecs_by_ref_spec (do_delete_vec n) n v IH (list_fuel s2) (Vecs fr) (V1 fr) s2 V1 O)
    as (s3 & V3 & O3 & Hs3 & D3); [done|done|done| | | | | |].
  - apply Nat.lt_succ_r. by eapply chain_length.
  - rewrite HV1. rewrite HV in Hn. rewrite length_app in *. cbn in Hn. lia.
  - intros x Hx. rewrite <- Hvs. apply (sh_vec _ _ _ _ H fr); [done|]. by apply Hk1.
  - intros x Hx Hx'. done.
  - intros c Hcv HcV u z Hu%Hk1 Huz Hzc. apply Hk1. split.
    + apply (Hclosed u); [tauto|done|]. etransitivity; [done|]. by apply rtc_once.
    + intros ->. apply (acyclic v). eapply tc_rtc_l; [exact Hzc|]. by apply tc_once.
  - rewrite (bind_step _ _ _ _ _ Hs3).
    destruct (delete_objs_spec s3 V3 O3 v (de_shape _ _ _ _ _ _ _ _ _ D3)) as (s4 & O4 & Hs4 & H4 & Hw4 & Hh4 & Hk4 & Ho4).
    exists s4, V3, O4. split; [exact Hs4|].
    assert (∀ u, u ∈ V fr → (rtc on u v ↔ u = v ∨ (u ∈ V1 fr ∧ ∃ c, c ∈ V1 fr ∧ on c v ∧ rtc on u c))) as Hgone.
    { intros u Hu. split.
      - intros Huv. destruct (decide (u = v)) as [->|Huv']; [by left|right]. split; [by apply Hk1|].
        apply rtc_inv_r in Huv as Hinv. destruct Hinv as [?|(c & Huc & Hcv)]; [done|]. exists c. split_and!; [|done|done].
        apply Hk1. split; [apply (Hclosed u); [done|done|by apply rtc_once]|]. intros ->. apply (acyclic v). by apply tc_once.
      - intros [->|(_ & c & _ & Hcv & Huc)]; [done|]. etransitivity; [done|]. by apply rtc_once. }
    assert (∀ u, u ∈ V1 fr → rtc on u v ↔ ∃ c, c ∈ V1 fr ∧ on c v ∧ rtc on u c) as Hgone1.
    { intros u [Hu Huv]%Hk1. rewrite (Hgone u Hu). split; [intros [?|[_ ?]]; done|]. intros Hex. right.
      split; [by apply Hk1|done]. }
    pose proof (deleted_ext _ _ _ (λ u, rtc on u v) _ _ _ _ _ _ ltac:(intros u Hu; symmetry; by apply Hgone1) D3) as D3'.
    pose proof (λ u, deleted_dec _ _ _ _ _ _ _ _ _ u D3') as Hdec.
    destruct D3' as [_ Hw3 Hh3 Hv3 Hn3 Ho3 Hb3 Hc3].
    assert (∀ g, g ≠ fr → V1 g = V g) as HV1' by (intros g Hg; unfold V1; by rewrite fn_lookup_insert_ne).
    split; [done| | | | | | |].
    + assert (within (deletes_in s F fr) s s2) as Hw2' by (eapply within_weaken, Hw2; by left).
      assert (within (deletes_in s F fr) s s3) as Hw3'.
      { eapply within_trans; [exact Hw2'|]. eapply within_weaken, Hw3. intros l. by apply (deletes_in_within _ _ _ _ _ _ Hw2'). }
      eapply within_trans; [exact Hw3'|]. eapply within_weaken, Hw4. intros l. by apply (deletes_in_within _ _ _ _ _ _ Hw3').
    + assert (∀ y, y ∈ V3 fr → y ∈ V fr ∧ y ≠ v) as Hlive by (intros y [Hy _]%Hv3; by apply Hk1).
      eapply shrinks_trans; [|eapply shrinks_trans; [exact Hh3|]].
      * apply (shrinks_weaken (λ y, y ≠ v)); [|exact Hsh1]. intros y Hy. by apply Hlive.
      * eapply shrinks_weaken; [|exact Hh4]. intros y Hy. rewrite (within_vecs _ _ _ Hw3).
        destruct (sh_vec _ _ _ _ H fr y Hfr) as [b' Hb']; [by apply Hlive|]. eauto.
    + eapply kept_trans; [exact Hk1|exact Hv3|]. intros u Hu. split; [tauto|].
      intros Huv. split; [|done]. intros ->. by apply Huv.
    + intros u Hu Hout. destruct (decide (u = v)) as [->|Huv]; [done|]. apply Hn3; [|done]. by apply Hk1.
    + intros g Hg. by rewrite Ho3, HV1'.
    + intros g Hg. eapply kept_trans; [by apply Hb3|by apply Hk4|]. intros o Ho.
      rewrite (within_objs _ _ _ Hw3). change (objs s2) with (objs s). split.
      * intros [H3 H4'] u Hu Huv. destruct (decide (u = v)) as [->|Hne]; [done|]. apply H3; [by apply Hk1|done].
      * intros Hall. split; [|by apply Hall]. intros u [Hu _]%Hk1. by apply Hall.
    + intros g Hg. rewrite Ho4, Hc3; done.
Qed.
End vectors.

(** ** No dangling references *)

Definition is_meas (k : obj_type) : bool := match k with ot_meas _ _ _ => true | _ => false end.

(** A drawing in order: the lists are, no vector is based on itself, bases are in the same
    frame, objects are placed with vectors of their frame, except that measurements, which
    are in the root frame, have two vectors of any frames; references and qualifiers are
    to frames that exist. *)
Record valid (s : fpd) (F : list Z) (V O : Z → list Z) : Prop := {
  va_shape : shape s F V O;
  va_acyclic : ∀ x, ¬ tc (based (vecs s)) x x;
  va_base : ∀ g u b, g ∈ F → u ∈ V g → based (vecs s) u b → b ∈ V g;
  va_placed : ∀ g o ob x, g ∈ F → o ∈ O g → objs s !! o = Some ob → obj_has_ref ob x = true →
    x ∈ V g ∨ (is_meas (obj_kind ob) = true ∧ ∃ h, h ∈ F ∧ x ∈ V h);
  va_frames : ∀ g o ob, g ∈ F → o ∈ O g → objs s !! o = Some ob →
    match obj_kind ob with
    | ot_frame r => r ∈ F
    | ot_meas high low_qual high_qual =>
        head F = Some g ∧ is_Some (obj_base ob) ∧ is_Some high ∧ ∀ q, q ∈ low_qual ++ high_qual → q ∈ F
    | _ => True
    end }.

Lemma valid_closed s F V O fr x : valid s F V O → fr ∈ F → closed (vecs s) (V fr) x.
Proof.
  intros Hv Hfr u z Hu Huz _. induction Huz as [|u y z Huy _ IH]; [done|].
  apply IH. by eapply (va_base _ _ _ _ Hv).
Qed.

(** Different frames have different vectors. *)
Lemma valid_frame_of s F V O g h x : shape s F V O → g ∈ F → h ∈ F → x ∈ V g → x ∈ V h → g = h.
Proof.
  intros H Hg Hh Hxg Hxh. destruct (sh_vec _ _ _ _ H g x Hg Hxg) as [b Hb].
  destruct (sh_vec _ _ _ _ H h x Hh Hxh) as [b' Hb']. congruence.
Qed.

(** [C12] The deletion of a vector, in a drawing in order: it ends; of the vectors of its frame
    those remain, in their order, that are not based on it, however indirectly, and of the
    objects of every frame those that are not placed with a vector that went; pointers
    outside these lists are as before; and the drawing is in order again, so that nothing
    refers to what is gone. *)
Theorem delete_vec_exact s F V O fr v :
  valid s F V O → fr ∈ F → v ∈ V fr →
  ∃ s' V' O', delete_vec v s = Ret tt s' ∧ valid s' F V' O' ∧
    kept (λ u, ¬ rtc (based (vecs s)) u v) (V fr) (V' fr) ∧ (∀ g, g ≠ fr → V' g = V g) ∧
    (∀ g, g ∈ F → kept (λ o, ∀ u, u ∈ V fr → rtc (based (vecs s)) u v → ¬ placed (objs s) o u) (O g) (O' g)) ∧
    data s' = data s ∧ (∀ l, ¬ deletes_in s F fr l → cells s' !! l = cells s !! l).
Proof.
  intros Hva Hfr Hv. set (s0 := set_deletions (deletions s) (groups s + 1) s).
  pose proof (va_shape _ _ _ _ Hva) as H.
  assert (shape s0 F V O) as H0 by by apply shape_deletions.
  destruct (do_delete_vec_spec F fr Hfr (vecs s) (va_acyclic _ _ _ _ Hva) (vec_fuel s0) s0 V O v) as (s' & V' & O' & Hs' & D).
  { done. } { done. } { done. } { by eapply valid_closed. }
  { unfold vec_fuel. cbn. apply Nat.le_le_succ_r. rewrite <- size_dom.
    rewrite <- (size_list_to_set (C := gset Z) (V fr)) by (eapply chain_NoDup, (sh_vecs _ _ _ _ H fr Hfr)).
    apply subseteq_size. intros x Hx%elem_of_list_to_set. apply elem_of_dom.
    destruct (sh_vec _ _ _ _ H fr x Hfr Hx) as [b Hb]. eauto. }
  exists s', V', O'. pose proof (λ u, deleted_dec _ _ _ _ _ _ _ _ _ u D) as Hdec.
  destruct D as [Hs1 Hw _ Hk _ Ho Hb Hc]. change (vecs s0) with (vecs s) in *. change (objs s0) with (objs s) in *.
  pose proof (within_vecs _ _ _ Hw) as Ev. pose proof (within_objs _ _ _ Hw) as Eo.
  change (vecs s0) with (vecs s) in Ev. change (objs s0) with (objs s) in Eo.
  assert (∀ g, g ∈ F → kept (λ o, ∀ u, u ∈ V fr → rtc (based (vecs s)) u v → ¬ placed (objs s) o u) (O g) (O' g)) as Hobj.
  { intros g Hg. destruct (decide (g = fr)) as [->|Hne]; [by apply Hb; left|].
    destruct (decide (head F = Some g)) as [Hroot|Hroot]; [by apply Hb; right|].
    rewrite Hc by (intros [?|?]; done). apply kept_all. intros o Hin u Hu _ (ob & Hob & Hr).
    destruct (va_placed _ _ _ _ Hva g o ob u Hg Hin Hob Hr) as [Hug|[Hm _]].
    - by apply Hne, (valid_frame_of _ _ _ _ _ _ _ H Hg Hfr Hug).
    - pose proof (va_frames _ _ _ _ Hva g o ob Hg Hin Hob) as Hf. destruct (obj_kind ob); try done. by destruct Hf. }
  assert (∀ g x, x ∈ V g → (g = fr → ¬ rtc (based (vecs s)) x v) → x ∈ V' g) as Hlive.
  { intros g x Hx Hn. destruct (decide (g = fr)) as [->|Hne]; [apply Hk; auto|by rewrite Ho]. }
  assert (∀ g x, x ∈ V' g → x ∈ V g) as Hsub.
  { intros g x Hx. destruct (decide (g = fr)) as [->|Hne]; [by apply Hk|by rewrite <- Ho]. }
  split; [exact Hs'|]. split; [|split; [done|split; [done|split; [done|split; [apply Hw|]]]]].
  - split; [done| | | |]; rewrite ?Ev, ?Eo; [apply Hva| | |].
    + intros g u b Hg Hu Hub. apply Hlive; [eapply (va_base _ _ _ _ Hva); [done|by apply Hsub|done]|].
      intros -> Hbv. apply Hk in Hu as [_ Hu]. apply Hu. by eapply rtc_l.
    + intros g o ob x Hg Hin Hob Hr. apply Hobj in Hin as [Hin Hn]; [|done].
      destruct (va_placed _ _ _ _ Hva g o ob x Hg Hin Hob Hr) as [Hx|[Hm (h & Hh & Hx)]].
      * left. apply Hlive; [done|]. intros -> Hxv. apply (Hn x); [done..|]. by exists ob.
      * right. split; [done|]. exists h. split; [done|]. apply Hlive; [done|]. intros -> Hxv. apply (Hn x); [done..|]. by exists ob.
    + intros g o ob Hg Hin Hob. apply Hobj in Hin as [Hin _]; [|done]. by apply (va_frames _ _ _ _ Hva g o).
  - intros l Hl. rewrite (wi_cells _ _ _ Hw); [done|]. exact Hl.
Qed.
