(* ===== verification/FpdFrame.v ===== *)
(** * fped: deleting a frame (eda/fped/delete.c)

    With a frame go the references to it and the measurements that have to do with it. *)

From stdpp Require Import gmap sets relations functions.
From S2P Require Import Prelude.
From S2P Require Import FpdDelete.
From S2P Require Import FpdLists.
From S2P Require Import FpdExact.

(** The objects that go with the frame [ref]: references to it; measurements of a vector of
    it, or qualified by it. *)
Definition in_frame (vs : gmap Z vec) (ref : Z) (x : option Z) : bool :=
  match x with
  | Some v => match vs !! v with Some ve => vec_frame ve =? ref | None => false end
  | None => false
  end.

Definition mentions (vs : gmap Z vec) (ref : Z) (ob : obj) : bool :=
  match obj_kind ob with
  | ot_frame r => r =? ref
  | ot_meas high low_qual high_qual =>
      in_frame vs ref (obj_base ob) || in_frame vs ref high || existsb (λ q, q =? ref) (low_qual ++ high_qual)
  | _ => false
  end.

(** The vectors of a measurement exist. *)
Definition measured (vs : gmap Z vec) (ob : obj) : Prop :=
  match obj_kind ob with
  | ot_meas high _ _ => ∃ l h vl vh, obj_base ob = Some l ∧ high = Some h ∧ vs !! l = Some vl ∧ vs !! h = Some vh
  | _ => True
  end.

Lemma refers_to_eq s ref ob : measured (vecs s) ob → refers_to ref ob s = Ret (mentions (vecs s) ref ob) s.
Proof.
  unfold measured, refers_to, mentions. destruct (obj_kind ob) as [r| | | | | |high lq hq]; try done.
  intros (l & h & vl & vh & -> & -> & Hl & Hh).
  assert (∀ x v, vecs s !! x = Some v → frame_of (Some x) s = Ret (vec_frame v) s) as Hf.
  { intros x v Hx. unfold frame_of. run. by rewrite (bind_step _ _ _ _ _ (vec_at_eq _ _ _ Hx)). }
  rewrite (bind_step _ _ _ _ _ (Hf _ _ Hl)). cbn [in_frame]. rewrite Hl, Hh.
  destruct (vec_frame vl =? ref); [done|]. rewrite (bind_step _ _ _ _ _ (Hf _ _ Hh)).
  by rewrite existsb_app, orb_assoc.
Qed.

(** Taking a frame out of the list. *)
Lemma unlink_frame s F V O fr A B n :
  shape s F V O → F = A ++ fr :: B → cells s !! Next fr = Some n →
  let s1 := set_cells (<[place Frames (last A) := n]> (cells s)) s in
  unlink Frames fr s = Ret (last A) s1 ∧ shape s1 (A ++ B) V O ∧ chain (cells s1) (Objs fr) (O fr) ∧
  ∀ l, l ≠ Frames → (∀ g, g ∈ F → l ≠ Next g) → cells s1 !! l = cells s !! l.
Proof.
  intros H EF Hn s1. pose proof (sh_frames _ _ _ _ H) as Hc. rewrite EF in Hc.
  assert (∀ x, x ∈ A ++ B → x ∈ F) as Hsub by (intros x; rewrite EF, !elem_of_app, elem_of_cons; tauto).
  assert (∀ l, l ≠ Frames → (∀ g, g ∈ F → l ≠ Next g) → cells s1 !! l = cells s !! l) as Hother.
  { intros l Hl Hg. cbn. apply lookup_insert_ne. intros E. destruct (place_inv Frames A) as [E'|(a & Ha & E')]; [congruence|].
    apply (Hg a); [rewrite EF; apply elem_of_app; by left|congruence]. }
  assert (∀ g l, g ∈ F → vec_place s g l → cells s1 !! l = cells s !! l) as Hvp.
  { intros g l Hg Hl. apply Hother; [by destruct Hl as [->|(? & ? & -> & _)]|]. intros g' Hg' ->.
    destruct (frame_place _ _ _ _ H g' Hg') as [Hv _]. by eapply Hv. }
  assert (∀ g l, g ∈ F → obj_place s g l → cells s1 !! l = cells s !! l) as Hop.
  { intros g l Hg Hl. apply Hother; [by destruct Hl as [->|(? & ? & -> & _)]|]. intros g' Hg' ->.
    destruct (frame_place _ _ _ _ H g' Hg') as [_ Ho]. by eapply Ho. }
  assert (∀ g, g ∈ F → chain (cells s1) (Objs g) (O g)) as Hobjs.
  { intros g Hg. apply (chain_agree (cells s)); [apply (Hop g); [done|by left]| |by apply H].
    intros o Ho. apply (Hop g); [done|]. apply (obj_chain_places _ _ _ _ H); eauto. }
  split; [by eapply unlink_eq|]. split; [|split; [apply Hobjs; rewrite EF; apply elem_of_app; right; by left|done]].
  split.
  - by eapply chain_remove.
  - intros g Hg%Hsub. apply (chain_agree (cells s)); [apply (Hvp g); [done|by left]| |by apply H].
    intros v Hv. apply (Hvp g); [done|]. apply (vec_chain_places _ _ _ _ H); eauto.
  - intros g Hg%Hsub. by apply Hobjs.
  - intros g v Hg%Hsub. by apply (sh_vec _ _ _ _ H).
  - intros g o Hg%Hsub. by apply (sh_obj _ _ _ _ H).
  - apply H.
  - intros g Hg%Hsub. by apply (sh_frame _ _ _ _ H).
Qed.

Section references.
Context (F : list Z) (V : Z → list Z) (ref : Z) (vs : gmap Z vec) (os : gmap Z obj).
Implicit Types (s : fpd) (O : Z → list Z).

(** The loop over the frames, of which [P] are left. *)
Lemma delete_references_in_spec P : ∀ f l s O,
  shape s F V O → vecs s = vs → objs s = os → chain (cells s) l P → (length P < f)%nat → (∀ g, g ∈ P → g ∈ F) → NoDup P →
  (∀ g o ob, g ∈ F → o ∈ O g → os !! o = Some ob → measured vs ob) →
  ∃ s' O', delete_references_in f (head P) ref s = Ret tt s' ∧ shape s' F V O' ∧
    within (λ l, ∃ g, g ∈ P ∧ obj_place s g l) s s' ∧
    (∀ g, g ∈ P → kept (λ o, ∀ ob, os !! o = Some ob → mentions vs ref ob = false) (O g) (O' g)) ∧
    (∀ g, g ∉ P → O' g = O g).
Proof.
  induction P as [|fr P IH]; intros [|f] l s O H Hvs Hos Hc Hf HP Hnd Hm; cbn in Hf; try lia.
  { exists s, O. split_and!; [done|done|apply within_refl|by intros ? ?%elem_of_nil|done]. }
  apply NoDup_cons in Hnd as [Hfr Hnd]. destruct Hc as [_ Hc]. assert (fr ∈ F) as HfrF by (apply HP; by left).
  cbn [delete_references_in head]. rewrite bind_get. pose proof (sh_objs _ _ _ _ H fr HfrF) as Ho.
  rewrite (bind_step _ _ _ _ _ (read_eq _ _ _ (chain_start _ _ _ Ho))).
  destruct (delete_objs_if_spec (mentions vs ref) (refers_to ref) fr F V (O fr) (list_fuel s) (Objs fr) s O [])
    as (s1 & O1 & P1 & Hs1 & Hw1 & H1 & _ & Ho1 & HP1 & Hk1); try done.
  { apply Nat.lt_succ_r. by eapply chain_length. }
  { intros o ob s' Hw Hin Hob. pose proof (within_vecs _ _ _ Hw) as Ev. rewrite refers_to_eq; [by rewrite Ev, Hvs|].
    rewrite Ev, Hvs. apply (Hm fr o); [done|done|by rewrite <- Hos]. }
  rewrite (bind_step _ _ _ _ _ Hs1).
  assert (∀ g, g ∈ fr :: P → cells s1 !! Next g = cells s !! Next g) as Hnext.
  { intros g Hg%HP. apply (wi_cells _ _ _ Hw1). by apply (frame_place _ _ _ _ H g Hg). }
  rewrite (bind_step _ _ _ (head P) s1); [|apply read_eq; rewrite Hnext by (by left); exact (chain_start _ _ _ Hc)].
  assert (∀ g, O1 g `sublist_of` O g) as Hsub.
  { intros g. destruct (decide (g = fr)) as [->|Hne]; [rewrite HP1; apply Hk1|by rewrite Ho1]. }
  destruct (IH f (Next fr) s1 O1) as (s2 & O2 & Hs2 & H2 & Hw2 & Hk2 & Ho2); try done.
  { rewrite <- Hvs. by eapply within_vecs. }
  { rewrite <- Hos. by eapply within_objs. }
  { apply (chain_agree (cells s)); [apply Hnext; by left|intros x Hx; apply Hnext; by right|done]. }
  { lia. }
  { intros g Hg. apply HP. by right. }
  { intros g o ob Hg Hin. apply (Hm g); [done|]. by eapply elem_of_sublist. }
  exists s2, O2. split; [done|]. split; [done|]. split; [|split].
  - eapply within_trans; (eapply within_weaken; [|done]).
    + intros q Hq. exists fr. split; [by left|done].
    + intros q (g & Hg & Hq). exists g. split; [by right|]. by apply (obj_place_within _ _ _ _ _ Hw1).
  - intros g Hg. destruct (decide (g = fr)) as [->|Hne].
    + rewrite Ho2 by done. rewrite HP1. cbn. by rewrite <- Hos.
    + apply elem_of_cons in Hg as [->|Hg]; [done|]. rewrite <- Ho1 by done. by apply Hk2.
  - intros g Hg. rewrite Ho2, Ho1; [done| |]; set_solver.
Qed.

(** The references from the frame that is gone. *)
Lemma drop_active_refs_spec P O : ∀ f l s,
  shape s F V O → objs s = os → chain (cells s) l P → (length P < f)%nat →
  (∀ o, o ∈ P → ∃ ob, os !! o = Some ob ∧ ∀ r, obj_kind ob = ot_frame r → is_Some (active_refs s !! r)) →
  ∃ s', drop_active_refs f (head P) s = Ret tt s' ∧ shape s' F V O ∧ within (λ _, False) s s'.
Proof.
  induction P as [|o P IH]; intros [|f] l s H Hos Hc Hf HP; cbn in Hf; try lia.
  { exists s. split_and!; [done|done|apply within_refl]. }
  cbn [drop_active_refs head]. destruct Hc as [_ Hc]. destruct (HP o) as (ob & Hob & Hk); [by left|].
  erewrite bind_step; [|apply obj_at_eq; rewrite Hos; exact Hob].
  destruct (drop_active_ref_returns s F V O o (obj_kind ob) H Hk) as (a & Ha & Hr).
  rewrite (bind_step _ _ _ _ _ Ha). set (s1 := set_active_refs a s) in *.
  assert (shape s1 F V O) as H1.
  { destruct H as [? ? ? ? Hobj ? ?]. split; try done. intros g x Hg Hx.
    destruct (Hobj g x Hg Hx) as (ob' & ? & ? & Hk'). exists ob'. split_and!; [done..|]. intros r E. by apply Hr, Hk'. }
  rewrite (bind_step _ _ _ (head P) s1); [|apply read_eq, chain_start, Hc].
  destruct (IH f (Next o) s1 H1 Hos Hc) as (s' & Hs' & H' & Hw'); [lia| |].
  { intros o' Ho'. destruct (HP o') as (ob' & Hob' & Hk'); [by right|]. exists ob'. split; [done|]. intros r E. by apply Hr, Hk'. }
  exists s'. split_and!; [done|done|]. eapply within_trans; [|exact Hw']. by split.
Qed.
End references.

Section frame.
Context (s : fpd) (F : list Z) (V O : Z → list Z) (Hva : valid s F V O) (fr : Z).

Lemma valid_measured g o ob : g ∈ F → o ∈ O g → objs s !! o = Some ob → measured (vecs s) ob.
Proof.
  intros Hg Ho Hob. pose proof (va_frames _ _ _ _ Hva g o ob Hg Ho Hob) as Hf.
  assert (∀ x, obj_has_ref ob x = true → ∃ ve, vecs s !! x = Some ve) as Hx.
  { intros x Hr. pose proof (va_shape _ _ _ _ Hva) as Hs.
    destruct (va_placed _ _ _ _ Hva g o ob x Hg Ho Hob Hr) as [Hin|[_ (h & Hh & Hin)]];
      (edestruct (sh_vec _ _ _ _ Hs) as [b Hb]; [|exact Hin|eauto]); done. }
  unfold measured. unfold obj_has_ref in Hx. destruct (obj_kind ob); try done.
  destruct Hf as (_ & [lo Hlo] & [hi ->] & _). destruct (Hx lo) as [vl Hvl]; [by rewrite bool_decide_true|].
  destruct (Hx hi) as [vh Hvh]; [case_bool_decide; [done|by rewrite bool_decide_true]|].
  exists lo, hi, vl, vh. done.
Qed.

(** What has to do with no vector, no reference and no qualifier of the frame, is in order
    without it. *)
Lemma valid_without A B s' O' :
  F = A ++ fr :: B → NoDup F → head F ≠ Some fr → shape s' (A ++ B) V O' → data s' = data s →
  (∀ g, g ∈ A ++ B → ∀ o, o ∈ O' g → o ∈ O g ∧ ∀ ob, objs s !! o = Some ob → mentions (vecs s) fr ob = false) →
  valid s' (A ++ B) V O'.
Proof.
  intros EF Hnd Hroot Hs [= Ev Eo _ _ _] HO.
  assert (∀ x, x ∈ F → x ≠ fr → x ∈ A ++ B) as Hkeep by (intros x; rewrite EF, !elem_of_app, elem_of_cons; tauto).
  assert (∀ x, x ∈ A ++ B → x ∈ F) as Hsub by (intros x; rewrite EF, !elem_of_app, elem_of_cons; tauto).
  assert (head (A ++ B) = head F) as Hhead by (rewrite EF in *; destruct A; [done|done]).
  pose proof (va_shape _ _ _ _ Hva) as H.
  assert (∀ h x, h ∈ F → x ∈ V h → in_frame (vecs s) fr (Some x) = false → h ∈ A ++ B) as Hin.
  { intros h x Hh Hx E. apply Hkeep; [done|]. intros ->. destruct (sh_vec _ _ _ _ H fr x Hh Hx) as [b Hb].
    cbn in E. rewrite Hb in E. cbn in E. by rewrite Z.eqb_refl in E. }
  split; [done| | | |]; rewrite ?Ev, ?Eo.
  - apply Hva.
  - intros g u b Hg%Hsub. by apply (va_base _ _ _ _ Hva).
  - intros g o ob x Hg Ho Hob Hr. destruct (HO g Hg o Ho) as [Ho' Hm]. specialize (Hm ob Hob). pose proof (Hsub g Hg) as HgF.
    destruct (va_placed _ _ _ _ Hva g o ob x HgF Ho' Hob Hr) as [Hx|[Hmeas (h & Hh & Hx)]]; [by left|right].
    split; [done|]. exists h. split; [|done]. apply (Hin h x Hh Hx).
    unfold mentions in Hm. unfold obj_has_ref in Hr. destruct (obj_kind ob); try done.
    apply orb_false_iff in Hm as [[Hm1 Hm2]%orb_false_iff _]. case_bool_decide as Eb; [by rewrite Eb in Hm1|].
    apply bool_decide_eq_true in Hr as ->. done.
  - intros g o ob Hg Ho Hob. destruct (HO g Hg o Ho) as [Ho' Hm]. specialize (Hm ob Hob).
    pose proof (va_frames _ _ _ _ Hva g o ob (Hsub g Hg) Ho' Hob) as Hf. unfold mentions in Hm.
    destruct (obj_kind ob) as [r| | | | | |high lq hq]; try done.
    + apply Hkeep; [done|]. intros ->. by rewrite Z.eqb_refl in Hm.
    + destruct Hf as (Hh & Hb & Hhi & Hq). rewrite Hhead. split_and!; [done..|]. intros q Hin'. apply Hkeep; [by apply Hq|].
      intros ->. apply orb_false_iff in Hm as [_ Hm]. apply not_true_iff_false in Hm. apply Hm.
      apply existsb_exists. exists fr. split; [by apply list_elem_of_In|apply Z.eqb_refl].
Qed.
End frame.

(** [C13] The deletion of a frame other than the root frame, in a drawing in order: it ends; the
    frame goes, and from the other frames the references to it and the measurements that
    have a vector of it or are qualified by it, and nothing else; and the drawing is in
    order again. *)
Theorem delete_frame_exact s F V O fr :
  valid s F V O → fr ∈ F → head F ≠ Some fr →
  ∃ s' F' O', delete_frame fr s = Ret tt s' ∧ valid s' F' V O' ∧ kept (λ g, g ≠ fr) F F' ∧
    (∀ g, g ∈ F' → kept (λ o, ∀ ob, objs s !! o = Some ob → mentions (vecs s) fr ob = false) (O g) (O' g)) ∧
    data s' = data s.
Proof.
  intros Hva Hfr Hroot. set (s0 := set_deletions (deletions s) (groups s + 1) s).
  pose proof (va_shape _ _ _ _ Hva) as H. assert (shape s0 F V O) as H0 by by apply shape_deletions.
  pose proof Hfr as (A & B & EF)%list_elem_of_split.
  pose proof (chain_NoDup _ _ _ (sh_frames _ _ _ _ H)) as Hnd.
  destruct (chain_cell _ _ _ fr (sh_frames _ _ _ _ H) Hfr) as [n Hn].
  destruct (unlink_frame s0 F V O fr A B n H0 EF Hn) as (Hu & H1 & Hc1 & _). set (s1 := set_cells _ s0) in *.
  assert (∀ x, x ∈ A ++ B → x ∈ F) as Hsub by (intros x; rewrite EF, !elem_of_app, elem_of_cons; tauto).
  unfold delete_frame, new_group. rewrite bind_modify. fold s0.
  rewrite (bind_step _ _ _ _ _ Hu). unfold new_deletion. rewrite bind_modify. set (s2 := set_deletions _ _ _).
  assert (shape s2 (A ++ B) V O) as H2 by by apply shape_deletions.
  unfold delete_references. rewrite bind_get.
  pose proof (sh_frames _ _ _ _ H2) as Hc2. rewrite (bind_step _ _ _ _ _ (read_eq _ _ _ (chain_start _ _ _ Hc2))).
  destruct (delete_references_in_spec (A ++ B) V fr (vecs s) (objs s) (A ++ B) (list_fuel s2) Frames s2 O)
    as (s3 & O3 & Hs3 & H3 & Hw3 & Hk3 & Ho3); try done.
  { apply Nat.lt_succ_r. by eapply chain_length. }
  { by eapply chain_NoDup. }
  { intros g o ob Hg%Hsub Ho Hob. by eapply valid_measured. }
  rewrite (bind_step _ _ _ _ _ Hs3).
  assert (chain (cells s3) (Objs fr) (O fr)) as Hc3.
  { assert (fr ∉ A ++ B) as Hout.
    { rewrite EF in Hnd. apply NoDup_app in Hnd as (_ & Hd & [HB _]%NoDup_cons). rewrite elem_of_app.
      intros [HA|?]; [|done]. apply (Hd _ HA). by left. }
    assert (∀ l, obj_place s fr l → cells s3 !! l = cells s2 !! l) as Hl.
    { intros l Hl. apply (wi_cells _ _ _ Hw3). intros (g & Hg & Hl'). apply Hout.
      by rewrite (obj_place_unique s fr g l Hl Hl'). }
    apply (chain_agree (cells s2)); [apply Hl; by left| |done].
    intros o Ho. apply Hl, (obj_chain_places _ _ _ _ H); eauto. }
  rewrite (bind_step _ _ _ _ _ (read_eq _ _ _ (chain_start _ _ _ Hc3))).
  destruct (drop_active_refs_spec (A ++ B) V (objs s) (O fr) O3 (list_fuel s2) (Objs fr) s3) as (s4 & Hs4 & H4 & Hw4); try done.
  { by apply (within_objs _ _ _ Hw3). }
  { apply Nat.lt_succ_r. by eapply chain_length. }
  { intros o Ho. destruct (sh_obj _ _ _ _ H fr o Hfr Ho) as (ob & Hob & _ & Hk). exists ob. split; [done|].
    intros r E. apply (wi_refs _ _ _ Hw3). by apply Hk. }
  assert (data s4 = data s) as Hd by (rewrite (wi_data _ _ _ Hw4), (wi_data _ _ _ Hw3); done).
  exists s4, (A ++ B), O3. split; [exact Hs4|]. split; [|split; [by rewrite EF in Hnd |- *; apply kept_without|done]].
  apply (valid_without s F V O Hva fr A B); [done..|]. intros g Hg o Ho. by apply Hk3 in Ho.
Qed.

(** ** Examples *)

From S2P Require Import FpdUndo.

Module DeleteExamples.

Abbreviation sample := UndoExamples.sample.
Definition frame_list : list Z := [1; 2].
Definition vec_lists (g : Z) : list Z := if g =? 2 then [10; 11; 12; 13] else [].
Definition obj_lists (g : Z) : list Z := if g =? 1 then [30; 31; 32] else if g =? 2 then [20; 21] else [].

Lemma sample_shape : shape sample frame_list vec_lists obj_lists.
Proof.
  split.
  - by vm_compute.
  - intros fr H. each H; by vm_compute.
  - intros fr H. each H; by vm_compute.
  - intros fr v H Hv. each H; cbn in Hv; each Hv; eexists; by vm_compute.
  - intros fr o H Ho. each H; cbn in Ho; each Ho; eexists; (split; [vm_compute; reflexivity|]); (split; [done|]);
      intros r [= <-]; vm_compute; eauto.
  - intros x [ve Hve]. assert (map_Forall (λ x _, objs sample !! x = None) (vecs sample)) as H by by apply (bool_decide_unpack _); vm_compute.
    by apply (H x ve).
  - intros fr H. each H; by vm_compute.
Qed.

Lemma sample_based u x : based (vecs sample) u x → x < u.
Proof.
  intros [fr H].
  assert (map_Forall (λ u ve, match vec_base ve with Some b => b <? u | None => true end = true) (vecs sample)) as Hm
    by by apply (bool_decide_unpack _); vm_compute.
  apply Z.ltb_lt, (Hm u _ H).
Qed.

Lemma sample_valid : valid sample frame_list vec_lists obj_lists.
Proof.
  split; [exact sample_shape| | | |].
  - intros x H. assert (∀ u y, tc (based (vecs sample)) u y → y < u) as Hlt; [|apply Hlt in H; lia].
    induction 1 as [u y Hb%sample_based|u y z Hb%sample_based _ IH]; lia.
  - intros g u b H Hu [fr Hb]. each H; cbn in Hu; each Hu; vm_compute in Hb; simplify_eq; by (repeat constructor).
  - intros g o ob x H Ho Hob Hr. each H; cbn in Ho; each Ho; vm_compute in Hob; simplify_eq; unfold obj_has_ref in Hr; cbn in Hr;
      repeat case_bool_decide; simplify_eq; try done.
    all: first [left; by apply (bool_decide_unpack _)
               |right; split; [done|]; exists 2; split; by apply (bool_decide_unpack _)].
  - intros g o ob H Ho Hob. each H; cbn in Ho; each Ho; vm_compute in Hob; simplify_eq; cbn; try done;
      [by apply (bool_decide_unpack _)| |]; (split_and!; try done; try by eexists); intros q Hq; each Hq;
      by apply (bool_decide_unpack _).
Qed.

Lemma delete_vec_exact_witness :
  ∃ s' V' O', delete_vec 11 sample = Ret tt s' ∧ valid s' frame_list V' O' ∧
    kept (λ u, ¬ rtc (based (vecs sample)) u 11) [10; 11; 12; 13] (V' 2).
Proof.
  destruct (delete_vec_exact sample frame_list vec_lists obj_lists 2 11) as (s' & V' & O' & H1 & H2 & H3 & _).
  - exact sample_valid.
  - by apply (bool_decide_unpack _).
  - by apply (bool_decide_unpack _).
  - exists s', V', O'. split; [exact H1|]. split; [exact H2|exact H3].
Defined.

Lemma delete_frame_exact_witness :
  ∃ s' F' O', delete_frame 2 sample = Ret tt s' ∧ valid s' F' vec_lists O' ∧ kept (λ g, g ≠ 2) frame_list F'.
Proof.
  destruct (delete_frame_exact sample frame_list vec_lists obj_lists 2) as (s' & F' & O' & H1 & H2 & H3 & _).
  - exact sample_valid.
  - by apply (bool_decide_unpack _).
  - done.
  - exists s', F', O'. split; [exact H1|]. split; [exact H2|exact H3].
Defined.

End DeleteExamples.
