(* ===== verification/FpdMove.v ===== *)
(** * fped: moving a vector to a new base (eda/fped/inst.c)

    Instantiation and the writer of files need the base of a vector before the vector in the
    list of its frame.  When the user moves a vector to a new base that comes after it, the
    vector and all that depend on it are moved behind that base. *)

From stdpp Require Import gmap sets relations.
From S2P Require Import Prelude.
From S2P Require Import FpdDelete.
From S2P Require Import FpdLists.

(** ** The operation

    [marks] is the field [mark] of the vectors. *)
Record drawing : Type := Drawing { drawn : fpd; marks : gmap Z Z }.

Definition set_drawn (f : fpd → fpd) (s : drawing) : drawing := Drawing (f (drawn s)) (marks s).

Abbreviation G := (M drawing).

Definition on_lists {A} (m : D A) : G A := λ s,
  match m (drawn s) with
  | Ret a d => Ret a (Drawing d (marks s))
  | Stop w => Stop w
  end.

Definition set_vec (v : Z) (ve : vec) (d : fpd) : fpd :=
  Fpd (cells d) (<[v := ve]> (vecs d)) (objs d) (var_frame d) (loop_frame d) (row_table d) (active_refs d)
    (deletions d) (groups d).

Definition set_base (v : Z) (base : option Z) : G unit :=
  ve ← on_lists (vec_at v);
  modify (set_drawn (set_vec v (Vec base (vec_frame ve)))).

Definition get_mark (v : Z) : G Z := s ← get; deref (marks s !! v) "v->mark".
Definition set_mark (v m : Z) : G unit :=
  get_mark v;; modify (λ s, Drawing (drawn s) (<[v := m]> (marks s))).

(** The vectors a vector is based on, one after the other, as [find_point_vec] goes through
    them: whether [self] is not among them. *)
Fixpoint find_point_vec (fuel : nat) (vec : option Z) (self : Z) : G bool :=
  match fuel with
  | O => undefined "out of fuel"
  | S f =>
      match vec with
      | None => mret true
      | Some x => if x =? self then mret false else ve ← on_lists (vec_at x); find_point_vec f (vec_base ve) self
      end
  end.

(** [for (v = frame->vecs; v != vec; v = v->next) v->mark = 0;] *)
Fixpoint clear_marks (fuel : nat) (v : option Z) (vec : Z) : G unit :=
  match fuel with
  | O => undefined "out of fuel"
  | S f =>
      v ← deref v "v->mark";
      if v =? vec then mret tt else set_mark v 0;; n ← on_lists (read (Next v)); clear_marks f n vec
  end.

(** From the vector on: the marks are those of the bases.  The result is where it stops. *)
Fixpoint mark_dependents (fuel : nat) (v to_vec : option Z) : G (option Z) :=
  match fuel with
  | O => undefined "out of fuel"
  | S f =>
      match v with
      | None => mret None
      | Some x =>
          if bool_decide (v = to_vec) then mret v
          else
            ve ← on_lists (vec_at x);
            m ← match vec_base ve with Some b => get_mark b | None => mret 0 end;
            set_mark x m;;
            n ← on_lists (read (Next x));
            mark_dependents f n to_vec
      end
  end.

Fixpoint move_marked (fuel : nat) (walk anchor : loc) (to_vec : Z) : G unit :=
  match fuel with
  | O => undefined "out of fuel"
  | S f =>
      v ← on_lists (read walk);
      if bool_decide (v = Some to_vec) then mret tt
      else
        v ← deref v "v->mark";
        m ← get_mark v;
        if m =? 0 then move_marked f (Next v) anchor to_vec
        else
          n ← on_lists (read (Next v));
          on_lists (write walk n);;
          a ← on_lists (read anchor);
          on_lists (write (Next v) a);;
          on_lists (write anchor (Some v));;
          move_marked f walk (Next v) to_vec
  end.

(** [to_vec] is NULL for the origin of the frame. *)
Definition do_move_to_vec (vec : Z) (to_vec : option Z) : G unit :=
  ve ← on_lists (vec_at vec);
  set_base vec to_vec;;
  s ← get;
  let fuel := list_fuel (drawn s) in
  h ← on_lists (read (Vecs (vec_frame ve)));
  clear_marks fuel h vec;;
  set_mark vec 1;;
  n ← on_lists (read (Next vec));
  v ← mark_dependents fuel n to_vec;
  match v with
  | None => mret tt
  | Some _ => to_vec ← deref to_vec "to_vec"; move_marked fuel (Vecs (vec_frame ve)) (Next to_vec) to_vec
  end.

(** ** Order *)

(** [x] is based on [b]; the bases in a list come first. *)
Definition on_base (vs : gmap Z vec) (x b : Z) : Prop := ∃ ve, vs !! x = Some ve ∧ vec_base ve = Some b.
Definition ordered (vs : gmap Z vec) (L : list Z) : Prop := ∀ x b, x ∈ L → on_base vs x b → [b; x] `sublist_of` L.

Lemma on_base_unique vs x b c : on_base vs x b → on_base vs x c → b = c.
Proof. intros (ve & H & E) (ve' & H' & E'). congruence. Qed.

Lemma sublist_pair_in (x y : Z) L : [x; y] `sublist_of` L → x ∈ L ∧ y ∈ L.
Proof. intros H. split; (eapply elem_of_sublist; [|exact H]); [by left|by right; left]. Qed.

(** Of two elements, only one comes first. *)
Lemma sublist_pair_antisym (x y : Z) L : NoDup L → [x; y] `sublist_of` L → [y; x] `sublist_of` L → False.
Proof.
  induction 1 as [|z L Hz _ IH]; [intros H; by apply sublist_nil_r in H|].
  intros H1 H2. apply sublist_cons_r in H1 as [H1|(l1 & E1 & H1)], H2 as [H2|(l2 & E2 & H2)].
  - auto.
  - injection E2 as -> <-. apply sublist_pair_in in H1. tauto.
  - injection E1 as -> <-. apply sublist_pair_in in H2. tauto.
  - injection E1 as -> <-. injection E2 as -> <-. apply Hz. eapply elem_of_sublist; [|exact H1]. by left.
Qed.

Lemma ordered_split vs X x Y b : NoDup (X ++ x :: Y) → ordered vs (X ++ x :: Y) → on_base vs x b → b ∈ X.
Proof.
  intros Hnd Hord Hb. assert ([b; x] `sublist_of` X ++ x :: Y) as H.
  { apply Hord; [apply elem_of_app; right; by left|done]. }
  destruct (sublist_pair_in _ _ _ H) as [Hin _].
  apply elem_of_app in Hin as [?|Hin]; [done|]. exfalso.
  apply elem_of_cons in Hin as [->|Hin].
  - by apply (sublist_pair_antisym x x (X ++ x :: Y)).
  - apply (sublist_pair_antisym b x (X ++ x :: Y)); [done|done|].
    apply sublist_inserts_l, sublist_skip. apply list_elem_of_split in Hin as (Y1 & Y2 & ->).
    apply sublist_inserts_l, sublist_skip, sublist_nil_l.
Qed.

(** A base that is not in the list was one before, too: [dep] are the vectors based on [v]. *)
Section dependents.
Context (vs : gmap Z vec) (v : Z).
Abbreviation dep := (λ x, rtc (on_base vs) x v).

Lemma dep_step x : x ≠ v → dep x ↔ ∃ b, on_base vs x b ∧ dep b.
Proof.
  intros Hx. split.
  - intros H. destruct H as [|x b c Hb H]; [done|]. eauto.
  - intros (b & Hb & H). by eapply rtc_l.
Qed.
End dependents.

Lemma sublist_pair_total (x y : Z) L : x ∈ L → y ∈ L → x ≠ y → [x; y] `sublist_of` L ∨ [y; x] `sublist_of` L.
Proof.
  assert (∀ (x y : Z) X Y, y ∈ Y → [x; y] `sublist_of` X ++ x :: Y) as Hin.
  { intros a c X Y (Y1 & Y2 & ->)%list_elem_of_split.
    apply sublist_inserts_l, sublist_skip, sublist_inserts_l, sublist_skip, sublist_nil_l. }
  intros (X & Y & ->)%list_elem_of_split [Hy|[->|Hy]%elem_of_cons]%elem_of_app Hne; [right|done|left; by apply Hin].
  apply list_elem_of_split in Hy as (X1 & X2 & ->). rewrite <- app_assoc. apply (Hin y x X1 (X2 ++ x :: Y)).
  apply elem_of_app. right. by left.
Qed.

Lemma sublist_pair_part (x y : Z) D L :
  NoDup L → D `sublist_of` L → x ∈ D → y ∈ D → [x; y] `sublist_of` L → [x; y] `sublist_of` D.
Proof.
  intros Hnd HD Hx Hy H. destruct (decide (x = y)) as [->|Hne]; [by destruct (sublist_pair_antisym y y L)|].
  destruct (sublist_pair_total x y D Hx Hy Hne) as [?|H']; [done|].
  destruct (sublist_pair_antisym x y L); [done|done|by etransitivity].
Qed.

(** A list in which the dependents of [v] are among themselves as before, and so are the
    others, and [v] comes after its new base, is ordered again. *)
Lemma reorder_ordered vs vs' v base L L' D N :
  NoDup L → ordered vs L → (∀ x, x ∈ L' → x ∈ L) →
  kept (λ x, rtc (on_base vs) x v) L D → kept (λ x, rtc (on_base vs) x v) L' D →
  kept (λ x, ¬ rtc (on_base vs) x v) L N → kept (λ x, ¬ rtc (on_base vs) x v) L' N →
  (∀ x, x ∈ L → x ∈ D ∨ x ∈ N) →
  (∀ b, base = Some b → [b; v] `sublist_of` L') →
  (∀ x b, on_base vs' x b ↔ (x = v ∧ base = Some b) ∨ (x ≠ v ∧ on_base vs x b)) →
  ordered vs' L'.
Proof.
  intros Hnd Hord Hin HD HD' HN HN' Hdec Hto Hvs x b Hx [[-> Hb]|[Hxv Hb]]%Hvs; [by apply Hto|].
  pose proof (Hord x b (Hin x Hx) Hb) as Hbx. destruct (sublist_pair_in _ _ _ Hbx) as [HbL HxL].
  destruct (Hdec x HxL) as [HxD|HxN].
  - assert (b ∈ D) as HbD.
    { apply HD. split; [done|]. apply HD in HxD as [_ Hdep]. apply (dep_step vs v x Hxv) in Hdep as (b' & Hb' & Hdep).
      by rewrite (on_base_unique _ _ _ _ Hb Hb'). }
    etransitivity; [|apply HD']. by apply (sublist_pair_part b x D L Hnd (proj1 HD)).
  - assert (b ∈ N) as HbN.
    { apply HN. split; [done|]. intros Hdep. apply HN in HxN as [_ HxN]. apply HxN. by eapply rtc_l. }
    etransitivity; [|apply HN']. by apply (sublist_pair_part b x N L Hnd (proj1 HN)).
Qed.

(** ** The marks *)

Lemma on_lists_eq {A} (m : D A) s a d : m (drawn s) = Ret a d → on_lists m s = Ret a (Drawing d (marks s)).
Proof. unfold on_lists. by intros ->. Qed.

Lemma on_read l s p : cells (drawn s) !! l = Some p → on_lists (read l) s = Ret p s.
Proof. intros H. rewrite (on_lists_eq _ _ p (drawn s)); [by destruct s|by apply read_eq]. Qed.

Lemma on_vec_at x s ve : vecs (drawn s) !! x = Some ve → on_lists (vec_at x) s = Ret ve s.
Proof. intros H. rewrite (on_lists_eq _ _ ve (drawn s)); [by destruct s|by apply vec_at_eq]. Qed.

Lemma get_mark_eq x s m : marks s !! x = Some m → get_mark x s = Ret m s.
Proof. unfold get_mark. run. by intros ->. Qed.

Lemma set_mark_eq x m s : is_Some (marks s !! x) → set_mark x m s = Ret tt (Drawing (drawn s) (<[x := m]> (marks s))).
Proof. intros [k Hk]. unfold set_mark. by rewrite (bind_step _ _ _ _ _ (get_mark_eq _ _ _ Hk)). Qed.

Lemma clear_marks_spec v B A : ∀ f l s,
  chain (cells (drawn s)) l (A ++ v :: B) → (length A < f)%nat → (∀ x, x ∈ A → is_Some (marks s !! x)) →
  ∃ mk, clear_marks f (head (A ++ v :: B)) v s = Ret tt (Drawing (drawn s) mk) ∧
    (∀ x, x ∈ A → mk !! x = Some 0) ∧ ∀ x, x ∉ A → mk !! x = marks s !! x.
Proof.
  induction A as [|a A IH]; intros [|f] l s Hc Hf Hm; cbn in Hf; try lia.
  - exists (marks s). cbn [clear_marks head app]. run. rewrite Z.eqb_refl. split; [by destruct s|].
    split; [by intros x Hx%elem_of_nil|done].
  - pose proof (chain_NoDup _ _ _ Hc) as Hnd. cbn in Hc. destruct Hc as [Ha Hc]. cbn [clear_marks head app]. run.
    assert (a ≠ v) as Hav.
    { intros ->. apply NoDup_cons in Hnd as [Hv _]. apply Hv, elem_of_app. right. by left. }
    apply Z.eqb_neq in Hav. rewrite Hav. rewrite (bind_step _ _ _ _ _ (set_mark_eq _ 0 _ (Hm a ltac:(by left)))).
    set (s1 := Drawing _ _).
    rewrite (bind_step _ _ _ (head (A ++ v :: B)) s1) by (apply on_read, chain_start, Hc).
    destruct (IH f (Next a) s1 Hc) as (mk & Hmk & H0 & Hother); [lia| |].
    { intros x Hx. cbn. destruct (decide (x = a)) as [->|Hne]; [rewrite lookup_insert_eq; eauto|].
      rewrite lookup_insert_ne by done. apply Hm. by right. }
    exists mk. split; [done|]. split.
    + intros x [->|Hx]%elem_of_cons; [|by apply H0]. destruct (decide (a ∈ A)); [by apply H0|].
      rewrite Hother by done. cbn. apply lookup_insert_eq.
    + intros x [Hxa HxA]%not_elem_of_cons. rewrite Hother by done. cbn. by rewrite lookup_insert_ne.
Qed.

(** The marks of [xs] say which of them depend on [v]. *)
Definition right (vs : gmap Z vec) (v : Z) (mk : gmap Z Z) (xs : list Z) : Prop :=
  ∀ x, x ∈ xs → (mk !! x = Some 1 ∧ rtc (on_base vs) x v) ∨ (mk !! x = Some 0 ∧ ¬ rtc (on_base vs) x v).

(** The mark of the base is what the vector's should be. *)
Lemma base_mark vs v s X x P ve :
  NoDup (X ++ x :: P) → ordered vs (X ++ x :: P) → right vs v (marks s) X → vs !! x = Some ve → x ≠ v →
  ∃ m, (match vec_base ve with Some b => get_mark b | None => mret 0 end) s = Ret m s ∧
    ((m = 1 ∧ rtc (on_base vs) x v) ∨ (m = 0 ∧ ¬ rtc (on_base vs) x v)).
Proof.
  intros Hnd Hord Hr Hve Hxv. pose proof (dep_step vs v x Hxv) as Hstep. destruct (vec_base ve) as [b|] eqn:Eb.
  - assert (on_base vs x b) as Hxb by (exists ve; done).
    pose proof (ordered_split _ _ _ _ _ Hnd Hord Hxb) as HbX.
    assert (rtc (on_base vs) x v ↔ rtc (on_base vs) b v) as Hiff.
    { rewrite Hstep. split; [|eauto]. intros (b' & Hb' & ?). by rewrite (on_base_unique _ _ _ _ Hxb Hb'). }
    destruct (Hr b HbX) as [[Hb1 Hb2]|[Hb1 Hb2]]; [exists 1|exists 0]; (split; [by apply get_mark_eq|tauto]).
  - exists 0. split; [done|]. right. split; [done|]. intros (b & (ve' & Hve' & Eb') & _)%Hstep. congruence.
Qed.

Lemma mark_dependents_spec vs v to P : ∀ f l s X,
  chain (cells (drawn s)) l P → (length P < f)%nat → (∀ x, x ∈ P → is_Some (marks s !! x)) →
  (∀ x, x ≠ v → vecs (drawn s) !! x = vs !! x) → (∀ x, x ∈ P → is_Some (vs !! x)) →
  NoDup (X ++ P) → ordered vs (X ++ P) → v ∈ X → right vs v (marks s) X →
  ∃ mk B C, P = B ++ C ∧ mark_dependents f (head P) to s = Ret (head C) (Drawing (drawn s) mk) ∧
    right vs v mk (X ++ B) ∧ (∀ y, is_Some (marks s !! y) → is_Some (mk !! y)) ∧
    (C = [] ∧ (∀ t, to = Some t → t ∉ P) ∨ ∃ t C', to = Some t ∧ C = t :: C').
Proof.
  induction P as [|x P IH]; intros [|f] l s X Hc Hf Hm Hvs Hv Hnd Hord HvX Hr; cbn in Hf; try lia.
  - exists (marks s), [], []. cbn. rewrite app_nil_r. split_and!; [done|by destruct s|done|done|].
    left. split; [done|]. by intros t _ Ht%elem_of_nil.
  - destruct Hc as [_ Hc]. cbn [mark_dependents head]. case_bool_decide as Eto.
    + exists (marks s), [], (x :: P). cbn. rewrite app_nil_r. split_and!; [done|by destruct s|done|done|]. right. eauto.
    + assert (x ≠ v) as Hxv.
      { intros ->. apply NoDup_app in Hnd as (_ & Hd & _). apply (Hd v HvX). by left. }
      destruct (Hv x) as [ve Hve]; [by left|].
      rewrite (bind_step _ _ _ ve s) by (apply on_vec_at; by rewrite Hvs).
      destruct (base_mark vs v s X x P ve Hnd Hord Hr Hve Hxv) as (m & Hm1 & Hm2).
      rewrite (bind_step _ _ _ _ _ Hm1).
      rewrite (bind_step _ _ _ _ _ (set_mark_eq _ m _ (Hm x ltac:(by left)))). set (s1 := Drawing _ _).
      rewrite (bind_step _ _ _ (head P) s1) by (apply on_read, chain_start, Hc).
      assert (∀ y, y ∈ X → y ≠ x) as HXx.
      { intros y Hy ->. apply NoDup_app in Hnd as (_ & Hd & _). apply (Hd x Hy). by left. }
      destruct (IH f (Next x) s1 (X ++ [x])) as (mk & B & C & -> & Hmk & Hr' & Hsome & Hend).
      * done.
      * lia.
      * intros y Hy. cbn. destruct (decide (y = x)) as [->|Hne]; [rewrite lookup_insert_eq; eauto|].
        rewrite lookup_insert_ne by done. apply Hm. by right.
      * done.
      * intros y Hy. apply Hv. by right.
      * by rewrite <- app_assoc.
      * by rewrite <- app_assoc.
      * apply elem_of_app. by left.
      * intros y [Hy|Hy]%elem_of_app.
        -- cbn. rewrite lookup_insert_ne by (intros ->; by eapply HXx). by apply Hr.
        -- apply list_elem_of_singleton in Hy as ->. cbn. rewrite lookup_insert_eq. destruct Hm2 as [[-> ?]|[-> ?]]; auto.
      * exists mk, (x :: B), C. split; [done|]. split; [done|]. split; [by rewrite <- app_assoc in Hr'|]. split.
        { intros y Hy. apply Hsome. cbn. destruct (decide (y = x)) as [->|]; [rewrite lookup_insert_eq; eauto|by rewrite lookup_insert_ne]. }
        destruct Hend as [[-> Hno]|?]; [left|by right]. split; [done|]. intros t Ht [->|Hin]%elem_of_cons; [congruence|].
        by eapply Hno.
Qed.

(** ** The move *)

Lemma chain_insert c l A x B a :
  chain c l (A ++ B) → x ∉ A ++ B → l ≠ Next x → c !! place l (last A) = Some a →
  chain (<[place l (last A) := Some x]> (<[Next x := a]> c)) l (A ++ x :: B).
Proof.
  revert l. induction A as [|y A IH]; intros l Hc Hx Hl Ha.
  - cbn in *. split; [apply lookup_insert_eq|]. pose proof (chain_start _ _ _ Hc) as Hs. rewrite Ha in Hs. injection Hs as ->.
    assert (<[l := Some x]> (<[Next x := head B]> c) !! Next x = Some (head B)) as Hn.
    { rewrite lookup_insert_ne by done. apply lookup_insert_eq. }
    destruct B as [|z B]; [done|]. split; [done|]. destruct Hc as [_ Hc].
    apply (chain_agree c); [| |done].
    + assert (l ≠ Next z) by (apply (chain_no_return c l (z :: B)); [split; [by rewrite Ha|done]|by left]).
      rewrite lookup_insert_ne by done. apply lookup_insert_ne. intros [= ->]. apply Hx. by left.
    + intros w Hw. assert (l ≠ Next w) by (apply (chain_no_return c l (z :: B)); [split; [by rewrite Ha|done]|by right]).
      rewrite lookup_insert_ne by done. apply lookup_insert_ne. intros [= ->]. apply Hx. by right.
  - rewrite place_cons in *. cbn [app] in *. apply not_elem_of_cons in Hx as [Hxy Hx]. pose proof Hc as [Hy Hc'].
    split.
    + rewrite !lookup_insert_ne; [done|done|].
      intros E. destruct (place_inv (Next y) A) as [E'|(w & Hw & E')]; rewrite E' in E; symmetry in E.
      * by apply (chain_no_return _ _ _ y Hc) in E; [|left].
      * apply (chain_no_return _ _ _ w Hc) in E; [done|]. right. apply elem_of_app. by left.
    + apply IH; [done|done|congruence|done].
Qed.

(** One round: the first item is taken out and put behind [M]. *)
Lemma put_behind s walk p to M P C (k : G unit) :
  chain (cells (drawn s)) walk (p :: P ++ to :: M ++ C) →
  let anchor := place (Next to) (last M) in
  ∃ c,
    (n ← on_lists (read (Next p)); on_lists (write walk n);; a ← on_lists (read anchor);
     on_lists (write (Next p) a);; on_lists (write anchor (Some p));; k) s =
      k (Drawing (set_cells c (drawn s)) (marks s)) ∧
    chain c walk (P ++ to :: (M ++ [p]) ++ C) ∧
    ∀ q, q ≠ walk → q ≠ Next p → (∀ x, x ∈ to :: M → q ≠ Next x) → c !! q = cells (drawn s) !! q.
Proof.
  intros Hc anchor. pose proof (chain_NoDup _ _ _ Hc) as [Hp _]%NoDup_cons. pose proof Hc as [Hw Hc1].
  pose proof (chain_start _ _ _ Hc1) as Hn. rewrite (bind_step _ _ _ _ _ (on_read _ _ _ Hn)).
  rewrite (bind_step _ _ _ tt _ (on_lists_eq _ _ _ _ (write_eq walk _ _ (mk_is_Some _ _ Hw)))).
  pose proof (chain_remove _ _ [] p _ _ Hc Hn) as Hc2. cbn [last place] in Hc2.
  set (c1 := <[walk := _]> _) in *. change (chain c1 walk (P ++ to :: M ++ C)) in Hc2.
  set (s1 := Drawing (set_cells c1 (drawn s)) (marks s)).
  assert (anchor = place walk (last (P ++ to :: M))) as Eanchor.
  { unfold anchor. rewrite last_app_cons, last_cons. by destruct (last M). }
  assert (anchor = Next to ∨ ∃ x, x ∈ M ∧ anchor = Next x) as Hanchor by apply place_inv.
  assert (is_Some (c1 !! anchor)) as [a Ha].
  { destruct Hanchor as [->|(x & Hx & ->)]; apply (chain_cell _ _ _ _ Hc2), elem_of_app; right; [by left|].
    right. apply elem_of_app. by left. }
  rewrite (bind_step _ _ _ a s1) by (apply on_read, Ha).
  assert (walk ≠ Next p) as Hwp by (apply (chain_no_return _ _ _ p Hc); by left).
  assert (is_Some (c1 !! Next p)) as Hnp by (unfold c1; rewrite lookup_insert_ne by done; eauto).
  rewrite (bind_step _ _ _ tt (Drawing (set_cells (<[Next p := a]> c1) (drawn s)) (marks s)));
    [|exact (on_lists_eq _ s1 _ _ (write_eq (Next p) a (drawn s1) Hnp))].
  set (s2 := Drawing _ _). assert (is_Some (cells (drawn s2) !! anchor)) as Hsa.
  { apply lookup_insert_is_Some'. right. eauto. }
  exists (<[anchor := Some p]> (<[Next p := a]> c1)). split; [|split].
  - exact (bind_step _ _ _ _ _ (on_lists_eq _ s2 _ _ (write_eq anchor (Some p) (drawn s2) Hsa))).
  - rewrite Eanchor. assert (P ++ to :: (M ++ [p]) ++ C = (P ++ to :: M) ++ p :: C) as -> by (by simplify_list_eq).
    assert (P ++ to :: M ++ C = (P ++ to :: M) ++ C) as E by (by simplify_list_eq).
    rewrite E in Hc2, Hp. apply chain_insert; [done|done|done|by rewrite <- Eanchor].
  - intros q Hq Hqp HqM. unfold c1. rewrite !lookup_insert_ne; [done|done|done|].
    destruct Hanchor as [->|(x & Hx & ->)]; apply not_eq_sym, HqM; [by left|by right].
Qed.

(** What is marked of [P] goes behind [to] and what went there before. *)
Lemma move_marked_spec to C P : ∀ f walk M s,
  chain (cells (drawn s)) walk (P ++ to :: M ++ C) → (length P < f)%nat → (∀ x, x ∈ P → is_Some (marks s !! x)) →
  let unmarked := filter (λ x, marks s !! x = Some 0) P in
  let marked := filter (λ x, marks s !! x ≠ Some 0) P in
  ∃ c, move_marked f walk (place (Next to) (last M)) to s = Ret tt (Drawing (set_cells c (drawn s)) (marks s)) ∧
    chain c walk (unmarked ++ to :: M ++ marked ++ C) ∧
    ∀ q, q ≠ walk → (∀ x, x ∈ P ++ to :: M → q ≠ Next x) → c !! q = cells (drawn s) !! q.
Proof.
  induction P as [|p P IH]; intros [|f] walk M s Hc Hf Hm; cbn in Hf; try lia.
  - exists (cells (drawn s)). cbn [move_marked filter list_filter app].
    rewrite (bind_step _ _ _ _ _ (on_read _ _ _ (chain_start _ _ _ Hc))). cbn [head app].
    rewrite bool_decide_true by done. split; [by destruct s as [[]]|]. split; [done|done].
  - pose proof (chain_NoDup _ _ _ Hc) as Hnd. cbn [app] in Hnd. pose proof Hnd as [Hp _]%NoDup_cons.
    assert (p ≠ to) as Hpt by (intros ->; apply Hp, elem_of_app; right; by left).
    pose proof Hc as [Hw Hc1]. cbn [move_marked].
    rewrite (bind_step _ _ _ _ _ (on_read _ _ _ Hw)). rewrite bool_decide_false by congruence. run.
    destruct (Hm p) as [m Hmp]; [by left|]. rewrite (bind_step _ _ _ _ _ (get_mark_eq _ _ _ Hmp)).
    destruct (Z.eqb_spec m 0) as [->|Hm0].
    + destruct (IH f (Next p) M s Hc1) as (c & Hs & Hc2 & Hother); [lia|intros x Hx; apply Hm; by right|].
      exists c. split; [done|]. rewrite filter_cons_True by done. rewrite (filter_cons_False _ p) by tauto.
      split; [split; [|done]|].
      * rewrite Hother; [done| |].
        -- apply (chain_no_return _ _ _ p Hc). by left.
        -- intros x Hx. apply (chain_no_return _ _ _ x Hc). 
           rewrite elem_of_app, elem_of_cons in Hx. rewrite elem_of_app, !elem_of_cons, elem_of_app. tauto.
      * intros q Hq HqP. apply Hother; [apply HqP; by left|]. intros x Hx. apply HqP. by right.
    + rewrite filter_cons_False by congruence. rewrite filter_cons_True by congruence.
      destruct (put_behind s walk p to M P C (move_marked f walk (Next p) to) Hc) as (c2 & Hrun & Hc2 & Hother2).
      destruct (IH f walk (M ++ [p]) (Drawing (set_cells c2 (drawn s)) (marks s))) as (c & Hs & Hc3 & Hother);
        [exact Hc2|lia|intros x Hx; apply Hm; by right|].
      rewrite last_snoc in Hs. exists c. split; [by rewrite Hrun|]. split; [by rewrite <- app_assoc in Hc3|].
      intros q Hq HqP. rewrite Hother; [|done|].
      * apply Hother2; [done|apply HqP; by left|]. intros x Hx. apply HqP, elem_of_app. by right.
      * intros x Hx. apply HqP. rewrite elem_of_app, elem_of_cons, elem_of_app, list_elem_of_singleton in Hx.
        rewrite elem_of_app, !elem_of_cons. tauto.
Qed.

(** ** Where a vector can be moved to *)

Lemma kept_app (Q : Z → Prop) xs1 xs2 ys1 ys2 : kept Q xs1 ys1 → kept Q xs2 ys2 → kept Q (xs1 ++ xs2) (ys1 ++ ys2).
Proof. intros [Hs1 H1] [Hs2 H2]. split; [by apply sublist_app|]. intros x. rewrite !elem_of_app, H1, H2. tauto. Qed.

Lemma kept_nil (Q : Z → Prop) xs : (∀ x, x ∈ xs → ¬ Q x) → kept Q xs [].
Proof. intros H. split; [apply sublist_nil_l|]. intros x. rewrite elem_of_nil. split; [done|]. intros [Hx HQ]. by apply (H x). Qed.

Lemma kept_one (Q : Z → Prop) x xs ys : Q x → kept Q xs ys → kept Q (x :: xs) (x :: ys).
Proof. intros Hx. apply (kept_app Q [x] xs [x] ys). apply kept_all. by intros y ->%list_elem_of_singleton. Qed.

Lemma kept_exists (Q : Z → Prop) xs : (∀ x, x ∈ xs → Q x ∨ ¬ Q x) → ∃ ys, kept Q xs ys.
Proof.
  induction xs as [|x xs IH]; intros H; [exists []; by apply kept_all; intros ? ?%elem_of_nil|].
  destruct IH as [ys Hys]; [intros y Hy; apply H; by right|]. destruct (H x) as [Hx|Hx]; [by left| |].
  - exists (x :: ys). by apply kept_one.
  - exists ys. apply (kept_app Q [x] xs [] ys); [|done]. apply kept_nil. by intros y ->%list_elem_of_singleton.
Qed.

Section point.
Context (s : drawing) (v : Z) (L : list Z).
Context (Hord : ordered (vecs (drawn s)) L) (Hnd : NoDup L) (Hv : ∀ x, x ∈ L → is_Some (vecs (drawn s) !! x)).
Abbreviation dep := (λ x, rtc (on_base (vecs (drawn s))) x v).

(** The vectors that depend on [v] are refused, and no others; the search ends. *)
Lemma find_point_vec_spec f : ∀ A x B, L = A ++ x :: B → (length A + 1 < f)%nat →
  ∃ ok, find_point_vec f (Some x) v s = Ret ok s ∧ (ok = false ↔ dep x).
Proof using Hnd Hord Hv.
  induction f as [|f IH]; intros A x B E Hf; [lia|]. cbn [find_point_vec].
  destruct (Z.eqb_spec x v) as [->|Hxv]; [exists false; done|].
  destruct (Hv x) as [ve Hve]; [rewrite E; apply elem_of_app; right; by left|].
  rewrite (bind_step _ _ _ _ _ (on_vec_at _ _ _ Hve)). destruct (vec_base ve) as [b|] eqn:Eb.
  - assert (on_base (vecs (drawn s)) x b) as Hxb by (exists ve; done).
    assert (b ∈ A) as (A1 & A2 & ->)%list_elem_of_split.
    { apply (ordered_split (vecs (drawn s)) A x B); [by rewrite <- E|by rewrite <- E|done]. }
    rewrite length_app in Hf. cbn in Hf.
    destruct (IH A1 b (A2 ++ x :: B)) as (ok & Hok & Hiff); [by rewrite E, <- app_assoc|lia|].
    exists ok. split; [done|]. rewrite Hiff. rewrite (dep_step _ _ _ Hxv). split; [eauto|].
    intros (b' & Hb' & ?). by rewrite (on_base_unique _ _ _ _ Hxb Hb').
  - exists true. destruct f as [|f]; [lia|]. split; [done|]. split; [done|].
    intros (b & (ve' & Hve' & Eb') & _)%(dep_step _ _ _ Hxv). congruence.
Qed.

Lemma find_point_total f to : (length L < f)%nat → (∀ t, to = Some t → t ∈ L) →
  ∃ ok, find_point_vec f to v s = Ret ok s ∧ (ok = false ↔ ∃ t, to = Some t ∧ dep t).
Proof using Hnd Hord Hv.
  intros Hf Hto. destruct to as [t|].
  - pose proof (Hto t eq_refl) as (X & Y & E)%list_elem_of_split. rewrite E, length_app in Hf. cbn in Hf.
    destruct (find_point_vec_spec f X t Y E) as (ok & Hok & Hiff); [lia|].
    exists ok. split; [done|]. rewrite Hiff. split; [eauto|]. by intros (? & [= <-] & ?).
  - exists true. destruct f; [lia|]. split; [done|]. split; [done|]. by intros (? & ? & _).
Qed.

Lemma dep_dec x : x ∈ L → dep x ∨ ¬ dep x.
Proof using Hnd Hord Hv.
  intros (A & B & E)%list_elem_of_split. destruct (find_point_vec_spec (S (S (length A))) A x B) as (ok & _ & Hiff); [done|lia|].
  destruct ok; [right|left]; [|by apply Hiff]. intros H. by apply Hiff in H.
Qed.

(** What comes before [v] does not depend on it. *)
Lemma before_not_dep A B : L = A ++ v :: B → ∀ x, x ∈ A → ¬ dep x.
Proof using Hnd Hord.
  intros E x Hx Hd. assert (∀ y z, rtc (on_base (vecs (drawn s))) y z → z = v → y ∈ A → False) as H; [|by eapply H].
  clear x Hx Hd. induction 1 as [y|y b z Hyb _ IH]; intros Hz Hy.
  - subst y. rewrite E in Hnd. apply NoDup_app in Hnd as (_ & Hd & _). apply (Hd v Hy). by left.
  - apply IH; [done|]. apply list_elem_of_split in Hy as (A1 & A2 & EA). rewrite EA in E. rewrite <- app_assoc in E.
    rewrite EA. apply elem_of_app. left. eapply ordered_split; [|rewrite <- app_comm_cons in E; rewrite <- E; exact Hord|done].
    by rewrite app_comm_cons, <- E.
Qed.
End point.

(** ** The move as a whole *)

(** The vectors of a frame are in its list, and their marks can be set. *)
Definition listed (s : drawing) (fr : Z) (L : list Z) : Prop :=
  chain (cells (drawn s)) (Vecs fr) L ∧
  ∀ x, x ∈ L → is_Some (marks s !! x) ∧ ∃ b, vecs (drawn s) !! x = Some (Vec b fr).

(** The bases of [vs] with another one for [v]. *)
Lemma on_base_insert vs v to fr x b :
  on_base (<[v := Vec to fr]> vs) x b ↔ (x = v ∧ to = Some b) ∨ (x ≠ v ∧ on_base vs x b).
Proof.
  unfold on_base. destruct (decide (x = v)) as [->|Hxv].
  - rewrite lookup_insert_eq. split; [intros (ve & [= <-] & E); auto|].
    intros [[_ ->]|[Hne _]]; [eexists; split; [reflexivity|done]|done].
  - rewrite lookup_insert_ne by done. split; [auto|]. by intros [[-> _]|[_ ?]].
Qed.

(** The marks are set in the list with the new base, and say what depended on [v] before. *)
Lemma marks_phase s s1 fr A v B to f :
  listed s fr (A ++ v :: B) → ordered (vecs (drawn s)) (A ++ v :: B) →
  cells (drawn s1) = cells (drawn s) → marks s1 = marks s →
  (∀ x, x ≠ v → vecs (drawn s1) !! x = vecs (drawn s) !! x) → (length (A ++ v :: B) < f)%nat →
  ∃ mk B1 C, B = B1 ++ C ∧
    (∀ k : option Z → G unit,
      (clear_marks f (head (A ++ v :: B)) v;; set_mark v 1;; n ← on_lists (read (Next v));
       w ← mark_dependents f n to; k w) s1 = k (head C) (Drawing (drawn s1) mk)) ∧
    right (vecs (drawn s)) v mk (A ++ v :: B1) ∧ (∀ x, x ∈ A ++ v :: B → is_Some (mk !! x)) ∧
    (C = [] ∧ (∀ t, to = Some t → t ∉ B) ∨ ∃ t C', to = Some t ∧ C = t :: C').
Proof.
  intros [Hc HL] Hord Hcells Hmarks Hvecs Hf. pose proof (chain_NoDup _ _ _ Hc) as Hnd.
  rewrite length_app in Hf. cbn [length] in Hf. rewrite <- Hcells in Hc.
  pose proof (before_not_dep s v _ Hord Hnd A B eq_refl) as HA.
  pose proof Hnd as (_ & HdA & [HvB _]%NoDup_cons)%NoDup_app.
  assert (v ∉ A) as HvA by (intros Hx; by apply (HdA v Hx); left).
  destruct (clear_marks_spec v B A f _ s1 Hc) as (mk0 & Hs0 & H0 & Hmk0); [lia| |].
  { intros x Hx. rewrite Hmarks. apply HL, elem_of_app. by left. }
  rewrite Hmarks in Hmk0. set (mk1 := <[v := 1]> mk0).
  assert (∀ x, x ∈ A ++ v :: B → is_Some (mk1 !! x)) as Hmk1.
  { intros x Hx. apply lookup_insert_is_Some'. right.
    destruct (decide (x ∈ A)); [rewrite H0 by done; eauto|]. rewrite Hmk0 by done. by apply HL. }
  set (s2 := Drawing (drawn s1) mk1). pose proof (chain_suffix _ _ _ _ _ Hc) as HcB.
  destruct (mark_dependents_spec (vecs (drawn s)) v to B f _ s2 (A ++ [v]) HcB)
    as (mk & B1 & C & EB & Hs2 & Hr & Hsome & Hend); [lia| |exact Hvecs| | | | | |].
  { intros x Hx. apply Hmk1, elem_of_app. right. by right. }
  { intros x Hx. destruct (HL x) as [_ [b' ->]]; [apply elem_of_app; right; by right|eauto]. }
  1,2: by rewrite <- app_assoc.
  { apply elem_of_app. right. by left. }
  { intros x [Hx|Hx%list_elem_of_singleton]%elem_of_app; [right|subst x; left]; cbn; unfold mk1.
    - rewrite lookup_insert_ne by (by intros <-). split; [by apply H0|by apply HA].
    - split; [apply lookup_insert_eq|done]. }
  exists mk, B1, C. split; [done|]. split; [|split; [by rewrite <- app_assoc in Hr|split; [|done]]].
  - intros k. rewrite (bind_step _ _ _ _ _ Hs0). erewrite bind_step.
    2: { apply set_mark_eq. cbn. rewrite Hmk0 by done. apply HL, elem_of_app. right. by left. }
    rewrite (bind_step _ _ _ _ s2 (on_read _ s2 _ (chain_start _ _ _ HcB))). by rewrite (bind_step _ _ _ _ _ Hs2).
  - intros x Hx. by apply Hsome, Hmk1.
Qed.

Lemma do_move_run s fr A v B to :
  listed s fr (A ++ v :: B) → ordered (vecs (drawn s)) (A ++ v :: B) →
  ∃ c mk L', do_move_to_vec v to s = Ret tt (Drawing (set_cells c (set_vec v (Vec to fr) (drawn s))) mk) ∧
    chain c (Vecs fr) L' ∧ (∀ x, x ∈ A ++ v :: B → is_Some (mk !! x)) ∧
    (∀ q, q ≠ Vecs fr → (∀ x, x ∈ A ++ v :: B → q ≠ Next x) → c !! q = cells (drawn s) !! q) ∧
    ((L' = A ++ v :: B ∧ ∀ t, to = Some t → t ∉ B) ∨
     ∃ P t C, to = Some t ∧ A ++ v :: B = P ++ t :: C ∧ v ∈ P ∧ right (vecs (drawn s)) v mk P ∧
       L' = filter (λ x, mk !! x = Some 0) P ++ t :: filter (λ x, mk !! x ≠ Some 0) P ++ C).
Proof.
  intros [Hc HL] Hord. pose proof (chain_length _ _ _ Hc) as Hlen.
  rewrite length_app in Hlen. cbn [length] in Hlen.
  destruct (HL v) as [_ [b Hb]]; [apply elem_of_app; right; by left|].
  unfold do_move_to_vec, set_base. rewrite (bind_step _ _ _ _ _ (on_vec_at _ _ _ Hb)).
  erewrite bind_step; [|rewrite (bind_step _ _ _ _ _ (on_vec_at _ _ _ Hb)); reflexivity]. cbn [vec_frame].
  set (s1 := set_drawn _ s). run. change (list_fuel (drawn s1)) with (list_fuel (drawn s)). unfold list_fuel.
  rewrite (bind_step _ _ _ _ s1 (on_read _ s1 _ (chain_start _ _ _ Hc))).
  destruct (marks_phase s s1 fr A v B to (S (size (cells (drawn s))))) as (mk & B1 & C & EB & Hrun & Hr & Hsome & Hend);
    [done|done|done|done|intros x Hx; by apply lookup_insert_ne|rewrite length_app; cbn; lia|].
  rewrite Hrun.
  destruct Hend as [[-> Hno]|(t & C' & -> & ->)].
  - exists (cells (drawn s)), mk, (A ++ v :: B). cbn [head]. split_and!; [done|done|done|done|by left].
  - cbn [head]. run. set (P := A ++ v :: B1). set (s3 := Drawing _ _).
    assert (A ++ v :: B = P ++ t :: C') as E by (unfold P; rewrite EB; by simplify_list_eq).
    rewrite E in Hc.
    destruct (move_marked_spec t C' P (S (size (cells (drawn s)))) (Vecs fr) [] s3 Hc) as (c & Hs3 & Hc' & Hother).
    { apply (f_equal length) in E. rewrite !length_app in E. cbn in E. lia. }
    { intros x Hx. destruct (Hr x Hx) as [[? _]|[? _]]; eauto. }
    exists c, mk. eexists. split; [exact Hs3|]. split; [exact Hc'|]. split; [done|]. split.
    + intros q Hq HqL. apply Hother; [done|]. intros x Hx. apply HqL. rewrite E.
      rewrite elem_of_app, list_elem_of_singleton in Hx. rewrite elem_of_app, elem_of_cons. tauto.
    + right. exists P, t, C'. split_and!; try done. apply elem_of_app. right. by left.
Qed.

(** What is moved behind [t], with the rest of the list, keeps its order, and so do the
    others. *)
Lemma moved_behind vs v mk P t C :
  right vs v mk P → ¬ rtc (on_base vs) t v → (∀ x, x ∈ C → rtc (on_base vs) x v ∨ ¬ rtc (on_base vs) x v) →
  let L' := filter (λ x, mk !! x = Some 0) P ++ t :: filter (λ x, mk !! x ≠ Some 0) P ++ C in
  ∃ D N, kept (λ x, rtc (on_base vs) x v) (P ++ t :: C) D ∧ kept (λ x, rtc (on_base vs) x v) L' D ∧
    kept (λ x, ¬ rtc (on_base vs) x v) (P ++ t :: C) N ∧ kept (λ x, ¬ rtc (on_base vs) x v) L' N.
Proof.
  intros Hr Ht HC L'.
  assert (∀ x, x ∈ P → (mk !! x = Some 0 ↔ ¬ rtc (on_base vs) x v)) as H0.
  { intros x Hx. destruct (Hr x Hx) as [[-> ?]|[-> ?]]; (split; [|tauto]); congruence. }
  assert (∀ x, x ∈ P → (mk !! x ≠ Some 0 ↔ rtc (on_base vs) x v)) as H1.
  { intros x Hx. destruct (Hr x Hx) as [[-> ?]|[-> ?]]; split; congruence. }
  set (U := filter (λ x, mk !! x = Some 0) P) in *. set (K := filter (λ x, mk !! x ≠ Some 0) P) in *.
  assert (kept (λ x, ¬ rtc (on_base vs) x v) P U) as HU by by eapply kept_ext; [apply kept_filter|].
  assert (kept (λ x, rtc (on_base vs) x v) P K) as HK by by eapply kept_ext; [apply kept_filter|].
  destruct (kept_exists (λ x, rtc (on_base vs) x v) C HC) as [DC HDC].
  destruct (kept_exists (λ x, ¬ rtc (on_base vs) x v) C) as [NC HNC]; [intros x Hx; destruct (HC x Hx); tauto|].
  assert (∀ xs ys, kept (λ x, rtc (on_base vs) x v) xs ys → kept (λ x, rtc (on_base vs) x v) (t :: xs) ys) as Hskip.
  { intros xs ys Hxs. apply (kept_app _ [t] xs [] ys); [|done]. apply kept_nil. by intros ? ->%list_elem_of_singleton. }
  exists (K ++ DC), (U ++ t :: NC). split_and!.
  - apply kept_app; [done|]. by apply Hskip.
  - apply (kept_app _ _ _ []); [apply kept_nil; intros x Hx Hd; by apply HU in Hx as [_ ?]|]. apply Hskip.
    apply kept_app; [|done]. apply kept_all. intros x Hx. by apply HK.
  - apply kept_app; [done|]. by apply kept_one.
  - apply kept_app; [apply kept_all; intros x Hx; by apply HU|]. apply kept_one; [done|].
    apply (kept_app _ _ _ []); [|done]. apply kept_nil. intros x Hx Hd. by apply HK in Hx as [_ ?].
Qed.

(** [C14] Moving a vector in the editor.  [find_point_vec] refuses the vector itself and those
    that depend on it, and nothing else.  After a move that it accepts, [do_move_to_vec] has
    given the vector its new base, the list of the frame holds the same vectors, bases come
    before the vectors that use them again, the vector and those that depend on it are in the
    same order as before and so are all the others, and no other list has changed. *)
Theorem move_keeps_order s fr L v to :
  listed s fr L → ordered (vecs (drawn s)) L → v ∈ L → (∀ t, to = Some t → t ∈ L) →
  let depends x := rtc (on_base (vecs (drawn s))) x v in
  ∃ ok, find_point_vec (list_fuel (drawn s)) to v s = Ret ok s ∧ (ok = false ↔ ∃ t, to = Some t ∧ depends t) ∧
    (ok = true → ∃ s' L', do_move_to_vec v to s = Ret tt s' ∧
      listed s' fr L' ∧ L' ≡ₚ L ∧ ordered (vecs (drawn s')) L' ∧
      vecs (drawn s') = <[v := Vec to fr]> (vecs (drawn s)) ∧
      (∃ D N, kept depends L D ∧ kept depends L' D ∧ kept (λ x, ¬ depends x) L N ∧ kept (λ x, ¬ depends x) L' N) ∧
      ∀ q, q ≠ Vecs fr → (∀ x, x ∈ L → q ≠ Next x) → cells (drawn s') !! q = cells (drawn s) !! q).
Proof.
  intros [Hc HL] Hord Hv Hto depends. pose proof (chain_NoDup _ _ _ Hc) as Hnd. pose proof (chain_length _ _ _ Hc) as Hlen.
  assert (∀ x, x ∈ L → is_Some (vecs (drawn s) !! x)) as HvL by (intros x Hx; destruct (HL x Hx) as [_ [b ->]]; eauto).
  destruct (find_point_total s v L Hord Hnd HvL (list_fuel (drawn s)) to) as (ok & Hok & Hiff); [unfold list_fuel; lia|done|].
  exists ok. split; [done|]. split; [done|]. intros ->.
  assert (∀ t, to = Some t → ¬ depends t) as Hnt by (intros t Ht Hd; destruct Hiff as [_ Hf]; discriminate Hf; eauto).
  apply list_elem_of_split in Hv as (A & B & ->).
  destruct (do_move_run s fr A v B to (conj Hc HL) Hord) as (c & mk & L' & Hs & Hc' & Hmk & Hother & Hcase).
  assert (∀ x, x ∈ A ++ v :: B → depends x ∨ ¬ depends x) as Hdec by by apply dep_dec.
  assert (∃ D N, kept depends (A ++ v :: B) D ∧ kept depends L' D ∧ kept (λ x, ¬ depends x) (A ++ v :: B) N ∧
    kept (λ x, ¬ depends x) L' N) as (D & N & HD & HD' & HN & HN').
  { destruct Hcase as [[-> _]|(P & t & C & Et & E & _ & Hr & ->)].
    - destruct (kept_exists depends _ Hdec) as [D HD].
      destruct (kept_exists (λ x, ¬ depends x) (A ++ v :: B)) as [N HN]; [|by exists D, N].
      intros x Hx. destruct (Hdec x Hx); tauto.
    - rewrite E in Hdec |- *. apply moved_behind; [done|by apply Hnt|]. intros x Hx. apply Hdec, elem_of_app. right. by right. }
  assert (L' ≡ₚ A ++ v :: B) as Hperm.
  { destruct Hcase as [[-> _]|(P & t & C & _ & -> & _ & _ & ->)]; [done|].
    rewrite <- (filter_app_complement (λ x, mk !! x = Some 0) P) at 3. solve_Permutation. }
  assert (∀ b, to = Some b → [b; v] `sublist_of` L') as Hbase.
  { intros b Eb. pose proof (Hnt b Eb) as Hnb. assert (b ≠ v) as Hbv by (intros ->; apply Hnb, rtc_refl).
    destruct Hcase as [[-> Hno]|(P & t & C & Et & E & HvP & Hr & ->)].
    - pose proof (Hto b Eb) as [HbA|[?|HbB]%elem_of_cons]%elem_of_app; [|done|by destruct (Hno b Eb)].
      apply list_elem_of_split in HbA as (A1 & A2 & ->).
      rewrite <- app_assoc. apply sublist_inserts_l, sublist_skip, sublist_inserts_l, sublist_skip, sublist_nil_l.
    - rewrite Eb in Et. injection Et as <-. apply sublist_inserts_l, sublist_skip, sublist_inserts_r.
      apply singleton_sublist_l, list_elem_of_filter. split; [|done].
      destruct (Hr v HvP) as [[-> _]|[_ Hd]]; [done|destruct Hd; apply rtc_refl]. }
  eexists _, L'. split; [exact Hs|]. cbn [drawn]. split_and!; [|done| |done|by exists D, N|done].
  - split; [done|]. intros x Hx. rewrite Hperm in Hx. split; [by apply Hmk|]. cbn.
    destruct (decide (x = v)) as [->|Hxv]; [rewrite lookup_insert_eq; eauto|]. rewrite lookup_insert_ne by done. by apply HL.
  - eapply (reorder_ordered (vecs (drawn s)) _ v to (A ++ v :: B) L' D N); try done.
    + intros x Hx. by rewrite <- Hperm.
    + intros x Hx. destruct (Hdec x Hx); [left; by apply HD|right; by apply HN].
    + intros x b. apply on_base_insert.
Qed.

(** ** Example: 11, on which 12 is based, is moved from 10 to 13. *)
Definition move_sample : drawing :=
  Drawing
    (Fpd (list_to_map [(Vecs 2, Some 10); (Next 10, Some 11); (Next 11, Some 12); (Next 12, Some 13); (Next 13, Some 14);
                       (Next 14, None)])
       (list_to_map [(10, Vec None 2); (11, Vec (Some 10) 2); (12, Vec (Some 11) 2); (13, Vec (Some 10) 2);
                     (14, Vec (Some 12) 2)])
       ∅ ∅ ∅ ∅ ∅ [] 0)
    (list_to_map [(10, 7); (11, 7); (12, 7); (13, 7); (14, 7)]).

Example moved_list :
  match do_move_to_vec 11 (Some 13) move_sample with
  | Ret _ s => (λ l, cells (drawn s) !! l) <$> [Vecs 2; Next 10; Next 13; Next 11; Next 12; Next 14]
  | Stop _ => []
  end = [Some (Some 10); Some (Some 13); Some (Some 11); Some (Some 12); Some (Some 14); Some None].
Proof. vm_compute. reflexivity. Qed.

Lemma move_sample_listed : listed move_sample 2 [10; 11; 12; 13; 14].
Proof.
  split; [vm_compute; tauto|]. intros x Hx. each Hx; vm_compute; split; eexists; reflexivity.
Qed.

Lemma move_sample_ordered : ordered (vecs (drawn move_sample)) [10; 11; 12; 13; 14].
Proof.
  intros x b Hx (ve & Hve & Eb).
  each Hx; vm_compute in Hve; injection Hve as <-; try discriminate Eb; injection Eb as <-;
    repeat first [apply sublist_skip | apply sublist_nil_l | apply sublist_cons].
Qed.

(** What the debugging command %move does to the base of a vector ([dbg_move] of fpd.y): the
    list is left as it is, with 13 behind the vector that is now based on it. *)
Lemma debug_move_unordered :
  ∃ s', set_base 11 (Some 13) move_sample = Ret tt s' ∧ chain (cells (drawn s')) (Vecs 2) [10; 11; 12; 13; 14] ∧
    ¬ ordered (vecs (drawn s')) [10; 11; 12; 13; 14].
Proof.
  eexists. split; [reflexivity|]. split; [vm_compute; tauto|]. intros H.
  assert ([13; 11] `sublist_of` [10; 11; 12; 13; 14]) as H'.
  { apply H; [right; by left|]. by exists (Vec (Some 13) 2). }
  apply (sublist_pair_antisym 11 13 [10; 11; 12; 13; 14]); [by apply (bool_decide_unpack _)| |done].
  repeat first [apply sublist_skip | apply sublist_nil_l | apply sublist_cons].
Qed.

Lemma move_keeps_order_witness :
  ∃ s' L', do_move_to_vec 11 (Some 13) move_sample = Ret tt s' ∧ listed s' 2 L' ∧ ordered (vecs (drawn s')) L'.
Proof.
  destruct (move_keeps_order move_sample 2 [10; 11; 12; 13; 14] 11 (Some 13)) as (ok & Hok & _ & Hmove).
  - exact move_sample_listed.
  - exact move_sample_ordered.
  - right. by left.
  - intros t [= <-]. by do 3 right; left.
  - destruct Hmove as (s' & L' & H1 & H2 & _ & H3 & _); [vm_compute in Hok; by injection Hok as <-|].
    exists s', L'. split; [exact H1|]. split; [exact H2|exact H3].
Defined.
