(* ===== verification/OpkgVersion.v ===== *)
(** * opkg: versions (opkg/libopkg/pkg.c, pkg_parse.c)

    The parts of a version, how it is read and printed, and the order of versions, which
    decides what is upgraded and what satisfies a dependency. *)

From S2P Require Import Prelude.
From S2P Require Import CString.

(** ** Comparison

    A pointer into a string is the rest of the string before its NUL. *)
Abbreviation V := (M unit).

Definition star (s : list Z) : Z := match s with c :: _ => c | [] => 0 end.

Definition incr (s : list Z) : V (list Z) :=
  match s with
  | _ :: s' => mret s'
  | [] => undefined "a pointer past the end of a string"
  end.

Definition isalpha (c : Z) : bool := isupper c || ((97 <=? c) && (c <=? 122)).

Definition order (x : Z) : Z :=
  if x =? ch "~" then -1
  else if isdigit x then 0
  else if x =? 0 then 0
  else if isalpha x then x
  else x + 256.

Definition nondigit (s : list Z) : bool := negb (star s =? 0) && negb (isdigit (star s)).

(** The first loop: a result, or the pointers after it. *)
Fixpoint compare_words (fuel : nat) (val ref : list Z) : V (Z + list Z * list Z) :=
  match fuel with
  | O => undefined "out of fuel"
  | S f =>
      if nondigit val || nondigit ref then
        let vc := order (star val) in
        let rc := order (star ref) in
        if negb (vc =? rc) then mret (inl (vc - rc))
        else val ← incr val; ref ← incr ref; compare_words f val ref
      else mret (inr (val, ref))
  end.

(** [while ( *val == '0' ) val++;] *)
Fixpoint skip_zeros (s : list Z) : list Z :=
  match s with
  | c :: s' => if c =? ch "0" then skip_zeros s' else s
  | [] => []
  end.

Fixpoint compare_digits (first_diff : Z) (val ref : list Z) : Z * list Z * list Z :=
  match val, ref with
  | c :: val', d :: ref' =>
      if isdigit c && isdigit d
      then compare_digits (if first_diff =? 0 then c - d else first_diff) val' ref'
      else (first_diff, val, ref)
  | _, _ => (first_diff, val, ref)
  end.

Fixpoint verrevcmp_loop (fuel : nat) (val ref : list Z) : V Z :=
  match fuel with
  | O => undefined "out of fuel"
  | S f =>
      if negb (star val =? 0) || negb (star ref =? 0) then
        w ← compare_words (S (length val)) val ref;
        match w with
        | inl r => mret r
        | inr (val, ref) =>
            let '(first_diff, val, ref) := compare_digits 0 (skip_zeros val) (skip_zeros ref) in
            if isdigit (star val) then mret 1
            else if isdigit (star ref) then mret (-1)
            else if negb (first_diff =? 0) then mret first_diff
            else verrevcmp_loop f val ref
        end
      else mret 0
  end.

(** NULL is the empty string. *)
Definition verrevcmp (val ref : option (list Z)) : V Z :=
  let val := default [] val in
  let ref := default [] ref in
  verrevcmp_loop (S (length val + length ref)) val ref.

(** The version of a package: [epoch], [version] and [revision]. *)
Record version : Type := Version { epoch : Z; ver : option (list Z); revision : option (list Z) }.

Definition pkg_compare_versions (pkg ref_pkg : version) : V Z :=
  if epoch ref_pkg <? epoch pkg then mret 1
  else if epoch pkg <? epoch ref_pkg then mret (-1)
  else
    r ← verrevcmp (ver pkg) (ver ref_pkg);
    if negb (r =? 0) then mret r
    else
      r ← verrevcmp (revision pkg) (revision ref_pkg);
      mret r.

Definition pkg_version_satisfied (it ref : version) (op : list Z) : V bool :=
  r ← pkg_compare_versions it ref;
  if str_eq op (b "<=") || str_eq op (b "<") then mret (r <=? 0)
  else if str_eq op (b ">=") || str_eq op (b ">") then mret (0 <=? r)
  else if str_eq op (b "<<") then mret (r <? 0)
  else if str_eq op (b ">>") then mret (0 <? r)
  else if str_eq op (b "=") then mret (r =? 0)
  else mret false.

(** ** Reading and printing *)

Definition set_epoch (e : Z) (p : version) := Version e (ver p) (revision p).
Definition set_ver (v : option (list Z)) (p : version) := Version (epoch p) v (revision p).
Definition set_revision (r : option (list Z)) (p : version) := Version (epoch p) (ver p) r.

Definition EINVAL : Z := 22.

(** The pointers into the same string that [strchr] and [strtoul] give are the same if as
    much of the string comes after them; [strtoul] that finds no number gives its argument. *)
Definition same_place (p q : list Z) : bool := (length p =? length q)%nat.

(** The last part: the revision is what comes after the last hyphen. *)
Definition split_revision : M version Z :=
  modify (set_revision (Some []));;
  p ← get;
  v ← deref (ver p) "pkg->version";
  match strrchr v (ch "-") with
  | Some hyphen =>
      modify (set_ver (Some (take (length v - length hyphen) v)));;
      modify (set_revision (Some (tail hyphen)));;
      mret 0
  | None => mret 0
  end.

(** [raw] after the word that a line of a file starts with, and after spaces. *)
Definition skip_keyword (raw : list Z) : list Z :=
  skip_space (if strn_eq 8 raw (b "Version:") then drop 8 raw else raw).

(** [mem]: whether there is memory for the copy. *)
Definition store_version (mem : bool) (raw : list Z) : M version Z :=
  p ← get;
  match ver p with
  | None =>
      modify (set_revision (Some []));;
      if mem then modify (set_ver (Some raw));; split_revision else mret 12
  | Some _ => split_revision
  end.

Definition parseVersion (mem : bool) (raw : list Z) : M version Z :=
  if star raw =? 0 then mret EINVAL
  else
    let raw := skip_keyword raw in
    match strchr raw (ch ":") with
    | Some colon =>
        let '(epoch, e) := strtoul 10 raw in
        let eepochcolon := default raw e in
        if negb (same_place colon eepochcolon) then mret EINVAL
        else if star (tail colon) =? 0 then mret EINVAL
        else modify (set_epoch epoch);; store_version mem (tail colon)
    | None => modify (set_epoch 0);; store_version mem raw
    end.

Definition pkg_version_str_alloc (pkg : version) : V (list Z) :=
  let epoch_str := if epoch pkg =? 0 then [] else dec (s32 (epoch pkg)) ++ b ":" in
  let revision_str := match revision pkg with Some (c :: r) => b "-" ++ c :: r | _ => [] end in
  v ← deref (ver pkg) "pkg->version";
  mret (epoch_str ++ v ++ revision_str).

(** ** Constraints of a dependency *)

Inductive version_constraint : Type := NONE | EARLIER | EARLIER_EQUAL | EQUAL | LATER_EQUAL | LATER.
#[export] Instance version_constraint_eq_dec : EqDecision version_constraint.
Proof. solve_decision. Defined.

Definition no_version : version := Version 0 None None.

(** [text]: the version of the dependency; the version that cannot be read is as good as empty. *)
Definition version_constraints_satisfied (constraint : version_constraint) (text : list Z) (pkg : version) : V bool :=
  match constraint with
  | NONE => mret true
  | _ =>
      match parseVersion true text no_version with
      | Stop w => halt w
      | Ret _ temp =>
          comparison ← pkg_compare_versions pkg temp;
          if bool_decide (constraint = EARLIER) && (comparison <? 0) then mret true
          else if bool_decide (constraint = LATER) && (0 <? comparison) then mret true
          else if comparison =? 0 then mret true
          else if bool_decide (constraint = LATER_EQUAL) && (0 <=? comparison) then mret true
          else if bool_decide (constraint = EARLIER_EQUAL) && (comparison <=? 0) then mret true
          else mret false
      end
  end.

Example versions_compared :
  (λ p : string * string, match verrevcmp (Some (b (fst p))) (Some (b (snd p))) tt with Ret r _ => Z.sgn r | _ => 2 end) <$>
    [("1.0", "1.0"); ("1.2", "1.10"); ("1.0~rc1", "1.0"); ("1.0a", "1.0"); ("1.0+", "1.0a"); ("01.0", "1.00"); ("", "~")]%string
  = [0; -1; -1; 1; 1; 0; 1].
Proof. vm_compute. reflexivity. Qed.

Example version_read :
  parseVersion true (b "Version: 2:1.0-pre-r3") no_version =
    Ret 0 (Version 2 (Some (b "1.0-pre")) (Some (b "r3"))).
Proof. vm_compute. reflexivity. Qed.

(** ** What the order means

    [version_key]: a word ends with 0, and the number after it is one item; the items of a
    word are the [order] of its characters, and none of them is 0. *)
Fixpoint key (number : option Z) (s : list Z) : list Z :=
  match s with
  | [] => match number with Some n => [n] | None => [] end
  | c :: s' =>
      if isdigit c then
        match number with
        | Some n => key (Some (n * 10 + (c - 48))) s'
        | None => 0 :: key (Some (c - 48)) s'
        end
      else
        match number with
        | Some n => n :: order c :: key None s'
        | None => order c :: key None s'
        end
  end.

Definition version_key (s : option (list Z)) : list Z := key None (default [] s).

(** The lexicographic order, where a sequence goes on with zeros for ever. *)
Fixpoint lead (l : list Z) : Z :=
  match l with
  | [] => 0
  | a :: l' => if a =? 0 then lead l' else Z.sgn a
  end.

Fixpoint lex (x y : list Z) : Z :=
  match x, y with
  | [], _ => - lead y
  | _ :: _, [] => lead x
  | a :: x', c :: y' => if a =? c then lex x' y' else Z.sgn (a - c)
  end.

Definition item (x : list Z) (i : nat) : Z := nth i x 0.

Lemma lead_spec l : (lead l = 0 ∧ ∀ i, item l i = 0) ∨
  (lead l ≠ 0 ∧ ∃ i, (∀ j, (j < i)%nat → item l j = 0) ∧ item l i ≠ 0 ∧ lead l = Z.sgn (item l i)).
Proof.
  induction l as [|a l IH]; cbn.
  - left. split; [done|]. by intros [].
  - destruct (Z.eqb_spec a 0) as [->|Ha].
    + destruct IH as [[Hl H]|(Hl & i & H & Hi & E)]; [left|right].
      * split; [done|]. by intros [|i]; cbn; [|apply H].
      * split; [done|]. exists (S i). split; [|done]. intros [|j] Hj; cbn; [done|]. apply H. lia.
    + right. split; [lia|]. exists 0%nat. cbn. split; [lia|done].
Qed.

Lemma lex_spec x y : (lex x y = 0 ∧ ∀ i, item x i = item y i) ∨
  (lex x y ≠ 0 ∧ ∃ i, (∀ j, (j < i)%nat → item x j = item y j) ∧ item x i ≠ item y i ∧ lex x y = Z.sgn (item x i - item y i)).
Proof.
  revert y. induction x as [|a x IH]; intros y.
  - cbn [lex]. assert (∀ i, item [] i = 0) as Hnil by (by intros []).
    destruct (lead_spec y) as [[E H]|(E & i & H & Hi & Ei)]; [left|right].
    + split; [lia|]. intros i. by rewrite Hnil, H.
    + split; [lia|]. exists i. rewrite Hnil. split; [|split; [congruence|lia]]. intros j Hj. by rewrite Hnil, H.
  - destruct y as [|c y].
    + cbn [lex]. assert (∀ i, item [] i = 0) as Hnil by (by intros []).
      destruct (lead_spec (a :: x)) as [[E H]|(E & i & H & Hi & Ei)]; [left|right].
      * split; [done|]. intros i. by rewrite Hnil, H.
      * split; [done|]. exists i. rewrite Hnil, Z.sub_0_r. split; [|done]. intros j Hj. by rewrite Hnil, H.
    + cbn [lex]. destruct (Z.eqb_spec a c) as [->|Hac].
      * destruct (IH y) as [[E H]|(E & i & H & Hi & Ei)]; [left|right].
        -- split; [done|]. intros [|i]; [done|apply H].
        -- split; [done|]. exists (S i). split; [|done]. intros [|j] Hj; [done|]. apply H. lia.
      * right. split; [lia|]. exists 0%nat. split; [lia|done].
Qed.

(** [lex] is determined by the items. *)
Lemma lex_ext x x' y y' : (∀ i, item x i = item x' i) → (∀ i, item y i = item y' i) → lex x y = lex x' y'.
Proof.
  intros Hx Hy. destruct (lex_spec x y) as [[E H]|(_ & i & H & Hi & ->)], (lex_spec x' y') as [[E' H']|(_ & i' & H' & Hi' & ->)].
  - lia.
  - destruct Hi'. by rewrite <- Hx, <- Hy.
  - destruct Hi. by rewrite Hx, Hy.
  - assert (i = i') as ->; [|by rewrite Hx, Hy].
    destruct (Nat.lt_trichotomy i i') as [Hlt|[?|Hlt]]; [|done|].
    + destruct Hi. rewrite Hx, Hy. by apply H'.
    + destruct Hi'. rewrite <- Hx, <- Hy. by apply H.
Qed.

Lemma lex_opp x y : lex x y = - lex y x.
Proof.
  destruct (lex_spec x y) as [[E H]|(_ & i & H & Hi & ->)], (lex_spec y x) as [[E' H']|(_ & i' & H' & Hi' & ->)].
  - lia.
  - destruct Hi'. by rewrite H.
  - destruct Hi. by rewrite H'.
  - assert (i = i') as ->; [|lia].
    destruct (Nat.lt_trichotomy i i') as [Hlt|[?|Hlt]]; [|done|].
    + destruct Hi. by rewrite H'.
    + destruct Hi'. by rewrite H.
Qed.

Lemma lex_trans x y z : lex x y ≤ 0 → lex y z ≤ 0 → lex x z ≤ 0.
Proof.
  intros Hxy Hyz.
  destruct (lex_spec x y) as [[_ H1]|(_ & i & H1 & Hi & E1)]; [by rewrite (lex_ext x y z z)|].
  destruct (lex_spec y z) as [[_ H2]|(_ & k & H2 & Hk & E2)]; [by rewrite (lex_ext x x z y); [| |intros j; by rewrite H2]|].
  destruct (lex_spec x z) as [[-> _]|(_ & m & H3 & Hm & ->)]; [done|].
  rewrite E1 in Hxy. rewrite E2 in Hyz.
  destruct (Nat.lt_trichotomy i k) as [Hik|[->|Hik]].
  - assert (m = i) as ->; [|rewrite <- (H2 i Hik); lia].
    destruct (Nat.lt_trichotomy m i) as [Hlt|[?|Hlt]]; [|done|].
    + destruct Hm. rewrite H1, H2 by lia. done.
    + exfalso. apply Hi. rewrite (H3 i Hlt). symmetry. by apply H2.
  - assert (m = k) as ->; [|lia].
    destruct (Nat.lt_trichotomy m k) as [Hlt|[?|Hlt]]; [|done|].
    + destruct Hm. by rewrite H1, H2.
    + pose proof (H3 k Hlt). lia.
  - assert (m = k) as ->; [|rewrite (H1 k Hik); lia].
    destruct (Nat.lt_trichotomy m k) as [Hlt|[?|Hlt]]; [|done|].
    + destruct Hm. rewrite H1, H2 by lia. done.
    + exfalso. apply Hk. rewrite <- (H3 k Hlt). symmetry. by apply H1.
Qed.

(** ** The comparison follows the order *)

Lemma order_word c : 0 < c → isdigit c = false → order c ≠ 0.
Proof.
  intros Hc Hd. unfold order. case_match; [done|]. rewrite Hd. destruct (Z.eqb_spec c 0); [lia|].
  case_match; lia.
Qed.

Lemma order_digit c : isdigit c = true → order c = 0.
Proof.
  intros Hd. unfold order. rewrite Hd. destruct (Z.eqb_spec c (ch "~")) as [->|]; [by vm_compute in Hd|done].
Qed.

Lemma nondigit_cons c s : 0 < c → nondigit (c :: s) = negb (isdigit c).
Proof. intros Hc. unfold nondigit. cbn. destruct (Z.eqb_spec c 0); [lia|done]. Qed.

Lemma lex_cons a x y : lex (a :: x) (a :: y) = lex x y.
Proof. cbn. by rewrite Z.eqb_refl. Qed.

Lemma lex_heads a x c y : a ≠ c → lex (a :: x) (c :: y) = Z.sgn (a - c).
Proof. intros H. cbn. by destruct (Z.eqb_spec a c). Qed.

Lemma lex_zero_l x : lex [] x = lex [0] x.
Proof. apply lex_ext; [|done]. intros [|[|i]]; done. Qed.
Lemma lex_zero_r x : lex x [] = lex x [0].
Proof. by rewrite lex_opp, lex_zero_l, <- lex_opp. Qed.

(** The head of the key of a string that does not start with a word. *)
Lemma key_no_word s : cstring s → nondigit s = false → ∃ k, (∀ x, lex (key None s) x = lex (0 :: k) x).
Proof.
  intros Hs. destruct s as [|c s]; cbn.
  - intros _. exists []. intros x. apply (lex_zero_l x).
  - apply Forall_cons in Hs as [Hc Hs]. rewrite nondigit_cons by lia. intros H. destruct (isdigit c); [|done].
    by exists (key (Some (c - 48)) s).
Qed.

(** What the first loop does: it ends with the answer, or at the end of equal words. *)
Lemma compare_words_spec val : ∀ fuel ref, cstring val → cstring ref → (length val < fuel)%nat →
  (∃ r, compare_words fuel val ref tt = Ret (inl r) tt ∧ Z.sgn r = lex (key None val) (key None ref)) ∨
  (∃ w w' v r, compare_words fuel val ref tt = Ret (inr (v, r)) tt ∧ val = w ++ v ∧ ref = w' ++ r ∧
     nondigit v = false ∧ nondigit r = false ∧ lex (key None val) (key None ref) = lex (key None v) (key None r)).
Proof.
  induction val as [|c val IH]; intros [|f] ref Hv Hr Hf; cbn in Hf; try lia; cbn [compare_words].
  - destruct (nondigit ref) eqn:Enr; [left|right; exists [], [], [], ref; done].
    destruct ref as [|d ref]; [done|]. apply Forall_cons in Hr as [Hd _].
    rewrite nondigit_cons in Enr by lia. apply negb_true_iff in Enr.
    pose proof (order_word d ltac:(lia) Enr). change (order (star [])) with 0. change (nondigit []) with false. cbn [orb star].
    destruct (Z.eqb_spec 0 (order d)) as [E|_]; [lia|]. eexists. split; [reflexivity|].
    cbn. rewrite Enr. cbn. destruct (Z.eqb_spec (order d) 0); lia.
  - apply Forall_cons in Hv as [Hc Hv]. rewrite nondigit_cons by lia.
    destruct (isdigit c) eqn:Ec; cbn [negb orb].
    + destruct (nondigit ref) eqn:Enr.
      * left. destruct ref as [|d ref]; [done|]. apply Forall_cons in Hr as [Hd _].
        rewrite nondigit_cons in Enr by lia. apply negb_true_iff in Enr.
        pose proof (order_word d ltac:(lia) Enr). cbn [star]. rewrite (order_digit c Ec).
        destruct (Z.eqb_spec 0 (order d)) as [E|_]; [lia|]. eexists. split; [reflexivity|].
        cbn [key]. rewrite Ec, Enr. by rewrite lex_heads.
      * right. exists [], [], (c :: val), ref. split_and!; try done. rewrite nondigit_cons by lia. by rewrite Ec.
    + pose proof (order_word c ltac:(lia) Ec) as Hoc. cbn [star].
      destruct ref as [|d ref].
      * left. change (order (star [])) with 0. destruct (Z.eqb_spec (order c) 0); [lia|].
        eexists. split; [reflexivity|]. cbn. rewrite Ec. cbn. destruct (Z.eqb_spec (order c) 0); lia.
      * apply Forall_cons in Hr as [Hd Hr]. cbn [star].
        destruct (Z.eqb_spec (order c) (order d)) as [E|E]; cbn [negb].
        -- assert (isdigit d = false) as Ed.
           { destruct (isdigit d) eqn:Ed; [|done]. rewrite (order_digit d Ed) in E. lia. }
           cbn [incr]. run. assert (lex (key None (c :: val)) (key None (d :: ref)) = lex (key None val) (key None ref)) as ->.
           { cbn [key]. rewrite Ec, Ed, E. apply lex_cons. }
           destruct (IH f ref Hv Hr) as [(r & ? & ?)|(w & w' & v & r & H1 & -> & -> & H2)]; [lia|left|right].
           ++ by exists r.
           ++ by exists (c :: w), (d :: w'), v, r.
        -- left. eexists. split; [reflexivity|]. cbn [key]. rewrite Ec.
           destruct (isdigit d) eqn:Ed; [rewrite (order_digit d Ed) in *|]; by rewrite lex_heads.
Qed.

(** *** Numbers *)

Definition all_digits (ds : list Z) : Prop := Forall (λ c, isdigit c = true) ds.

Fixpoint number (ds : list Z) : Z :=
  match ds with
  | [] => 0
  | c :: ds' => (c - 48) * 10 ^ Z.of_nat (length ds') + number ds'
  end.

Lemma isdigit_iff c : isdigit c = true ↔ 48 ≤ c ≤ 57.
Proof. unfold isdigit. rewrite andb_true_iff, !Z.leb_le. lia. Qed.

Lemma number_bound ds : all_digits ds → 0 ≤ number ds < 10 ^ Z.of_nat (length ds).
Proof.
  induction 1 as [|c ds Hc _ IH]; cbn [number length]; [lia|]. apply isdigit_iff in Hc.
  rewrite Nat2Z.inj_succ, Z.pow_succ_r by lia. nia.
Qed.

Lemma number_first c ds : all_digits (c :: ds) → c ≠ 48 → 10 ^ Z.of_nat (length ds) ≤ number (c :: ds).
Proof.
  intros [Hc Hds]%Forall_cons H48. apply isdigit_iff in Hc. pose proof (number_bound ds Hds). cbn. nia.
Qed.

(** More digits, without zeros in front, are a larger number. *)
Lemma number_longer ds ds' : all_digits ds → all_digits ds' → star ds ≠ 48 → (length ds' < length ds)%nat →
  number ds' < number ds.
Proof.
  intros Hds Hds' H48 Hl. destruct ds as [|c ds]; [cbn in Hl; lia|].
  pose proof (number_first c ds Hds H48) as H. pose proof (number_bound ds' Hds') as H'.
  assert (10 ^ Z.of_nat (length ds') ≤ 10 ^ Z.of_nat (length ds)); [|lia].
  apply Z.pow_le_mono_r; [lia|]. cbn in Hl. lia.
Qed.

Lemma compare_digits_spec ds : ∀ ds' fd r r', all_digits ds → all_digits ds' →
  isdigit (star r) = false → isdigit (star r') = false →
  let '(fd', v, v') := compare_digits fd (ds ++ r) (ds' ++ r') in
  (isdigit (star v) = true ↔ (length ds' < length ds)%nat) ∧
  (isdigit (star v') = true ↔ (length ds < length ds')%nat) ∧
  (length ds = length ds' →
     v = r ∧ v' = r' ∧ Z.sgn fd' = if fd =? 0 then Z.sgn (number ds - number ds') else Z.sgn fd).
Proof.
  induction ds as [|c ds IH]; intros ds' fd r r' Hds Hds' Hr Hr'.
  - destruct ds' as [|d ds']; cbn [app].
    + assert (compare_digits fd r r' = (fd, r, r')) as ->.
      { destruct r as [|c r], r' as [|d r']; try done. cbn in *. by rewrite Hr. }
      rewrite Hr, Hr'. split_and!; [split; [done|cbn; lia]|split; [done|cbn; lia]|].
      intros _. split_and!; [done..|]. by destruct (Z.eqb_spec fd 0) as [->|].
    + assert (compare_digits fd r (d :: ds' ++ r') = (fd, r, d :: ds' ++ r')) as ->.
      { destruct r as [|c r]; [done|]. cbn in *. by rewrite Hr. }
      apply Forall_cons in Hds' as [Hd _]. rewrite Hr. cbn [star length]. rewrite Hd.
      split_and!; [split; [done|lia]|split; [lia|done]|done].
  - destruct ds' as [|d ds']; cbn [app].
    + apply Forall_cons in Hds as [Hc _].
      assert (compare_digits fd (c :: ds ++ r) r' = (fd, c :: ds ++ r, r')) as ->.
      { destruct r' as [|d r']; [done|]. cbn in *. by rewrite Hr', andb_false_r. }
      rewrite Hr'. cbn [star length]. rewrite Hc. split_and!; [split; [lia|done]|split; [done|lia]|done].
    + apply Forall_cons in Hds as [Hc Hds]. apply Forall_cons in Hds' as [Hd Hds'].
      cbn [compare_digits]. rewrite Hc, Hd. cbn [andb].
      specialize (IH ds' (if fd =? 0 then c - d else fd) r r' Hds Hds' Hr Hr').
      destruct (compare_digits _ _ _) as [[fd' v] v']. destruct IH as (H1 & H2 & H3). cbn [length].
      split; [rewrite H1; lia|]. split; [rewrite H2; lia|]. intros [= El]. destruct (H3 El) as (-> & -> & E).
      split_and!; [done..|]. rewrite E. cbn [number]. rewrite El.
      pose proof (number_bound ds Hds) as Hb. rewrite El in Hb. pose proof (number_bound ds' Hds') as Hb'.
      destruct (Z.eqb_spec fd 0) as [->|Hfd]; [|by destruct (Z.eqb_spec fd 0)].
      destruct (Z.eqb_spec (c - d) 0) as [Ecd|Hcd]; [f_equal; nia|].
      set (p := 10 ^ Z.of_nat (length ds')) in *. destruct (Z.lt_trichotomy c d) as [?|[?|?]]; [|lia|].
      * rewrite (Z.sgn_neg (c - d)) by lia. symmetry. apply Z.sgn_neg. nia.
      * rewrite (Z.sgn_pos (c - d)) by lia. symmetry. apply Z.sgn_pos. nia.
Qed.

(** A string is digits and a rest; without zeros in front the number is the same. *)
Lemma digits_split s : ∃ ds r, s = ds ++ r ∧ all_digits ds ∧ isdigit (star r) = false.
Proof.
  induction s as [|c s (ds & r & -> & Hds & Hr)]; [exists [], []; split_and!; [done|constructor|done]|].
  destruct (isdigit c) eqn:Ec; [exists (c :: ds), r|exists [], (c :: ds ++ r)]; (split; [done|]); (split; [|done]).
  - by apply Forall_cons.
  - constructor.
Qed.

Lemma skip_zeros_digits ds r : all_digits ds → isdigit (star r) = false →
  ∃ ds', skip_zeros (ds ++ r) = ds' ++ r ∧ all_digits ds' ∧ star ds' ≠ 48 ∧ number ds' = number ds.
Proof.
  intros Hds Hr. induction Hds as [|c ds Hc Hds IH]; cbn [app skip_zeros]; change (ch "0") with 48 in *.
  - exists []. split; [|split; [constructor|by split]]. destruct r as [|c r]; [done|]. cbn [skip_zeros].
    change (ch "0") with 48. destruct (Z.eqb_spec c 48) as [->|]; done.
  - destruct (Z.eqb_spec c 48) as [->|H48].
    + destruct IH as (ds' & -> & ? & ? & E). exists ds'. split_and!; [done..|]. cbn. lia.
    + exists (c :: ds). split_and!; [done|by apply Forall_cons|done|done].
Qed.

Lemma key_number ds : ∀ n r, all_digits ds → isdigit (star r) = false →
  key (Some n) (ds ++ r) = (n * 10 ^ Z.of_nat (length ds) + number ds) :: key None r.
Proof.
  induction ds as [|c ds IH]; intros n r Hds Hr.
  - cbn [app length number]. rewrite Z.mul_1_r, Z.add_0_r. destruct r as [|c r]; [done|]. cbn in *. by rewrite Hr.
  - apply Forall_cons in Hds as [Hc Hds]. cbn [app key]. rewrite Hc, IH by done. cbn [number length]. f_equal.
    rewrite Nat2Z.inj_succ, Z.pow_succ_r by lia. nia.
Qed.

(** The key of digits and what follows, which may have no digits at its start. *)
Lemma lex_number ds r x : all_digits ds → isdigit (star r) = false → (ds = [] → r = []) →
  lex (key None (ds ++ r)) x = lex (0 :: number ds :: key None r) x.
Proof.
  intros Hds Hr Hnil. destruct ds as [|c ds].
  - rewrite (Hnil eq_refl). apply lex_ext; [|done]. by intros [|[|[|i]]].
  - apply Forall_cons in Hds as [Hc Hds]. cbn [app key]. rewrite Hc, key_number by done. reflexivity.
Qed.

(** *** The comparison as a whole *)

Lemma no_word_split s : cstring s → nondigit s = false →
  ∃ ds r, s = ds ++ r ∧ all_digits ds ∧ isdigit (star r) = false ∧ (ds = [] → r = []) ∧ cstring r.
Proof.
  intros Hs Hn. destruct (digits_split s) as (ds & r & -> & Hds & Hr). apply cstring_app in Hs as [_ Hs].
  exists ds, r. split_and!; [done..| |done]. intros ->. destruct r as [|c r]; [done|].
  apply Forall_cons in Hs as [Hc _]. cbn [app] in Hn. rewrite nondigit_cons in Hn by lia. cbn in Hr. by rewrite Hr in Hn.
Qed.

(** The numbers are compared, and what follows them if they are the same. *)
Lemma compare_numbers ds1 r1 ds2 r2 (k : list Z → list Z → V Z) :
  all_digits ds1 → isdigit (star r1) = false → (ds1 = [] → r1 = []) →
  all_digits ds2 → isdigit (star r2) = false → (ds2 = [] → r2 = []) →
  (∃ r, k r1 r2 tt = Ret r tt ∧ Z.sgn r = lex (key None r1) (key None r2)) →
  ∃ r,
    (let '(first_diff, val, ref) := compare_digits 0 (skip_zeros (ds1 ++ r1)) (skip_zeros (ds2 ++ r2)) in
     if isdigit (star val) then mret 1
     else if isdigit (star ref) then mret (-1)
     else if negb (first_diff =? 0) then mret first_diff
     else k val ref) tt = Ret r tt ∧
    Z.sgn r = lex (key None (ds1 ++ r1)) (key None (ds2 ++ r2)).
Proof.
  intros Hds1 Hr1 Hn1 Hds2 Hr2 Hn2 Hk.
  rewrite (lex_number ds1) by done. rewrite lex_opp, (lex_number ds2), <- lex_opp, lex_cons by done.
  destruct (skip_zeros_digits ds1 r1 Hds1 Hr1) as (d1 & -> & Hd1 & Hz1 & <-).
  destruct (skip_zeros_digits ds2 r2 Hds2 Hr2) as (d2 & -> & Hd2 & Hz2 & <-).
  pose proof (compare_digits_spec d1 d2 0 r1 r2 Hd1 Hd2 Hr1 Hr2) as H.
  destruct (compare_digits _ _ _) as [[fd v] v']. destruct H as (H1 & H2 & H3).
  destruct (Nat.lt_trichotomy (length d1) (length d2)) as [Hl|[Hl|Hl]].
  - pose proof (number_longer d2 d1 Hd2 Hd1 Hz2 Hl). destruct (isdigit (star v)); [pose proof (proj1 H1 eq_refl); lia|].
    rewrite (proj2 H2) by done. eexists. split; [reflexivity|]. rewrite lex_heads by lia. symmetry. apply Z.sgn_neg. lia.
  - destruct (H3 Hl) as (-> & -> & Efd). rewrite Hr1, Hr2. cbn [Z.eqb] in Efd.
    destruct (Z.eqb_spec fd 0) as [->|Hfd]; cbn [negb].
    + assert (number d1 = number d2) as -> by (cbn in Efd; lia). rewrite lex_cons. exact Hk.
    + eexists. split; [reflexivity|]. rewrite lex_heads by lia. done.
  - pose proof (number_longer d1 d2 Hd1 Hd2 Hz1 Hl). rewrite (proj2 H1) by done.
    eexists. split; [reflexivity|]. rewrite lex_heads by lia. symmetry. apply Z.sgn_pos. lia.
Qed.

Lemma cstring_star s : cstring s → (star s =? 0) = true → s = [].
Proof.
  intros Hs H. destruct s as [|c s]; [done|]. apply Forall_cons in Hs as [Hc _]. apply Z.eqb_eq in H. cbn in H. lia.
Qed.

Lemma verrevcmp_loop_spec fuel : ∀ val ref, cstring val → cstring ref → (length val + length ref < fuel)%nat →
  ∃ r, verrevcmp_loop fuel val ref tt = Ret r tt ∧ Z.sgn r = lex (key None val) (key None ref).
Proof.
  induction fuel as [|f IH]; intros val ref Hv Hr Hf; [lia|]. cbn [verrevcmp_loop].
  destruct (negb (star val =? 0) || negb (star ref =? 0)) eqn:E; last first.
  { apply orb_false_iff in E as [E1%negb_false_iff E2%negb_false_iff].
    apply cstring_star in E1, E2; [|done..]. subst. by exists 0. }
  destruct (compare_words_spec val (S (length val)) ref Hv Hr) as [(r & Hr1 & Hs)|(w & w' & v & r & Hw & -> & -> & Hnv & Hnr & ->)];
    [lia|by rewrite (bind_step _ _ _ _ _ Hr1); exists r|].
  rewrite (bind_step _ _ _ _ _ Hw). apply cstring_app in Hv as [_ Hv], Hr as [_ Hr].
  destruct (no_word_split v Hv Hnv) as (ds1 & r1 & -> & Hds1 & Hr1 & Hn1 & Hc1).
  destruct (no_word_split r Hr Hnr) as (ds2 & r2 & -> & Hds2 & Hr2 & Hn2 & Hc2).
  apply (compare_numbers ds1 r1 ds2 r2); try done. apply IH; [done..|].
  rewrite !length_app in Hf.
  destruct w as [|? w], ds1 as [|? ds1]; cbn [length] in Hf; [|lia..].
  rewrite (Hn1 eq_refl) in *. destruct w' as [|? w'], ds2 as [|? ds2]; cbn [length] in *; [|lia..].
  by rewrite (Hn2 eq_refl) in *.
Qed.

Definition text (s : option (list Z)) : Prop := cstring (default [] s).

Lemma verrevcmp_spec val ref : text val → text ref →
  ∃ r, verrevcmp val ref tt = Ret r tt ∧ Z.sgn r = lex (version_key val) (version_key ref).
Proof. intros Hv Hr. unfold verrevcmp. apply verrevcmp_loop_spec; [done|done|lia]. Qed.

Definition well_formed (p : version) : Prop := text (ver p) ∧ text (revision p).

(** The order of versions: epochs first, then the keys of version and revision. *)
Definition version_order (p q : version) : Z :=
  if Z.sgn (epoch p - epoch q) =? 0 then
    if lex (version_key (ver p)) (version_key (ver q)) =? 0
    then lex (version_key (revision p)) (version_key (revision q))
    else lex (version_key (ver p)) (version_key (ver q))
  else Z.sgn (epoch p - epoch q).

Lemma compare_versions_spec p q : well_formed p → well_formed q →
  ∃ r, pkg_compare_versions p q tt = Ret r tt ∧ Z.sgn r = version_order p q.
Proof.
  intros [Hp1 Hp2] [Hq1 Hq2]. unfold pkg_compare_versions, version_order.
  destruct (Z.ltb_spec (epoch q) (epoch p)); [exists 1; by rewrite (Z.sgn_pos (epoch p - epoch q)) by lia|].
  destruct (Z.ltb_spec (epoch p) (epoch q)); [exists (-1); by rewrite (Z.sgn_neg (epoch p - epoch q)) by lia|].
  replace (epoch p - epoch q) with 0 by lia. cbn [Z.sgn Z.eqb].
  destruct (verrevcmp_spec _ _ Hp1 Hq1) as (r & Hr & <-). rewrite (bind_step _ _ _ _ _ Hr).
  destruct (Z.eqb_spec r 0) as [->|Hne]; cbn [negb].
  - destruct (verrevcmp_spec _ _ Hp2 Hq2) as (r & Hr' & <-). rewrite (bind_step _ _ _ _ _ Hr'). by exists r.
  - exists r. split; [done|]. destruct (Z.eqb_spec (Z.sgn r) 0); [lia|done].
Qed.

Lemma version_order_opp p q : version_order p q = - version_order q p.
Proof.
  unfold version_order. rewrite (lex_opp (version_key (ver p))), (lex_opp (version_key (revision p))).
  replace (epoch p - epoch q) with (- (epoch q - epoch p)) by lia. rewrite Z.sgn_opp.
  set (x := Z.sgn (epoch q - epoch p)). set (y := lex (version_key (ver q)) _).
  destruct (Z.eqb_spec (- x) 0), (Z.eqb_spec x 0), (Z.eqb_spec (- y) 0), (Z.eqb_spec y 0); lia.
Qed.

Lemma version_order_trans p q r : version_order p q ≤ 0 → version_order q r ≤ 0 → version_order p r ≤ 0.
Proof.
  unfold version_order. intros H1 H2.
  pose proof (lex_trans (version_key (ver p)) (version_key (ver q)) (version_key (ver r))) as Hv.
  pose proof (lex_trans (version_key (ver q)) (version_key (ver r)) (version_key (ver p))) as Hv1.
  pose proof (lex_trans (version_key (ver r)) (version_key (ver p)) (version_key (ver q))) as Hv2.
  pose proof (lex_trans (version_key (revision p)) (version_key (revision q)) (version_key (revision r))) as Hr.
  rewrite (lex_opp (version_key (ver r)) (version_key (ver p))) in Hv1, Hv2.
  rewrite (lex_opp (version_key (ver q)) (version_key (ver p))) in Hv1.
  rewrite (lex_opp (version_key (ver r)) (version_key (ver q))) in Hv2.
  set (pq := lex (version_key (ver p)) (version_key (ver q))) in *.
  set (qr := lex (version_key (ver q)) (version_key (ver r))) in *.
  set (pr := lex (version_key (ver p)) (version_key (ver r))) in *.
  repeat (case_match; repeat match goal with H : (_ =? 0) = true |- _ => apply Z.eqb_eq in H
                                          | H : (_ =? 0) = false |- _ => apply Z.eqb_neq in H end); lia.
Qed.

(** [C20] The comparison of versions returns, its sign is that of [version_order] (the epochs,
    then words and numbers in lexicographic order), the comparison the other way round has the
    opposite sign, and it is transitive: a total preorder, which it makes sense to sort by. *)
Theorem compare_versions_total_preorder p q r : well_formed p → well_formed q → well_formed r →
  ∃ pq qp qr pr, pkg_compare_versions p q tt = Ret pq tt ∧ pkg_compare_versions q p tt = Ret qp tt ∧
    pkg_compare_versions q r tt = Ret qr tt ∧ pkg_compare_versions p r tt = Ret pr tt ∧
    Z.sgn pq = version_order p q ∧ Z.sgn qp = - Z.sgn pq ∧ (pq ≤ 0 → qr ≤ 0 → pr ≤ 0).
Proof.
  intros Hp Hq Hr. destruct (compare_versions_spec p q Hp Hq) as (pq & E1 & H1), (compare_versions_spec q p Hq Hp) as (qp & E2 & H2).
  destruct (compare_versions_spec q r Hq Hr) as (qr & E3 & H3), (compare_versions_spec p r Hp Hr) as (pr & E4 & H4).
  exists pq, qp, qr, pr. split_and!; [done..| |].
  - rewrite H1, H2. apply version_order_opp.
  - pose proof (version_order_trans p q r). lia.
Qed.

(** ** Reading *)

Lemma skip_space_suffix s : ∃ w, s = w ++ skip_space s.
Proof.
  induction s as [|c s [w IH]]; [by exists []|]. cbn. destruct (isspace c); [|by exists []].
  exists (c :: w). cbn. by rewrite IH at 1.
Qed.

Lemma skip_keyword_cstring s : cstring s → cstring (skip_keyword s).
Proof.
  intros Hs. unfold skip_keyword. set (t := if strn_eq _ _ _ then _ else _).
  assert (cstring t) as Ht by (unfold t; case_match; [by apply Forall_drop|done]).
  destruct (skip_space_suffix t) as [w E]. rewrite E in Ht. by apply cstring_app in Ht as [_ Ht].
Qed.

Lemma strrchr_split s c r : strrchr s c = Some r → ∃ w t, s = w ++ r ∧ r = c :: t ∧ c ∉ t.
Proof.
  induction s as [|d s IH]; cbn; [done|]. destruct (strrchr s c) as [r'|] eqn:E.
  - intros [= ->]. destruct (IH eq_refl) as (w & t & -> & -> & Ht). by exists (d :: w), t.
  - destruct (Z.eqb_spec d c) as [->|]; [|done]. intros [= <-]. exists [], s. split_and!; [done..|].
    clear IH. induction s as [|d s IH]; [apply not_elem_of_nil|]. cbn in E. destruct (strrchr s c); [done|].
    destruct (Z.eqb_spec d c); [done|]. rewrite not_elem_of_cons. split; [congruence|by apply IH].
Qed.

Lemma strrchr_None s c : c ∉ s → strrchr s c = None.
Proof.
  induction s as [|d s IH]; [done|]. intros [H1 H2]%not_elem_of_cons. cbn. rewrite IH by done.
  by destruct (Z.eqb_spec d c).
Qed.

Lemma strrchr_last s c t : c ∉ t → strrchr (s ++ c :: t) c = Some (c :: t).
Proof.
  intros Ht. induction s as [|d s IH]; cbn; [by rewrite strrchr_None, Z.eqb_refl|by rewrite IH].
Qed.

Lemma take_before (w t : list Z) : take (length (w ++ t) - length t) (w ++ t) = w.
Proof. by rewrite length_app, Nat.add_sub, take_app_length. Qed.

(** What [split_revision] makes of a version. *)
Lemma split_revision_eq e v r :
  split_revision (Version e (Some v) r) =
    match strrchr v (ch "-") with
    | Some hyphen => Ret 0 (Version e (Some (take (length v - length hyphen) v)) (Some (tail hyphen)))
    | None => Ret 0 (Version e (Some v) (Some []))
    end.
Proof. unfold split_revision. run. cbn [ver set_revision]. run. by destruct (strrchr v (ch "-")). Qed.

Lemma split_revision_wf e v : cstring v →
  ∃ temp, split_revision (Version e (Some v) None) = Ret 0 temp ∧ well_formed temp.
Proof.
  intros Hv. rewrite split_revision_eq. destruct (strrchr v (ch "-")) as [h|] eqn:E.
  - destruct (strrchr_split _ _ _ E) as (w & t & -> & -> & _). apply cstring_app in Hv as [Hw Ht].
    rewrite take_before. apply Forall_cons in Ht as [_ Ht]. eexists. split; [reflexivity|]. by split.
  - eexists. split; [done|]. split; [done|constructor].
Qed.

Lemma store_version_eq e raw : store_version true raw (Version e None None) = split_revision (Version e (Some raw) (Some [])).
Proof. done. Qed.

(** Any text is read: into a version, or it is refused and the version stays empty. *)
Lemma parseVersion_wf raw : cstring raw → ∃ e temp, parseVersion true raw no_version = Ret e temp ∧ well_formed temp.
Proof.
  intros Hraw. assert (well_formed no_version) as Hno by (split; constructor).
  assert (∀ e v, cstring v → ∃ temp, store_version true v (Version e None None) = Ret 0 temp ∧ well_formed temp) as Hstore.
  { intros e v Hv. rewrite store_version_eq, split_revision_eq, <- (split_revision_eq e v None). by apply split_revision_wf. }
  unfold parseVersion. destruct (star raw =? 0); [by exists EINVAL, no_version|].
  pose proof (skip_keyword_cstring raw Hraw) as Hs. set (s := skip_keyword raw) in *.
  destruct (strchr s (ch ":")) as [colon|] eqn:Ec.
  - destruct (strchr_split _ _ _ Ec) as (E & t & ->). rewrite E in Hs. apply cstring_app in Hs as [_ [_ Ht]%Forall_cons].
    destruct (strtoul 10 s) as [ep en]. destruct (negb _); [by exists EINVAL, no_version|].
    destruct (star (tail (ch ":" :: t)) =? 0); [by exists EINVAL, no_version|].
    destruct (Hstore ep t Ht) as (temp & H1 & H2). exists 0, temp. split; [|done]. by run.
  - destruct (Hstore 0 s Hs) as (temp & H1 & H2). exists 0, temp. split; [|done]. by run.
Qed.

(** ** What satisfies a constraint *)

Definition meets (constraint : version_constraint) (o : Z) : bool :=
  match constraint with
  | NONE => true
  | EARLIER => o <? 0
  | EARLIER_EQUAL => o <=? 0
  | EQUAL => o =? 0
  | LATER_EQUAL => 0 <=? o
  | LATER => 0 <? o
  end.

(** The same version satisfies every constraint, the strict ones too. *)
Lemma constraints_satisfied_spec constraint raw pkg : cstring raw → well_formed pkg →
  ∃ e temp, parseVersion true raw no_version = Ret e temp ∧ well_formed temp ∧
    version_constraints_satisfied constraint raw pkg tt =
      Ret (meets constraint (version_order pkg temp) || (version_order pkg temp =? 0)) tt.
Proof.
  intros Hraw Hp. destruct (parseVersion_wf raw Hraw) as (e & temp & Ht & Hwf). exists e, temp.
  split; [done|]. split; [done|]. destruct (compare_versions_spec pkg temp Hp Hwf) as (r & Hr & <-).
  unfold version_constraints_satisfied. rewrite Ht. destruct constraint; [done|..]; rewrite (bind_step _ _ _ _ _ Hr); cbn.
  all: destruct (Z.lt_trichotomy r 0) as [H|[->|H]]; [|done|].
  all: repeat match goal with
    | |- context [?x <? ?y] => destruct (Z.ltb_spec x y); try lia
    | |- context [?x <=? ?y] => destruct (Z.leb_spec x y); try lia
    | |- context [?x =? ?y] => destruct (Z.eqb_spec x y); try lia
    end; done.
Qed.

(** ** Printing and reading back *)

Lemma dec_text e : 0 < e < 2 ^ 32 →
  ∃ m ds, dec (s32 e) = m ++ ds ∧ Forall (λ c, 48 ≤ c ≤ 57) ds ∧ ds ≠ [] ∧ 0 ≤ digits_value 0 ds ≤ 2 ^ 31 ∧
    ((m = [] ∧ digits_value 0 ds = e) ∨ (m = [45] ∧ u32 (- digits_value 0 ds) = e)).
Proof.
  intros He. unfold dec. set (n := s32 e).
  assert ((n < 0 ∧ n = e - 2 ^ 32 ∧ 2 ^ 31 ≤ e) ∨ (n = e ∧ e < 2 ^ 31)) as Hn.
  { unfold n, wraps. change (32 - 1) with 31. destruct (Z.lt_ge_cases e (2 ^ 31)).
    - right. rewrite Z.mod_small by lia. lia.
    - left. assert ((e + 2 ^ 31) mod 2 ^ 32 = e + 2 ^ 31 - 2 ^ 32) as ->; [|lia].
      symmetry. apply (Z.mod_unique_pos _ _ 1); lia. }
  destruct (Z.ltb_spec n 0).
  - destruct (dec_digits_spec 10 (- n) []) as (s & -> & Hs & Hne & _ & Hv); [cbn; lia|lia|].
    exists [45], s. rewrite app_nil_r, Hv. split_and!; [done|done|done|lia|lia|].
    right. split; [done|]. unfold wrapu. symmetry. apply (Z.mod_unique_pos _ _ (-1)); lia.
  - destruct (dec_digits_spec 10 n []) as (s & -> & Hs & Hne & _ & Hv); [cbn; lia|lia|].
    exists [], s. rewrite app_nil_r, Hv. split_and!; [done|done|done|lia|lia|]. left. split; [done|]. lia.
Qed.

Lemma strtoul_epoch e r : 0 < e < 2 ^ 32 → strtoul 10 (dec (s32 e) ++ ch ":" :: r) = (e, Some (ch ":" :: r)).
Proof.
  intros He. destruct (dec_text e He) as (m & ds & -> & Hds & Hne & Hb & Hm).
  rewrite <- app_assoc. unfold strtoul. destruct ds as [|c ds]; [done|]. pose proof Hds as [Hc _]%Forall_cons.
  assert (starts_digit 10 ((c :: ds) ++ ch ":" :: r) = true) as Hst.
  { unfold starts_digit. cbn [app]. rewrite hexval_digit by done. apply Z.ltb_lt. lia. }
  assert (isspace c = false) as Hsp.
  { unfold isspace. destruct (Z.eqb_spec c 32); [lia|]. destruct (Z.leb_spec 9 c), (Z.leb_spec c 13); by try lia. }
  assert (∃ sg, sign (skip_space (m ++ (c :: ds) ++ ch ":" :: r)) = (sg, (c :: ds) ++ ch ":" :: r) ∧
    u32 (sg * digits_value 0 (c :: ds)) = e) as (sg & -> & Hu).
  { destruct Hm as [[-> E]|[-> E]].
    - exists 1. cbn [app skip_space]. rewrite Hsp. unfold sign. change (ch "-") with 45. change (ch "+") with 43.
      destruct (Z.eqb_spec c 45); [lia|]. destruct (Z.eqb_spec c 43); [lia|]. split; [done|].
      unfold wrapu. rewrite Z.mod_small; lia.
    - exists (-1). split; [done|]. rewrite <- E. by f_equal. }
  assert (∀ s : list Z, skip_0x 10 s = s) as -> by (by intros [|? [|? ?]]).
  rewrite Hst, digits_run by done. destruct (Z.ltb_spec UINT_MAX (digits_value 0 (c :: ds))); [unfold UINT_MAX in *; lia|].
  by rewrite Hu.
Qed.

(** The epoch is printed without a colon, and not after spaces or as the keyword. *)
Lemma epoch_text e r : 0 < e < 2 ^ 32 →
  strchr (dec (s32 e) ++ ch ":" :: r) (ch ":") = Some (ch ":" :: r) ∧
  skip_keyword (dec (s32 e) ++ ch ":" :: r) = dec (s32 e) ++ ch ":" :: r ∧
  star (dec (s32 e) ++ ch ":" :: r) ≠ 0.
Proof.
  intros He. destruct (dec_text e He) as (m & ds & -> & Hds & Hne & _ & Hm).
  assert (Forall (λ c, c = 45 ∨ 48 ≤ c ≤ 57) (m ++ ds)) as Hall.
  { apply Forall_app. split; [destruct Hm as [[-> _]|[-> _]]; repeat constructor|].
    eapply Forall_impl; [exact Hds|]. cbn. intros x Hx. lia. }
  set (l := m ++ ds) in *. assert (l ≠ []) as Hl by (unfold l; destruct m, ds; done). clearbody l. clear -Hall Hl.
  split_and!.
  - clear Hl. induction Hall as [|c l Hc _ IH]; cbn [app strchr]; [done|]. change (ch ":") with 58 in *.
    destruct (Z.eqb_spec c 58); [lia|done].
  - unfold skip_keyword. destruct l as [|c l]; [done|]. apply Forall_cons in Hall as [Hc _].
    assert (strn_eq 8 ((c :: l) ++ ch ":" :: r) (b "Version:") = false) as ->.
    { unfold strn_eq. apply bool_decide_eq_false. intros [= E _]. assert (c = 86) as -> by (rewrite E; reflexivity). lia. }
    cbn [app skip_space]. unfold isspace.
    destruct (Z.eqb_spec c 32); [lia|]. by destruct (Z.leb_spec 9 c), (Z.leb_spec c 13); try lia.
  - destruct l as [|c l]; [done|]. apply Forall_cons in Hall as [Hc _]. cbn. lia.
Qed.

(** The versions that reading gives, up to the forms that cannot be told apart in print. *)
Record printable (e : Z) (v r : list Z) : Prop := {
  pr_epoch : 0 ≤ e < 2 ^ 32;
  pr_text : cstring (v ++ r);
  pr_some : v ++ r ≠ [];
  pr_revision : ch "-" ∉ r;
  pr_version : r = [] → (ch "-" ∉ v);
  pr_first : e = 0 → (ch ":" ∉ v ++ r) ∧ isspace (star v) = false;
}.

Definition printed (v r : list Z) : list Z := v ++ (match r with [] => [] | c :: r' => ch "-" :: c :: r' end).

Lemma printed_eq e v r : pkg_version_str_alloc (Version e (Some v) (Some r)) tt =
  Ret ((if e =? 0 then [] else dec (s32 e) ++ [ch ":"]) ++ printed v r) tt.
Proof. unfold pkg_version_str_alloc, printed. cbn [epoch ver revision]. run. by destruct r. Qed.

Lemma split_printed e v r : ch "-" ∉ r → (r = [] → ch "-" ∉ v) →
  split_revision (Version e (Some (printed v r)) (Some [])) = Ret 0 (Version e (Some v) (Some r)).
Proof.
  intros Hr Hv. rewrite split_revision_eq. unfold printed. destruct r as [|c r].
  - rewrite app_nil_r, strrchr_None by by apply Hv. done.
  - rewrite strrchr_last by done. rewrite take_before. done.
Qed.

Lemma printed_start v r : cstring (v ++ r) → v ++ r ≠ [] → star (printed v r) ≠ 0.
Proof.
  unfold printed. destruct v as [|c v]; cbn.
  - destruct r; [done|]. intros _ _. by cbn.
  - intros [Hc _]%Forall_cons _. lia.
Qed.

(** A version that [printable] allows is read back as it was printed. *)
Theorem version_roundtrip e v r : printable e v r →
  ∃ s, pkg_version_str_alloc (Version e (Some v) (Some r)) tt = Ret s tt ∧
    parseVersion true s no_version = Ret 0 (Version e (Some v) (Some r)).
Proof.
  intros [He Ht Hne Hr Hv Hfirst]. rewrite printed_eq. eexists. split; [reflexivity|].
  pose proof (printed_start v r Ht Hne) as Hstart. unfold parseVersion.
  destruct (Z.eqb_spec e 0) as [->|He0]; cbn [app].
  - destruct (Hfirst eq_refl) as [Hcolon Hspace]. destruct (Z.eqb_spec (star (printed v r)) 0) as [?|_]; [done|].
    assert (ch ":" ∉ printed v r) as Hcol.
    { unfold printed. rewrite elem_of_app in Hcolon |- *. destruct r as [|c r]; [tauto|]. rewrite elem_of_cons.
      intros [?|[H|?]]; [tauto|by vm_compute in H|tauto]. }
    assert (skip_keyword (printed v r) = printed v r) as ->.
    { unfold skip_keyword. assert (strn_eq 8 (printed v r) (b "Version:") = false) as ->.
      { apply bool_decide_eq_false. intros E. apply Hcol.
        assert (ch ":" ∈ take 8 (printed v r ++ [0])) as H by (rewrite E; by apply (bool_decide_unpack _)).
        by apply subseteq_take, elem_of_app in H as [H|H%list_elem_of_singleton]. }
      unfold printed in *. destruct v as [|c v]; cbn [app skip_space star] in *; [by destruct r|by rewrite Hspace]. }
    rewrite (proj2 (strchr_None _ _) Hcol). run. cbn. run. by apply split_printed.
  - rewrite <- app_assoc. cbn [app]. destruct (epoch_text e (printed v r)) as (E1 & E2 & E3); [lia|].
    destruct (Z.eqb_spec (star (dec (s32 e) ++ ch ":" :: printed v r)) 0) as [?|_]; [done|].
    rewrite E2, E1, strtoul_epoch by lia. cbn [default]. unfold same_place. cbn [id]. rewrite Nat.eqb_refl. cbn [negb tail].
    destruct (Z.eqb_spec (star (printed v r)) 0) as [?|_]; [done|]. run. cbn. run. by apply split_printed.
Qed.

(** *** Examples *)

Module VersionExamples.

Lemma compare_versions_total_preorder_witness :
  ∃ pq qp qr pr,
    pkg_compare_versions (Version 0 (Some (b "1.9")) (Some [])) (Version 0 (Some (b "1.10")) (Some (b "r1"))) tt = Ret pq tt ∧
    pkg_compare_versions (Version 0 (Some (b "1.10")) (Some (b "r1"))) (Version 0 (Some (b "1.9")) (Some [])) tt = Ret qp tt ∧
    pkg_compare_versions (Version 0 (Some (b "1.10")) (Some (b "r1"))) (Version 1 None None) tt = Ret qr tt ∧
    pkg_compare_versions (Version 0 (Some (b "1.9")) (Some [])) (Version 1 None None) tt = Ret pr tt ∧ Z.sgn qp = - Z.sgn pq.
Proof.
  destruct (compare_versions_total_preorder (Version 0 (Some (b "1.9")) (Some [])) (Version 0 (Some (b "1.10")) (Some (b "r1")))
    (Version 1 None None)) as (pq & qp & qr & pr & H1 & H2 & H3 & H4 & _ & H5 & _); [by split; apply (bool_decide_unpack _)..|].
  exists pq, qp, qr, pr. split; [exact H1|]. split; [exact H2|]. split; [exact H3|]. split; [exact H4|exact H5].
Defined.

Lemma version_roundtrip_witness :
  ∃ s, pkg_version_str_alloc (Version 3000000000 (Some (b "1.0:a-1")) (Some (b "r2"))) tt = Ret s tt ∧
    parseVersion true s no_version = Ret 0 (Version 3000000000 (Some (b "1.0:a-1")) (Some (b "r2"))).
Proof.
  apply version_roundtrip. split; [lia|by apply (bool_decide_unpack _)|done|by apply (bool_decide_unpack _)|done|done].
Defined.

(** "<< 1.0" of a dependency is satisfied by 1.0, unlike the operator "<<" of the command line. *)
Example strict_constraint :
  version_constraints_satisfied EARLIER (b "1.0") (Version 0 (Some (b "1.0")) None) tt = Ret true tt ∧
  pkg_version_satisfied (Version 0 (Some (b "1.0")) None) (Version 0 (Some (b "1.0")) None) (b "<<") tt = Ret false tt.
Proof. split; vm_compute; reflexivity. Qed.

(** A version that ends with a hyphen is printed as another version. *)
Example hyphen_lost :
  parseVersion true (b "1-2-") no_version = Ret 0 (Version 0 (Some (b "1-2")) (Some [])) ∧
  pkg_version_str_alloc (Version 0 (Some (b "1-2")) (Some [])) tt = Ret (b "1-2") tt ∧
  parseVersion true (b "1-2") no_version = Ret 0 (Version 0 (Some (b "1")) (Some (b "2"))).
Proof. split_and!; vm_compute; reflexivity. Qed.

(** A version that is there is not read again. *)
Example version_kept :
  parseVersion true (b "2.0") (Version 0 (Some (b "1.0")) None) = Ret 0 (Version 0 (Some (b "1.0")) (Some [])).
Proof. vm_compute. reflexivity. Qed.

End VersionExamples.
