(* ===== verification/OpkgHash.v ===== *)
(** * opkg: hash tables (opkg/libopkg/hash_table.c)

    Tables from names to pointers: the packages by name, and the packages that own files.
    The first entry of a bucket is in the array itself, the others are in a list. *)

From stdpp Require Import gmap.
From S2P Require Import Prelude.
From S2P Require Import CString.

Section hash_table.
Context {A : Type}.

(** Pointers to the data; NULL is [None].  An entry without a key is not in use. *)
Record hash_entry : Type := Entry { e_key : option (list Z); e_data : option A }.

Record bucket : Type := Bucket { first : hash_entry; others : list hash_entry }.

(** [entries] is NULL before the table is set up. *)
Record hash_table : Type := HashTable { entries : option (list bucket); n_entries : Z; n_elements : Z }.

Abbreviation H := (M hash_table).

(** [char] is unsigned on the target. *)
Definition rotate (hash c : Z) : Z := Z.lxor (Z.lxor (u32 (Z.shiftl hash 4)) (Z.shiftr hash 28)) c.
Definition rotating (key : list Z) (len prime : Z) : Z := foldl rotate (u32 len) key mod prime.
Definition hash_index (n_entries : Z) (pkg_name : list Z) : Z := rotating pkg_name (Z.of_nat (length pkg_name)) n_entries.

Definition primes_table : list Z :=
  [379; 761; 983; 1423; 2711; 3361; 3931; 4679; 5519; 6701; 9587; 19471; 23143; 33961; 46499; 49727; 99529].

(** The loop of [hash_table_init]: the first prime that is not too small, or the last one. *)
Fixpoint pick (primes : list Z) (last len : Z) : Z :=
  match primes with
  | [] => last
  | p :: primes' => if p <? len then pick primes' p len else p
  end.

Definition no_entry : hash_entry := Entry None None.
Definition set_entries (e : option (list bucket)) (t : hash_table) := HashTable e (n_entries t) (n_elements t).
Definition count_element (t : hash_table) := HashTable (entries t) (n_entries t) (n_elements t + 1).

Definition ENOMEM : Z := 12.

Definition hash_table_init (mem : bool) (len : Z) : H Z :=
  t ← get;
  match entries t with
  | Some _ => mret 0
  | None =>
      let n := pick primes_table 0 len in
      if mem
      then modify (λ t, HashTable (Some (replicate (Z.to_nat n) (Bucket no_entry []))) n (n_elements t));; mret 0
      else modify (λ t, HashTable None n (n_elements t));; mret ENOMEM
  end.

Definition hash_table_deinit : H unit := modify (λ t, HashTable None 0 (n_elements t)).

Definition bucket_at (ndx : Z) : H bucket :=
  t ← get;
  bs ← deref (entries t) "hash->entries";
  deref (bs !! Z.to_nat ndx) "hash->entries + ndx".

Definition set_bucket (ndx : Z) (bk : bucket) : H unit :=
  modify (λ t, set_entries (<[Z.to_nat ndx := bk]> <$> entries t) t).

(** [while (hash_entry) ...]: the first entry with the key, if any. *)
Fixpoint find_entry (key : list Z) (es : list hash_entry) : option hash_entry :=
  match es with
  | [] => None
  | e :: es' =>
      match e_key e with
      | Some k => if strcmp key k =? 0 then Some e else find_entry key es'
      | None => find_entry key es'
      end
  end.

Definition hash_table_get (key : list Z) : H (option A) :=
  t ← get;
  bk ← bucket_at (hash_index (n_entries t) key);
  mret (e ← find_entry key (first bk :: others bk); e_data e).

(** The entries after the first, with the data of the one with the key replaced; [None] if
    there is none. *)
Fixpoint update_others (key : list Z) (value : option A) (es : list hash_entry) : H (option (list hash_entry)) :=
  match es with
  | [] => mret None
  | e :: es' =>
      k ← deref (e_key e) "hash_entry->key";
      if strcmp k key =? 0 then mret (Some (Entry (Some k) value :: es'))
      else
        r ← update_others key value es';
        mret (cons e <$> r)
  end.

(** [mem], [dup]: whether there is memory for the entry, and for the copy of the key. *)
Definition hash_table_insert (mem dup : bool) (key : list Z) (value : option A) : H Z :=
  t ← get;
  let ndx := hash_index (n_entries t) key in
  bk ← bucket_at ndx;
  let new := Entry (if dup then Some key else None) value in
  match e_key (first bk) with
  | None => modify count_element;; set_bucket ndx (Bucket new (others bk));; mret 0
  | Some k =>
      if strcmp k key =? 0 then set_bucket ndx (Bucket (Entry (Some k) value) (others bk));; mret 0
      else
        r ← update_others key value (others bk);
        match r with
        | Some es => set_bucket ndx (Bucket (first bk) es);; mret 0
        | None =>
            if mem then modify count_element;; set_bucket ndx (Bucket (first bk) (others bk ++ [new]));; mret 0
            else mret (- ENOMEM)
        end
  end.

Fixpoint remove_others (key : list Z) (es : list hash_entry) : option (list hash_entry) :=
  match es with
  | [] => None
  | e :: es' =>
      match e_key e with
      | Some k => if strcmp key k =? 0 then Some es' else cons e <$> remove_others key es'
      | None => cons e <$> remove_others key es'
      end
  end.

(** The first entry is replaced by the second, which is in the list. *)
Definition remove_entry (key : list Z) (bk : bucket) : option bucket :=
  let after := Bucket (first bk) <$> remove_others key (others bk) in
  match e_key (first bk) with
  | Some k =>
      if strcmp key k =? 0 then
        match others bk with
        | next :: es => Some (Bucket next es)
        | [] => Some (Bucket no_entry [])
        end
      else after
  | None => after
  end.

Definition hash_table_remove (key : list Z) : H Z :=
  t ← get;
  let ndx := hash_index (n_entries t) key in
  bk ← bucket_at ndx;
  match remove_entry key bk with
  | Some bk => set_bucket ndx bk;; mret 1
  | None => mret 0
  end.

(** [f] does not change the table. *)
Section foreach.
Context {S : Type} (f : list Z → option A → M S unit).

Fixpoint foreach_entry (es : list hash_entry) : M S unit :=
  match es with
  | [] => mret tt
  | e :: es' =>
      match e_key e with
      | Some k => f k (e_data e)
      | None => mret tt
      end;;
      foreach_entry es'
  end.

Fixpoint foreach_bucket (bs : list bucket) : M S unit :=
  match bs with
  | [] => mret tt
  | bk :: bs' => foreach_entry (first bk :: others bk);; foreach_bucket bs'
  end.

Definition hash_table_foreach (t : hash_table) : M S unit :=
  foreach_bucket (default [] (entries t)).
End foreach.
End hash_table.

(** ** The table as a finite map *)

Section map.
Context {A : Type}.
Implicit Types (k key : list Z) (v : option A) (es : list (@hash_entry A)) (bk : @bucket A) (bs : list (@bucket A)) (t : @hash_table A).

Definition pairs es : list (list Z * option A) := omap (λ e, (λ k, (k, e_data e)) <$> e_key e) es.
#[local] Arguments pairs : simpl never.
Definition bucket_pairs bk := pairs (first bk :: others bk).
Definition table_pairs t := default [] (entries t) ≫= bucket_pairs.

(** What the table holds. *)
Definition contents t : gmap (list Z) (option A) := list_to_map (table_pairs t).

Fixpoint assoc k (l : list (list Z * option A)) : option (option A) :=
  match l with
  | [] => None
  | (k', v) :: l' => if decide (k' = k) then Some v else assoc k l'
  end.

Lemma assoc_map k l : (list_to_map l : gmap (list Z) (option A)) !! k = assoc k l.
Proof.
  induction l as [|[k' v] l IH]; cbn; [apply lookup_empty|].
  destruct (decide (k' = k)) as [->|Hne]; [apply lookup_insert_eq|by rewrite lookup_insert_ne].
Qed.

Lemma assoc_app k l l' : assoc k (l ++ l') = match assoc k l with Some v => Some v | None => assoc k l' end.
Proof. induction l as [|[k' v] l IH]; cbn; [done|]. by destruct (decide (k' = k)). Qed.

Lemma assoc_None k l : assoc k l = None ↔ k ∉ l.*1.
Proof.
  induction l as [|[k' v] l IH]; cbn; [split; [intros _; apply not_elem_of_nil|done]|].
  rewrite not_elem_of_cons. destruct (decide (k' = k)) as [->|Hne]; [split; [done|tauto]|]. rewrite IH. intuition congruence.
Qed.

Lemma pairs_cons e es : pairs (e :: es) = (match e_key e with Some k => [(k, e_data e)] | None => [] end) ++ pairs es.
Proof. unfold pairs. cbn. by destruct (e_key e). Qed.

(** Every entry after the first is in use, and so is the first if there are others; no key
    is there twice, and the keys have the hash of the bucket. *)
Definition in_use es : Prop := Forall (λ e, is_Some (e_key e)) es.

Record bucket_ok (n i : Z) bk : Prop := {
  bo_others : in_use (others bk);
  bo_first : e_key (first bk) = None → others bk = [];
  bo_nodup : NoDup (bucket_pairs bk).*1;
  bo_hash : ∀ k, k ∈ (bucket_pairs bk).*1 → hash_index n k = i;
}.

Record table_ok t bs : Prop := {
  to_entries : entries t = Some bs;
  to_length : n_entries t = Z.of_nat (length bs);
  to_some : 0 < n_entries t;
  to_buckets : ∀ i bk, bs !! i = Some bk → bucket_ok (n_entries t) (Z.of_nat i) bk;
}.

Lemma hash_bound n k : 0 < n → 0 ≤ hash_index n k < n.
Proof. intros Hn. apply Z.mod_pos_bound, Hn. Qed.

Lemma table_bucket t bs k : table_ok t bs →
  ∃ bk, bs !! Z.to_nat (hash_index (n_entries t) k) = Some bk ∧
    bucket_at (hash_index (n_entries t) k) t = Ret bk t ∧ bucket_ok (n_entries t) (hash_index (n_entries t) k) bk.
Proof.
  intros Ht. pose proof (hash_bound (n_entries t) k (to_some _ _ Ht)) as Hb.
  destruct (lookup_lt_is_Some_2 bs (Z.to_nat (hash_index (n_entries t) k))) as [bk Hbk].
  { rewrite (to_length _ _ Ht) in *. lia. }
  exists bk. split; [done|]. split.
  - unfold bucket_at. run. rewrite (to_entries _ _ Ht). run. by rewrite Hbk.
  - pose proof (to_buckets _ _ Ht _ _ Hbk) as H. by rewrite Z2Nat.id in H by lia.
Qed.

(** A key is in its bucket or nowhere. *)
Lemma assoc_buckets n k (j : nat) bs bk :
  (∀ i bk, bs !! i = Some bk → bucket_ok n (Z.of_nat (j + i)) bk) →
  bs !! Z.to_nat (hash_index n k - Z.of_nat j) = Some bk → Z.of_nat j ≤ hash_index n k →
  assoc k (bs ≫= bucket_pairs) = assoc k (bucket_pairs bk).
Proof.
  revert j. induction bs as [|bk' bs IH]; intros j Hok Hbk Hj; [done|]. rewrite bind_cons, assoc_app.
  destruct (Z.eq_dec (hash_index n k) (Z.of_nat j)) as [E|E].
  - rewrite E, Z.sub_diag in Hbk. cbn in Hbk. injection Hbk as ->.
    destruct (assoc k (bucket_pairs bk)); [done|]. apply assoc_None. intros ([k' v] & -> & Hin)%list_elem_of_fmap.
    apply list_elem_of_bind in Hin as (bk' & Hin & Hbk'). apply list_elem_of_lookup in Hbk' as [i Hi].
    pose proof (Hok (S i) bk' Hi) as Hok'. cbn in E. rewrite (bo_hash _ _ _ Hok') in E; [lia|].
    apply list_elem_of_fmap. by exists (k', v).
  - assert (assoc k (bucket_pairs bk') = None) as ->.
    { apply assoc_None. intros Hin. apply (bo_hash _ _ _ (Hok 0%nat bk' eq_refl)) in Hin. lia. }
    apply (IH (S j)); [|  |lia].
    + intros i bk0 Hi. pose proof (Hok (S i) bk0 Hi) as H. by rewrite Nat.add_succ_r in H.
    + replace (Z.to_nat (hash_index n k - Z.of_nat j)) with (S (Z.to_nat (hash_index n k - Z.of_nat (S j)))) in Hbk by lia.
      exact Hbk.
Qed.

Lemma contents_lookup t bs k bk : table_ok t bs → bs !! Z.to_nat (hash_index (n_entries t) k) = Some bk →
  contents t !! k = assoc k (bucket_pairs bk).
Proof.
  intros Ht Hbk. unfold contents, table_pairs. rewrite assoc_map, (to_entries _ _ Ht).
  apply (assoc_buckets (n_entries t) k 0); [apply (to_buckets _ _ Ht)|by rewrite Z.sub_0_r|].
  by apply hash_bound, (to_some _ _ Ht).
Qed.

(** *** A bucket is replaced *)

Lemma store_bucket t bs k bk bk' (o : option (option A)) m : table_ok t bs →
  bs !! Z.to_nat (hash_index (n_entries t) k) = Some bk → bucket_ok (n_entries t) (hash_index (n_entries t) k) bk' →
  (∀ k', assoc k' (bucket_pairs bk') = if decide (k' = k) then o else assoc k' (bucket_pairs bk)) →
  let t' := HashTable (Some (<[Z.to_nat (hash_index (n_entries t) k) := bk']> bs)) (n_entries t) m in
  table_ok t' (<[Z.to_nat (hash_index (n_entries t) k) := bk']> bs) ∧
  ∀ k', contents t' !! k' = if decide (k' = k) then o else contents t !! k'.
Proof.
  intros Ht Hbk Hok Hassoc t'. pose proof (hash_bound (n_entries t) k (to_some _ _ Ht)) as Hb.
  set (i := Z.to_nat (hash_index (n_entries t) k)) in *.
  assert (table_ok t' (<[i := bk']> bs)) as Ht'.
  { split; [done|by rewrite length_insert; apply (to_length _ _ Ht)|by apply (to_some _ _ Ht)|].
    intros j bj. destruct (decide (j = i)) as [->|Hij].
    - rewrite list_lookup_insert_eq by by apply (lookup_lt_Some _ _ _ Hbk). intros [= <-]. unfold i. by rewrite Z2Nat.id by lia.
    - rewrite list_lookup_insert_ne by done. apply (to_buckets _ _ Ht). }
  split; [done|]. intros k'.
  destruct (table_bucket t' _ k' Ht') as (b1 & Hb1 & _). destruct (table_bucket t _ k' Ht) as (b2 & Hb2 & _).
  rewrite (contents_lookup _ _ _ _ Ht' Hb1), (contents_lookup _ _ _ _ Ht Hb2). change (n_entries t') with (n_entries t) in Hb1.
  destruct (decide (Z.to_nat (hash_index (n_entries t) k') = i)) as [E|E].
  - rewrite E in Hb1, Hb2. rewrite list_lookup_insert_eq in Hb1 by by apply (lookup_lt_Some _ _ _ Hbk).
    injection Hb1 as <-. rewrite Hbk in Hb2. injection Hb2 as <-. apply Hassoc.
  - rewrite list_lookup_insert_ne in Hb1 by done. rewrite Hb2 in Hb1. injection Hb1 as <-.
    destruct (decide (k' = k)) as [->|]; [|done]. done.
Qed.

(** *** The operations on a bucket *)

Lemma update_others_spec key v es t : in_use es →
  ∃ r, update_others key v es t = Ret r t ∧
    match r with
    | None => key ∉ (pairs es).*1
    | Some es' => key ∈ (pairs es).*1 ∧ in_use es' ∧ (pairs es').*1 = (pairs es).*1 ∧
        ∀ k', assoc k' (pairs es') = if decide (k' = key) then Some v else assoc k' (pairs es)
    end.
Proof.
  induction 1 as [|e es [k Hk] Hes (r & Hr & IH)]; [exists None; split; [done|apply not_elem_of_nil]|].
  cbn [update_others]. rewrite Hk. run. rewrite pairs_cons, Hk. destruct (Z.eqb_spec (strcmp k key) 0) as [->%strcmp_eq|Hne].
  - eexists. split; [done|]. split; [by left|]. split; [by constructor; [eexists|]|]. split; [by rewrite pairs_cons|].
    intros k'. rewrite pairs_cons. cbn. destruct (decide (key = k')) as [<-|]; [by rewrite decide_True|by rewrite decide_False].
  - assert (k ≠ key) as Hkk by (intros ->; by rewrite (proj2 (strcmp_eq _ _) eq_refl) in Hne).
    rewrite (bind_step _ _ _ _ _ Hr). eexists. split; [reflexivity|]. destruct r as [es'|]; cbn.
    + destruct IH as (Hin & Hu & Hkeys & Ha). split; [by right|]. split; [by constructor; [eexists|]|].
      rewrite pairs_cons, Hk. cbn. split; [by rewrite Hkeys|]. intros k'. rewrite Ha.
      destruct (decide (k = k')) as [<-|]; [by rewrite decide_False|done].
    + by apply not_elem_of_cons.
Qed.

Lemma remove_others_spec key es : in_use es → NoDup (pairs es).*1 →
  match remove_others key es with
  | None => key ∉ (pairs es).*1
  | Some es' => key ∈ (pairs es).*1 ∧ in_use es' ∧ (pairs es').*1 `sublist_of` (pairs es).*1 ∧
      ∀ k', assoc k' (pairs es') = if decide (k' = key) then None else assoc k' (pairs es)
  end.
Proof.
  induction 1 as [|e es [k Hk] Hes IH]; intros Hnd; [apply not_elem_of_nil|].
  cbn [remove_others]. rewrite pairs_cons, Hk in *. cbn in Hnd. apply NoDup_cons in Hnd as [Hnk Hnd].
  destruct (Z.eqb_spec (strcmp key k) 0) as [->%strcmp_eq|Hne].
  - split; [by left|]. split; [done|]. split; [by apply sublist_cons|]. intros k'. cbn.
    destruct (decide (k' = k)) as [->|]; [by apply assoc_None|by rewrite decide_False].
  - assert (k ≠ key) as Hkk by (intros ->; by rewrite (proj2 (strcmp_eq _ _) eq_refl) in Hne).
    specialize (IH Hnd). destruct (remove_others key es) as [es'|]; cbn.
    + destruct IH as (Hin & Hu & Hkeys & Ha). split; [by right|]. split; [by constructor; [eexists|]|].
      rewrite pairs_cons, Hk. cbn. split; [by apply sublist_skip|]. intros k'. rewrite Ha.
      destruct (decide (k = k')) as [<-|]; [by rewrite decide_False|done].
    + by apply not_elem_of_cons.
Qed.

Lemma find_entry_spec key es : (e ← find_entry key es; e_data e) = mjoin (assoc key (pairs es)).
Proof.
  induction es as [|e es IH]; [done|]. rewrite pairs_cons. cbn. destruct (e_key e) as [k|]; [|done]. cbn.
  destruct (Z.eqb_spec (strcmp key k) 0) as [->%strcmp_eq|Hne]; [by rewrite decide_True|].
  rewrite decide_False; [done|]. intros ->. by rewrite (proj2 (strcmp_eq _ _) eq_refl) in Hne.
Qed.

(** *** The operations on the table *)

Lemma hash_table_get_spec t bs k : table_ok t bs → hash_table_get k t = Ret (mjoin (contents t !! k)) t.
Proof.
  intros Ht. destruct (table_bucket t bs k Ht) as (bk & Hbk & Hat & _). unfold hash_table_get. run.
  rewrite (bind_step _ _ _ _ _ Hat), (contents_lookup _ _ _ _ Ht Hbk), find_entry_spec. done.
Qed.

(** The keys of a bucket after an insertion. *)
Lemma bucket_ok_keys n i bk bk' : bucket_ok n i bk → in_use (others bk') → (e_key (first bk') = None → others bk' = []) →
  (bucket_pairs bk').*1 `sublist_of` (bucket_pairs bk).*1 → bucket_ok n i bk'.
Proof.
  intros Hbk Ho Hf Hs. split; [done|done| |].
  - by eapply sublist_NoDup; [apply (bo_nodup _ _ _ Hbk)|].
  - intros k Hk. apply (bo_hash _ _ _ Hbk). by eapply elem_of_sublist.
Qed.

(** [bk'] is [bk] with another value for [k]. *)
Definition stores (n : Z) k v bk bk' : Prop :=
  bucket_ok n (hash_index n k) bk' ∧
  ∀ k', assoc k' (bucket_pairs bk') = if decide (k' = k) then Some v else assoc k' (bucket_pairs bk).

Lemma bucket_pairs_used e es k : e_key e = Some k → bucket_pairs (Bucket e es) = (k, e_data e) :: pairs es.
Proof. intros H. unfold bucket_pairs. cbn. by rewrite pairs_cons, H. Qed.

Lemma stores_empty n e k v : stores n k v (Bucket e []) (Bucket (Entry (Some k) v) []) ∨ is_Some (e_key e).
Proof.
  destruct (e_key e) as [k0|] eqn:Ek; [by right; exists k0|left].
  assert (bucket_pairs (Bucket e []) = []) as Hp by (unfold bucket_pairs; cbn; by rewrite pairs_cons, Ek).
  split.
  - split; [constructor|done|apply NoDup_singleton|]. by intros x ->%list_elem_of_singleton.
  - intros k'. rewrite Hp, (bucket_pairs_used _ _ k) by done. change (pairs []) with (@nil (list Z * option A)). cbn. repeat case_decide; congruence.
Qed.

Lemma stores_first n e es k v : e_key e = Some k → bucket_ok n (hash_index n k) (Bucket e es) →
  stores n k v (Bucket e es) (Bucket (Entry (Some k) v) es).
Proof.
  intros Ek Hok. split.
  - apply (bucket_ok_keys _ _ _ _ Hok); [apply (bo_others _ _ _ Hok)|done|by rewrite !(bucket_pairs_used _ _ k)].
  - intros k'. rewrite !(bucket_pairs_used _ _ k) by done. cbn.
    destruct (decide (k = k')) as [<-|]; [by rewrite decide_True|by rewrite decide_False].
Qed.

Lemma stores_others n e es es' k0 k v : e_key e = Some k0 → k0 ≠ k → bucket_ok n (hash_index n k) (Bucket e es) →
  in_use es' → (pairs es').*1 = (pairs es).*1 →
  (∀ k', assoc k' (pairs es') = if decide (k' = k) then Some v else assoc k' (pairs es)) →
  stores n k v (Bucket e es) (Bucket e es').
Proof.
  intros Ek Hne Hok Hu Hkeys Ha. split.
  - apply (bucket_ok_keys _ _ _ _ Hok); [done|cbn; by rewrite Ek|]. rewrite !(bucket_pairs_used _ _ k0) by done. cbn. by rewrite Hkeys.
  - intros k'. rewrite !(bucket_pairs_used _ _ k0) by done. cbn. rewrite Ha.
    destruct (decide (k0 = k')) as [<-|]; [by rewrite decide_False|done].
Qed.

Lemma stores_add n e es k v : is_Some (e_key e) → k ∉ (bucket_pairs (Bucket e es)).*1 →
  bucket_ok n (hash_index n k) (Bucket e es) → stores n k v (Bucket e es) (Bucket e (es ++ [Entry (Some k) v])).
Proof.
  intros [k0 Ek] Hk Hok.
  assert (bucket_pairs (Bucket e (es ++ [Entry (Some k) v])) = bucket_pairs (Bucket e es) ++ [(k, v)]) as E.
  { unfold bucket_pairs. cbn [first others]. rewrite app_comm_cons. unfold pairs. by rewrite omap_app. }
  split; [split|].
  - apply Forall_app. split; [apply (bo_others _ _ _ Hok)|]. repeat constructor. by eexists.
  - cbn. by rewrite Ek.
  - rewrite E, fmap_app. apply NoDup_app. split; [apply (bo_nodup _ _ _ Hok)|]. split; [|apply NoDup_singleton].
    intros x Hx ->%list_elem_of_singleton. done.
  - intros x. rewrite E, fmap_app, elem_of_app. intros [Hx| ->%list_elem_of_singleton]; [by apply (bo_hash _ _ _ Hok)|done].
  - intros k'. rewrite E, assoc_app. cbn. destruct (decide (k' = k)) as [->|]; [by rewrite (proj2 (assoc_None _ _) Hk), decide_True|].
    rewrite decide_False by done. by destruct (assoc k' (bucket_pairs (Bucket e es))).
Qed.

Definition with_bucket t bs k bk' (m : Z) : hash_table :=
  HashTable (Some (<[Z.to_nat (hash_index (n_entries t) k) := bk']> bs)) (n_entries t) m.

Lemma set_bucket_eq t bs k bk' m : table_ok t bs →
  set_bucket (hash_index (n_entries t) k) bk' (HashTable (entries t) (n_entries t) m) = Ret tt (with_bucket t bs k bk' m).
Proof. intros Ht. unfold set_bucket, modify, set_entries. cbn. by rewrite (to_entries _ _ Ht). Qed.

(** What an insertion does with the bucket: a bucket that has the key with the value, and
    the number of elements; without memory for a new entry, nothing. *)
Lemma insert_bucket mem t bs k v : table_ok t bs →
  (∃ bk bk' m, bs !! Z.to_nat (hash_index (n_entries t) k) = Some bk ∧
     hash_table_insert mem true k v t = Ret 0 (with_bucket t bs k bk' m) ∧ stores (n_entries t) k v bk bk' ∧
     m = n_elements t + if decide (k ∈ (bucket_pairs bk).*1) then 0 else 1) ∨
  (mem = false ∧ hash_table_insert mem true k v t = Ret (- ENOMEM) t ∧ contents t !! k = None).
Proof.
  intros Ht. destruct (table_bucket t bs k Ht) as ([e es] & Hbk & Hat & Hok). unfold hash_table_insert. run.
  rewrite (bind_step _ _ _ _ _ Hat). pose proof (λ bk m, set_bucket_eq t bs k bk m Ht) as Hset.
  destruct t as [et nt mt] eqn:Et. cbn [n_entries entries n_elements first others] in *.
  destruct (e_key e) as [k0|] eqn:Ek; cycle 1.
  { left. assert (es = []) as -> by exact (bo_first _ _ _ Hok Ek). eexists _, (Bucket (Entry (Some k) v) []), (mt + 1). split; [done|].
    run. unfold count_element. cbn [entries n_entries n_elements]. rewrite (bind_step _ _ _ _ _ (Hset _ _)). split; [done|].
    destruct (stores_empty nt e k v) as [?|[? ?]]; [|congruence]. split; [done|]. rewrite decide_False; [done|].
    unfold bucket_pairs. cbn. rewrite pairs_cons, Ek. apply not_elem_of_nil. }
  pose proof (bucket_pairs_used e es k0 Ek) as Hp. destruct (Z.eqb_spec (strcmp k0 k) 0) as [->%strcmp_eq|Hne].
  { left. eexists _, _, mt. split; [done|]. rewrite (bind_step _ _ _ _ _ (Hset _ _)). split; [done|].
    split; [by apply stores_first|]. rewrite Hp, decide_True by by left. lia. }
  assert (k0 ≠ k) as Hkk by (intros ->; by rewrite (proj2 (strcmp_eq _ _) eq_refl) in Hne).
  destruct (update_others_spec k v es (HashTable et nt mt) (bo_others _ _ _ Hok)) as (r & Hr & Hspec).
  rewrite (bind_step _ _ _ _ _ Hr). destruct r as [es'|].
  { left. destruct Hspec as (Hin & Hu & Hkeys & Ha). eexists _, _, mt. split; [done|].
    rewrite (bind_step _ _ _ _ _ (Hset _ _)). split; [done|]. split; [by eapply stores_others|].
    rewrite Hp, decide_True by by right. lia. }
  assert (k ∉ (bucket_pairs (Bucket e es)).*1) as Hnew by (rewrite Hp; cbn; by apply not_elem_of_cons).
  destruct mem; [left|right].
  - eexists _, _, (mt + 1). split; [done|]. run. unfold count_element. cbn [entries n_entries n_elements].
    rewrite (bind_step _ _ _ _ _ (Hset _ _)). split; [done|]. split; [apply stores_add; [by rewrite Ek|done|done]|].
    by rewrite decide_False.
  - split; [done|]. split; [done|]. rewrite (contents_lookup _ _ _ _ Ht Hbk). by apply assoc_None.
Qed.

(** [bk'] is [bk] without [k]. *)
Definition drops (n : Z) k bk bk' : Prop :=
  bucket_ok n (hash_index n k) bk' ∧
  ∀ k', assoc k' (bucket_pairs bk') = if decide (k' = k) then None else assoc k' (bucket_pairs bk).

Lemma drops_first n e es k : e_key e = Some k → bucket_ok n (hash_index n k) (Bucket e es) →
  drops n k (Bucket e es) (match es with next :: es' => Bucket next es' | [] => Bucket no_entry [] end).
Proof.
  intros Ek Hok. set (bk' := match es with next :: es' => Bucket next es' | [] => Bucket no_entry [] end).
  assert (bucket_pairs bk' = pairs es) as E' by (unfold bk'; by destruct es).
  pose proof (bucket_pairs_used e es k Ek) as E. pose proof (bo_nodup _ _ _ Hok) as Hnd. rewrite E in Hnd.
  apply NoDup_cons in Hnd as [Hk _]. pose proof (bo_others _ _ _ Hok) as Hu. split.
  - apply (bucket_ok_keys _ _ _ _ Hok).
    + unfold bk'. destruct es as [|e' es']; [by apply Forall_nil|]. by apply Forall_cons in Hu as [_ Hu].
    + unfold bk'. destruct es as [|e' es']; [done|]. apply Forall_cons in Hu as [[k' Hk'] _]. cbn in *. by rewrite Hk'.
    + rewrite E, E'. by apply sublist_cons.
  - intros k'. rewrite E, E'. cbn. destruct (decide (k = k')) as [<-|].
    + rewrite decide_True by done. by apply assoc_None.
    + by rewrite decide_False.
Qed.

Lemma drops_others n e es es' k0 k : e_key e = Some k0 → k0 ≠ k → bucket_ok n (hash_index n k) (Bucket e es) →
  in_use es' → (pairs es').*1 `sublist_of` (pairs es).*1 →
  (∀ k', assoc k' (pairs es') = if decide (k' = k) then None else assoc k' (pairs es)) →
  drops n k (Bucket e es) (Bucket e es').
Proof.
  intros Ek Hne Hok Hu Hkeys Ha. split.
  - apply (bucket_ok_keys _ _ _ _ Hok); [done|cbn; by rewrite Ek|]. rewrite !(bucket_pairs_used _ _ k0) by done.
    by apply sublist_skip.
  - intros k'. rewrite !(bucket_pairs_used _ _ k0) by done. cbn. rewrite Ha.
    destruct (decide (k0 = k')) as [<-|]; [by rewrite decide_False|done].
Qed.

Lemma remove_entry_spec n k bk : bucket_ok n (hash_index n k) bk →
  match remove_entry k bk with
  | Some bk' => drops n k bk bk' ∧ k ∈ (bucket_pairs bk).*1
  | None => k ∉ (bucket_pairs bk).*1
  end.
Proof.
  intros Hok. destruct bk as [e es]. unfold remove_entry. cbn [first others].
  destruct (e_key e) as [k0|] eqn:Ek; last first.
  { assert (es = []) as -> by exact (bo_first _ _ _ Hok Ek). unfold bucket_pairs. cbn. rewrite pairs_cons, Ek. apply not_elem_of_nil. }
  pose proof (bucket_pairs_used e es k0 Ek) as Hp. destruct (Z.eqb_spec (strcmp k k0) 0) as [->%strcmp_eq|Hne].
  - pose proof (drops_first n e es k0 Ek Hok) as H. assert (k0 ∈ (bucket_pairs (Bucket e es)).*1) by (rewrite Hp; by left).
    by destruct es.
  - assert (k0 ≠ k) as Hkk by (intros ->; by rewrite (proj2 (strcmp_eq _ _) eq_refl) in Hne).
    assert (NoDup (pairs es).*1) as Hnd by (pose proof (bo_nodup _ _ _ Hok) as H; rewrite Hp in H; by apply NoDup_cons in H as [_ H]).
    pose proof (remove_others_spec k es (bo_others _ _ _ Hok) Hnd) as H. destruct (remove_others k es) as [es'|]; cbn.
    + destruct H as (Hin & Hu & Hkeys & Ha). split; [by eapply drops_others|]. rewrite Hp. by right.
    + rewrite Hp. cbn. by apply not_elem_of_cons.
Qed.

(** The table after an insertion and a removal. *)
Lemma hash_table_insert_spec mem t bs k v : table_ok t bs →
  (∃ t' bs', hash_table_insert mem true k v t = Ret 0 t' ∧ table_ok t' bs' ∧ contents t' = <[k := v]> (contents t) ∧
     n_elements t' = n_elements t + if decide (is_Some (contents t !! k)) then 0 else 1) ∨
  (mem = false ∧ hash_table_insert mem true k v t = Ret (- ENOMEM) t ∧ contents t !! k = None).
Proof.
  intros Ht. destruct (insert_bucket mem t bs k v Ht) as [(bk & bk' & m & Hbk & Hrun & [Hok Ha] & Hm)|H]; [left|by right].
  destruct (store_bucket t bs k bk bk' (Some v) m Ht Hbk Hok Ha) as [Ht' Hc].
  eexists _, _. split; [exact Hrun|]. split; [exact Ht'|]. split.
  - apply map_eq. intros k'. rewrite lookup_insert. unfold with_bucket. rewrite Hc.
    by repeat case_decide; subst.
  - cbn. rewrite Hm. f_equal. rewrite (contents_lookup _ _ _ _ Ht Hbk).
    pose proof (assoc_None k (bucket_pairs bk)) as HN. destruct (assoc k (bucket_pairs bk)) as [o|].
    + rewrite (decide_True (P := is_Some (Some o))) by eauto. rewrite decide_True; [done|].
      destruct (decide (k ∈ (bucket_pairs bk).*1)) as [|Hno]; [done|]. by apply HN in Hno.
    + rewrite (decide_False (P := is_Some None)) by by intros [? ?]. rewrite decide_False; [done|]. by apply HN.
Qed.

Lemma hash_table_remove_spec t bs k : table_ok t bs →
  ∃ t' bs', hash_table_remove k t = Ret (if decide (is_Some (contents t !! k)) then 1 else 0) t' ∧ table_ok t' bs' ∧
    contents t' = delete k (contents t) ∧ n_elements t' = n_elements t.
Proof.
  intros Ht. destruct (table_bucket t bs k Ht) as (bk & Hbk & Hat & Hok). unfold hash_table_remove. run.
  rewrite (bind_step _ _ _ _ _ Hat). pose proof (remove_entry_spec _ k bk Hok) as H.
  pose proof (assoc_None k (bucket_pairs bk)) as HN. rewrite (contents_lookup _ _ _ _ Ht Hbk).
  destruct (remove_entry k bk) as [bk'|].
  - destruct H as [[Hok' Ha] Hin]. destruct (store_bucket t bs k bk bk' None (n_elements t) Ht Hbk Hok' Ha) as [Ht' Hc].
    assert (set_bucket (hash_index (n_entries t) k) bk' t = Ret tt (with_bucket t bs k bk' (n_elements t))) as Hset.
    { pose proof (set_bucket_eq t bs k bk' (n_elements t) Ht) as H. by destruct t. }
    rewrite (bind_step _ _ _ _ _ Hset). eexists _, _. split; [|split; [exact Ht'|split; [|done]]].
    + rewrite decide_True; [done|]. destruct (assoc k (bucket_pairs bk)) as [o|]; [eauto|]. by destruct (proj1 HN eq_refl).
    + apply map_eq. intros k'. rewrite lookup_delete. unfold with_bucket. rewrite Hc. by repeat case_decide; subst.
  - exists t, bs. rewrite (proj2 HN H), decide_False by by intros [? ?]. split; [done|]. split; [done|]. split; [|done].
    symmetry. apply delete_id. rewrite (contents_lookup _ _ _ _ Ht Hbk). by apply HN.
Qed.

(** *** A new table *)

Lemma pick_spec primes last len : primes ≠ [] →
  pick primes last len ∈ primes ∧ (len ≤ pick primes last len ∨ Forall (λ p, p < len) primes).
Proof.
  revert last. induction primes as [|p primes IH]; intros last Hne; [done|]. cbn [pick].
  destruct (Z.ltb_spec p len); [|split; [by left|by left]]. destruct primes as [|q primes].
  - split; [by left|right]. by constructor.
  - destruct (IH p) as [Hin H']; [done|]. split; [by right|]. destruct H' as [?|?]; [by left|right]. by constructor.
Qed.

(** The number of buckets is a prime of the table, and not too small if one of them is not. *)
Lemma pick_primes len : let n := pick primes_table 0 len in n ∈ primes_table ∧ 0 < n ∧ (len ≤ n ∨ 99529 < len).
Proof.
  intros n. destruct (pick_spec primes_table 0 len) as [Hin H]; [done|]. fold n in Hin, H. split; [done|]. split.
  - assert (Forall (λ p, 0 < p) primes_table) as Hpos by (by apply (bool_decide_unpack _)).
    by apply (proj1 (Forall_forall _ _) Hpos).
  - destruct H as [?|H]; [by left|right]. apply (proj1 (Forall_forall _ _) H). by apply (bool_decide_unpack _).
Qed.

Lemma contents_empty bs : Forall (λ bk, bk = Bucket no_entry []) bs → bs ≫= bucket_pairs = [].
Proof. induction 1 as [|bk bs -> _ IH]; [done|]. by rewrite bind_cons, IH. Qed.

Lemma hash_table_init_spec t len : entries t = None →
  ∃ t' bs, hash_table_init true len t = Ret 0 t' ∧ table_ok t' bs ∧ contents t' = ∅ ∧ (len ≤ n_entries t' ∨ 99529 < len).
Proof.
  intros Ht. destruct (pick_primes len) as (_ & Hpos & Hlen). set (n := pick primes_table 0 len) in *.
  exists (HashTable (Some (replicate (Z.to_nat n) (Bucket no_entry []))) n (n_elements t)), (replicate (Z.to_nat n) (Bucket no_entry [])).
  split; [unfold hash_table_init; run; by rewrite Ht|]. split; [|split; [|done]].
  - split; [done|by rewrite length_replicate, Z2Nat.id by lia|done|]. intros i bk [-> _]%lookup_replicate. cbn.
    split; [constructor|done|constructor|]. intros k Hk. by apply elem_of_nil in Hk.
  - unfold contents, table_pairs. cbn. rewrite contents_empty; [done|]. apply Forall_forall. by intros bk [-> _]%elem_of_replicate.
Qed.

(** *** Going through the table *)

Lemma NoDup_buckets n (j : nat) bs :
  (∀ i bk, bs !! i = Some bk → bucket_ok n (Z.of_nat (j + i)) bk) → NoDup (bs ≫= bucket_pairs).*1.
Proof.
  revert j. induction bs as [|bk bs IH]; intros j Hok; [constructor|]. rewrite bind_cons, fmap_app.
  apply NoDup_app. split; [apply (bo_nodup _ _ _ (Hok 0%nat bk eq_refl))|]. split.
  - intros k Hk ([k' v] & -> & Hin)%list_elem_of_fmap. apply list_elem_of_bind in Hin as (bk' & Hin & Hbk').
    apply list_elem_of_lookup in Hbk' as [i Hi]. apply (bo_hash _ _ _ (Hok 0%nat bk eq_refl)) in Hk.
    assert (k' ∈ (bucket_pairs bk').*1) as Hk' by (apply list_elem_of_fmap; by exists (k', v)).
    apply (bo_hash _ _ _ (Hok (S i) bk' Hi)) in Hk'. cbn in Hk. lia.
  - apply (IH (S j)). intros i bk' Hi. pose proof (Hok (S i) bk' Hi) as H. by rewrite Nat.add_succ_r in H.
Qed.

Lemma table_pairs_contents t bs : table_ok t bs → table_pairs t ≡ₚ map_to_list (contents t).
Proof.
  intros Ht. symmetry. apply map_to_list_to_map. unfold table_pairs. rewrite (to_entries _ _ Ht).
  apply (NoDup_buckets (n_entries t) 0), (to_buckets _ _ Ht).
Qed.

Section collect.
Definition note k v : M (list (list Z * option A)) unit := modify (λ l, l ++ [(k, v)]).

Lemma foreach_entry_note es l : foreach_entry note es l = Ret tt (l ++ pairs es).
Proof.
  revert l. induction es as [|e es IH]; intros l; [by rewrite app_nil_r|]. cbn [foreach_entry]. rewrite pairs_cons.
  destruct (e_key e) as [k|]; [|apply IH].
  rewrite (bind_step (note k (e_data e)) _ l tt (l ++ [(k, e_data e)]) eq_refl). by rewrite IH, <- app_assoc.
Qed.

Lemma foreach_note t l : hash_table_foreach note t l = Ret tt (l ++ table_pairs t).
Proof.
  unfold hash_table_foreach, table_pairs. generalize (default [] (entries t)). intros bs. revert l.
  induction bs as [|bk bs IH]; intros l; [by rewrite app_nil_r|]. cbn [foreach_bucket].
  rewrite (bind_step _ _ _ _ _ (foreach_entry_note _ l)), IH, bind_cons, app_assoc. done.
Qed.
End collect.

(** ** Use of a table *)

Inductive request : Type := Get k | Insert k v | Remove k | Foreach.
Inductive reply : Type := Data (d : option A) | Code (c : Z) | Visited (l : list (list Z * option A)).

Definition perform (r : request) : M (@hash_table A) reply :=
  match r with
  | Get k => d ← hash_table_get k; mret (Data d)
  | Insert k v => c ← hash_table_insert true true k v; mret (Code c)
  | Remove k => c ← hash_table_remove k; mret (Code c)
  | Foreach =>
      t ← get;
      match hash_table_foreach note t [] with
      | Ret _ l => mret (Visited l)
      | Stop w => halt w
      end
  end.

Fixpoint perform_all (rs : list request) : M (@hash_table A) (list reply) :=
  match rs with
  | [] => mret []
  | r :: rs' => a ← perform r; l ← perform_all rs'; mret (a :: l)
  end.

(** What a finite map answers. *)
Inductive answers (m : gmap (list Z) (option A)) : request → reply → gmap (list Z) (option A) → Prop :=
  | answers_get k : answers m (Get k) (Data (mjoin (m !! k))) m
  | answers_insert k v : answers m (Insert k v) (Code 0) (<[k := v]> m)
  | answers_remove k : answers m (Remove k) (Code (if decide (is_Some (m !! k)) then 1 else 0)) (delete k m)
  | answers_foreach l : l ≡ₚ map_to_list m → answers m Foreach (Visited l) m.

Inductive answers_all : gmap (list Z) (option A) → list request → list reply → gmap (list Z) (option A) → Prop :=
  | answers_nil m : answers_all m [] [] m
  | answers_cons m r a m' rs l m'' : answers m r a m' → answers_all m' rs l m'' → answers_all m (r :: rs) (a :: l) m''.

Lemma perform_answers t bs r : table_ok t bs →
  ∃ a t' bs', perform r t = Ret a t' ∧ table_ok t' bs' ∧ answers (contents t) r a (contents t').
Proof.
  intros Ht. destruct r as [k|k v|k|]; cbn [perform].
  - rewrite (bind_step _ _ _ _ _ (hash_table_get_spec t bs k Ht)). eexists _, _, _. split; [reflexivity|]. split; [done|]. constructor.
  - destruct (hash_table_insert_spec true t bs k v Ht) as [(t' & bs' & Hr & Ht' & Hc & _)|[? _]]; [|done].
    rewrite (bind_step _ _ _ _ _ Hr). eexists _, _, _. split; [reflexivity|]. split; [done|]. rewrite Hc. constructor.
  - destruct (hash_table_remove_spec t bs k Ht) as (t' & bs' & Hr & Ht' & Hc & _).
    rewrite (bind_step _ _ _ _ _ Hr). eexists _, _, _. split; [reflexivity|]. split; [done|]. rewrite Hc. constructor.
  - run. rewrite foreach_note. eexists _, _, _. split; [reflexivity|]. split; [done|]. constructor. by apply (table_pairs_contents t bs).
Qed.

(** [C21] Whatever look-ups, insertions, removals and traversals are made of a table that was set
    up, they return (no pointer goes astray, the list of a bucket ends), and their results are
    those of a finite map; a traversal visits each of its pairs once. *)
Theorem hash_table_refines_map t len rs : entries t = None →
  ∃ t0 l t', hash_table_init true len t = Ret 0 t0 ∧ perform_all rs t0 = Ret l t' ∧ answers_all ∅ rs l (contents t').
Proof.
  intros Ht. destruct (hash_table_init_spec t len Ht) as (t0 & bs & Hinit & Hok & Hc & _). exists t0. rewrite <- Hc.
  assert (∃ l t', perform_all rs t0 = Ret l t' ∧ answers_all (contents t0) rs l (contents t')) as (l & t' & H1 & H2);
    [|by exists l, t'].
  clear Hinit Hc. revert t0 bs Hok. induction rs as [|r rs IH]; intros t0 bs Hok; cbn [perform_all].
  - eexists _, _. split; [reflexivity|]. constructor.
  - destruct (perform_answers t0 bs r Hok) as (a & t1 & bs1 & Hr & Hok1 & Ha). destruct (IH t1 bs1 Hok1) as (l & t' & Hl & Hall).
    rewrite (bind_step _ _ _ _ _ Hr), (bind_step _ _ _ _ _ Hl). eexists _, _. split; [reflexivity|]. by econstructor.
Qed.
End map.

Module HashExamples.

Definition unset : @hash_table Z := HashTable None 0 0.

Lemma hash_table_refines_map_witness :
  ∃ t0 l t', hash_table_init true 1000 unset = Ret 0 t0 ∧
    perform_all [Insert (b "libc") (Some 1); Insert (b "opkg") (Some 2); Remove (b "libc"); Get (b "opkg"); Foreach] t0 = Ret l t' ∧
    answers_all ∅ [Insert (b "libc") (Some 1); Insert (b "opkg") (Some 2); Remove (b "libc"); Get (b "opkg"); Foreach] l (contents t').
Proof. apply (hash_table_refines_map unset 1000 _ eq_refl). Defined.

(** Names with the same hash share a bucket. *)
Example same_bucket : hash_index 379 (b "aa") = hash_index 379 (b "xl").
Proof. vm_compute. reflexivity. Qed.

(** An entry that was removed is still counted. *)
Example removed_still_counted :
  match (hash_table_init true 100;; hash_table_insert true true (b "aa") (Some 1);; hash_table_remove (b "aa")) unset with
  | Ret _ t => (n_elements t, contents t !! b "aa")
  | Stop _ => (0, None)
  end = (1, None).
Proof. vm_compute. reflexivity. Qed.

(** Without memory for the copy of a key, the entry has none, and the next insertion into the
    bucket compares with NULL. *)
Example null_key_crash :
  match (hash_table_init true 100;; hash_table_insert true true (b "aa") (Some 1);;
         hash_table_insert true false (b "xl") (Some 2);; hash_table_insert true true (b "xl") (Some 3)) unset with
  | Ret _ _ => false
  | Stop (Undefined why) => String.eqb why "hash_entry->key"
  | Stop _ => false
  end = true.
Proof. vm_compute. reflexivity. Qed.

End HashExamples.
