(* ===== verification/OpkgDepends.v ===== *)
(** * opkg: dependencies (opkg/libopkg/pkg_depends.c, pkg_hash.c, pkg_vec.c)

    Which packages have to be installed along with a package: the best candidate for each of
    its dependencies, and for those of the candidates. *)

From stdpp Require Import gmap sets.
From S2P Require Import Prelude.
From S2P Require Import CString.
From S2P Require Import OpkgVersion.

(** ** Packages *)

Inductive depend_type : Type := PREDEPEND | DEPEND | CONFLICTS | GREEDY_DEPEND | RECOMMEND | SUGGEST.
#[export] Instance depend_type_eq_dec : EqDecision depend_type.
Proof. solve_decision. Defined.

Inductive pkg_state_want : Type := SW_UNKNOWN | SW_INSTALL | SW_DEINSTALL | SW_PURGE.
#[export] Instance pkg_state_want_eq_dec : EqDecision pkg_state_want.
Proof. solve_decision. Defined.

Inductive pkg_state_status : Type :=
  | SS_NOT_INSTALLED | SS_UNPACKED | SS_HALF_CONFIGURED | SS_INSTALLED | SS_HALF_INSTALLED | SS_CONFIG_FILES
  | SS_POST_INST_FAILED | SS_REMOVAL_FAILED.
#[export] Instance pkg_state_status_eq_dec : EqDecision pkg_state_status.
Proof. solve_decision. Defined.

Definition SF_HOLD : Z := 2.
Definition SF_PREFER : Z := 16.

(** Pointers to packages and to abstract packages are numbers. *)
Record depend : Type := Depend { d_constraint : version_constraint; d_version : option (list Z); d_pkg : Z }.

Record compound_depend : Type := Compound { c_type : depend_type; possibilities : list depend }.

(** [depend_strs] are the strings the dependencies were read from, in the same order
    ([pkg_depend_str]). *)
Record pkg : Type := Pkg {
  p_name : list Z;
  p_version : version;
  architecture : list Z;
  arch_priority : Z;
  state_want : pkg_state_want;
  state_flag : Z;
  state_status : pkg_state_status;
  provided_by_hand : bool;
  depends : list compound_depend;
  depend_strs : list (list Z);
  parent : option Z;
}.

(** [pkgs] and [replaced_by] may be NULL. *)
Record abstract_pkg : Type := Abstract {
  a_name : list Z;
  pkgs : option (list Z);
  a_status : pkg_state_status;
  provided_by : option (list Z);
  replaced_by : option (list Z);
}.

(** What is in memory while dependencies are looked for; only the marks
    [dependencies_checked] of abstract packages change. *)
Record database : Type := Database { packages : gmap Z pkg; abstracts : gmap Z abstract_pkg }.

Section depends.
Context (db : database).

(** [qsort] of the C library, with the comparison of two packages. *)
Context (qsort : (Z → Z → Z) → list Z → list Z).

Abbreviation G := (M (gset Z)).

Definition pkg_at (p : Z) : G pkg := deref (packages db !! p) "pkg".
Definition abstract_at (a : Z) : G abstract_pkg := deref (abstracts db !! a) "abstract_pkg".

(** Versions are compared without a state. *)
Definition pure {A} (m : V A) : G A := λ s, match m tt with Ret a _ => Ret a s | Stop w => Stop w end.

Definition installed (st : pkg_state_status) : bool := bool_decide (st = SS_INSTALLED) || bool_decide (st = SS_UNPACKED).

(** ** Comparison of packages *)

Definition pkg_name_version_and_architecture_compare (a c : pkg) : V Z :=
  if negb (strcmp (p_name a) (p_name c) =? 0) then mret (strcmp (p_name a) (p_name c))
  else
    vercmp ← pkg_compare_versions (p_version a) (p_version c);
    if negb (vercmp =? 0) then mret vercmp
    else if (arch_priority a =? 0) || (arch_priority c =? 0) then mret 0
    else if arch_priority c <? arch_priority a then mret 1
    else if arch_priority a <? arch_priority c then mret (-1)
    else mret 0.

Definition abstract_pkg_name_compare (a c : pkg) : Z := strcmp (p_name a) (p_name c).

(** The comparison that [qsort] is given: of what two pointers point to. *)
Definition by_pointers (compare : pkg → pkg → V Z) (p q : Z) : Z :=
  match packages db !! p, packages db !! q with
  | Some a, Some c => match compare a c tt with Ret r _ => r | Stop _ => 0 end
  | _, _ => 0
  end.

Definition pkg_vec_sort (vec : list Z) (compare : pkg → pkg → V Z) : list Z := qsort (by_pointers compare) vec.

(** Packages of the same name, version and architecture. *)
Definition same_pkg (a c : pkg) : V bool :=
  if negb (strcmp (p_name a) (p_name c) =? 0) then mret false
  else
    r ← pkg_compare_versions (p_version a) (p_version c);
    if negb (r =? 0) then mret false
    else mret (strcmp (architecture a) (architecture c) =? 0).

Fixpoint is_pkg_in_pkg_vec (vec : list Z) (p : pkg) : G bool :=
  match vec with
  | [] => mret false
  | q :: vec' =>
      c ← pkg_at q;
      r ← pure (same_pkg p c);
      if (r : bool) then mret true else is_pkg_in_pkg_vec vec' p
  end.

(** ** The best candidate *)

Definition constraint_satisfied (d : depend) (p : pkg) : G bool :=
  match d_constraint d with
  | NONE => mret true
  | c => v ← deref (d_version d) "depends->version"; pure (version_constraints_satisfied c v (p_version p))
  end.

Definition pkg_constraint_satisfied (d : depend) (p : pkg) : G bool := constraint_satisfied d p.

Definition pkg_installed_and_constraint_satisfied (d : depend) (p : pkg) : G bool :=
  if installed (state_status p) then constraint_satisfied d p else mret false.

(** The packages of the providers that the device can run; a provider that was replaced
    counts as its replacement, unless that provides the same anyway. *)
Definition provider_for (providers : list Z) (provider : Z) (a : abstract_pkg) : option Z :=
  match replaced_by a with
  | Some (replacement :: _) =>
      if replacement =? provider then Some provider
      else if bool_decide (replacement ∈ providers) then None
      else Some replacement
  | _ => Some provider
  end.

Fixpoint supported (vec : list Z) : G (list Z) :=
  match vec with
  | [] => mret []
  | p :: vec' =>
      maybe ← pkg_at p;
      l ← supported vec';
      mret (if 0 <? arch_priority maybe then p :: l else l)
  end.

Definition provider_packages (providers : list Z) (provider : Z) : G (list Z) :=
  a ← abstract_at provider;
  match provider_for providers provider a with
  | None => mret []
  | Some provider =>
      a ← abstract_at provider;
      match pkgs a with
      | None => mret []
      | Some vec => supported vec
      end
  end.

Fixpoint matching (providers todo : list Z) : G (list Z) :=
  match todo with
  | [] => mret []
  | provider :: todo' =>
      l ← provider_packages providers provider;
      rest ← matching providers todo';
      mret (l ++ rest)
  end.

(** The last one that satisfies the constraint, but none after one that was given by hand. *)
Fixpoint good_pkg (constraint_fcn : pkg → G bool) (good : option Z) (vec : list Z) : G (option Z) :=
  match vec with
  | [] => mret good
  | p :: vec' =>
      m ← pkg_at p;
      ok ← constraint_fcn m;
      if (ok : bool) then if provided_by_hand m then mret (Some p) else good_pkg constraint_fcn (Some p) vec'
      else good_pkg constraint_fcn good vec'
  end.

(** [latest_matching], [latest_installed_parent] and [held_pkg]. *)
Fixpoint latest (l : option Z * option Z * option Z) (vec : list Z) : G (option Z * option Z * option Z) :=
  match vec with
  | [] => mret l
  | p :: vec' =>
      m ← pkg_at p;
      par ← deref (parent m) "matching->parent";
      a ← abstract_at par;
      let '(_, inst, held) := l in
      let inst := if installed (a_status a) then Some p else inst in
      let held := if negb (Z.land (state_flag m) (Z.lor SF_HOLD SF_PREFER) =? 0) then Some p else held in
      latest (Some p, inst, held) vec'
  end.

(** The vector of abstract packages is as long as that of packages; in place of the former the
    latter is sorted by name at last. *)
Definition fetch_best_installation_candidate (apkg : Z) (constraint_fcn : pkg → G bool) : G (option Z) :=
  a ← abstract_at apkg;
  match provided_by a with
  | None | Some [] => mret None
  | Some providers =>
      vec ← matching providers providers;
      let vec := if (1 <? length vec)%nat then pkg_vec_sort vec pkg_name_version_and_architecture_compare else vec in
      let vec := if (1 <? length vec)%nat then pkg_vec_sort vec (λ a c, mret (abstract_pkg_name_compare a c)) else vec in
      good ← good_pkg constraint_fcn None vec;
      l ← latest (None, None, None) vec;
      let '(latest_matching, latest_installed_parent, held_pkg) := l in
      match good, held_pkg, latest_installed_parent with
      | Some p, _, _ => mret (Some p)
      | None, Some p, _ => mret (Some p)
      | None, None, Some p => mret (Some p)
      | None, None, None => mret (if (1 <? length vec)%nat then None else latest_matching)
      end
  end.

(** ** Unsatisfied dependencies

    The result is what is returned, the vector [unsatisfied] and the strings of the
    dependencies that nothing satisfies; [*unresolved] is NULL when there is none.  The
    functions have the recursive call as an argument. *)
Definition result : Type := Z * list Z * list (list Z).

Section with_call.
Context (fetch : Z → list Z → G result).

Fixpoint all_wanted (vec : list Z) : G bool :=
  match vec with
  | [] => mret true
  | p :: vec' => m ← pkg_at p; if bool_decide (state_want m = SW_INSTALL) then all_wanted vec' else mret false
  end.

Definition try_scout (unsatisfied : list Z) (scout : Z) : G (list Z) :=
  pkg_scout ← pkg_at scout;
  if bool_decide (state_want pkg_scout = SW_INSTALL) then mret unsatisfied
  else
    par ← deref (parent pkg_scout) "pkg_scout->parent";
    marked ← get;
    if bool_decide (par ∈ marked) then mret unsatisfied
    else
      known ← is_pkg_in_pkg_vec unsatisfied pkg_scout;
      if (known : bool) then mret unsatisfied
      else
        r ← fetch scout [];
        let '(rc, tmp_vec, newstuff) := r in
        match newstuff with
        | [] => ok ← all_wanted (take (Z.to_nat rc) tmp_vec); mret (if ok : bool then unsatisfied ++ [scout] else unsatisfied)
        | _ :: _ => mret unsatisfied
        end.

Fixpoint try_scouts (unsatisfied vec : list Z) : G (list Z) :=
  match vec with
  | [] => mret unsatisfied
  | scout :: vec' => unsatisfied ← try_scout unsatisfied scout; try_scouts unsatisfied vec'
  end.

Fixpoint try_providers (unsatisfied ab_providers : list Z) : G (list Z) :=
  match ab_providers with
  | [] => mret unsatisfied
  | l :: ab_providers' =>
      a ← abstract_at l;
      unsatisfied ← match pkgs a with Some test_vec => try_scouts unsatisfied test_vec | None => mret unsatisfied end;
      try_providers unsatisfied ab_providers'
  end.

Fixpoint greedy (unsatisfied : list Z) (ds : list depend) : G (list Z) :=
  match ds with
  | [] => mret unsatisfied
  | d :: ds' =>
      abpkg ← abstract_at (d_pkg d);
      ab_provider_vec ← deref (provided_by abpkg) "abpkg->provided_by";
      unsatisfied ← try_providers unsatisfied ab_provider_vec;
      greedy unsatisfied ds'
  end.

(** The best candidate, if it satisfies the constraint: that is tested once more. *)
Definition checked_candidate (constraint_fcn : pkg → G bool) (d : depend) : G (option Z) :=
  satisfying_pkg ← fetch_best_installation_candidate (d_pkg d) constraint_fcn;
  match satisfying_pkg with
  | Some q => m ← pkg_at q; ok ← constraint_fcn m; mret (if ok : bool then Some q else None)
  | None => mret None
  end.

Fixpoint find_installed (ds : list depend) : G bool :=
  match ds with
  | [] => mret false
  | d :: ds' =>
      c ← checked_candidate (pkg_installed_and_constraint_satisfied d) d;
      match c with Some _ => mret true | None => find_installed ds' end
  end.

Definition optional (t : depend_type) : bool := bool_decide (t = RECOMMEND) || bool_decide (t = SUGGEST).
Definition unwanted (w : pkg_state_want) : bool := bool_decide (w = SW_DEINSTALL) || bool_decide (w = SW_PURGE).

Fixpoint find_candidate (t : depend_type) (ds : list depend) : G (option Z) :=
  match ds with
  | [] => mret None
  | d :: ds' =>
      c ← checked_candidate (pkg_constraint_satisfied d) d;
      match c with
      | None => find_candidate t ds'
      | Some q => m ← pkg_at q; if optional t && unwanted (state_want m) then find_candidate t ds' else mret (Some q)
      end
  end.

(** One round of the loop over the dependencies of [p]; [str] is the string of this one. *)
Definition one_dependency (p : Z) (str : option (list Z)) (cd : compound_depend) (unsatisfied : list Z) (the_lost : list (list Z)) :
    G (list Z * list (list Z)) :=
  if bool_decide (c_type cd = GREEDY_DEPEND) then
    unsatisfied ← greedy unsatisfied (possibilities cd);
    mret (unsatisfied, the_lost)
  else
    found ← find_installed (possibilities cd);
    if (found : bool) then mret (unsatisfied, the_lost)
    else
      satisfier ← find_candidate (c_type cd) (possibilities cd);
      match satisfier with
      | None =>
          if optional (c_type cd) then
            d ← deref (head (possibilities cd)) "possibilities[0]";
            abstract_at (d_pkg d);;
            mret (unsatisfied, the_lost)
          else
            str ← deref str "depend_str";
            mret (unsatisfied, the_lost ++ [str])
      | Some q =>
          m ← pkg_at q;
          if bool_decide (c_type cd = SUGGEST) then mret (unsatisfied, the_lost)
          else if q =? p then mret (unsatisfied, the_lost)
          else
            known ← is_pkg_in_pkg_vec unsatisfied m;
            if (known : bool) then mret (unsatisfied, the_lost)
            else
              r ← fetch q (unsatisfied ++ [q]);
              let '(_, unsatisfied, newstuff) := r in
              mret (unsatisfied, the_lost ++ newstuff)
      end.

Fixpoint each_dependency (p : Z) (strs : list (list Z)) (cds : list compound_depend) (unsatisfied : list Z)
    (the_lost : list (list Z)) : G (list Z * list (list Z)) :=
  match cds with
  | [] => mret (unsatisfied, the_lost)
  | cd :: cds' =>
      r ← one_dependency p (head strs) cd unsatisfied the_lost;
      let '(unsatisfied, the_lost) := r in
      each_dependency p (tail strs) cds' unsatisfied the_lost
  end.
End with_call.

(** The marks keep the search from going in circles. *)
Fixpoint fetch_unsatisfied_dependencies (fuel : nat) (p : Z) (unsatisfied : list Z) : G result :=
  match fuel with
  | O => undefined "out of fuel"
  | S f =>
      m ← pkg_at p;
      match parent m with
      | None => mret (0, unsatisfied, [])
      | Some ab_pkg =>
          marked ← get;
          if bool_decide (ab_pkg ∈ marked) then mret (0, unsatisfied, [])
          else
            modify (union {[ab_pkg]});;
            match depends m with
            | [] => mret (0, unsatisfied, [])
            | cds =>
                r ← each_dependency (fetch_unsatisfied_dependencies f) p (depend_strs m) cds unsatisfied [];
                let '(unsatisfied, the_lost) := r in
                mret (Z.of_nat (length unsatisfied), unsatisfied, the_lost)
            end
      end
  end.

(** Each call that goes on marks an abstract package. *)
Definition pkg_hash_fetch_unsatisfied_dependencies (p : Z) (unsatisfied : list Z) : G result :=
  fetch_unsatisfied_dependencies (S (size (dom (abstracts db)))) p unsatisfied.
End depends.

(** ** A database in order *)

Section specification.
Context (db : database) (qsort : (Z → Z → Z) → list Z → list Z).

(** The versions of packages and of constraints are strings. *)
Definition depend_ok (d : depend) : Prop :=
  is_Some (abstracts db !! d_pkg d) ∧ (d_constraint d ≠ NONE → ∃ v, d_version d = Some v ∧ cstring v).

Record pkg_ok (m : pkg) : Prop := {
  po_version : well_formed (p_version m);
  po_parent : ∃ a, parent m = Some a ∧ is_Some (abstracts db !! a);
  po_strs : length (depend_strs m) = length (depends m);
  po_depends : ∀ cd, cd ∈ depends m → possibilities cd ≠ [] ∧ ∀ d, d ∈ possibilities cd → depend_ok d;
}.

Record abstract_ok (a : abstract_pkg) : Prop := {
  ao_pkgs : ∀ vec p, pkgs a = Some vec → p ∈ vec → is_Some (packages db !! p);
  ao_provided : ∀ l b, provided_by a = Some l → b ∈ l → is_Some (abstracts db !! b);
  ao_replaced : ∀ l b, replaced_by a = Some l → b ∈ l → is_Some (abstracts db !! b);
}.

Definition database_ok : Prop :=
  (∀ p m, packages db !! p = Some m → pkg_ok m) ∧ (∀ b a, abstracts db !! b = Some a → abstract_ok a).

Context (Hdb : database_ok) (Hsort : ∀ cmp l, qsort cmp l ≡ₚ l).

Abbreviation fetch_best := (fetch_best_installation_candidate db qsort).

(** [q] is a package of the provider, or of what replaces it, that the device can run. *)
Definition package_of (providers : list Z) (provider q : Z) : Prop :=
  ∃ pa b ab vec m, abstracts db !! provider = Some pa ∧ provider_for providers provider pa = Some b ∧
    abstracts db !! b = Some ab ∧ pkgs ab = Some vec ∧ q ∈ vec ∧ packages db !! q = Some m ∧ 0 < arch_priority m.

(** The packages that [apkg] can be had from. *)
Definition candidate (apkg q : Z) : Prop :=
  ∃ a providers provider, abstracts db !! apkg = Some a ∧ provided_by a = Some providers ∧
    provider ∈ providers ∧ package_of providers provider q.

(** The version meets the constraint; the same version does in any case. *)
Definition satisfies (d : depend) (m : pkg) : Prop :=
  d_constraint d = NONE ∨
  ∃ v e temp, d_version d = Some v ∧ parseVersion true v no_version = Ret e temp ∧
    (meets (d_constraint d) (version_order (p_version m) temp) = true ∨ version_order (p_version m) temp = 0).

Lemma pure_eq {A} (m : V A) a (s : gset Z) : m tt = Ret a tt → pure m s = Ret a s.
Proof. unfold pure. by intros ->. Qed.

Lemma pkg_at_eq p m s : packages db !! p = Some m → pkg_at db p s = Ret m s.
Proof. unfold pkg_at. by intros ->. Qed.

Lemma abstract_at_eq b a s : abstracts db !! b = Some a → abstract_at db b s = Ret a s.
Proof. unfold abstract_at. by intros ->. Qed.

(** A test of packages that changes nothing. *)
Definition tests (f : pkg → M (gset Z) bool) (Q : pkg → Prop) : Prop :=
  ∀ p m s, packages db !! p = Some m → ∃ ok : bool, f m s = Ret ok s ∧ (ok = true ↔ Q m).

Lemma constraint_tests d : depend_ok d → tests (pkg_constraint_satisfied d) (satisfies d).
Proof using Hdb.
  intros [_ Hd] p m s Hm. unfold pkg_constraint_satisfied, constraint_satisfied, satisfies.
  destruct (decide (d_constraint d = NONE)) as [->|Hc]; [exists true; split; [done|]; split; [by left|done]|].
  destruct (Hd Hc) as (v & Ev & Hv).
  destruct (constraints_satisfied_spec (d_constraint d) v (p_version m) Hv (po_version _ (proj1 Hdb p m Hm))) as (e & temp & Ht & _ & Hr).
  exists (meets (d_constraint d) (version_order (p_version m) temp) || (version_order (p_version m) temp =? 0)). split.
  - destruct (d_constraint d); [done|..]; rewrite Ev; run; by apply pure_eq.
  - rewrite orb_true_iff, Z.eqb_eq. split; [intros H; right; by exists v, e, temp|].
    intros [?|(v' & e' & temp' & Ev' & Ht' & H)]; [done|]. rewrite Ev in Ev'. injection Ev' as <-. rewrite Ht in Ht'.
    by injection Ht' as <- <-.
Qed.

Lemma installed_tests d : depend_ok d →
  tests (pkg_installed_and_constraint_satisfied d) (λ m, installed (state_status m) = true ∧ satisfies d m).
Proof using Hdb.
  intros Hd p m s Hm. unfold pkg_installed_and_constraint_satisfied. destruct (installed (state_status m)).
  - destruct (constraint_tests d Hd p m s Hm) as (ok & Hok & Hiff). exists ok. split; [done|]. tauto.
  - exists false. split; [done|]. split; [done|]. by intros [? _].
Qed.

(** *** The candidates *)

Lemma supported_spec vec s : (∀ p, p ∈ vec → is_Some (packages db !! p)) →
  ∃ l, supported db vec s = Ret l s ∧ ∀ q, q ∈ l ↔ q ∈ vec ∧ ∃ m, packages db !! q = Some m ∧ 0 < arch_priority m.
Proof.
  induction vec as [|p vec IH]; intros Hvec; cbn [supported].
  - exists []. split; [done|]. intros q. rewrite elem_of_nil. tauto.
  - destruct (Hvec p) as [m Hm]; [by left|]. rewrite (bind_step _ _ _ _ _ (pkg_at_eq p m s Hm)).
    destruct IH as (l & Hl & Hin); [intros q Hq; apply Hvec; by right|]. rewrite (bind_step _ _ _ _ _ Hl).
    eexists. split; [reflexivity|]. intros q. destruct (Z.ltb_spec 0 (arch_priority m)); rewrite ?elem_of_cons, Hin.
    + split; [intros [->|?]; [eauto|tauto]|]. intros [[->|?] ?]; [by left|by right].
    + split; [tauto|]. intros [[->|?] (m' & Hm' & ?)]; [rewrite Hm in Hm'; injection Hm' as <-; lia|eauto].
Qed.

Lemma provider_packages_spec providers provider s : is_Some (abstracts db !! provider) →
  ∃ l, provider_packages db providers provider s = Ret l s ∧ ∀ q, q ∈ l ↔ package_of providers provider q.
Proof using Hdb.
  intros [pa Hpa]. unfold provider_packages. rewrite (bind_step _ _ _ _ _ (abstract_at_eq _ _ s Hpa)).
  assert (∀ q, package_of providers provider q → ∃ b, provider_for providers provider pa = Some b) as Hsome.
  { intros q (pa' & b & ? & ? & ? & Hpa' & Hb & _). rewrite Hpa in Hpa'. injection Hpa' as <-. by exists b. }
  destruct (provider_for providers provider pa) as [b|] eqn:Eb; last first.
  { exists []. split; [done|]. intros q. rewrite elem_of_nil. split; [done|]. intros [? ?]%Hsome. done. }
  assert (is_Some (abstracts db !! b)) as [ab Hab].
  { unfold provider_for in Eb. destruct (replaced_by pa) as [[|r rs]|] eqn:Er; [by simplify_eq; eauto| |by simplify_eq; eauto].
    case_match; [by simplify_eq; eauto|]. case_bool_decide; [done|]. injection Eb as <-.
    eapply (ao_replaced _ (proj2 Hdb _ _ Hpa)); [done|by left]. }
  assert (∀ q, package_of providers provider q ↔
    ∃ vec m, pkgs ab = Some vec ∧ q ∈ vec ∧ packages db !! q = Some m ∧ 0 < arch_priority m) as Hiff.
  { intros q. split; [|intros (vec & m & H); by exists pa, b, ab, vec, m].
    intros (pa' & b' & ab' & vec & m & Hpa' & Hb' & Hab' & H). rewrite Hpa in Hpa'. injection Hpa' as <-.
    rewrite Eb in Hb'. injection Hb' as <-. rewrite Hab in Hab'. injection Hab' as <-. by exists vec, m. }
  rewrite (bind_step _ _ _ _ _ (abstract_at_eq _ _ s Hab)). setoid_rewrite Hiff. destruct (pkgs ab) as [vec|] eqn:Ev.
  - destruct (supported_spec vec s) as (l & Hl & Hinl); [intros q Hq; by eapply (ao_pkgs _ (proj2 Hdb _ _ Hab))|].
    exists l. split; [done|]. intros q. rewrite Hinl. split; [intros [? (m & ? & ?)]; by exists vec, m|].
    intros (vec' & m & [= <-] & Hq & Hm). split; [done|by exists m].
  - exists []. split; [done|]. intros q. rewrite elem_of_nil. split; [done|]. by intros (? & ? & ? & _).
Qed.

Lemma matching_spec providers todo s : (∀ b, b ∈ todo → is_Some (abstracts db !! b)) →
  ∃ l, matching db providers todo s = Ret l s ∧ ∀ q, q ∈ l ↔ ∃ provider, provider ∈ todo ∧ package_of providers provider q.
Proof using Hdb.
  induction todo as [|provider todo IH]; intros Htodo; cbn [matching].
  - exists []. split; [done|]. intros q. rewrite elem_of_nil. split; [done|]. by intros (? & ?%elem_of_nil & _).
  - destruct (provider_packages_spec providers provider s) as (l & Hl & Hinl); [apply Htodo; by left|].
    destruct IH as (rest & Hrest & Hin); [intros b Hb; apply Htodo; by right|].
    rewrite (bind_step _ _ _ _ _ Hl), (bind_step _ _ _ _ _ Hrest). eexists. split; [reflexivity|].
    intros q. rewrite elem_of_app, Hinl, Hin. setoid_rewrite elem_of_cons. split.
    + intros [?|(b & ? & ?)]; [exists provider; by split; [left|]|exists b; by split; [right|]].
    + intros (b & [->|?] & ?); [by left|right; by exists b].
Qed.

Lemma good_pkg_spec f Q vec s : tests f Q → (∀ q, q ∈ vec → is_Some (packages db !! q)) → ∀ g,
  ∃ r, good_pkg db f g vec s = Ret r s ∧
    ((r = g ∧ ∀ q m, q ∈ vec → packages db !! q = Some m → ¬ Q m) ∨
     ∃ q m, q ∈ vec ∧ r = Some q ∧ packages db !! q = Some m ∧ Q m).
Proof.
  intros Hf Hvec. induction vec as [|p vec IH]; intros g; cbn [good_pkg].
  - exists g. split; [done|]. left. split; [done|]. by intros q m ?%elem_of_nil.
  - destruct (Hvec p) as [m Hm]; [by left|]. rewrite (bind_step _ _ _ _ _ (pkg_at_eq p m s Hm)).
    destruct (Hf p m s Hm) as (ok & Hok & Hiff). rewrite (bind_step _ _ _ _ _ Hok).
    assert (∀ q, q ∈ vec → is_Some (packages db !! q)) as Hvec' by (intros q Hq; apply Hvec; by right).
    destruct ok; [destruct (provided_by_hand m)|].
    + eexists. split; [reflexivity|]. right. exists p, m. split; [by left|]. split; [done|]. split; [done|by apply Hiff].
    + destruct (IH Hvec' (Some p)) as (r & Hr & H). exists r. split; [done|]. right.
      destruct H as [[-> _]|(q & m' & Hq & H)]; [|exists q, m'; by split; [right|]].
      exists p, m. split; [by left|]. split; [done|]. split; [done|by apply Hiff].
    + destruct (IH Hvec' g) as (r & Hr & H). exists r. split; [done|].
      destruct H as [[-> Hno]|(q & m' & Hq & H)]; [left|right; exists q, m'; by split; [right|]].
      split; [done|]. intros q m' [->|Hq]%elem_of_cons Hm'; [|by apply (Hno q)].
      rewrite Hm in Hm'. injection Hm' as <-. intros HQ. by apply Hiff in HQ.
Qed.

Definition among (o : option Z) (vec : list Z) : Prop := ∀ q, o = Some q → q ∈ vec.

Lemma among_cons o p vec : among o vec → among o (p :: vec).
Proof. intros H q Hq. right. by apply H. Qed.

Lemma latest_spec all vec s : (∀ q, q ∈ vec → q ∈ all) → (∀ q, q ∈ all → is_Some (packages db !! q)) → ∀ x y z,
  among x all → among y all → among z all →
  ∃ x' y' z', latest db (x, y, z) vec s = Ret (x', y', z') s ∧ among x' all ∧ among y' all ∧ among z' all.
Proof using Hdb.
  intros Hvec Hall. induction vec as [|p vec IH]; intros x y z Hx Hy Hz; cbn [latest]; [by exists x, y, z|].
  assert (p ∈ all) as Hp by (apply Hvec; by left). destruct (Hall p Hp) as [m Hm].
  rewrite (bind_step _ _ _ _ _ (pkg_at_eq p m s Hm)). destruct (po_parent _ (proj1 Hdb p m Hm)) as (b & Hb & [a Ha]).
  rewrite Hb. run. rewrite (bind_step _ _ _ _ _ (abstract_at_eq b a s Ha)).
  assert (among (Some p) all) as Hsp by (by intros q [= <-]).
  apply IH; [intros q Hq; apply Hvec; by right|done|by case_match|by case_match].
Qed.

(** [fetch_best]: a candidate, and one that passes the test if any does. *)
Lemma fetch_best_spec f Q apkg s : tests f Q → is_Some (abstracts db !! apkg) →
  ∃ r, fetch_best apkg f s = Ret r s ∧ (∀ q, r = Some q → candidate apkg q) ∧
    (∀ q m, candidate apkg q → packages db !! q = Some m → Q m → ∃ q' m', r = Some q' ∧ packages db !! q' = Some m' ∧ Q m').
Proof using Hdb Hsort.
  intros Hf [a Ha]. unfold fetch_best_installation_candidate. rewrite (bind_step _ _ _ _ _ (abstract_at_eq _ _ s Ha)).
  assert (∀ q, candidate apkg q ↔ ∃ providers provider, provided_by a = Some providers ∧ provider ∈ providers ∧
    package_of providers provider q) as Hcand.
  { intros q. split; [|intros (ps & pr & H); by exists a, ps, pr]. intros (a' & ps & pr & Ha' & H).
    rewrite Ha in Ha'. injection Ha' as <-. by exists ps, pr. }
  assert (∀ ps, provided_by a = Some ps → (∀ q, candidate apkg q ↔ ∃ pr, pr ∈ ps ∧ package_of ps pr q)) as Hcand'.
  { intros ps Eps q. rewrite Hcand, Eps. split; [intros (? & pr & [= <-] & ?); by exists pr|]. intros (pr & ? & ?). by exists ps, pr. }
  destruct (provided_by a) as [providers|] eqn:Eps; cycle 1.
  { exists None. split; [done|]. split; [done|]. intros q m (? & ? & ? & _)%Hcand. done. }
  specialize (Hcand' providers eq_refl). destruct providers as [|pr0 prs].
  { exists None. split; [done|]. split; [done|]. intros q m (? & ?%elem_of_nil & _)%Hcand'. done. }
  set (ps := pr0 :: prs) in *. destruct (matching_spec ps ps s) as (l & Hl & Hin).
  { intros b Hb. by eapply (ao_provided _ (proj2 Hdb _ _ Ha)). }
  rewrite (bind_step _ _ _ _ _ Hl). set (v1 := if (1 <? length l)%nat then _ else l).
  set (v2 := if (1 <? length v1)%nat then _ else v1).
  assert (∀ q, q ∈ v2 ↔ candidate apkg q) as Hv2.
  { intros q. rewrite Hcand', <- Hin. assert (v2 ≡ₚ l) as ->; [|done]. transitivity v1; [unfold v2|unfold v1]; case_match; try done; apply Hsort. }
  assert (∀ q, q ∈ v2 → is_Some (packages db !! q)) as Hpk.
  { intros q (pr & _ & (? & ? & ? & ? & m & ? & ? & ? & ? & ? & Hm & _))%Hv2%Hcand'. by exists m. }
  destruct (good_pkg_spec f Q v2 s Hf Hpk None) as (r & Hr & Hgood). rewrite (bind_step _ _ _ _ _ Hr).
  destruct (latest_spec v2 v2 s (λ q H, H) Hpk None None None) as (x & y & z & Hlat & Hx & Hy & Hz); [done..|].
  rewrite (bind_step _ _ _ _ _ Hlat). destruct r as [q|].
  - eexists. split; [reflexivity|]. destruct Hgood as [[? _]|(q' & m & Hq & [= <-] & Hm & HQ)]; [done|]. split.
    + intros q' [= <-]. by apply Hv2.
    + intros _ _ _ _ _. by exists q, m.
  - destruct Hgood as [[_ Hno]|(? & ? & _ & ? & _)]; [|done].
    assert (∀ o, among o v2 → (∀ q, o = Some q → candidate apkg q) ∧ (∀ q m, candidate apkg q → packages db !! q = Some m → Q m →
      ∃ q' m', o = Some q' ∧ packages db !! q' = Some m' ∧ Q m')) as Hrest.
    { intros o Ho. split; [intros q Hq; by apply Hv2, Ho|]. intros q m Hq Hm HQ. exfalso. apply (Hno q m); [by apply Hv2|done|done]. }
    destruct z as [q|]; [eexists; split; [reflexivity|by apply Hrest]|].
    destruct y as [q|]; [eexists; split; [reflexivity|by apply Hrest]|].
    eexists. split; [reflexivity|]. apply Hrest. by case_match.
Qed.

(** *** What satisfies a dependency *)

Definition passes (f : pkg → M (gset Z) bool) (Q : pkg → Prop) (apkg : Z) (r : option Z) : Prop :=
  match r with
  | Some q => candidate apkg q ∧ ∃ m, packages db !! q = Some m ∧ Q m
  | None => ∀ q m, candidate apkg q → packages db !! q = Some m → ¬ Q m
  end.

Lemma checked_candidate_spec f Q d s : tests f Q → depend_ok d →
  ∃ r, checked_candidate db qsort f d s = Ret r s ∧ passes f Q (d_pkg d) r.
Proof using Hdb Hsort.
  intros Hf [Hd _]. destruct (fetch_best_spec f Q (d_pkg d) s Hf Hd) as (r & Hr & Hcand & Hall).
  unfold checked_candidate. rewrite (bind_step _ _ _ _ _ Hr). destruct r as [q|].
  - pose proof (Hcand q eq_refl) as Hq. assert (is_Some (packages db !! q)) as [m Hm].
    { destruct Hq as (? & ? & ? & _ & _ & _ & (? & ? & ? & ? & m & _ & _ & _ & _ & _ & Hm & _)). by exists m. }
    rewrite (bind_step _ _ _ _ _ (pkg_at_eq q m s Hm)). destruct (Hf q m s Hm) as (ok & Hok & Hiff).
    rewrite (bind_step _ _ _ _ _ Hok). eexists. split; [reflexivity|]. destruct ok; cbn.
    + split; [done|]. exists m. split; [done|by apply Hiff].
    + intros q' m' Hq' Hm' HQ. destruct (Hall q' m' Hq' Hm' HQ) as (q2 & m2 & [= <-] & Hm2 & HQ2).
      rewrite Hm in Hm2. injection Hm2 as <-. by apply Hiff in HQ2.
  - eexists. split; [reflexivity|]. intros q m Hq Hm HQ. by destruct (Hall q m Hq Hm HQ) as (? & ? & ? & _).
Qed.

(** A package that a dependency can be satisfied by. *)
Definition satisfier (cd : compound_depend) (q : Z) (m : pkg) : Prop :=
  ∃ d, d ∈ possibilities cd ∧ candidate (d_pkg d) q ∧ packages db !! q = Some m ∧ satisfies d m.

Lemma find_installed_spec cd ds s : (∀ d, d ∈ ds → d ∈ possibilities cd ∧ depend_ok d) →
  ∃ ok : bool, find_installed db qsort ds s = Ret ok s ∧
    (ok = true → ∃ q m, satisfier cd q m ∧ installed (state_status m) = true).
Proof using Hdb Hsort.
  induction ds as [|d ds IH]; intros Hds; cbn [find_installed]; [by exists false|].
  destruct (Hds d) as [Hin Hd]; [by left|].
  destruct (checked_candidate_spec _ _ d s (installed_tests d Hd) Hd) as (r & Hr & H). rewrite (bind_step _ _ _ _ _ Hr).
  destruct r as [q|].
  - exists true. split; [done|]. intros _. destruct H as (Hq & m & Hm & Hi & Hs). exists q, m. split; [by exists d|done].
  - apply IH. intros d' Hd'. apply Hds. by right.
Qed.

Lemma find_candidate_spec cd t ds s : (∀ d, d ∈ ds → d ∈ possibilities cd ∧ depend_ok d) →
  ∃ r, find_candidate db qsort t ds s = Ret r s ∧
    match r with
    | Some q => ∃ m, satisfier cd q m
    | None => optional t = false → ∀ d q m, d ∈ ds → candidate (d_pkg d) q → packages db !! q = Some m → ¬ satisfies d m
    end.
Proof using Hdb Hsort.
  induction ds as [|d ds IH]; intros Hds; cbn [find_candidate].
  { exists None. split; [done|]. by intros _ d q m ?%elem_of_nil. }
  destruct (Hds d) as [Hin Hd]; [by left|].
  destruct IH as (r' & Hr' & H'); [intros d' Hd'; apply Hds; by right|].
  destruct (checked_candidate_spec _ _ d s (constraint_tests d Hd) Hd) as (r & Hr & H). rewrite (bind_step _ _ _ _ _ Hr).
  destruct r as [q|].
  - destruct H as (Hq & m & Hm & Hs). rewrite (bind_step _ _ _ _ _ (pkg_at_eq q m s Hm)).
    destruct (optional t) eqn:Et; cbn [andb]; [destruct (unwanted (state_want m))|].
    + exists r'. split; [done|]. by destruct r'.
    + exists (Some q). split; [done|]. exists m. by exists d.
    + exists (Some q). split; [done|]. exists m. by exists d.
  - exists r'. split; [done|]. destruct r' as [q|]; [done|]. intros Et d' q m [->|Hd']%elem_of_cons; [apply H|by apply H'].
Qed.

Definition same (m m' : pkg) : Prop := same_pkg m m' tt = Ret true tt.

Lemma same_returns m m' : pkg_ok m → pkg_ok m' → ∃ ok : bool, same_pkg m m' tt = Ret ok tt.
Proof.
  intros [Hm _ _ _] [Hm' _ _ _]. unfold same_pkg. case_match; [by exists false|].
  destruct (compare_versions_spec _ _ Hm Hm') as (r & Hr & _). rewrite (bind_step _ _ _ _ _ Hr).
  case_match; eexists; reflexivity.
Qed.

Lemma is_pkg_in_pkg_vec_spec vec m s : pkg_ok m → (∀ q, q ∈ vec → is_Some (packages db !! q)) →
  ∃ ok : bool, is_pkg_in_pkg_vec db vec m s = Ret ok s ∧
    (ok = true ↔ ∃ q m', q ∈ vec ∧ packages db !! q = Some m' ∧ same m m').
Proof using Hdb.
  intros Hm Hvec. induction vec as [|q vec IH]; cbn [is_pkg_in_pkg_vec].
  { exists false. split; [done|]. split; [done|]. by intros (? & ? & ?%elem_of_nil & _). }
  destruct (Hvec q) as [m' Hm']; [by left|]. rewrite (bind_step _ _ _ _ _ (pkg_at_eq q m' s Hm')).
  destruct (same_returns m m' Hm (proj1 Hdb q m' Hm')) as (ok & Hok). rewrite (bind_step _ _ _ _ _ (pure_eq _ _ s Hok)).
  destruct ok; [exists true; split; [done|]; split; [|done]; intros _; exists q, m'; split; [by left|done]|].
  destruct IH as (ok & Hok' & H); [intros q' Hq'; apply Hvec; by right|]. exists ok. split; [done|]. rewrite H.
  split; intros (q' & m2 & Hq' & Hm2 & Hs); exists q', m2; [by split; [right|]|].
  apply elem_of_cons in Hq' as [->|?]; [|done]. rewrite Hm' in Hm2. injection Hm2 as <-. unfold same in Hs. congruence.
Qed.

(** ** The search

    [requirement r U cd]: the dependency is satisfied by a package that is installed, or by
    [r] itself, or by one of [U]. *)
Definition requirement (r : Z) (U : list Z) (cd : compound_depend) : Prop :=
  ∃ q m, satisfier cd q m ∧
    (installed (state_status m) = true ∨ q = r ∨ ∃ u mu, u ∈ U ∧ packages db !! u = Some mu ∧ same m mu).

Definition hard (cd : compound_depend) : Prop := c_type cd ≠ GREEDY_DEPEND ∧ optional (c_type cd) = false.

(** Nothing satisfies the dependency. *)
Definition unmet (cd : compound_depend) : Prop := ∀ q m, ¬ satisfier cd q m.

(** The dependencies of [r] are satisfied with [U], but for those that nothing satisfies;
    their strings are in [lost]. *)
Definition resolved (r : Z) (U : list Z) (lost : list (list Z)) : Prop :=
  ∀ m i cd, packages db !! r = Some m → depends m !! i = Some cd → hard cd →
    requirement r U cd ∨ unmet cd ∧ ∃ str, depend_strs m !! i = Some str ∧ str ∈ lost.

(** There is a reason for each package of [U] and each string of [lost]: a dependency of one of
    the packages [R]. *)
Definition needed (R : Z → Prop) (u : Z) : Prop :=
  ∃ r m cd, R r ∧ packages db !! r = Some m ∧ cd ∈ depends m ∧ ∃ mu, satisfier cd u mu.
Definition missing (R : Z → Prop) (str : list Z) : Prop :=
  ∃ r m i cd, R r ∧ packages db !! r = Some m ∧ depends m !! i = Some cd ∧ depend_strs m !! i = Some str ∧ hard cd ∧ unmet cd.

Lemma requirement_mono r U U' cd : U ⊆ U' → requirement r U cd → requirement r U' cd.
Proof.
  intros HU (q & m & Hs & H). exists q, m. split; [done|]. destruct H as [?|[?|(u & mu & Hu & H)]]; [by left|by right; left|].
  right; right. exists u, mu. split; [by apply HU|done].
Qed.

Lemma resolved_mono r U U' lost lost' : U ⊆ U' → lost ⊆ lost' → resolved r U lost → resolved r U' lost'.
Proof.
  intros HU Hl H m i cd Hm Hcd Hh. destruct (H m i cd Hm Hcd Hh) as [?|(Hu & str & ? & ?)]; [left; by eapply requirement_mono|right].
  split; [done|]. exists str. split; [done|by apply Hl].
Qed.

Lemma needed_mono (R R' : Z → Prop) u : (∀ r, R r → R' r) → needed R u → needed R' u.
Proof. intros HR (r & m & cd & Hr & H). exists r, m, cd. split; [by apply HR|done]. Qed.

Lemma missing_mono (R R' : Z → Prop) str : (∀ r, R r → R' r) → missing R str → missing R' str.
Proof. intros HR (r & m & i & cd & Hr & H). exists r, m, i, cd. split; [by apply HR|done]. Qed.

(** *** One call

    Packages without greedy dependencies, and one of each abstract package at most. *)
Definition simple : Prop :=
  (∀ p m cd, packages db !! p = Some m → cd ∈ depends m → c_type cd ≠ GREEDY_DEPEND) ∧
  (∀ p q m m', packages db !! p = Some m → packages db !! q = Some m' → parent m = parent m' → p = q).

Context (Hsimple : simple).

Definition marked (Mk : gset Z) (p : Z) : Prop := ∃ m a, packages db !! p = Some m ∧ parent m = Some a ∧ a ∈ Mk.

(** The packages that are marked in between. *)
Definition visited (Mk Mk' : gset Z) (r : Z) : Prop := ∃ m a, packages db !! r = Some m ∧ parent m = Some a ∧ a ∈ Mk' ∧ a ∉ Mk.

Record extends (p : Z) (Mk Mk' : gset Z) (U U' : list Z) (lost : list (list Z)) : Prop := {
  ex_marks : Mk ⊆ Mk';
  ex_visited : ∀ r, visited Mk Mk' r → r = p ∨ r ∈ U';
  ex_nodup : NoDup U → NoDup U';
  ex_vec : ∃ N, U' = U ++ N ∧ ∀ u, u ∈ N → marked Mk' u ∧ needed (visited Mk Mk') u;
  ex_resolved : ∀ r, visited Mk Mk' r → resolved r U' lost;
  ex_missing : ∀ str, str ∈ lost → missing (visited Mk Mk') str;
}.

Definition known (U : list Z) : Prop := ∀ u, u ∈ U → is_Some (packages db !! u).

Definition call_ok (n : nat) (fetch : Z → list Z → M (gset Z) result) : Prop :=
  ∀ p U Mk, is_Some (packages db !! p) → known U → (size (dom (abstracts db) ∖ Mk) < n)%nat →
    ∃ c U' lost Mk', fetch p U Mk = Ret (c, U', lost) Mk' ∧ extends p Mk Mk' U U' lost ∧ marked Mk' p.

Lemma marked_mono Mk Mk' u : Mk ⊆ Mk' → marked Mk u → marked Mk' u.
Proof. intros H (m & a & Hm & Ha & ?). exists m, a. split_and!; [done..|by apply H]. Qed.

Lemma visited_mono Mk0 Mk Mk' r : Mk ⊆ Mk' → visited Mk0 Mk r → visited Mk0 Mk' r.
Proof. intros H (m & a & Hm & Ha & ? & ?). exists m, a. split_and!; [done..|by apply H|done]. Qed.

Lemma visited_later Mk0 Mk Mk' r : Mk0 ⊆ Mk → visited Mk Mk' r → visited Mk0 Mk' r.
Proof. intros H (m & a & Hm & Ha & ? & Hn). exists m, a. split_and!; [done..|]. intros ?. by apply Hn, H. Qed.

Lemma visited_cases Mk0 Mk Mk' r : visited Mk0 Mk' r → visited Mk0 Mk r ∨ visited Mk Mk' r.
Proof.
  intros (m & a & Hm & Ha & ? & ?). destruct (decide (a ∈ Mk)); [left|right]; by exists m, a.
Qed.

Lemma same_refl m : pkg_ok m → same m m.
Proof.
  intros [Hm _ _ _]. unfold same, same_pkg. rewrite (proj2 (strcmp_eq _ _) eq_refl). cbn [negb Z.eqb].
  destruct (compare_versions_spec _ _ Hm Hm) as (r & Hr & Hs). pose proof (version_order_opp (p_version m) (p_version m)).
  assert (r = 0) as -> by lia. rewrite (bind_step _ _ _ _ _ Hr). cbn. by rewrite (proj2 (strcmp_eq _ _) eq_refl).
Qed.

(** *** The loop over the dependencies

    [p] was marked; its first [k] dependencies have been dealt with. *)
Section loop.
Context (p : Z) (m : pkg) (a : Z) (Mk0 : gset Z) (U0 : list Z).
Context (Hp : packages db !! p = Some m) (Ha : parent m = Some a) (Hnew : a ∉ Mk0).

Record progress (k : nat) (Mk : gset Z) (U : list Z) (lost : list (list Z)) : Prop := {
  pg_marks : Mk0 ⊆ Mk;
  pg_self : a ∈ Mk;
  pg_visited : ∀ r, visited Mk0 Mk r → r = p ∨ r ∈ U;
  pg_nodup : NoDup U0 → NoDup U;
  pg_vec : ∃ N, U = U0 ++ N ∧ ∀ u, u ∈ N → marked Mk u ∧ needed (visited Mk0 Mk) u;
  pg_others : ∀ r, visited Mk0 Mk r → r ≠ p → resolved r U lost;
  pg_before : ∀ i cd, (i < k)%nat → depends m !! i = Some cd → hard cd →
    requirement p U cd ∨ unmet cd ∧ ∃ str, depend_strs m !! i = Some str ∧ str ∈ lost;
  pg_missing : ∀ str, str ∈ lost → missing (visited Mk0 Mk) str;
}.

Lemma self_visited k Mk U lost : progress k Mk U lost → visited Mk0 Mk p.
Proof using Ha Hp Hnew. intros H. exists m, a. split_and!; [done..|apply (pg_self _ _ _ _ H)|done]. Qed.

(** The next dependency is satisfied, or need not be. *)
Lemma progress_next k Mk U lost cd : progress k Mk U lost → depends m !! k = Some cd →
  (hard cd → requirement p U cd) → progress (S k) Mk U lost.
Proof.
  intros Hpg Hcd Hreq. destruct Hpg as [H1 H2 Hv Hd H3 H4 H5 H6]. split; try done. intros i cd' Hi Hcd' Hh.
  destruct (decide (i = k)) as [->|]; [|by apply H5; [lia|..]]. rewrite Hcd in Hcd'. injection Hcd' as <-. left. by apply Hreq.
Qed.

Lemma progress_lost k Mk U lost cd str : progress k Mk U lost → depends m !! k = Some cd → depend_strs m !! k = Some str →
  hard cd → unmet cd → progress (S k) Mk U (lost ++ [str]).
Proof using Ha Hp Hnew.
  intros Hpg Hcd Hstr Hh Hu. pose proof (self_visited _ _ _ _ Hpg) as Hself. destruct Hpg as [H1 H2 Hv Hd H3 H4 H5 H6]. split; try done.
  - intros r Hr Hne. refine (resolved_mono r _ _ _ _ (λ x H, H) _ (H4 r Hr Hne)). intros x Hx. apply elem_of_app. by left.
  - intros i cd' Hi Hcd' Hh'. destruct (decide (i = k)) as [->|].
    + rewrite Hcd in Hcd'. injection Hcd' as <-. right. split; [done|]. exists str. split; [done|]. apply elem_of_app. right. by left.
    + destruct (H5 i cd') as [?|(? & str' & ? & ?)]; [lia|done|done|by left|right]. split; [done|]. exists str'. split; [done|].
      apply elem_of_app. by left.
  - intros x [Hx|Hx%list_elem_of_singleton]%elem_of_app; [by apply H6|]. subst x. by exists p, m, k, cd.
Qed.

(** A candidate is added, and what it depends on. *)
Lemma progress_call k Mk U lost cd q mq U' newstuff Mk' : progress k Mk U lost → depends m !! k = Some cd →
  satisfier cd q mq → q ∉ U → extends q Mk Mk' (U ++ [q]) U' newstuff → marked Mk' q → progress (S k) Mk' U' (lost ++ newstuff).
Proof using Ha Hp Hnew Hdb.
  intros Hpg Hcd Hsat Hnq [E1 Ev End (N' & -> & E2) E3 E4] Hq. pose proof (self_visited _ _ _ _ Hpg) as Hself.
  destruct Hpg as [H1 H2 Hv Hd (N & -> & H3) H4 H5 H6].
  assert (∀ r, visited Mk0 Mk r → visited Mk0 Mk' r) as Hv1 by (intros r; by apply visited_mono).
  assert (∀ r, visited Mk Mk' r → visited Mk0 Mk' r) as Hv2 by (intros r; by apply visited_later).
  assert (U0 ++ N ⊆ ((U0 ++ N) ++ [q]) ++ N') as HU by (intros x Hx; apply elem_of_app; left; apply elem_of_app; by left).
  assert (lost ⊆ lost ++ newstuff ∧ newstuff ⊆ lost ++ newstuff) as [Hl1 Hl2] by (split; intros x Hx; rewrite elem_of_app; tauto).
  assert (is_Some (packages db !! q) ∧ packages db !! q = Some mq) as [_ Hmq].
  { destruct Hsat as (d & _ & _ & Hmq & _). by split; [exists mq|]. }
  split.
  - by etransitivity.
  - by apply E1.
  - intros r Hr. destruct (visited_cases _ Mk _ _ Hr) as [Hr'|Hr'].
    + destruct (Hv r Hr') as [?|?]; [by left|right]. by apply HU.
    + right. destruct (Ev r Hr') as [->|?]; [|done]. rewrite !elem_of_app. left; right. by left.
  - intros HU0. apply End, NoDup_app. split; [by apply Hd|]. split; [|apply NoDup_singleton].
    intros x Hx ->%list_elem_of_singleton. done.
  - exists (N ++ q :: N'). split; [by rewrite <- !app_assoc|]. intros u [Hu|[->|Hu]%elem_of_cons]%elem_of_app.
    + destruct (H3 u Hu) as [? Hn]. split; [by eapply marked_mono|exact (needed_mono _ _ u Hv1 Hn)].
    + split; [done|]. exists p, m, cd. split; [by apply Hv1|]. split; [done|]. split; [by apply list_elem_of_lookup; exists k|by exists mq].
    + destruct (E2 u Hu) as [? Hn]. split; [done|exact (needed_mono _ _ u Hv2 Hn)].
  - intros r Hr Hne. destruct (visited_cases _ Mk _ _ Hr) as [Hr'|Hr'].
    + eapply resolved_mono; [exact HU|exact Hl1|by apply H4].
    + exact (resolved_mono r _ _ _ _ (λ x H, H) Hl2 (E3 r Hr')).
  - intros i cd' Hi Hcd' Hh. destruct (decide (i = k)) as [->|].
    + rewrite Hcd in Hcd'. injection Hcd' as <-. left. exists q, mq. split; [done|]. right; right. exists q, mq. split.
      * rewrite !elem_of_app. left; right. by left.
      * split; [done|]. apply same_refl. by eapply (proj1 Hdb).
    + destruct (H5 i cd') as [?|(? & str' & ? & ?)]; [lia|done|done|left; by eapply requirement_mono|right].
      split; [done|]. exists str'. split; [done|by apply Hl1].
  - intros x [Hx|Hx]%elem_of_app; [exact (missing_mono _ _ x Hv1 (H6 x Hx))|exact (missing_mono _ _ x Hv2 (E4 x Hx))].
Qed.

Lemma extends_known q Mk Mk' U U' lost : extends q Mk Mk' U U' lost → known U → known U'.
Proof.
  intros [_ _ _ (N & -> & H) _ _] HU u [Hu|Hu]%elem_of_app; [by apply HU|].
  destruct (H u Hu) as [(mu & _ & Hmu & _) _]. by exists mu.
Qed.

Lemma one_dependency_spec fetch n k Mk U lost cd str : call_ok n fetch → (size (dom (abstracts db) ∖ Mk) < n)%nat →
  progress k Mk U lost → known U → depends m !! k = Some cd → depend_strs m !! k = Some str →
  ∃ U' lost' Mk', one_dependency db qsort fetch p (Some str) cd U lost Mk = Ret (U', lost') Mk' ∧
    progress (S k) Mk' U' lost' ∧ known U' ∧ Mk ⊆ Mk'.
Proof using Ha Hp Hnew Hdb Hsort Hsimple.
  intros Hcall Hn Hpg HU Hcd Hstr. pose proof (list_elem_of_lookup_2 _ _ _ Hcd) as Hin.
  pose proof (proj1 Hsimple p m cd Hp Hin) as Hgreedy. destruct (po_depends _ (proj1 Hdb p m Hp) cd Hin) as [Hne Hds].
  unfold one_dependency. rewrite bool_decide_false by done.
  assert (∀ d, d ∈ possibilities cd → d ∈ possibilities cd ∧ depend_ok d) as Hposs by (intros d Hd; split; [done|by apply Hds]).
  assert ((hard cd → requirement p U cd) → ∃ U' lost' Mk', (mret (U, lost) : M (gset Z) _) Mk = Ret (U', lost') Mk' ∧
    progress (S k) Mk' U' lost' ∧ known U' ∧ Mk ⊆ Mk') as Hstay.
  { intros Hreq. exists U, lost, Mk. split; [done|]. split; [by eapply progress_next|done]. }
  assert (optional (c_type cd) = true → hard cd → requirement p U cd) as Hopt by (intros Ho [_ Hh]; congruence).
  destruct (find_installed_spec cd (possibilities cd) Mk Hposs) as (found & Hfound & Hinst). rewrite (bind_step _ _ _ _ _ Hfound).
  destruct found.
  { apply Hstay. intros _. destruct (Hinst eq_refl) as (q & mq & Hs & Hi). exists q, mq. split; [done|by left]. }
  destruct (find_candidate_spec cd (c_type cd) (possibilities cd) Mk Hposs) as (r & Hr & Hsat). rewrite (bind_step _ _ _ _ _ Hr).
  destruct r as [q|]; last first.
  - destruct (optional (c_type cd)) eqn:Eo.
    + destruct (possibilities cd) as [|d ds] eqn:Eds; [done|]. cbn [head]. run. destruct (Hds d) as [[ad Had] _]; [by left|].
      rewrite (bind_step _ _ _ _ _ (abstract_at_eq _ _ Mk Had)). by apply Hstay, Hopt.
    + run. exists U, (lost ++ [str]), Mk. split; [done|]. split; [|done]. eapply progress_lost; [done..|].
      intros q mq (d & Hd & Hc & Hmq & Hs). by apply (Hsat eq_refl d q mq).
  - destruct Hsat as [mq Hsat]. pose proof Hsat as (d & _ & _ & Hmq & _).
    rewrite (bind_step _ _ _ _ _ (pkg_at_eq q mq Mk Hmq)). case_bool_decide as Es.
    { apply Hstay, Hopt. by rewrite Es. }
    destruct (Z.eqb_spec q p) as [->|Hqp].
    { apply Hstay. intros _. exists p, mq. split; [done|]. by right; left. }
    destruct (is_pkg_in_pkg_vec_spec U mq Mk (proj1 Hdb q mq Hmq) HU) as (ok & Hok & Hknown). rewrite (bind_step _ _ _ _ _ Hok).
    destruct ok.
    { apply Hstay. intros _. exists q, mq. split; [done|]. right; right. by apply Hknown. }
    assert (q ∉ U) as HqU.
    { intros Hq. assert (false = true) as ?; [|done]. apply Hknown. exists q, mq. split; [done|]. split; [done|].
      by apply same_refl, (proj1 Hdb q). }
    assert (known (U ++ [q])) as HUq by (intros u [Hu|Hu%list_elem_of_singleton]%elem_of_app; [by apply HU|subst u; by exists mq]).
    destruct (Hcall q (U ++ [q]) Mk (mk_is_Some _ _ Hmq) HUq Hn) as (c & U' & newstuff & Mk' & Hrun & Hext & Hq).
    rewrite (bind_step _ _ _ _ _ Hrun). exists U', (lost ++ newstuff), Mk'. split; [done|].
    split; [by eapply progress_call|]. split; [by eapply extends_known|]. apply (ex_marks _ _ _ _ _ _ Hext).
Qed.

Lemma each_dependency_spec fetch n : call_ok n fetch → ∀ cds strs k Mk U lost, (size (dom (abstracts db) ∖ Mk) < n)%nat →
  progress k Mk U lost → known U → drop k (depends m) = cds → drop k (depend_strs m) = strs →
  ∃ U' lost' Mk', each_dependency db qsort fetch p strs cds U lost Mk = Ret (U', lost') Mk' ∧
    progress (length (depends m)) Mk' U' lost'.
Proof using Ha Hp Hnew Hdb Hsort Hsimple.
  intros Hcall cds. induction cds as [|cd cds IH]; intros strs k Mk U lost Hn Hpg HU Ecds Estrs; cbn [each_dependency].
  - exists U, lost, Mk. split; [done|]. destruct Hpg as [H1 H2 Hv Hd H3 H4 H5 H6]. split; try done.
    intros i cd Hi Hcd. apply H5; [|done]. apply (f_equal length) in Ecds. rewrite length_drop in Ecds. cbn in Ecds. lia.
  - assert (depends m !! k = Some cd) as Hcd by (rewrite <- (Nat.add_0_r k), <- lookup_drop, Ecds; done).
    pose proof (po_strs _ (proj1 Hdb p m Hp)) as Hlen. pose proof (lookup_lt_Some _ _ _ Hcd) as Hk.
    destruct strs as [|str strs]; [apply (f_equal length) in Estrs; rewrite length_drop in Estrs; cbn in Estrs; lia|].
    assert (depend_strs m !! k = Some str) as Hstr by (rewrite <- (Nat.add_0_r k), <- lookup_drop, Estrs; done).
    destruct (one_dependency_spec fetch n k Mk U lost cd str Hcall Hn Hpg HU Hcd Hstr) as (U1 & lost1 & Mk1 & Hr & Hpg1 & HU1 & HMk).
    cbn [head tail]. rewrite (bind_step _ _ _ _ _ Hr). apply (IH strs (S k)); [|done|done| |].
    + eapply Nat.le_lt_trans; [|exact Hn]. apply subseteq_size. intros x [Hx1 Hx2]%elem_of_difference. apply elem_of_difference. split; [done|].
      intros ?. by apply Hx2, HMk.
    + rewrite <- Nat.add_1_r, <- drop_drop, Ecds. done.
    + rewrite <- Nat.add_1_r, <- drop_drop, Estrs. done.
Qed.
End loop.

Lemma fetch_call_ok n : call_ok n (fetch_unsatisfied_dependencies db qsort n).
Proof using Hdb Hsort Hsimple.
  induction n as [|n IH]; intros p U Mk [m Hm] HU Hn; [lia|]. cbn [fetch_unsatisfied_dependencies].
  rewrite (bind_step _ _ _ _ _ (pkg_at_eq p m Mk Hm)). destruct (po_parent _ (proj1 Hdb p m Hm)) as (a & Ha & Haa).
  rewrite Ha. run. case_bool_decide as Hin.
  { exists 0, U, [], Mk. split; [done|]. split; [|by exists m, a].
    assert (∀ r, ¬ visited Mk Mk r) as Hno by (by intros r (? & ? & _ & _ & ? & ?)).
    split; [done|by intros r ?%Hno|done|exists []; rewrite app_nil_r; split; [done|by intros ? ?%elem_of_nil]|by intros r ?%Hno|by intros ? ?%elem_of_nil]. }
  run. set (Mk1 := {[a]} ∪ Mk).
  assert (∀ r, visited Mk Mk1 r → r = p) as Honly.
  { intros r (mr & ar & Hmr & Har & Hin1 & Hnin). assert (ar = a) as ->.
    { apply elem_of_union in Hin1 as [?%elem_of_singleton|?]; done. }
    eapply (proj2 Hsimple r p); [done|done|congruence]. }
  assert (progress p m a Mk U 0 Mk1 U []) as Hpg.
  { split; [set_solver|set_solver|intros r Hr; left; by apply Honly|done|exists []; rewrite app_nil_r; split; [done|by intros ? ?%elem_of_nil]| |lia|by intros ? ?%elem_of_nil].
    intros r Hr Hne. by apply Honly in Hr. }
  assert (∀ Mk' U' lost', progress p m a Mk U (length (depends m)) Mk' U' lost' → extends p Mk Mk' U U' lost' ∧ marked Mk' p) as Hend.
  { intros Mk' U' lost' [H1 H2 Hv Hd H3 H4 H5 H6]. split; [|by exists m, a]. split; [done|done|done|done| |done].
    intros r Hr. destruct (decide (r = p)) as [->|Hne]; [|by apply H4]. intros m' i cd Hm' Hcd Hh.
    rewrite Hm in Hm'. injection Hm' as <-. apply H5; [by eapply lookup_lt_Some|done|done]. }
  destruct (depends m) as [|cd cds] eqn:Ed.
  { exists 0, U, [], Mk1. split; [done|]. by apply Hend. }
  rewrite <- Ed in Hend. assert (size (dom (abstracts db) ∖ Mk1) < n)%nat as Hn1.
  { apply elem_of_dom in Haa. assert (dom (abstracts db) ∖ Mk1 ⊂ dom (abstracts db) ∖ Mk) as Hsub%subset_size by set_solver. lia. }
  destruct (each_dependency_spec p m a Mk U Hm Ha Hin _ n IH (cd :: cds) (depend_strs m) 0 Mk1 U []) as (U' & lost & Mk' & Hr & Hpg');
    [done|done|done|done|done|].
  rewrite (bind_step _ _ _ _ _ Hr). eexists _, U', lost, Mk'. split; [reflexivity|]. by apply Hend.
Qed.

(** [C19] From a database in order with one package for each abstract package and without greedy
    dependencies, and with whatever marks [Mk0] earlier searches have left, the search ends
    within its fuel; no package is listed twice; every firm dependency of the package and of the
    listed ones that was not marked before is met by an installed package or a listed one, or
    nothing can meet it and its string is reported; each listed package meets a dependency of
    one of these, and each string reported is of a dependency of one of them that nothing meets.
    The package and the listed ones are marked afterwards; and of a package that is marked
    already the search finds nothing at all ([second_search]). *)
Theorem unsatisfied_dependencies_exact p Mk0 : is_Some (packages db !! p) →
  ∃ c U lost Mk, pkg_hash_fetch_unsatisfied_dependencies db qsort p [] Mk0 = Ret (c, U, lost) Mk ∧ NoDup U ∧
    let looked_at r := (r = p ∨ r ∈ U) ∧ ¬ marked Mk0 r in
    (∀ r, looked_at r → resolved r U lost) ∧ (∀ u, u ∈ U → needed looked_at u) ∧
    (∀ str, str ∈ lost → missing looked_at str) ∧
    Mk0 ⊆ Mk ∧ (∀ r, r = p ∨ r ∈ U → marked Mk r) ∧ (marked Mk0 p → U = [] ∧ lost = [] ∧ Mk = Mk0).
Proof using Hdb Hsort Hsimple.
  intros Hp. destruct (fetch_call_ok (S (size (dom (abstracts db)))) p [] Mk0 Hp) as (c & U & lost & Mk & Hr & [Hmk Hv Hd (N & EU & HN) Hres Hmiss] & Hself).
  { by intros u ?%elem_of_nil. }
  { apply Nat.lt_succ_r, subseteq_size. set_solver. }
  exists c, U, lost, Mk. split; [exact Hr|]. split; [apply Hd; constructor|]. cbn in EU. subst N.
  assert (∀ u, visited Mk0 Mk u ↔ marked Mk u ∧ ¬ marked Mk0 u) as Hvm.
  { intros u. split.
    - intros (m & a & Hm & Ha & Hin & Hnin). split; [by exists m, a|]. intros (m' & a' & Hm' & Ha' & ?). congruence.
    - intros [(m & a & Hm & Ha & Hin) Hno]. exists m, a. split_and!; [done..|]. intros ?. apply Hno. by exists m, a. }
  assert (∀ r, visited Mk0 Mk r → (r = p ∨ r ∈ U) ∧ ¬ marked Mk0 r) as Hlook by (intros r H; split; [by apply Hv|by apply Hvm]).
  assert (∀ r, r = p ∨ r ∈ U → marked Mk r) as Hall by (intros r [->|Hin]; [done|by apply HN]).
  split; [|split; [|split; [|split; [done|split; [done|]]]]].
  - intros r [Hin Hno]. apply Hres, Hvm. split; [by apply Hall|done].
  - intros u Hu. apply (needed_mono (visited Mk0 Mk)); [done|]. by apply HN.
  - intros str Hs. apply (missing_mono (visited Mk0 Mk)); [done|]. by apply Hmiss.
  - intros (m & a & Hm & Ha & Hin). revert Hr. unfold pkg_hash_fetch_unsatisfied_dependencies. cbn [fetch_unsatisfied_dependencies].
    rewrite (bind_step _ _ _ _ _ (pkg_at_eq p m Mk0 Hm)). rewrite Ha. run. rewrite bool_decide_true by done. by intros [= _ <- <- <-].
Qed.
End specification.

(** ** Examples *)

Module DependsExamples.

(** A sort: insertion. *)
Fixpoint insert_by (cmp : Z → Z → Z) (x : Z) (l : list Z) : list Z :=
  match l with
  | [] => [x]
  | y :: l' => if cmp x y <=? 0 then x :: l else y :: insert_by cmp x l'
  end.
Definition isort (cmp : Z → Z → Z) (l : list Z) : list Z := foldr (insert_by cmp) [] l.

Lemma isort_perm cmp l : isort cmp l ≡ₚ l.
Proof.
  induction l as [|x l IH]; [done|]. transitivity (x :: isort cmp l); [|by rewrite IH].
  change (insert_by cmp x (isort cmp l) ≡ₚ x :: isort cmp l). generalize (isort cmp l). intros k.
  induction k as [|y k IHk]; [reflexivity|]. cbn. case_match; [reflexivity|]. rewrite IHk. apply perm_swap.
Qed.

Definition no_constraint (a : Z) : depend := Depend NONE None a.
Definition one (t : depend_type) (d : depend) : compound_depend := Compound t [d].

(** A package of the abstract package [a], which has the same name. *)
Definition package (name v : string) (st : pkg_state_status) (cds : list compound_depend) (strs : list string) (a : Z) : pkg :=
  Pkg (b name) (Version 0 (Some (b v)) (Some [])) (b "armv4t") 1 SW_UNKNOWN 0 st false cds (b <$> strs) (Some a).
Definition abstract (name : string) (a : Z) (vec : option (list Z)) : abstract_pkg :=
  Abstract (b name) vec SS_NOT_INSTALLED (Some [a]) None.

(** app depends on a lib of at least 1.0 and on libc, which is installed, and lib depends on
    app and on gone, which cannot be had. *)
Definition sample : database := Database
  (list_to_map [
    (1, package "app" "1.0" SS_NOT_INSTALLED
       [one DEPEND (Depend LATER_EQUAL (Some (b "1.0")) 12); one DEPEND (no_constraint 13); one RECOMMEND (no_constraint 14)]
       ["lib (>= 1.0)"; "libc"; "gone"] 11);
    (2, package "lib" "1.2" SS_NOT_INSTALLED [one DEPEND (no_constraint 11); one DEPEND (no_constraint 14)] ["app"; "gone"] 12);
    (3, package "libc" "2.5" SS_INSTALLED [] [] 13)])
  (list_to_map [(11, abstract "app" 11 (Some [1])); (12, abstract "lib" 12 (Some [2])); (13, abstract "libc" 13 (Some [3]));
                (14, abstract "gone" 14 None)]).

Definition search (db : database) (p : Z) (marks : list Z) : option (list Z * list (list Z) * list Z) :=
  match pkg_hash_fetch_unsatisfied_dependencies db isort p [] (list_to_set marks) with
  | Ret (_, U, lost) Mk => Some (U, lost, elements Mk)
  | Stop _ => None
  end.

(** The package itself is in the vector when something it depends on depends on it. *)
Example search_sample : fst <$> search sample 1 [] = Some ([2; 1], [b "gone"]).
Proof. vm_compute. reflexivity. Qed.

Ltac cases H := apply elem_of_list_to_map_2 in H; repeat (apply elem_of_cons in H as [[= -> ->]|H]); [..|by apply elem_of_nil in H].
Ltac members H := cbn in H; repeat (apply elem_of_cons in H as [->|H]); try by apply elem_of_nil in H.

Lemma sample_ok : database_ok sample.
Proof.
  split.
  - intros p m Hm. cases Hm; (split; [by split; apply (bool_decide_unpack _)|eexists; split; [reflexivity|by eexists]|done|]);
      intros cd Hcd; members Hcd; (split; [done|]); intros d Hd; members Hd; (split; [by eexists|]); try done;
      intros _; eexists; split; [reflexivity|by apply (bool_decide_unpack _)].
  - intros q a Ha. cases Ha; split; intros l x El Hx; cbn in El; try done; injection El as <-; members Hx; by eexists.
Qed.

Lemma sample_simple : simple sample.
Proof.
  split.
  - intros p m cd Hm Hcd. cases Hm; members Hcd; done.
  - intros p q m m' Hm Hm' E. cases Hm; cases Hm'; done.
Qed.

Lemma unsatisfied_dependencies_exact_witness :
  ∃ c U lost Mk, pkg_hash_fetch_unsatisfied_dependencies sample isort 1 [] {[13; 14]} = Ret (c, U, lost) Mk ∧
    ∀ r, (r = 1 ∨ r ∈ U) ∧ ¬ marked sample {[13; 14]} r → resolved sample r U lost.
Proof.
  destruct (unsatisfied_dependencies_exact sample isort sample_ok isort_perm sample_simple 1 {[13; 14]}) as (c & U & lost & Mk & H1 & _ & H2 & _).
  - by eexists.
  - exists c, U, lost, Mk. split; [exact H1|exact H2].
Defined.

(** With the marks that a search leaves, the next one finds nothing to do and nothing amiss. *)
Example second_search : fst <$> search sample 1 [11; 12] = Some ([], []).
Proof. vm_compute. reflexivity. Qed.

(** app depends on old and on new, old on lib up to 1.0, new on lib from 2.0 on; lib 2.0 depends
    on gone.  That is not noticed, because lib is marked for lib 1.0. *)
Definition two_versions : database := Database
  (list_to_map [
    (1, package "app" "1.0" SS_NOT_INSTALLED [one DEPEND (no_constraint 12); one DEPEND (no_constraint 13)] ["old"; "new"] 11);
    (2, package "old" "1.0" SS_NOT_INSTALLED [one DEPEND (Depend EARLIER_EQUAL (Some (b "1.0")) 15)] ["lib (<= 1.0)"] 12);
    (3, package "new" "1.0" SS_NOT_INSTALLED [one DEPEND (Depend LATER_EQUAL (Some (b "2.0")) 15)] ["lib (>= 2.0)"] 13);
    (4, package "lib" "1.0" SS_NOT_INSTALLED [] [] 15);
    (5, package "lib" "2.0" SS_NOT_INSTALLED [one DEPEND (no_constraint 14)] ["gone"] 15)])
  (list_to_map [(11, abstract "app" 11 (Some [1])); (12, abstract "old" 12 (Some [2])); (13, abstract "new" 13 (Some [3]));
                (14, abstract "gone" 14 None); (15, abstract "lib" 15 (Some [4; 5]))]).

Example version_not_checked : fst <$> search two_versions 1 [] = Some ([2; 4; 3; 5], []) ∧ fst <$> search two_versions 5 [] = Some ([], [b "gone"]).
Proof. split; vm_compute; reflexivity. Qed.

(** app would like extra, which needs base, and depends on base, which depends on gone.  To look
    whether extra can be had marks base, so that nothing asks any more for gone. *)
Definition greedy_first : database := Database
  (list_to_map [
    (1, package "app" "1.0" SS_NOT_INSTALLED [one GREEDY_DEPEND (no_constraint 12); one DEPEND (no_constraint 13)] ["extra*"; "base"] 11);
    (2, package "extra" "1.0" SS_NOT_INSTALLED [one DEPEND (no_constraint 13)] ["base"] 12);
    (3, package "base" "1.0" SS_NOT_INSTALLED [one DEPEND (no_constraint 14)] ["gone"] 13)])
  (list_to_map [(11, abstract "app" 11 (Some [1])); (12, abstract "extra" 12 (Some [2])); (13, abstract "base" 13 (Some [3]));
                (14, abstract "gone" 14 None)]).

Example greedy_hides : fst <$> search greedy_first 1 [] = Some ([3], []) ∧ fst <$> search greedy_first 3 [] = Some ([], [b "gone"]).
Proof. split; vm_compute; reflexivity. Qed.

End DependsExamples.
