(* ===== verification/OpkgParse.v ===== *)
(** * opkg: reading dependencies (opkg/libopkg/pkg_depends.c)

    The text of a dependency, such as "libc6 (>= 2.5) | uclibc", as a list of possibilities, the
    dependencies of a package in the order of their kinds, and the reverse relation, which
    tells what is in the way of a removal. *)

From stdpp Require Import gmap.
From S2P Require Import Prelude.
From S2P Require Import CString.
From S2P Require Import OpkgVersion.
From S2P Require Import OpkgDepends.

(** ** One dependency

    The abstract package is given by its name. *)
Record possibility : Type := Possibility { ps_name : list Z; ps_constraint : version_constraint; ps_version : option (list Z) }.

Definition BUFFER : nat := 2048.

Fixpoint take_until (stop : Z → bool) (s : list Z) : list Z * list Z :=
  match s with
  | [] => ([], [])
  | c :: s' => if stop c then ([], s) else let '(w, r) := take_until stop s' in (c :: w, r)
  end.

(** A copy into [buffer], which has no bounds check. *)
Definition copy_until (stop : Z → bool) (s : list Z) : V (list Z * list Z) :=
  let '(w, r) := take_until stop s in
  must (length w <? BUFFER)%nat "buffer";;
  mret (w, r).

Fixpoint drop_spaces_back (s : list Z) : list Z :=
  match s with
  | [] => []
  | c :: s' => match drop_spaces_back s' with [] => if isspace c then [] else [c] | t => c :: t end
  end.

(** Without the spaces on both sides. *)
Definition trim_alloc (line : list Z) : list Z := drop_spaces_back (skip_space line).

(** The operator: the longer ones first. *)
Definition read_constraint (src : list Z) : version_constraint * list Z :=
  if strn_eq 2 src (b "<<") then (EARLIER, drop 2 src)
  else if strn_eq 2 src (b "<=") then (EARLIER_EQUAL, drop 2 src)
  else if strn_eq 2 src (b ">=") then (LATER_EQUAL, drop 2 src)
  else if strn_eq 2 src (b ">>") then (LATER, drop 2 src)
  else if strn_eq 1 src (b "=") then (EQUAL, drop 1 src)
  else if strn_eq 1 src (b "<") then (EARLIER_EQUAL, drop 1 src)
  else if strn_eq 1 src (b ">") then (LATER_EQUAL, drop 1 src)
  else (NONE, src).

Definition ends_name (c : Z) : bool := isspace c || (c =? ch "(") || (c =? ch "*") || (c =? ch "|").

Fixpoint skip_separators (src : list Z) : list Z :=
  match src with
  | c :: src' => if isspace c || (c =? ch ")") || (c =? ch "|") then skip_separators src' else src
  | [] => []
  end.

(** What is in parentheses, if anything. *)
Definition read_version (src : list Z) : V (version_constraint * option (list Z) * list Z) :=
  if star src =? ch "(" then
    let '(constraint, src) := read_constraint (tail src) in
    r ← copy_until (λ c, c =? ch ")") (skip_space src);
    let '(v, src) := r in
    mret (constraint, Some (trim_alloc v), src)
  else mret (NONE, None, src).

(** One round: the possibility, whether it is marked as greedy, and what follows. *)
Definition read_possibility (src : list Z) : V (possibility * bool * list Z) :=
  r ← copy_until ends_name src;
  let '(name, src) := r in
  let pkg_name := trim_alloc name in
  r ← read_version (skip_space src);
  let '(constraint, v, src) := r in
  let src := skip_separators src in
  let greedy := star src =? ch "*" in
  mret (Possibility pkg_name constraint v, greedy, if greedy then tail src else src).

Fixpoint read_possibilities (n : nat) (src : list Z) : V (list possibility * bool) :=
  match n with
  | O => mret ([], false)
  | S n' =>
      r ← read_possibility src;
      let '(p, greedy, src) := r in
      rest ← read_possibilities n' src;
      mret (p :: fst rest, greedy || snd rest)
  end.

Definition count_ors (s : list Z) : nat := length (filter (λ c, c = ch "|") s).

Definition parseDepends (depend_str : list Z) : V (depend_type * list possibility) :=
  r ← read_possibilities (S (count_ors depend_str)) depend_str;
  mret (if snd r : bool then GREEDY_DEPEND else DEPEND, fst r).

Example depends_read :
  (λ s, match parseDepends (b s) tt with Ret r _ => Some r | Stop _ => None end) <$>
    ["libc6 (>= 2.5) | uclibc"; "opkg*"; "a (<1)|b"; "( 1.0 )"; "a ||b"]%string =
  [Some (DEPEND, [Possibility (b "libc6") LATER_EQUAL (Some (b "2.5")); Possibility (b "uclibc") NONE None]);
   Some (GREEDY_DEPEND, [Possibility (b "opkg") NONE None]);
   Some (DEPEND, [Possibility (b "a") EARLIER_EQUAL (Some (b "1")); Possibility (b "b") NONE None]);
   Some (DEPEND, [Possibility [] NONE (Some (b "1.0"))]);
   Some (DEPEND, [Possibility (b "a") NONE None; Possibility (b "b") NONE None; Possibility [] NONE None])].
Proof. vm_compute. reflexivity. Qed.

(** ** Reading what was written *)

Definition operator (c : version_constraint) : list Z :=
  match c with
  | NONE => []
  | EARLIER => b "<<"
  | EARLIER_EQUAL => b "<="
  | EQUAL => b "="
  | LATER_EQUAL => b ">="
  | LATER => b ">>"
  end.

Definition render (p : possibility) : list Z :=
  ps_name p ++ (match ps_version p with
                | Some v => b " (" ++ operator (ps_constraint p) ++ b " " ++ v ++ b ")"
                | None => []
                end).

Fixpoint render_all (ps : list possibility) : list Z :=
  match ps with
  | [] => []
  | [p] => render p
  | p :: ps' => render p ++ b " | " ++ render_all ps'
  end.

Definition name_ok (w : list Z) : Prop :=
  (length w < BUFFER)%nat ∧ w ≠ [] ∧ star w ≠ ch ")" ∧ Forall (λ c, ends_name c = false) w.

Definition version_ok (v : list Z) : Prop :=
  (length v < BUFFER)%nat ∧ v ≠ [] ∧ isspace (star v) = false ∧ (∀ c, last v = Some c → isspace c = false) ∧
  Forall (λ c, c ≠ ch ")" ∧ c ≠ ch "|") v.

Definition possibility_ok (p : possibility) : Prop :=
  name_ok (ps_name p) ∧
  match ps_version p with
  | Some v => ps_constraint p ≠ NONE ∧ version_ok v
  | None => ps_constraint p = NONE
  end.

Lemma take_until_app stop w r : Forall (λ c, stop c = false) w → (r = [] ∨ stop (star r) = true) → take_until stop (w ++ r) = (w, r).
Proof.
  intros Hw Hr. induction Hw as [|c w Hc _ IH]; cbn.
  - destruct r as [|c r]; [done|]. destruct Hr as [?|Hc]; [done|]. cbn in *. by rewrite Hc.
  - by rewrite Hc, IH.
Qed.

Lemma copy_until_eq stop w r : Forall (λ c, stop c = false) w → (r = [] ∨ stop (star r) = true) → (length w < BUFFER)%nat →
  copy_until stop (w ++ r) tt = Ret (w, r) tt.
Proof.
  intros Hw Hr Hl. unfold copy_until. rewrite take_until_app by done. apply Nat.ltb_lt in Hl. by rewrite Hl.
Qed.

Lemma drop_spaces_back_id w : (∀ c, last w = Some c → isspace c = false) → drop_spaces_back w = w.
Proof.
  induction w as [|c w IH]; intros Hl; [done|]. cbn. destruct w as [|d w].
  - cbn. by rewrite (Hl c eq_refl).
  - rewrite IH; [done|]. intros x Hx. apply Hl. by rewrite last_cons_cons.
Qed.

Lemma trim_id w : isspace (star w) = false → (∀ c, last w = Some c → isspace c = false) → trim_alloc w = w.
Proof.
  intros Hf Hl. unfold trim_alloc. assert (skip_space w = w) as ->; [|by apply drop_spaces_back_id].
  destruct w as [|c w]; [done|]. cbn in *. by rewrite Hf.
Qed.

Lemma ends_name_space c : ends_name c = false → isspace c = false.
Proof. unfold ends_name. by rewrite !orb_false_iff; intros [[[? _] _] _]. Qed.

Lemma name_trim w : name_ok w → trim_alloc w = w.
Proof.
  intros (_ & Hne & _ & Hw). apply trim_id.
  - destruct Hw as [|c w Hc _]; [done|]. by apply ends_name_space.
  - intros c Hc%last_Some_elem_of. apply ends_name_space. by apply (proj1 (Forall_forall _ _) Hw).
Qed.

Lemma read_operator c r : c ≠ NONE → read_constraint (operator c ++ ch " " :: r) = (c, ch " " :: r).
Proof. by destruct c. Qed.

(** What can follow a possibility: nothing, or what ends a name, but no version. *)
Definition follows (r : list Z) : Prop := (r = [] ∨ ends_name (star r) = true) ∧ star (skip_space r) ≠ ch "(".

Definition after (p : possibility) (r : list Z) : possibility * bool * list Z :=
  let src := skip_separators r in
  (p, star src =? ch "*", if star src =? ch "*" then tail src else src).

Lemma read_version_render c v r : c ≠ NONE → version_ok v →
  read_version (skip_space (b " (" ++ operator c ++ b " " ++ v ++ b ")" ++ r)) tt = Ret (c, Some v, b ")" ++ r) tt.
Proof.
  intros Hc (Hl & Hne & Hf & Hlast & Hs).
  assert (skip_space (v ++ b ")" ++ r) = v ++ b ")" ++ r) as E.
  { destruct v as [|d v]; [done|]. cbn in *. by rewrite Hf. }
  change (read_version (ch "(" :: operator c ++ ch " " :: v ++ b ")" ++ r) tt = Ret (c, Some v, b ")" ++ r) tt).
  unfold read_version. cbn [star tail]. rewrite Z.eqb_refl, read_operator by done.
  change (skip_space (ch " " :: v ++ b ")" ++ r)) with (skip_space (v ++ b ")" ++ r)). rewrite E.
  rewrite (bind_step _ _ _ (v, b ")" ++ r) tt); [by rewrite trim_id|].
  apply copy_until_eq; [|by right|done]. eapply Forall_impl; [exact Hs|]. cbn. intros x [Hx _]. by apply Z.eqb_neq.
Qed.

Lemma skip_separators_space r : skip_separators (skip_space r) = skip_separators r.
Proof. induction r as [|d r IH]; [done|]. cbn. destruct (isspace d) eqn:Ed; [done|]. cbn. by rewrite Ed. Qed.

Lemma read_possibility_render p r : possibility_ok p → follows r → read_possibility (render p ++ r) tt = Ret (after p r) tt.
Proof.
  intros [Hname Hv] [Hr Hparen]. pose proof Hname as (Hl & Hne & Hclose & Hw). destruct p as [n c v].
  unfold render, read_possibility. cbn [ps_name ps_constraint ps_version] in *. destruct v as [v|].
  - destruct Hv as [Hc Hv]. rewrite <- !app_assoc.
    rewrite (bind_step _ _ _ (n, b " (" ++ operator c ++ b " " ++ v ++ b ")" ++ r) tt) by (apply copy_until_eq; [done|by right|done]).
    rewrite name_trim by done. by rewrite (bind_step _ _ _ _ _ (read_version_render c v r Hc Hv)).
  - rewrite app_nil_r. rewrite (bind_step _ _ _ (n, r) tt) by by apply copy_until_eq.
    rewrite name_trim by done. unfold read_version. destruct (Z.eqb_spec (star (skip_space r)) (ch "(")) as [?|_]; [done|].
    rewrite bind_mret, skip_separators_space. by subst c.
Qed.

Lemma count_ors_app s t : count_ors (s ++ t) = (count_ors s + count_ors t)%nat.
Proof. unfold count_ors. by rewrite filter_app, length_app. Qed.

Lemma count_ors_none s : Forall (λ c, c ≠ ch "|") s → count_ors s = 0%nat.
Proof.
  unfold count_ors. induction 1 as [|c s Hc _ IH]; [done|]. by rewrite filter_cons_False.
Qed.

Lemma render_no_or p : possibility_ok p → count_ors (render p) = 0%nat.
Proof.
  intros [(_ & _ & _ & Hw) Hv]. unfold render. rewrite count_ors_app, (count_ors_none (ps_name p)).
  - destruct (ps_version p) as [v|]; [|done]. destruct Hv as [Hc (_ & _ & _ & _ & Hs)]. rewrite !count_ors_app, (count_ors_none v).
    + by destruct (ps_constraint p).
    + eapply Forall_impl; [exact Hs|]. by intros x [_ ?].
  - eapply Forall_impl; [exact Hw|]. intros x Hx ->. by vm_compute in Hx.
Qed.

Lemma render_all_cons p ps : ps ≠ [] → render_all (p :: ps) = render p ++ b " | " ++ render_all ps.
Proof. by destruct ps. Qed.

Lemma count_ors_all ps : ps ≠ [] → Forall possibility_ok ps → S (count_ors (render_all ps)) = length ps.
Proof.
  intros Hne Hps. induction Hps as [|p ps Hp Hps IH]; [done|]. destruct (decide (ps = [])) as [->|Hne'].
  - cbn [render_all length]. by rewrite render_no_or.
  - rewrite render_all_cons, !count_ors_app, render_no_or by done. cbn [length]. rewrite <- IH by done. done.
Qed.

(** A possibility starts with a character that is skipped nowhere and does not mean greedy. *)
Lemma render_start ps r : ps ≠ [] → Forall possibility_ok ps →
  skip_separators (render_all ps ++ r) = render_all ps ++ r ∧ (star (render_all ps ++ r) =? ch "*") = false.
Proof.
  intros Hne Hps. destruct Hps as [|p ps [(_ & Hn & Hclose & Hw) _] _]; [done|].
  assert (∃ t, render_all (p :: ps) ++ r = ps_name p ++ t) as [t ->].
  { destruct ps; cbn; unfold render; rewrite <- !app_assoc; eauto. }
  destruct Hw as [|c w Hc _]; [done|]. cbn in *. unfold ends_name in Hc. rewrite !orb_false_iff in Hc.
  destruct Hc as [[[H1 H2] H3] H4]. apply Z.eqb_neq in Hclose. by rewrite H1, Hclose, H4, H3.
Qed.

Lemma read_possibilities_render ps (greedy : bool) : ps ≠ [] → Forall possibility_ok ps →
  read_possibilities (length ps) (render_all ps ++ if greedy then b "*" else []) tt = Ret (ps, greedy) tt.
Proof.
  intros Hne Hps. induction Hps as [|p ps Hp Hps IH]; [done|]. cbn [length read_possibilities].
  destruct (decide (ps = [])) as [->|Hne'].
  - cbn [render_all]. rewrite (bind_step _ _ _ (p, greedy, []) tt); [by destruct greedy|].
    rewrite read_possibility_render; [by destruct greedy|done|]. split; [destruct greedy; [by right|by left]|by destruct greedy].
  - rewrite render_all_cons, <- !app_assoc by done. set (t := render_all ps ++ _) in *.
    destruct (render_start ps (if greedy then b "*" else []) Hne' Hps) as [E1 E2]. fold t in E1, E2.
    rewrite (bind_step _ _ _ (p, false, t) tt); [by rewrite (bind_step _ _ _ _ _ (IH Hne'))|].
    rewrite read_possibility_render; [|done|by split; [right|]].
    unfold after. change (skip_separators (b " | " ++ t)) with (skip_separators t). by rewrite E1, E2.
Qed.

(** [C22] The text of any possibilities, with names, operators and versions that fit the buffer and
    hold no characters with a meaning, is read as these possibilities, and a star at its end as
    a greedy dependency. *)
Theorem depends_roundtrip ps (greedy : bool) : ps ≠ [] → Forall possibility_ok ps →
  parseDepends (render_all ps ++ if greedy then b "*" else []) tt = Ret (if greedy then GREEDY_DEPEND else DEPEND, ps) tt.
Proof.
  intros Hne Hps. unfold parseDepends.
  assert (S (count_ors (render_all ps ++ if greedy then b "*" else [])) = length ps) as ->.
  { rewrite <- count_ors_all by done. rewrite count_ors_app. by destruct greedy; rewrite Nat.add_0_r. }
  rewrite (bind_step _ _ _ _ _ (read_possibilities_render ps greedy Hne Hps)). done.
Qed.

(** ** The dependencies of a package *)

(** The strings of the fields of a package, by kind. *)
Record fields : Type := Fields {
  pre_depends_str : list (list Z);
  recommends_str : list (list Z);
  suggests_str : list (list Z);
  depends_str : list (list Z);
}.

(** A loop over one kind; the kind that the text says is kept when none is given. *)
Fixpoint build_kind (kind : option depend_type) (strs : list (list Z)) : V (list (depend_type * list possibility)) :=
  match strs with
  | [] => mret []
  | s :: strs' =>
      r ← parseDepends s;
      l ← build_kind kind strs';
      mret ((default (fst r) kind, snd r) :: l)
  end.

Definition buildDepends (f : fields) : V (list (depend_type * list possibility)) :=
  pre ← build_kind (Some PREDEPEND) (pre_depends_str f);
  rec ← build_kind (Some RECOMMEND) (recommends_str f);
  sug ← build_kind (Some SUGGEST) (suggests_str f);
  dep ← build_kind None (depends_str f);
  mret (pre ++ rec ++ sug ++ dep).

Definition count {A} (l : list A) : Z := Z.of_nat (length l).

Definition pkg_depend_str (f : fields) (index : Z) : option (list Z) :=
  if index <? count (pre_depends_str f) then pre_depends_str f !! Z.to_nat index
  else
    let index := index - count (pre_depends_str f) in
    if index <? count (recommends_str f) then recommends_str f !! Z.to_nat index
    else
      let index := index - count (recommends_str f) in
      if index <? count (suggests_str f) then suggests_str f !! Z.to_nat index
      else
        let index := index - count (suggests_str f) in
        if index <? count (depends_str f) then depends_str f !! Z.to_nat index else None.

(** Who depends on whom: for each abstract package the list of what depends on it. *)
Definition dependers : Type := gmap (list Z) (list (list Z)).

Fixpoint add_depender (ab_pkg : list Z) (ps : list possibility) (m : dependers) : dependers :=
  match ps with
  | [] => m
  | p :: ps' => add_depender ab_pkg ps' (<[ps_name p := default [] (m !! ps_name p) ++ [ab_pkg]]> m)
  end.

Definition buildDependedUponBy (f : fields) (depends : list (depend_type * list possibility)) (ab_pkg : list Z) (m : dependers) : dependers :=
  let count := (length (pre_depends_str f) + length (depends_str f))%nat in
  foldl (λ m d, add_depender ab_pkg (snd d) m) m (take count depends).

Lemma build_kind_spec kind strs s l : build_kind kind strs s = Ret l tt →
  Forall2 (λ str d, ∃ t, parseDepends str tt = Ret (t, snd d) tt ∧ fst d = default t kind) strs l.
Proof.
  destruct s. revert l. induction strs as [|str strs IH]; intros l; cbn [build_kind].
  - intros [= <-]. constructor.
  - intros ([t ps] & [] & Hr & (l' & [] & Hl & H)%bind_Ret)%bind_Ret. injection H as <-.
    constructor; [by exists t|by apply IH].
Qed.

(** The string of a dependency by its index is what the dependency was read from. *)
Lemma depend_str_index f l : buildDepends f tt = Ret l tt →
  ∀ i d, l !! i = Some d → ∃ str t, pkg_depend_str f (Z.of_nat i) = Some str ∧ parseDepends str tt = Ret (t, snd d) tt.
Proof.
  intros (pre & [] & H1%build_kind_spec & (rec & [] & H2%build_kind_spec & (sug & [] & H3%build_kind_spec &
    (dep & [] & H4%build_kind_spec & [= <-])%bind_Ret)%bind_Ret)%bind_Ret)%bind_Ret i d Hd.
  assert (∀ kind strs l' j, Forall2 (λ str d, ∃ t, parseDepends str tt = Ret (t, snd d) tt ∧ fst d = default t kind) strs l' →
    l' !! j = Some d → ∃ str t, strs !! j = Some str ∧ parseDepends str tt = Ret (t, snd d) tt) as Hat.
  { intros kind strs l' j HF Hj. destruct (Forall2_lookup_r _ _ _ _ _ HF Hj) as (str & Hs & t & ? & _). by exists str, t. }
  unfold pkg_depend_str, count. pose proof (Forall2_length _ _ _ H1). pose proof (Forall2_length _ _ _ H2).
  pose proof (Forall2_length _ _ _ H3). pose proof (Forall2_length _ _ _ H4).
  apply lookup_app_Some in Hd as [Hd|[Hi1 Hd]].
  { pose proof (lookup_lt_Some _ _ _ Hd). destruct (Z.ltb_spec (Z.of_nat i) (Z.of_nat (length (pre_depends_str f)))); [|lia].
    rewrite Nat2Z.id. by eapply Hat. }
  destruct (Z.ltb_spec (Z.of_nat i) (Z.of_nat (length (pre_depends_str f)))); [lia|].
  apply lookup_app_Some in Hd as [Hd|[Hi2 Hd]].
  { pose proof (lookup_lt_Some _ _ _ Hd). case_match eqn:E; [|apply Z.ltb_ge in E; lia].
    replace (Z.to_nat _) with (i - length pre)%nat by lia. by eapply Hat. }
  case_match eqn:E2; [apply Z.ltb_lt in E2; lia|].
  apply lookup_app_Some in Hd as [Hd|[Hi3 Hd]]; pose proof (lookup_lt_Some _ _ _ Hd).
  { case_match eqn:E; [|apply Z.ltb_ge in E; lia].
    replace (Z.to_nat _) with (i - length pre - length rec)%nat by lia. by eapply Hat. }
  case_match eqn:E3; [apply Z.ltb_lt in E3; lia|]. case_match eqn:E4; [|apply Z.ltb_ge in E4; lia].
  replace (Z.to_nat _) with (i - length pre - length rec - length sug)%nat by lia. by eapply Hat.
Qed.

Module ParseExamples.

Lemma depends_roundtrip_witness :
  parseDepends (render_all [Possibility (b "libc6") LATER_EQUAL (Some (b "2.5")); Possibility (b "uclibc") NONE None] ++ b "*") tt =
    Ret (GREEDY_DEPEND, [Possibility (b "libc6") LATER_EQUAL (Some (b "2.5")); Possibility (b "uclibc") NONE None]) tt.
Proof.
  apply (depends_roundtrip _ true); [done|].
  assert (∀ w, (length w <? BUFFER)%nat = true ∧ w ≠ [] ∧ star w ≠ ch ")" ∧ forallb (λ c, negb (ends_name c)) w = true → name_ok w) as Hname.
  { intros w (Hl%Nat.ltb_lt & Hne & Hs & Hw). split_and!; [done..|]. apply Forall_forall. intros c Hc. rewrite forallb_forall in Hw.
    by apply negb_true_iff, Hw, list_elem_of_In. }
  assert (name_ok (b "libc6") ∧ name_ok (b "uclibc")) as [H1 H2] by (split; apply Hname; by vm_compute).
  constructor; [split; [exact H1|]|constructor; [by split|constructor]].
  split; [done|]. split; [by apply (bool_decide_unpack _)|]. split; [done|]. split; [done|]. split; [by intros c [= <-]|].
  by apply (bool_decide_unpack _).
Defined.

Definition app : fields := Fields [] [b "docs"] [] [b "lib"].

(** Only as many dependencies are looked at as there are in two of the kinds, but from the start
    of the four: the last ones are not recorded, and lib can be removed. *)
Example dependers_lost :
  match buildDepends app tt with
  | Ret l _ => let m := buildDependedUponBy app l (b "app") ∅ in (m !! b "docs", m !! b "lib")
  | Stop _ => (None, None)
  end = (Some [b "app"], None).
Proof. vm_compute. reflexivity. Qed.

(** A name of 2048 characters does not fit the buffer. *)
Example long_name : parseDepends (replicate 2048 (ch "a")) tt = Stop (Undefined "buffer").
Proof. vm_compute. reflexivity. Qed.

End ParseExamples.
